(* ===== verification/_CoqProject ===== *)
-Q . S2P
Prelude.v
Calendar.v
GoTime.v
Bytes.v
Stealth.v
Files.v
Json.v
StateFile.v
Traffic.v
TrafficInv.v
Authorization.v
Netip.v
Window.v
Quota.v
Tracker.v
TrackerInv.v
RuntimeUsers.v
RuntimeUsersInv.v
SshInbound.v
Udpgw.v
Agentlink.v
ControllerLink.v
OperationalConfig.v
CoreRuntime.v
Watchdog.v
AgentAuthorization.v
UsersLane.v
CoreDeploy.v
Activity.v
ActivityDelivery.v
ConnectionAudit.v
AuditDelivery.v
RemoteExec.v
Resources.v
VpngatePool.v
VpngateLane.v
SelfUpdate.v
ReleaseUpdate.v
