(* ===== verification/Prelude.v ===== *)
(** * A verification development of the oboard agent and its kernel

    ** The program

    The agent ([src/internal], [src/cmd/agent]) runs on a server and is managed
    by a remote Controller. It supervises the kernel
    ([src/kernel/oboard-sb]), a proxy that carries the traffic of users. The
    Controller sends leases (who may connect), traffic policies (how much a
    user may transfer in which period) and plans; the agent passes them to the
    kernel over a local API, applies them itself to the SSH inbounds it serves,
    and reports traffic and activity back. State that has to survive a restart
    goes through sealed files that are replaced atomically.

    ** What models what

    Vocabulary:
    - Prelude (this file): int64 and uint64 arithmetic with its wrap-around,
      results of fallible code, record update, the fragment of [strings] that
      is used, tactics, the shared lemmas.
    - Calendar, GoTime, Netip, Bytes: the fragments of Go's [time],
      [net/netip] and [encoding/binary].
    - Json: encoding as the class [Codec] with its law [CodecLaws].

    Files:
    - Stealth: the AES-GCM envelope of [internal/stealth/stealth.go]; the
      cipher is the class [AEAD] with [AEADLaws].
    - Files: [writeAtomic] of [internal/authorization/lease.go] and [Write] of
      [internal/securefile/file.go] on a disk, call by call.
    - StateFile: the bounded [Read] of [internal/securefile/file.go],
      [internal/protectedstate/state.go] and the state files of the runner
      ([internal/agent/agent.go], [runtime_security_storage.go]). Clients use
      the class [StateFiles]; [runner_files] is its instance.

    Authorization, users and connections:
    - Authorization: [Lease] and [Store] of [internal/authorization/lease.go],
      which the kernel carries as well.
    - Window, Quota: the accounting periods, counters and quota verdict of
      [runtimeState] in [kernel/oboard-sb/internal/minibox/ratelimit.go].
    - Tracker, TrackerInv: [RateLimitTracker] ([ratelimit.go],
      [authorization.go], [snell_admission.go]) with its heaps of states, usages
      and connections, on top of Authorization and Quota.
    - RuntimeUsers, RuntimeUsersInv: the user tables of the kernel
      ([minibox/runtime_users.go]), installed whole, as a delta or in chunks.
    - AgentAuthorization: the lane of signed leases ([internal/agent/authorization.go],
      [internal/security/authorization.go], the kernel's handlers), on top of
      Authorization, SshInbound and Tracker.
    - UsersLane: the lane of signed users ([internal/agent/runtime_users.go],
      [internal/security/users.go]), on top of RuntimeUsers and StateFile.

    SSH inbounds of the agent:
    - SshInbound: counters, credentials, sessions and the manager of
      [internal/agent/ssh_inbounds.go] and [ssh_authorization.go].
    - Udpgw: the UDP gateway [ssh_udpgw.go] and the destination filter.

    Accounting and activity:
    - Traffic, TrafficInv: the ledger of [internal/agent/traffic.go], on top of
      StateFile.
    - Activity: the collector of [internal/activity].
    - ActivityDelivery: [internal/agent/account_activity.go] with the kernel's
      side of the local API and the collection policy, on top of Activity and
      the interface [StateFiles].
    - ConnectionAudit, AuditDelivery: audit and presence of single connections
      in the kernel ([minibox/connection_audit.go]) and their reports in the
      agent ([connection_audit.go], [presence.go]).

    The link to the Controller:
    - Agentlink: frames, sessions and requests of [internal/agentlink].
    - ControllerLink: reconnection and the pause after refused callbacks
      ([controller_auth_backoff.go], [reconnect.go], [controller_link.go]).

    Running the kernel:
    - OperationalConfig: the normal form and digest of a configuration.
    - CoreRuntime, Watchdog: which kernel runs, its activation and its recovery
      ([core_runtime.go], [core_watchdog.go]).
    - CoreDeploy: the task that installs a configuration, with its rollback
      ([agent.go], [version_state.go]), on top of the lanes and CoreRuntime.
    - RemoteExec: commands of the Controller and their journal.
    - Resources: memory budget, reclaimer and socket governor of the kernel.

    Exits and updates:
    - VpngatePool: the pool of tunnels ([protocol/vpngatepool/pool.go]) as a
      step relation; VpngateLane: the memberships of the agent
      ([internal/agent/vpngate.go]) and the kernel's handler on top of it.
    - SelfUpdate: download, verification, staging, commit and rollback of a
      signed release ([self_update.go], [release_verify.go],
      [internal/security/release.go]); ReleaseUpdate: the update task over HTTP
      and over the transport, its evidence and the inspection
      ([runtime_security_integrity.go], [agentlink_transport.go]).

    A record of the model has the fields of the Go struct under a prefix, an
    operation has the name of the function, and takes and returns the state it
    changes. What lies outside (the clock, random bytes, temporary names, the
    outcome of each system call, post or dial) is an argument, so that a theorem
    over all arguments is one over all failures. Digests, signatures and
    encodings are functions of a section, with their laws as hypotheses where a
    theorem needs them. Operations that hold a mutex are atomic; sequences of
    operations in any order stand for the goroutines that call them.

    ** What the theorems show

    - Authorization: a key that is admitted is in a valid lease, a denied key
      stays refused, leases are never replaced by older ones, survive a restart,
      and a failed store refuses everyone.
    - Tracker: the indexes list exactly the open connections; denying, reaping
      and applying a lease leave no revoked session open; a routed connection
      was admitted; written bytes are counted.
    - AgentAuthorization, UsersLane, RuntimeUsersInv: a lease or a users table
      that is confirmed to the Controller is in force on the node, whichever
      local call was lost; revisions never go back; chunks install what the
      whole request installs; a failed publication serves no one.
    - Window, Quota: at a fixed offset the periods of a regular policy (reset
      days up to the 28th) partition time; acknowledged bytes never exceed
      counted ones, traffic never lifts a denial, and rollover reaches the
      period of the present.
    - SshInbound: for billable users with an active credential the counters of
      the agent simulate those of the kernel; withdrawn credentials and
      exhausted users lose their sessions. Udpgw: frames round trip, and the
      gateway is bounded, confined to permitted destinations and leaks no socket.
    - StateFile, Files: the destination of a write always holds the old or the
      new content; sealed state opens for its purpose only; storage that was
      enabled is verified.
    - TrafficInv: the ranges the Controller accounts tile the counters of an
      epoch, pruning and saving lose nothing, shared leases are split exactly,
      revisions do not go back while the answers carry one.
    - Activity, ActivityDelivery, ConnectionAudit, AuditDelivery: collectors are
      bounded and exact, a frozen report or an audit report is not lost by
      failures of the calls between collector, file and Controller.
    - Agentlink, ControllerLink: messages arrive as they were written, responses
      reach their request, the read loop never blocks; rejected callbacks pause.
    - CoreRuntime, Watchdog, CoreDeploy: a deployment that fails restores the
      configuration, one that succeeds is served; applied versions do not go
      back; activation is verified; restarts are paced and justified.
    - RemoteExec: a command runs at most once, and no shell hides behind the
      wrappers the code knows. Resources: budgets and ceilings stay in bounds.
    - VpngatePool, VpngateLane: every tunnel is closed or held exactly once,
      traffic stays inside the pool, a new membership cuts no connection, and a
      reconciliation restores the memberships of a restarted kernel.
    - SelfUpdate, ReleaseUpdate: only files of a signed manifest are installed,
      a failed update leaves executables and evidence as they were, broken
      downloads resume, and an inspection after an update passes.

    Places where the code departs from its intent are theorems too, among them
    [month_end_window_misses_now], [period_migration_hides_traffic],
    [overwritten_minute_reported_complete], [stale_lease_withdrawal_is_dead],
    [old_epoch_acceptance_misplaces_checkpoint], [restart_spoils_pending_chunks],
    [delta_install_is_forgotten], [rejected_envelope_drops_pending],
    [closed_link_can_crash_callback], [large_message_breaks_link],
    [rollback_stores_plaintext], [option_value_hides_shell],
    [replay_reports_success], [observation_undoes_pressure],
    [long_connection_close_is_lost], [stale_close_ends_live_presence],
    [idle_push_hides_bindings], [closing_while_connecting_crashes],
    [failed_undo_deletes_executable] and [update_needs_key_and_repo].

    ** Fuel and bounds

    [wait_chunks] behind [waitBytes] of Tracker takes chunks of at most the
    burst and has one unit of fuel per byte, which is enough because each chunk
    has at least one byte ([wait_reserves_within_burst]). [serve] of Udpgw has
    one unit per byte of the stream, and each frame consumes a byte
    ([serve_ends_with_stream]). [strip_all] behind [TrimSpace] has one unit per
    byte of the string. [Run] of Agentlink takes one unit per frame, and the
    theorems hold for every fuel above the number of frames. [send_chunks] of
    AuditDelivery has one unit more than there are events, and each message
    takes at least one. The search of RemoteExec for shells has the depth limit
    of the code. [download_attempts] has the number of attempts of the policy;
    the transfer over the transport recurses over the answers of the session.
    Other recursion is structural. Bounds such as the 256 associations of a
    gateway are the constants of the code.

    ** Not modelled

    - Network transports, TLS, HTTP and WebSocket plumbing, the SSH and OpenVPN
      protocols: their results are arguments or events.
    - Interleavings inside a critical section, and what two goroutines do
      between two locks of one operation.
    - The order in which Go iterates over a map: the model uses one order.
    - Enrolment, heartbeats and the dispatch of tasks, tunnels, forwards,
      probes, the terminal, log and system tuning, the stealth installation:
      they drive the operating system, and hold little state of their own.
    - The protocol adapters of the kernel and its vendored libraries, whose
      behaviour lies in code outside the repository.
    - The application of SSH plans to files and listeners, and the audit
      accumulator of SSH connections: within reach of these methods, not done.

    ** This file

    Machine integers at their width, results of fallible Go code, functional
    record update, the fragment of the Go [strings] package the sources use,
    and the tactics, hints and generic lemmas of the development. *)

From Stdlib Require Export ZArith Lia String Ascii List Bool.
From stdpp Require Export base gmap strings pretty list fin_maps sorting.

Declare Scope agent_scope.
Delimit Scope agent_scope with agent.
#[global] Open Scope Z_scope.

(** ** Fallible code *)

(** A Go call returning [(T, error)]: the value, or the error it reports. *)
Inductive result (E A : Type) : Type :=
| Ok (a : A)
| Err (e : E).
Arguments Ok {E A} a.
Arguments Err {E A} e.

Definition is_Ok {E A} (r : result E A) : bool :=
  match r with Ok _ => true | Err _ => false end.

Definition result_bind {E A B} (r : result E A) (k : A -> result E B) : result E B :=
  match r with Ok a => k a | Err e => Err e end.

Notation "'let?' x ':=' r 'in' k" := (result_bind r (fun x => k))
  (at level 10, x pattern, k at level 200) : agent_scope.
#[global] Open Scope agent_scope.

(** ** Functional record update

    [Eta R] spells a record out as its constructor applied to its fields;
    from it the setter of one field is derived by abstracting that field. *)

Class Eta (R : Type) := eta : R -> R.

Class Setter {R T : Type} (proj : R -> T) := upd : (T -> T) -> R -> R.
Arguments upd {R T} proj {Setter} _ _.

Ltac derive_setter :=
  match goal with
  | |- @Setter ?R ?T ?proj =>
      let f := fresh "f" in
      let r := fresh "r" in
      intros f r;
      let e := eval hnf in (eta r) in
      let e' := eval pattern (proj r) in e in
      match e' with
      | ?body _ => let b := eval cbv beta in (body (f (proj r))) in exact b
      end
  end.

#[export] Hint Extern 1 (Setter _) => derive_setter : typeclass_instances.

Notation "r '<|' p ':=' v '|>'" := (upd p (fun _ => v) r)
  (at level 1, left associativity, p at level 0) : agent_scope.
Notation "r '<|' p '::=' f '|>'" := (upd p f r)
  (at level 1, left associativity, p at level 0) : agent_scope.

(** ** Integers at their width *)

Definition max_int64 : Z := 2 ^ 63 - 1.
Definition min_int64 : Z := - 2 ^ 63.
Definition max_uint64 : Z := 2 ^ 64 - 1.

(** Two's complement wrap-around of a signed 64-bit result. *)
Definition wrap64 (z : Z) : Z := (z + 2 ^ 63) mod 2 ^ 64 - 2 ^ 63.
(** Wrap-around of an unsigned 64-bit result. *)
Definition wrapu64 (z : Z) : Z := z mod 2 ^ 64.

Definition in_int64 (z : Z) : Prop := min_int64 <= z <= max_int64.
Definition in_uint64 (z : Z) : Prop := 0 <= z <= max_uint64.

Definition add64 (a b : Z) : Z := wrap64 (a + b).
Definition sub64 (a b : Z) : Z := wrap64 (a - b).
Definition mul64 (a b : Z) : Z := wrap64 (a * b).

Lemma wrap64_id z : in_int64 z -> wrap64 z = z.
Proof.
  unfold in_int64, wrap64, min_int64, max_int64. intros H.
  rewrite Z.mod_small; lia.
Qed.

Lemma wrap64_range z : in_int64 (wrap64 z).
Proof.
  unfold in_int64, wrap64, min_int64, max_int64.
  pose proof (Z.mod_pos_bound (z + 2 ^ 63) (2 ^ 64) ltac:(lia)). lia.
Qed.

Lemma wrapu64_id z : in_uint64 z -> wrapu64 z = z.
Proof. unfold in_uint64, wrapu64, max_uint64. intros H. apply Z.mod_small. lia. Qed.

Lemma wrapu64_range z : in_uint64 (wrapu64 z).
Proof.
  unfold in_uint64, wrapu64, max_uint64.
  pose proof (Z.mod_pos_bound z (2 ^ 64) ltac:(lia)). lia.
Qed.

Lemma wrap64_idemp z : wrap64 (wrap64 z) = wrap64 z.
Proof. apply wrap64_id, wrap64_range. Qed.

(** [clamp lo hi z]: saturation of [z] into [[lo, hi]]. *)
Definition clamp (lo hi z : Z) : Z := if z <? lo then lo else if hi <? z then hi else z.

Lemma clamp_range lo hi z : lo <= hi -> lo <= clamp lo hi z <= hi.
Proof. unfold clamp. intros. destruct (Z.ltb_spec z lo), (Z.ltb_spec hi z); lia. Qed.

Lemma clamp_id lo hi z : lo <= z <= hi -> clamp lo hi z = z.
Proof. unfold clamp. intros. destruct (Z.ltb_spec z lo), (Z.ltb_spec hi z); lia. Qed.

(** ** Booleans that decide arithmetic and string facts *)

(** [zify_bool] turns every boolean comparison of the context and the goal
    into the arithmetic fact it decides. *)
Ltac zify_bool :=
  repeat match goal with
  | H : (_ <? _) = true |- _ => apply Z.ltb_lt in H
  | H : (_ <? _) = false |- _ => apply Z.ltb_ge in H
  | H : (_ <=? _) = true |- _ => apply Z.leb_le in H
  | H : (_ <=? _) = false |- _ => apply Z.leb_gt in H
  | H : (_ =? _) = true |- _ => apply Z.eqb_eq in H
  | H : (_ =? _) = false |- _ => apply Z.eqb_neq in H
  | H : (_ && _) = true |- _ => apply andb_true_iff in H; destruct H
  | H : (_ || _) = false |- _ => apply orb_false_iff in H; destruct H
  | H : negb _ = true |- _ => apply negb_true_iff in H
  | H : negb _ = false |- _ => apply negb_false_iff in H
  | H : bool_decide _ = true |- _ => apply bool_decide_eq_true in H
  | H : bool_decide _ = false |- _ => apply bool_decide_eq_false in H
  end.

(** [split_ifs] case-splits every [if] of the goal on its condition. *)
Ltac split_if :=
  match goal with
  | |- context [if ?b then _ else _] => destruct b eqn:?
  end.
Ltac split_ifs := repeat split_if.
Ltac split_if_in H :=
  match type of H with
  | context [if ?b then _ else _] => destruct b eqn:?
  end.

(** Close a closed goal by evaluation. *)
Ltac by_compute := vm_compute; repeat split; congruence.

(** [solve_arith]: case analysis on the boolean tests, then [lia]. *)
Ltac solve_arith := split_ifs; zify_bool; try lia; try congruence.

(** ** Hint databases *)

Create HintDb agent.
#[export] Hint Resolve wrap64_range wrapu64_range : agent.

(** ** The fragment of [strings] the sources use

    A Go string is a sequence of bytes: [string], one [ascii] per byte. *)

Definition str_eqb (a b : string) : bool := String.eqb a b.
Notation "a =s b" := (str_eqb a b) (at level 70) : agent_scope.

Lemma str_eqb_eq a b : (a =s b) = true <-> a = b.
Proof. apply String.eqb_eq. Qed.
Lemma str_eqb_neq a b : (a =s b) = false <-> a <> b.
Proof. apply String.eqb_neq. Qed.
Lemma str_eqb_refl a : (a =s a) = true.
Proof. apply String.eqb_refl. Qed.

Definition byte_of (n : nat) : ascii := ascii_of_nat n.

(** Length of a Go string in bytes. *)
Definition str_len (s : string) : Z := Z.of_nat (String.length s).

(** The UTF-8 encodings of the white-space code points of [unicode.IsSpace]. *)
Definition space_runes : list (list ascii) :=
  map (map byte_of)
    ([[9]; [10]; [11]; [12]; [13]; [32];
      [194; 133]; [194; 160];
      [225; 154; 128];
      [226; 128; 128]; [226; 128; 129]; [226; 128; 130]; [226; 128; 131];
      [226; 128; 132]; [226; 128; 133]; [226; 128; 134]; [226; 128; 135];
      [226; 128; 136]; [226; 128; 137]; [226; 128; 138];
      [226; 128; 168]; [226; 128; 169]; [226; 128; 175];
      [226; 129; 159];
      [227; 128; 128]])%nat.

Fixpoint strip_prefix (p l : list ascii) : option (list ascii) :=
  match p, l with
  | [], _ => Some l
  | a :: p', b :: l' => if Ascii.eqb a b then strip_prefix p' l' else None
  | _ :: _, [] => None
  end.

Fixpoint strip_one_of (ps : list (list ascii)) (l : list ascii) : option (list ascii) :=
  match ps with
  | [] => None
  | p :: ps' => match strip_prefix p l with Some r => Some r | None => strip_one_of ps' l end
  end.

(** [fuel] bounds the number of runes stripped; the byte length is enough
    because every rune has at least one byte. *)
Fixpoint strip_all (fuel : nat) (ps : list (list ascii)) (l : list ascii) : list ascii :=
  match fuel with
  | O => l
  | S fuel' => match strip_one_of ps l with Some r => strip_all fuel' ps r | None => l end
  end.

Definition trim_left_bytes (ps : list (list ascii)) (l : list ascii) : list ascii :=
  strip_all (List.length l) ps l.

Definition TrimSpace (s : string) : string :=
  let l := trim_left_bytes space_runes (list_ascii_of_string s) in
  string_of_list_ascii
    (rev (trim_left_bytes (map (@rev ascii) space_runes) (rev l))).

Definition ascii_lower (c : ascii) : ascii :=
  let n := nat_of_ascii c in
  if ((65 <=? n) && (n <=? 90))%nat then ascii_of_nat (n + 32) else c.

(** [strings.ToLower] on the code points whose lower case is ASCII: the
    letters A-Z, U+0130 and U+212A. Other code points are left as they are,
    which no comparison with an ASCII literal can observe. *)
Fixpoint lower_bytes (l : list ascii) : list ascii :=
  match l with
  | a :: ((b :: r) as l') =>
      if Ascii.eqb a (byte_of 196) && Ascii.eqb b (byte_of 176)
      then byte_of 105 :: lower_bytes r
      else
        match r with
        | c :: r' =>
            if Ascii.eqb a (byte_of 226) && Ascii.eqb b (byte_of 132) && Ascii.eqb c (byte_of 170)
            then byte_of 107 :: lower_bytes r'
            else ascii_lower a :: lower_bytes l'
        | [] => ascii_lower a :: lower_bytes l'
        end
  | [a] => [ascii_lower a]
  | [] => []
  end.

Definition ToLower (s : string) : string :=
  string_of_list_ascii (lower_bytes (list_ascii_of_string s)).

(** [strings.HasPrefix]. *)
Definition HasPrefix (s p : string) : bool :=
  match strip_prefix (list_ascii_of_string p) (list_ascii_of_string s) with
  | Some _ => true
  | None => false
  end.

(** [strings.HasSuffix]. *)
Definition HasSuffix (s p : string) : bool :=
  match strip_prefix (rev (list_ascii_of_string p)) (rev (list_ascii_of_string s)) with
  | Some _ => true
  | None => false
  end.

(** [strings.Contains]. *)
Fixpoint bytes_contain (l p : list ascii) : bool :=
  match strip_prefix p l with
  | Some _ => true
  | None => match l with [] => false | _ :: l => bytes_contain l p end
  end.
Definition str_Contains (s p : string) : bool := bytes_contain (list_ascii_of_string s) (list_ascii_of_string p).

#[global] Arguments str_eqb : simpl never.
#[global] Arguments TrimSpace : simpl never.
#[global] Arguments ToLower : simpl never.

Lemma TrimSpace_empty : TrimSpace "" = "".
Proof. reflexivity. Qed.

Lemma string_eq_dec_empty (s : string) : {s = ""%string} + {s <> ""%string}.
Proof. destruct s; [left | right]; congruence. Defined.

(** The integers below a bound, for proofs by enumeration. *)
Definition below (k : nat) : list Z := map Z.of_nat (seq 0 k).

Lemma below_spec k z : 0 <= z < Z.of_nat k -> In z (below k).
Proof.
  intros H. apply in_map_iff. exists (Z.to_nat z). split; [lia |]. apply in_seq. lia.
Qed.

(** [enum z k as Hc]: the disjunction of the values of [z] below [k]. *)
Tactic Notation "enum" ident(z) constr(k) "as" ident(Hc) :=
  pose proof (below_spec k z ltac:(lia)) as Hc;
  let l := eval vm_compute in (below k) in change (In z l) in Hc; cbn [In] in Hc.

Lemma string_length_app (a b : string) :
  String.length (a +:+ b) = (String.length a + String.length b)%nat.
Proof.
  induction a as [| c a IH]; [done |].
  change (S (String.length (a +:+ b)) = S (String.length a + String.length b)). by rewrite IH.
Qed.

(** ** Generic lemmas on maps and lists *)

Section MapLemmas.
Context {K V : Type} `{Countable K}.

Lemma size_insert_le (m : gmap K V) k v : (size (<[k:=v]> m) <= S (size m))%nat.
Proof.
  destruct (m !! k) eqn:E.
  - rewrite map_size_insert_Some by eauto. lia.
  - rewrite map_size_insert_None by done. lia.
Qed.

Lemma size_delete_le (m : gmap K V) k : (size (delete k m) <= size m)%nat.
Proof. rewrite map_size_delete. destruct (m !! k); simpl; lia. Qed.

Lemma size_filter_le (P : K * V -> Prop) `{forall x, Decision (P x)} (m : gmap K V) :
  (size (filter P m) <= size m)%nat.
Proof. apply map_subseteq_size, map_filter_subseteq. Qed.

End MapLemmas.

Section FoldLemmas.
Context {A B : Type} (f : A -> B -> A).

(** An invariant kept by every step of a loop holds after the loop. *)
Lemma fold_left_inv (I : A -> Prop) (l : list B) (a : A) :
  I a -> (forall a b, b ∈ l -> I a -> I (f a b)) -> I (fold_left f l a).
Proof.
  revert a; induction l as [| b l IH]; intros a Ha Hstep; simpl; [done |].
  apply IH.
  - apply Hstep; [constructor | done].
  - intros a' b' Hin. apply Hstep. by constructor.
Qed.

End FoldLemmas.
(** A result known by its first component. *)
Lemma pair_with {X Y} (x : X * Y) a : x.1 = a -> x = (a, x.2).
Proof. by intros <-; destruct x. Qed.
Lemma triple_with {X Y Z} (x : X * Y * Z) a : x.1.1 = a -> x = (a, x.1.2, x.2).
Proof. by intros <-; destruct x as [[] ?]. Qed.
