(* ===== verification/Calendar.v ===== *)
(** * Calendar: the proleptic Gregorian calendar behind Go's [time] package

    Days are counted from 1970-01-01. [days_from_civil] and [civil_from_days]
    convert between a day number and a (year, month, day) triple, in the
    400-year cycle arithmetic of 146097 days with the year starting in March.
    The theorems show that the two are inverse on valid dates, that the date
    of a day is always valid, and that the conversion is strictly monotone,
    which is what the traffic period computations rely on. *)

From S2P Require Import Prelude.

Definition is_leap (y : Z) : bool :=
  (y mod 4 =? 0) && (negb (y mod 100 =? 0) || (y mod 400 =? 0)).

(** [time.daysIn]. *)
Definition days_in (m y : Z) : Z :=
  if m =? 2 then (if is_leap y then 29 else 28)
  else if (m =? 4) || (m =? 6) || (m =? 9) || (m =? 11) then 30 else 31.

Definition days_from_civil (y m d : Z) : Z :=
  let y' := if m <=? 2 then y - 1 else y in
  let mp := if m <=? 2 then m + 9 else m - 3 in
  let yoe := y' mod 400 in
  let doy := (153 * mp + 2) / 5 + d - 1 in
  (y' / 400) * 146097 + (yoe * 365 + yoe / 4 - yoe / 100 + doy) - 719468.

(** Year of the 400-year era holding day [doe] of that era. *)
Definition year_of_era (doe : Z) : Z :=
  (doe - doe / 1460 + doe / 36524 - doe / 146096) / 365.

(** Day of the March-based year [yoe] holding day [doe] of the era. *)
Definition day_of_year (doe : Z) : Z :=
  let yoe := year_of_era doe in doe - (365 * yoe + yoe / 4 - yoe / 100).

Definition civil_from_days (z : Z) : Z * Z * Z :=
  let z' := z + 719468 in
  let era := z' / 146097 in
  let doe := z' mod 146097 in
  let doy := day_of_year doe in
  let mp := (5 * doy + 2) / 153 in
  let d := doy - (153 * mp + 2) / 5 + 1 in
  let m := if mp <? 10 then mp + 3 else mp - 9 in
  (year_of_era doe + era * 400 + (if m <=? 2 then 1 else 0), m, d).

Definition valid_date (y m d : Z) : Prop := 1 <= m <= 12 /\ 1 <= d <= days_in m y.

(** ** The era arithmetic *)

(** Days before the March-based year [y] of an era. *)
Definition year_start (yoe : Z) : Z := 365 * yoe + yoe / 4 - yoe / 100.

(** Whether the March-based year [yoe] of an era has 366 days: its February
    belongs to calendar year [yoe + 1]. *)
Definition long_year (yoe : Z) : bool :=
  ((yoe + 1) mod 4 =? 0) && (negb ((yoe + 1) mod 100 =? 0) || ((yoe + 1) mod 400 =? 0)).

Ltac euclid := Z.to_euclidean_division_equations; lia.

(** Evaluate the sums, differences and comparisons of numerals in the goal. *)
Ltac is_numeral z := match z with Z0 => idtac | Zpos _ => idtac | Zneg _ => idtac end.
Ltac eval_op t := let r := eval vm_compute in t in change t with r.
Ltac eval_consts :=
  repeat match goal with
  | |- context [Z.add ?a ?b] => is_numeral a; is_numeral b; eval_op (Z.add a b)
  | |- context [Z.sub ?a ?b] => is_numeral a; is_numeral b; eval_op (Z.sub a b)
  | |- context [Z.leb ?a ?b] => is_numeral a; is_numeral b; eval_op (Z.leb a b)
  | |- context [Z.eqb ?a ?b] => is_numeral a; is_numeral b; eval_op (Z.eqb a b)
  end; cbn [andb orb negb]; cbv iota.

Lemma year_of_era_range doe : 0 <= doe < 146097 -> 0 <= year_of_era doe <= 399.
Proof. unfold year_of_era. intros. euclid. Qed.

Lemma year_of_era_lower doe : 0 <= doe < 146097 -> year_start (year_of_era doe) <= doe.
Proof.
  intros H. unfold year_start. remember (year_of_era doe) as y eqn:E.
  unfold year_of_era in E. euclid.
Qed.

Lemma year_of_era_upper doe :
  0 <= doe < 146097 -> doe < year_start (year_of_era doe + 1) + (if year_of_era doe =? 399 then 1 else 0).
Proof.
  intros H. unfold year_start. remember (year_of_era doe) as y eqn:E.
  unfold year_of_era in E. destruct (Z.eqb_spec y 399); euclid.
Qed.

Lemma long_year_spec y :
  0 <= y <= 399 ->
  year_start (y + 1) + (if y =? 399 then 1 else 0) =
  year_start y + 365 + (if long_year y then 1 else 0).
Proof.
  intros H. unfold year_start, long_year.
  destruct (Z.eqb_spec y 399), (Z.eqb_spec ((y + 1) mod 4) 0), (Z.eqb_spec ((y + 1) mod 100) 0),
    (Z.eqb_spec ((y + 1) mod 400) 0); cbn [andb orb negb]; euclid.
Qed.

Lemma day_of_year_range doe :
  0 <= doe < 146097 ->
  0 <= day_of_year doe < 365 + (if long_year (year_of_era doe) then 1 else 0).
Proof.
  intros H. pose proof (year_of_era_lower doe H). pose proof (year_of_era_upper doe H).
  pose proof (long_year_spec _ (year_of_era_range doe H)).
  unfold day_of_year, year_start in *. lia.
Qed.

(** The year of era is the unique year whose days contain [doe]. *)
Lemma year_of_era_unique y doe :
  0 <= y <= 399 -> year_start y <= doe < year_start (y + 1) + (if y =? 399 then 1 else 0) ->
  year_of_era doe = y.
Proof.
  intros Hy Hd. unfold year_start, year_of_era in *.
  destruct (Z.eqb_spec y 399); euclid.
Qed.

(** ** Months of the March-based year *)

Lemma month_of_day doy :
  0 <= doy <= 365 ->
  let mp := (5 * doy + 2) / 153 in
  0 <= mp <= 11 /\ (153 * mp + 2) / 5 <= doy < (153 * (mp + 1) + 2) / 5.
Proof. cbv zeta. intros H. euclid. Qed.

Lemma month_of_day_unique mp doy :
  0 <= mp <= 11 -> (153 * mp + 2) / 5 <= doy < (153 * (mp + 1) + 2) / 5 ->
  (5 * doy + 2) / 153 = mp.
Proof. intros H1 H2. euclid. Qed.

(** Length of the March-based month [mp], February apart. *)
Lemma month_length mp y :
  0 <= mp <= 10 ->
  (153 * (mp + 1) + 2) / 5 - (153 * mp + 2) / 5 =
  days_in (if mp <? 10 then mp + 3 else mp - 9) y.
Proof.
  intros H.
  enum mp 11%nat as Hc. repeat (destruct Hc as [<- | Hc]; [reflexivity |]). done.
Qed.

Lemma long_year_leap yoe era :
  long_year yoe = is_leap (yoe + era * 400 + 1).
Proof.
  unfold long_year, is_leap.
  replace ((yoe + era * 400 + 1) mod 4) with ((yoe + 1) mod 4) by euclid.
  replace ((yoe + era * 400 + 1) mod 100) with ((yoe + 1) mod 100) by euclid.
  replace ((yoe + era * 400 + 1) mod 400) with ((yoe + 1) mod 400) by euclid.
  reflexivity.
Qed.

(** ** Round trips *)

Lemma civil_from_days_valid z y m d : civil_from_days z = (y, m, d) -> valid_date y m d.
Proof.
  unfold civil_from_days. set (doe := (z + 719468) mod 146097).
  assert (0 <= doe < 146097) as Hdoe by (apply Z.mod_pos_bound; lia).
  pose proof (day_of_year_range doe Hdoe) as Hdoy.
  pose proof (year_of_era_range doe Hdoe) as Hyoe.
  assert (0 <= day_of_year doe <= 365) as Hdoy' by (destruct long_year; lia).
  destruct (month_of_day _ Hdoy') as [Hmp Hd].
  set (mp := (5 * day_of_year doe + 2) / 153) in *.
  intros Heq. injection Heq as <- <- <-. unfold valid_date.
  split; [destruct (Z.ltb_spec mp 10); lia |].
  destruct (Z.eq_dec mp 11) as [Emp | Emp].
  - rewrite Emp in *. cbn [Z.ltb Z.compare Pos.compare Pos.compare_cont].
    rewrite (long_year_leap _ ((z + 719468) / 146097)) in Hdoy.
    unfold days_in. change (11 <? 10) with false. cbn -[is_leap year_of_era day_of_year Z.mul Z.div].
    change (11 - 9) with 2. cbn -[is_leap year_of_era day_of_year Z.mul Z.div].
    change ((153 * 11 + 2) / 5) with 337 in *. destruct is_leap; lia.
  - rewrite <- month_length by lia. lia.
Qed.

Lemma days_civil_roundtrip z y m d :
  civil_from_days z = (y, m, d) -> days_from_civil y m d = z.
Proof.
  unfold civil_from_days. set (doe := (z + 719468) mod 146097).
  assert (0 <= doe < 146097) as Hdoe by (apply Z.mod_pos_bound; lia).
  pose proof (day_of_year_range doe Hdoe) as Hdoy.
  pose proof (year_of_era_range doe Hdoe) as Hyoe.
  assert (0 <= day_of_year doe <= 365) as Hdoy' by (destruct long_year; lia).
  destruct (month_of_day _ Hdoy') as [Hmp _].
  set (mp := (5 * day_of_year doe + 2) / 153) in *.
  intros Heq. injection Heq as <- <- <-. unfold days_from_civil.
  set (era := (z + 719468) / 146097).
  assert (z = era * 146097 + doe - 719468) as Hz.
  { unfold era, doe. pose proof (Z.div_mod (z + 719468) 146097 ltac:(lia)). lia. }
  set (yoe := year_of_era doe) in *.
  set (dfix := day_of_year doe) in *.
  assert (doe = 365 * yoe + yoe / 4 - yoe / 100 + dfix) as Hd by (unfold dfix, day_of_year; fold yoe; lia).
  destruct (Z.ltb_spec mp 10) as [Hm | Hm];
    [destruct (Z.leb_spec (mp + 3) 2); [lia |]; replace (mp + 3 - 3) with mp by lia
    |destruct (Z.leb_spec (mp - 9) 2); [| lia]; replace (mp - 9 + 9) with mp by lia];
    repeat match goal with
    | |- context [(yoe + era * 400 + ?k) / 400] =>
        replace ((yoe + era * 400 + k) / 400) with (era + (yoe + k) / 400) by euclid;
        replace ((yoe + era * 400 + k) mod 400) with ((yoe + k) mod 400) by euclid
    | |- context [(yoe + era * 400 + 1 - 1)] =>
        replace (yoe + era * 400 + 1 - 1) with (yoe + era * 400 + 0) by lia
    end;
    rewrite !Z.add_0_r, (Z.mod_small yoe 400), (Z.div_small yoe 400) by lia; lia.
Qed.

(** Day number of the March-based year of a valid date. *)
Lemma valid_date_doy y m d :
  valid_date y m d ->
  let mp := if m <=? 2 then m + 9 else m - 3 in
  let y' := if m <=? 2 then y - 1 else y in
  let doy := (153 * mp + 2) / 5 + d - 1 in
  0 <= mp <= 11 /\ (153 * mp + 2) / 5 <= doy < (153 * (mp + 1) + 2) / 5 /\
  0 <= doy < 365 + (if long_year (y' mod 400) then 1 else 0).
Proof.
  intros [Hm Hd] mp y' doy.
  assert (0 <= mp <= 11) as Hmp by (unfold mp; destruct (Z.leb_spec m 2); lia).
  assert (m = if mp <? 10 then mp + 3 else mp - 9) as Em.
  { unfold mp. destruct (Z.leb_spec m 2).
    - destruct (Z.ltb_spec (m + 9) 10); lia.
    - destruct (Z.ltb_spec (m - 3) 10); lia. }
  split; [done |].
  destruct (Z.eq_dec mp 11) as [E11 | E11].
  - assert (m = 2) as -> by (rewrite E11 in Em; cbn in Em; lia).
    assert (y = y' mod 400 + y' / 400 * 400 + 1) as Ey.
    { unfold y'. change (2 <=? 2) with true. cbv iota. euclid. }
    unfold days_in in Hd. rewrite Z.eqb_refl in Hd. rewrite Ey, <- long_year_leap in Hd.
    unfold doy. rewrite E11. change ((153 * 11 + 2) / 5) with 337.
    change ((153 * (11 + 1) + 2) / 5) with 367. destruct long_year; lia.
  - rewrite Em, <- month_length in Hd by lia. unfold doy.
    assert ((153 * (mp + 1) + 2) / 5 <= 337) by euclid.
    assert (0 <= (153 * mp + 2) / 5) by euclid.
    destruct long_year; lia.
Qed.

Lemma civil_days_roundtrip y m d :
  valid_date y m d -> civil_from_days (days_from_civil y m d) = (y, m, d).
Proof.
  intros Hv. destruct (valid_date_doy y m d Hv) as (Hmp & Hdoy & Hlong).
  destruct Hv as [Hm Hd]. unfold days_from_civil, civil_from_days.
  set (mp := if m <=? 2 then m + 9 else m - 3) in *.
  set (y' := if m <=? 2 then y - 1 else y) in *.
  set (doy := (153 * mp + 2) / 5 + d - 1) in *.
  set (yoe := y' mod 400) in *.
  assert (0 <= yoe <= 399) as Hyoe by (unfold yoe; pose proof (Z.mod_pos_bound y' 400); lia).
  set (doe := yoe * 365 + yoe / 4 - yoe / 100 + doy).
  assert (year_start yoe <= doe < year_start (yoe + 1) + (if yoe =? 399 then 1 else 0)) as Hin.
  { rewrite long_year_spec by done. unfold year_start, doe. lia. }
  assert (0 <= doe < 146097) as Hdoe.
  { unfold year_start in Hin. destruct (Z.eqb_spec yoe 399); revert Hin Hyoe; clear; intros; euclid. }
  replace (y' / 400 * 146097 + doe - 719468 + 719468) with (doe + y' / 400 * 146097) by lia.
  rewrite Z.mod_add, Z.div_add, Z.mod_small, Z.div_small by lia.
  unfold day_of_year. rewrite (year_of_era_unique yoe doe Hyoe Hin).
  replace (doe - (365 * yoe + yoe / 4 - yoe / 100)) with doy by (unfold doe; lia).
  rewrite (month_of_day_unique mp doy Hmp Hdoy).
  assert ((if mp <? 10 then mp + 3 else mp - 9) = m) as ->.
  { unfold mp. destruct (Z.leb_spec m 2).
    - destruct (Z.ltb_spec (m + 9) 10); lia.
    - destruct (Z.ltb_spec (m - 3) 10); lia. }
  f_equal; [f_equal |].
  - pose proof (Z.div_mod y' 400 ltac:(lia)) as Hy'. unfold yoe.
    revert Hy'. unfold y'. destruct (m <=? 2); lia.
  - unfold doy. lia.
Qed.

(** ** Months as a linear sequence *)

(** First day of the month with index [12 * year + month - 1]. *)
Definition month_start (k : Z) : Z := days_from_civil (k / 12) (k mod 12 + 1) 1.

Definition month_len (k : Z) : Z := days_in (k mod 12 + 1) (k / 12).

Lemma days_from_civil_linear y m d : days_from_civil y m d = days_from_civil y m 1 + (d - 1).
Proof. unfold days_from_civil. lia. Qed.

Lemma month_index y m :
  1 <= m <= 12 -> (12 * y + (m - 1)) / 12 = y /\ (12 * y + (m - 1)) mod 12 = m - 1.
Proof. intros. split; euclid. Qed.

Lemma days_in_range m y : 28 <= days_in m y <= 31.
Proof. unfold days_in. split_ifs; lia. Qed.

Lemma month_len_range k : 28 <= month_len k <= 31.
Proof. apply days_in_range. Qed.

(** Days from 1 March of year [y] back to 1 March of year [y - 1]. *)
Lemma feb_start y :
  y / 400 * 146097 + (y mod 400 * 365 + y mod 400 / 4 - y mod 400 / 100) =
  (y - 1) / 400 * 146097 + ((y - 1) mod 400 * 365 + (y - 1) mod 400 / 4 - (y - 1) mod 400 / 100)
  + 365 + (if is_leap y then 1 else 0).
Proof.
  set (e := (y - 1) / 400). set (r := (y - 1) mod 400).
  assert (0 <= r <= 399) as Hr by (unfold r; pose proof (Z.mod_pos_bound (y - 1) 400); lia).
  assert (y = r + e * 400 + 1) as Ey by (unfold e, r; pose proof (Z.div_mod (y - 1) 400); lia).
  rewrite Ey, <- long_year_leap. pose proof (long_year_spec r Hr) as Hl. unfold year_start in Hl.
  destruct (Z.eqb_spec r 399) as [-> | Hne].
  - replace ((399 + e * 400 + 1) / 400) with (e + 1) by euclid.
    replace ((399 + e * 400 + 1) mod 400) with 0 by euclid.
    change (long_year 399) with true. euclid.
  - replace ((r + e * 400 + 1) / 400) with e by euclid.
    replace ((r + e * 400 + 1) mod 400) with (r + 1) by euclid. lia.
Qed.

Lemma month_start_succ k : month_start (k + 1) = month_start k + month_len k.
Proof.
  unfold month_start, month_len. set (m := k mod 12). set (y := k / 12).
  assert (0 <= m < 12) as Hm by (apply Z.mod_pos_bound; lia).
  destruct (Z.eq_dec m 11) as [E | E].
  - replace ((k + 1) / 12) with (y + 1) by (unfold y, m in *; euclid).
    replace ((k + 1) mod 12) with 0 by (unfold m in *; euclid).
    rewrite E. unfold days_from_civil, days_in. eval_consts.
    replace (y + 1 - 1) with y by lia. euclid.
  - replace ((k + 1) / 12) with y by (unfold y, m in *; euclid).
    replace ((k + 1) mod 12) with (m + 1) by (unfold m in *; euclid).
    enum m 11%nat as Hc. unfold days_from_civil, days_in.
    repeat destruct Hc as [Hc | Hc]; [.. | done]; rewrite <- Hc; eval_consts; cycle 1.
    { pose proof (feb_start y) as Hf. change ((153 * 0 + 2) / 5) with 0.
      change ((153 * 11 + 2) / 5) with 337. destruct (is_leap y); lia. }
    all: change ((153 * 10 + 2) / 5) with 306; change ((153 * 11 + 2) / 5) with 337;
      change ((153 * 0 + 2) / 5) with 0; change ((153 * 1 + 2) / 5) with 31;
      change ((153 * 2 + 2) / 5) with 61; change ((153 * 3 + 2) / 5) with 92;
      change ((153 * 4 + 2) / 5) with 122; change ((153 * 5 + 2) / 5) with 153;
      change ((153 * 6 + 2) / 5) with 184; change ((153 * 7 + 2) / 5) with 214;
      change ((153 * 8 + 2) / 5) with 245; change ((153 * 9 + 2) / 5) with 275; lia.
Qed.

Lemma month_start_mono k k' : k <= k' -> month_start k <= month_start k'.
Proof.
  intros H. replace k' with (k + Z.of_nat (Z.to_nat (k' - k))) by lia.
  induction (Z.to_nat (k' - k)) as [| n IH]; [rewrite Z.add_0_r; lia |].
  replace (k + Z.of_nat (S n)) with (k + Z.of_nat n + 1) by lia.
  rewrite month_start_succ. pose proof (month_len_range (k + Z.of_nat n)). lia.
Qed.

Lemma month_start_lt k k' : k < k' -> month_start k + month_len k <= month_start k'.
Proof. intros H. rewrite <- month_start_succ. apply month_start_mono. lia. Qed.

(** A day lies in the month its civil date names. *)
Lemma civil_in_month z y m d :
  civil_from_days z = (y, m, d) ->
  let k := 12 * y + (m - 1) in
  z = month_start k + (d - 1) /\ 1 <= d <= month_len k /\ 1 <= m <= 12.
Proof.
  intros Hc k. destruct (civil_from_days_valid _ _ _ _ Hc) as [Hm Hd].
  pose proof (days_civil_roundtrip _ _ _ _ Hc) as Hz.
  destruct (month_index y m Hm) as [Ey Em]. unfold k, month_start, month_len.
  rewrite Ey, Em. replace (m - 1 + 1) with m by lia.
  rewrite days_from_civil_linear in Hz. lia.
Qed.

(** The civil date of a day given by month index and day of month. *)
Lemma civil_of_month k d :
  1 <= d <= month_len k -> civil_from_days (month_start k + (d - 1)) = (k / 12, k mod 12 + 1, d).
Proof.
  intros Hd. unfold month_start. rewrite <- days_from_civil_linear.
  apply civil_days_roundtrip. split; [pose proof (Z.mod_pos_bound k 12); lia | exact Hd].
Qed.
