(* ===== verification/GoTime.v ===== *)
(** * GoTime: the fragment of Go's [time] package the sources use

    A [time.Time] is its instant, in nanoseconds since 1970-01-01T00:00:00Z;
    the zero value is 0001-01-01T00:00:00Z. Durations are nanoseconds in a
    signed 64-bit integer. [time_Parse] is [time.Parse(time.RFC3339Nano, _)],
    [time_Format] is [t.UTC().Format(time.RFC3339Nano)], and locations carry
    the zone lookup of [time.Location]. The main result is the round trip
    [time_Parse_Format]: every instant of the years 0 to 9999 survives being
    written to and read back from a state file. *)

From S2P Require Import Prelude Calendar.

Abbreviation Time := Z (only parsing).
Abbreviation Duration := Z (only parsing).

Definition Nanosecond : Z := 1.
Definition Millisecond : Z := 1000000.
Definition Second : Z := 1000000000.
Definition Minute : Z := 60 * Second.
Definition Hour : Z := 60 * Minute.
Definition nanos_per_day : Z := 86400 * Second.

(** The zero [time.Time]. *)
Definition time_zero : Time := -62135596800 * Second.
Definition IsZero (t : Time) : bool := t =? time_zero.
Definition Before (a b : Time) : bool := a <? b.
Definition After (a b : Time) : bool := b <? a.
(** [Time.Sub] saturates at the extreme durations. *)
Definition time_Sub (a b : Time) : Duration := clamp min_int64 max_int64 (a - b).
(** [Time.Unix]: whole seconds, rounded towards minus infinity. *)
Definition time_Unix (t : Time) : Z := t / Second.

(** ** Parsing and formatting RFC 3339 *)

Definition digit (c : ascii) : option Z :=
  let n := Z.of_nat (nat_of_ascii c) in
  if (48 <=? n) && (n <=? 57) then Some (n - 48) else None.

Definition is_digit (c : ascii) : bool :=
  match digit c with Some _ => true | None => false end.

Definition digit_char (n : Z) : ascii := ascii_of_nat (Z.to_nat (48 + n)).

(** [getnum(s, true)]: exactly two digits. *)
Definition getnum2 (s : list ascii) : option (Z * list ascii) :=
  match s with
  | a :: b :: r => x ← digit a; y ← digit b; Some (10 * x + y, r)
  | _ => None
  end.

(** [getnum(s, false)]: one or two digits. *)
Definition getnum12 (s : list ascii) : option (Z * list ascii) :=
  match s with
  | a :: r =>
      x ← digit a;
      match r with
      | b :: r' => match digit b with Some y => Some (10 * x + y, r') | None => Some (x, r) end
      | [] => Some (x, [])
      end
  | [] => None
  end.

Definition getyear (s : list ascii) : option (Z * list ascii) :=
  match s with
  | a :: b :: c :: d :: r =>
      x ← digit a; y ← digit b; z ← digit c; w ← digit d;
      Some (1000 * x + 100 * y + 10 * z + w, r)
  | _ => None
  end.

Definition expect (c : ascii) (s : list ascii) : option (list ascii) :=
  match s with
  | a :: r => if Ascii.eqb a c then Some r else None
  | [] => None
  end.

Fixpoint span_digits (s : list ascii) : list Z * list ascii :=
  match s with
  | a :: r =>
      match digit a with
      | Some x => let '(ds, r') := span_digits r in (x :: ds, r')
      | None => ([], s)
      end
  | [] => ([], [])
  end.

(** Nanoseconds named by fractional digits: the first nine, scaled. *)
Fixpoint frac_value (k : nat) (ds : list Z) : Z :=
  match k, ds with
  | S k', d :: ds' => d * 10 ^ Z.of_nat k' + frac_value k' ds'
  | _, _ => 0
  end.

(** Fractional seconds, introduced by a period or a comma; optional. *)
Definition getfrac (s : list ascii) : Z * list ascii :=
  match s with
  | a :: b :: r =>
      if (Ascii.eqb a "." || Ascii.eqb a ",") && is_digit b
      then let '(ds, r') := span_digits (b :: r) in (frac_value 9 ds, r')
      else (0, s)
  | _ => (0, s)
  end.

(** Zone offset in seconds: [Z] or [+hh:mm] or [-hh:mm]. *)
Definition getzone (s : list ascii) : option (Z * list ascii) :=
  match s with
  | a :: r =>
      if Ascii.eqb a "Z" then Some (0, r)
      else
        '(hr, r1) ← getnum2 r;
        r2 ← expect ":" r1;
        '(mm, r3) ← getnum2 r2;
        if (hr <=? 24) && (mm <=? 60) then
          if Ascii.eqb a "+" then Some ((hr * 60 + mm) * 60, r3)
          else if Ascii.eqb a "-" then Some (- ((hr * 60 + mm) * 60), r3)
          else None
        else None
  | [] => None
  end.

(** [time.Date] in UTC: fields out of range carry into the next larger one. *)
Definition date_utc (y mo d h mi s ns : Z) : Time :=
  ((month_start (12 * y + (mo - 1)) + (d - 1)) * 86400 + h * 3600 + mi * 60 + s) * Second + ns.

(** [time.Parse(time.RFC3339Nano, s)], [None] for an error. The fast path of
    the Go implementation accepts a sublanguage with the same values. *)
Definition parse_bytes (s : list ascii) : option Time :=
  '(y, s) ← getyear s; s ← expect "-" s;
  '(mo, s) ← getnum2 s; s ← expect "-" s;
  '(d, s) ← getnum2 s; s ← expect "T" s;
  '(h, s) ← getnum12 s; s ← expect ":" s;
  '(mi, s) ← getnum2 s; s ← expect ":" s;
  '(sec, s) ← getnum2 s;
  let '(ns, s) := getfrac s in
  '(off, s) ← getzone s;
  match s with
  | [] =>
      if (1 <=? mo) && (mo <=? 12) && (1 <=? d) && (d <=? days_in mo y) &&
         (h <=? 23) && (mi <=? 59) && (sec <=? 59)
      then Some (date_utc y mo d h mi sec ns - off * Second)
      else None
  | _ => None
  end.

Definition time_Parse (s : string) : option Time := parse_bytes (list_ascii_of_string s).

Definition pad2 (n : Z) : list ascii := [digit_char (n / 10); digit_char (n mod 10)].

Definition pad4 (n : Z) : list ascii :=
  [digit_char (n / 1000); digit_char (n / 100 mod 10); digit_char (n / 10 mod 10);
   digit_char (n mod 10)].

(** Year, zero-padded to four places; a sign and more digits outside 0-9999. *)
Definition fmt_year (y : Z) : list ascii :=
  if (0 <=? y) && (y <=? 9999) then pad4 y
  else
    let ds := list_ascii_of_string (pretty (Z.to_N (Z.abs y))) in
    (if y <? 0 then ["-"%char] else []) ++
    repeat "0"%char (4 - List.length ds)%nat ++ ds.

Fixpoint digits_of (k : nat) (n : Z) : list Z :=
  match k with
  | O => []
  | S k' => n / 10 ^ Z.of_nat k' :: digits_of k' (n mod 10 ^ Z.of_nat k')
  end.

Fixpoint drop_zeros (l : list Z) : list Z :=
  match l with
  | [] => []
  | x :: r => match drop_zeros r with
              | [] => if x =? 0 then [] else [x]
              | r' => x :: r'
              end
  end.

(** Fraction without trailing zeros; nothing at all when it is zero. *)
Definition fmt_frac (ns : Z) : list ascii :=
  match drop_zeros (digits_of 9 ns) with
  | [] => []
  | ds => "."%char :: map digit_char ds
  end.

Definition format_bytes (t : Time) : list ascii :=
  let '(y, m, d) := civil_from_days (t / nanos_per_day) in
  let r := t mod nanos_per_day in
  let s := r / Second in
  fmt_year y ++ "-"%char :: pad2 m ++ "-"%char :: pad2 d ++ "T"%char ::
  pad2 (s / 3600) ++ ":"%char :: pad2 (s / 60 mod 60) ++ ":"%char :: pad2 (s mod 60) ++
  fmt_frac (r mod Second) ++ ["Z"%char].

(** [t.UTC().Format(time.RFC3339Nano)]. *)
Definition time_Format (t : Time) : string := string_of_list_ascii (format_bytes t).

(** The instants whose UTC year has four digits. *)
Definition four_digit_year (t : Time) : Prop :=
  month_start 0 * nanos_per_day <= t < month_start 120000 * nanos_per_day.

(** ** Locations *)

(** [Location.lookup]: the offset in force at a Unix second, with the bounds
    of the interval in which it is. *)
Record Location := mkLocation { loc_lookup : Z -> Z * Z * Z }.

Definition loc_offset (l : Location) (sec : Z) : Z := fst (fst (loc_lookup l sec)).

(** [time.FixedZone]. *)
Definition FixedZone (offset : Z) : Location :=
  mkLocation (fun _ => (offset, min_int64, max_int64)).

Definition UTC : Location := FixedZone 0.

(** Wall clock of an instant in a location, as a UTC instant. *)
Definition wall (l : Location) (t : Time) : Time :=
  t + loc_offset l (t / Second) * Second.

Definition time_Date (l : Location) (t : Time) : Z * Z * Z :=
  civil_from_days (wall l t / nanos_per_day).

(** Nanoseconds since local midnight. *)
Definition time_Clock (l : Location) (t : Time) : Z := wall l t mod nanos_per_day.

(** [time.Date]: the offset in force at the wall time read as UTC, corrected
    once when that instant falls outside its interval. *)
Definition Date (l : Location) (y mo d : Z) (clock : Z) : Time :=
  let w := date_utc y mo d 0 0 0 0 + clock in
  let unix := w / Second in
  let '(off, start, fin) := loc_lookup l unix in
  if off =? 0 then w
  else
    let utc := unix - off in
    let off' := if (utc <? start) || (fin <=? utc) then loc_offset l utc else off in
    w - off' * Second.

(** [Time.AddDate(0, months, 0)]. *)
Definition AddMonths (l : Location) (t : Time) (months : Z) : Time :=
  let '(y, m, d) := time_Date l t in
  Date l y (m + months) d (time_Clock l t).

(** ** Digits *)

Lemma digit_roundtrip n : 0 <= n < 10 -> digit (digit_char n) = Some n.
Proof.
  intros H. enum n 10%nat as Hc. repeat destruct Hc as [<- | Hc]; done.
Qed.

Lemma is_digit_char n : 0 <= n < 10 -> is_digit (digit_char n) = true.
Proof. intros. unfold is_digit. by rewrite digit_roundtrip. Qed.

Lemma getnum2_pad2 n r : 0 <= n < 100 -> getnum2 (pad2 n ++ r) = Some (n, r).
Proof.
  intros H. unfold pad2. simpl. rewrite !digit_roundtrip by euclid. simpl.
  do 2 f_equal. euclid.
Qed.

Lemma getnum12_pad2 n r : 0 <= n < 100 -> getnum12 (pad2 n ++ r) = Some (n, r).
Proof.
  intros H. unfold pad2. simpl. rewrite !digit_roundtrip by euclid. simpl.
  do 2 f_equal. euclid.
Qed.

Lemma getyear_fmt y r : 0 <= y <= 9999 -> getyear (fmt_year y ++ r) = Some (y, r).
Proof.
  intros H. unfold fmt_year.
  rewrite (proj2 (andb_true_iff _ _)) by (split; apply Z.leb_le; lia).
  unfold pad4. simpl. rewrite !digit_roundtrip by euclid. simpl.
  do 2 f_equal. euclid.
Qed.

Lemma expect_cons c r : expect c (c :: r) = Some r.
Proof. simpl. by rewrite Ascii.eqb_refl. Qed.

(** ** Fractions *)

Lemma digits_of_range k n :
  0 <= n < 10 ^ Z.of_nat k -> Forall (fun d => 0 <= d < 10) (digits_of k n).
Proof.
  revert n; induction k as [| k IH]; intros n H; simpl; constructor.
  - rewrite Nat2Z.inj_succ, Z.pow_succ_r in H by lia.
    pose proof (Z.pow_pos_nonneg 10 (Z.of_nat k) ltac:(lia) ltac:(lia)).
    split; [apply Z.div_pos; lia | apply Z.div_lt_upper_bound; lia].
  - apply IH, Z.mod_pos_bound, Z.pow_pos_nonneg; lia.
Qed.

Lemma frac_value_digits k n : 0 <= n < 10 ^ Z.of_nat k -> frac_value k (digits_of k n) = n.
Proof.
  revert n; induction k as [| k IH]; intros n H; simpl; [lia |].
  pose proof (Z.pow_pos_nonneg 10 (Z.of_nat k) ltac:(lia) ltac:(lia)).
  rewrite IH by (apply Z.mod_pos_bound; lia).
  pose proof (Z.div_mod n (10 ^ Z.of_nat k)). lia.
Qed.

Lemma frac_value_drop_zeros k ds : frac_value k (drop_zeros ds) = frac_value k ds.
Proof.
  revert k; induction ds as [| d ds IH]; intros k; [done |]. simpl.
  destruct (drop_zeros ds) as [| d' ds'] eqn:E.
  - destruct (Z.eqb_spec d 0) as [-> | Hd]; destruct k as [| k]; simpl; try done;
      rewrite <- IH; destruct k; simpl; lia.
  - destruct k; [done |]. simpl. by rewrite <- IH.
Qed.

Lemma drop_zeros_range ds :
  Forall (fun d => 0 <= d < 10) ds -> Forall (fun d => 0 <= d < 10) (drop_zeros ds).
Proof.
  induction 1 as [| d ds Hd Hds IH]; simpl; [constructor |].
  destruct (drop_zeros ds); [destruct (d =? 0); auto using Forall_nil, Forall_cons |].
  by constructor.
Qed.

Lemma span_digits_map ds c r :
  Forall (fun d => 0 <= d < 10) ds -> digit c = None ->
  span_digits (map digit_char ds ++ c :: r) = (ds, c :: r).
Proof.
  intros H Hc. induction H as [| d ds Hd Hds IH]; simpl; [by rewrite Hc |].
  rewrite digit_roundtrip by done. by rewrite IH.
Qed.

Lemma getfrac_fmt ns r : 0 <= ns < Second -> getfrac (fmt_frac ns ++ "Z"%char :: r) = (ns, "Z"%char :: r).
Proof.
  intros H. unfold fmt_frac.
  pose proof (drop_zeros_range _ (digits_of_range 9 ns ltac:(unfold Second in H; lia))) as Hr.
  pose proof (frac_value_digits 9 ns ltac:(unfold Second in H; lia)) as Hv.
  rewrite <- frac_value_drop_zeros in Hv.
  destruct (drop_zeros (digits_of 9 ns)) as [| d ds]; [by destruct r; rewrite <- Hv |].
  inversion Hr as [| ? ? Hd Hds]; subst.
  cbn [map app getfrac]. rewrite is_digit_char by done.
  change (Ascii.eqb "." "." || Ascii.eqb "." ",") with true. cbn [andb].
  pose proof (span_digits_map (d :: ds) "Z"%char r Hr eq_refl) as Hspan.
  cbn [map app] in Hspan. by rewrite Hspan.
Qed.

(** ** Round trip *)

Lemma four_digit_year_spec t y m d :
  four_digit_year t -> civil_from_days (t / nanos_per_day) = (y, m, d) -> 0 <= y <= 9999.
Proof.
  intros [H0 H1] Hc. destruct (civil_in_month _ _ _ _ Hc) as (Hz & Hd & Hm).
  assert (month_start 0 <= t / nanos_per_day < month_start 120000) as Hdays.
  { split; [apply Z.div_le_lower_bound | apply Z.div_lt_upper_bound]; unfold nanos_per_day, Second in *; lia. }
  set (k := 12 * y + (m - 1)) in *.
  assert (0 <= k) by (destruct (Z.lt_ge_cases k 0) as [Hk | Hk]; [| done];
    pose proof (month_start_lt k 0 Hk); lia).
  assert (k < 120000) by (destruct (Z.lt_ge_cases k 120000) as [Hk | Hk]; [done |];
    pose proof (month_start_mono 120000 k Hk); lia).
  unfold k in *. lia.
Qed.

(** Splitting an instant into day, second of day and nanosecond. *)
Lemma instant_split t :
  let r := t mod nanos_per_day in
  let s := r / Second in
  (t / nanos_per_day * 86400 + s / 3600 * 3600 + s / 60 mod 60 * 60 + s mod 60) * Second + r mod Second = t
  /\ 0 <= s / 3600 <= 23 /\ 0 <= s / 60 mod 60 <= 59 /\ 0 <= s mod 60 <= 59 /\ 0 <= r mod Second < Second.
Proof.
  cbv zeta. unfold nanos_per_day, Second.
  pose proof (Z.div_mod t (86400 * 1000000000) ltac:(lia)).
  pose proof (Z.mod_pos_bound t (86400 * 1000000000) ltac:(lia)) as Hr.
  set (r := t mod (86400 * 1000000000)) in *.
  pose proof (Z.div_mod r 1000000000 ltac:(lia)).
  pose proof (Z.mod_pos_bound r 1000000000 ltac:(lia)).
  set (s := r / 1000000000) in *.
  assert (0 <= s < 86400) by (unfold s; euclid).
  split; [| repeat split; try lia; euclid].
  assert (s / 3600 * 3600 + s / 60 mod 60 * 60 + s mod 60 = s) by euclid. lia.
Qed.

(** Consume the next field of a formatted instant. *)
Ltac parse_step :=
  first [rewrite getyear_fmt by done | rewrite expect_cons
        | rewrite getnum2_pad2 by lia | rewrite getnum12_pad2 by lia];
  cbn [mbind option_bind].

Theorem time_Parse_Format t : four_digit_year t -> time_Parse (time_Format t) = Some t.
Proof.
  intros Hy. unfold time_Parse, time_Format, format_bytes.
  rewrite list_ascii_of_string_of_list_ascii.
  destruct (civil_from_days (t / nanos_per_day)) as [[y m] d] eqn:Hc.
  pose proof (four_digit_year_spec _ _ _ _ Hy Hc) as Hyear.
  destruct (civil_in_month _ _ _ _ Hc) as (Hz & Hd & Hm).
  destruct (civil_from_days_valid _ _ _ _ Hc) as [_ Hdv].
  destruct (instant_split t) as (Ht & Hh & Hmi & Hs & Hns).
  pose proof (month_len_range (12 * y + (m - 1))).
  set (r := t mod nanos_per_day) in *. set (s := r / Second) in *.
  unfold parse_bytes. do 11 parse_step.
  rewrite getfrac_fmt by done.
  unfold getzone. change (Ascii.eqb "Z" "Z") with true. cbn [mbind option_bind].
  rewrite !(proj2 (Z.leb_le _ _)) by lia. cbn [andb]. f_equal. unfold date_utc. lia.
Qed.

Example parse_offset :
  time_Parse "2024-02-29T12:34:56.5+08:00" = Some (1709181296500000000).
Proof. reflexivity. Qed.

Example parse_bad_day : time_Parse "2023-02-29T00:00:00Z" = None.
Proof. reflexivity. Qed.

Example format_instant : time_Format 1709181296500000000 = "2024-02-29T04:34:56.5Z"%string.
Proof. reflexivity. Qed.

#[global] Arguments time_Parse : simpl never.
#[global] Arguments time_Format : simpl never.
#[global] Arguments time_Sub : simpl never.
#[global] Arguments Date : simpl never.
