(* ===== verification/Bytes.v ===== *)
(** * Bytes: integers in byte strings

    The big-endian and little-endian fields of the wire formats, which Go
    writes with [encoding/binary], and their round trips. *)

From S2P Require Import Prelude.

Definition byte_val (c : ascii) : Z := Z.of_nat (nat_of_ascii c).
Definition to_byte (z : Z) : ascii := ascii_of_nat (Z.to_nat (z mod 256)).

(** Big-endian integers. *)
Definition be_val (l : list ascii) : Z := fold_left (fun acc c => 256 * acc + byte_val c) l 0.
Fixpoint be_bytes (n : nat) (z : Z) : list ascii :=
  match n with O => [] | S n => be_bytes n (z / 256) ++ [to_byte z] end.

(** Little-endian 16 bits. *)
Definition le16 (a b : ascii) : Z := byte_val a + 256 * byte_val b.
Definition le16_bytes (z : Z) : list ascii := [to_byte z; to_byte (z / 256)].

Lemma byte_val_range c : 0 <= byte_val c < 256.
Proof. unfold byte_val. pose proof (nat_ascii_bounded c). lia. Qed.

Lemma byte_val_to_byte z : byte_val (to_byte z) = z mod 256.
Proof.
  unfold byte_val, to_byte. pose proof (Z.mod_pos_bound z 256). rewrite nat_ascii_embedding by lia. lia.
Qed.

Lemma length_be_bytes n z : List.length (be_bytes n z) = n.
Proof. revert z. induction n as [| n IH]; intros z; [done |]. cbn. rewrite length_app, IH. cbn. lia. Qed.

Lemma be_val_app l c : be_val (l ++ [c]) = 256 * be_val l + byte_val c.
Proof. unfold be_val. by rewrite fold_left_app. Qed.

Lemma be_val_bytes n z : 0 <= z < 256 ^ Z.of_nat n -> be_val (be_bytes n z) = z.
Proof.
  revert z. induction n as [| n IH]; intros z Hz; [cbn in *; lia |]. cbn [be_bytes]. rewrite be_val_app, byte_val_to_byte.
  rewrite IH; [pose proof (Z.div_mod z 256); lia |]. rewrite Nat2Z.inj_succ, Z.pow_succ_r in Hz by lia.
  split; [apply Z.div_pos; lia | apply Z.div_lt_upper_bound; lia].
Qed.

Lemma le16_le16_bytes z : 0 <= z < 65536 -> le16 (to_byte z) (to_byte (z / 256)) = z.
Proof.
  intros Hz. unfold le16. rewrite !byte_val_to_byte. rewrite (Z.mod_small (z / 256)); [pose proof (Z.div_mod z 256); lia |].
  split; [apply Z.div_pos; lia | apply Z.div_lt_upper_bound; lia].
Qed.
