(* ===== verification/Stealth.v ===== *)
(** * Stealth: the at-rest envelope of internal/stealth/stealth.go

    State files are sealed as [magic || nonce || ciphertext]. The cipher is
    AES-256-GCM of the Go standard library: it enters as the class [AEAD],
    with the two facts the envelope relies on in [AEADLaws]. Random bytes
    (the nonce, the seed of a random name) are arguments. The theorems show
    that an envelope opens to what was sealed, that every envelope is
    recognised as one and no shorter or foreign payload is opened, and that
    a generated name always has its documented shape. *)

From S2P Require Import Prelude.

Abbreviation bytes := (list ascii) (only parsing).

Definition KeyLen : nat := 32.
Definition EnvelopeMagic : bytes := list_ascii_of_string "OBSE1".
Definition nonceLen : nat := 12.
Definition gcm_overhead : nat := 16.
Definition maxSealPlaintext : Z := Z.shiftl 64 20.

Inductive stealth_error :=
| ErrBadKey
| ErrNotEncrypted
| ErrCorruptEnvelope
| ErrSealTooLarge
| ErrRandom.

(** [cipher.AEAD] built from a 32-byte key. *)
Class AEAD := {
  aead_seal : bytes -> bytes -> bytes -> bytes;
  aead_open : bytes -> bytes -> bytes -> option bytes
}.

Class AEADLaws (A : AEAD) := {
  aead_open_seal : forall key nonce p, aead_open key nonce (aead_seal key nonce p) = Some p;
  aead_seal_length : forall key nonce p,
    List.length (aead_seal key nonce p) = (List.length p + gcm_overhead)%nat
}.

Section Envelope.
Context {A : AEAD}.

(** [string(data[:len(EnvelopeMagic)]) == EnvelopeMagic], after the length test. *)
Definition IsEncrypted (data : bytes) : bool :=
  ((List.length EnvelopeMagic <=? List.length data)%nat) &&
  bool_decide (take (List.length EnvelopeMagic) data = EnvelopeMagic).

(** [gcm]: only a key of [KeyLen] bytes yields a cipher. *)
Definition gcm (key : bytes) : result stealth_error unit :=
  if (List.length key =? KeyLen)%nat then Ok tt else Err ErrBadKey.

(** [nonce = None] is a failing random source. *)
Definition Encrypt (key : bytes) (nonce : option bytes) (plaintext : bytes) : result stealth_error bytes :=
  if maxSealPlaintext <? Z.of_nat (List.length plaintext) then Err ErrSealTooLarge
  else
    let? _ := gcm key in
    match nonce with
    | None => Err ErrRandom
    | Some n => Ok (EnvelopeMagic ++ n ++ aead_seal key n plaintext)
    end.

Definition Decrypt (key data : bytes) : result stealth_error bytes :=
  if negb (IsEncrypted data) then Err ErrNotEncrypted
  else
    let? _ := gcm key in
    if (List.length data <? List.length EnvelopeMagic + nonceLen + gcm_overhead)%nat
    then Err ErrCorruptEnvelope
    else
      let rest := drop (List.length EnvelopeMagic) data in
      match aead_open key (take nonceLen rest) (drop nonceLen rest) with
      | Some p => Ok p
      | None => Err ErrCorruptEnvelope
      end.

(** [RandomName]: one letter, then nine letters or digits, from the mixed
    radix digits of a 64-bit seed. *)
Definition name_digits : bytes := list_ascii_of_string "abcdefghijklmnopqrstuvwxyz0123456789".

Definition name_char (v : Z) : ascii := nth (Z.to_nat (v mod 36)) name_digits "a"%char.

Fixpoint random_name_tail (n : nat) (v : Z) : bytes :=
  match n with
  | O => []
  | S n' => name_char v :: random_name_tail n' (v / 36)
  end.

Definition RandomName (seed : option Z) : result stealth_error bytes :=
  match seed with
  | None => Err ErrRandom
  | Some v => Ok (ascii_of_nat (97 + Z.to_nat (v mod 26)) :: random_name_tail 9 (v / 26))
  end.

(** ** Envelope theorems *)

Context {L : AEADLaws A}.

Lemma IsEncrypted_magic data : IsEncrypted (EnvelopeMagic ++ data) = true.
Proof. by destruct data. Qed.

Lemma gcm_Ok key : List.length key = KeyLen -> gcm key = Ok tt.
Proof. intros H. unfold gcm. by rewrite H. Qed.

Theorem Decrypt_Encrypt key n p data :
  List.length n = nonceLen ->
  Encrypt key (Some n) p = Ok data -> Decrypt key data = Ok p /\ IsEncrypted data = true.
Proof.
  intros Hn. unfold Encrypt. split_ifs; [done |]. unfold gcm.
  destruct (Nat.eqb_spec (List.length key) KeyLen) as [Hk | Hk]; [| done].
  cbn [result_bind]. intros Heq.
  assert (data = EnvelopeMagic ++ n ++ aead_seal key n p) as -> by congruence.
  split; [| apply IsEncrypted_magic].
  unfold Decrypt. rewrite IsEncrypted_magic. cbn [negb]. rewrite gcm_Ok by done. cbn [result_bind].
  rewrite (proj2 (Nat.ltb_ge _ _)).
  - rewrite drop_app_length, take_app_length', drop_app_length', aead_open_seal by done. done.
  - rewrite !length_app, aead_seal_length, Hn. lia.
Qed.

(** What [Decrypt] opens carries the magic, and a complete nonce and tag. *)
Lemma Decrypt_Ok_shape key data p :
  Decrypt key data = Ok p ->
  IsEncrypted data = true /\ List.length key = KeyLen /\
  (List.length EnvelopeMagic + nonceLen + gcm_overhead <= List.length data)%nat.
Proof.
  unfold Decrypt. destruct (IsEncrypted data); [| done]. cbn [negb]. unfold gcm.
  destruct (Nat.eqb_spec (List.length key) KeyLen); [| done]. cbn [result_bind].
  destruct (Nat.ltb_spec (List.length data) (List.length EnvelopeMagic + nonceLen + gcm_overhead)); [done |].
  intros _. done.
Qed.

End Envelope.

(** ** Names *)

Definition is_lower (c : ascii) : bool :=
  ((97 <=? nat_of_ascii c) && (nat_of_ascii c <=? 122))%nat.
Definition is_lower_or_digit (c : ascii) : bool :=
  is_lower c || ((48 <=? nat_of_ascii c) && (nat_of_ascii c <=? 57))%nat.

Lemma name_char_ok v : is_lower_or_digit (name_char v) = true.
Proof.
  unfold name_char. set (n := Z.to_nat (v mod 36)).
  assert (n < 36)%nat by (pose proof (Z.mod_pos_bound v 36); lia).
  assert (forallb is_lower_or_digit name_digits = true) as Hall by reflexivity.
  rewrite forallb_forall in Hall. apply Hall, nth_In. done.
Qed.

Lemma random_name_tail_ok k v :
  List.length (random_name_tail k v) = k /\ forallb is_lower_or_digit (random_name_tail k v) = true.
Proof.
  revert v; induction k as [| k IH]; intros v; simpl; [done |].
  destruct (IH (v / 36)) as [Hl Hf]. by rewrite Hl, Hf, name_char_ok.
Qed.

Theorem RandomName_shape v name :
  RandomName (Some v) = Ok name ->
  List.length name = 10%nat /\ forallb is_lower_or_digit name = true /\
  exists c rest, name = c :: rest /\ is_lower c = true.
Proof.
  unfold RandomName. intros Heq. destruct (random_name_tail_ok 9 (v / 26)) as [Hl Hf].
  set (c := ascii_of_nat (97 + Z.to_nat (v mod 26))) in Heq.
  assert (name = c :: random_name_tail 9 (v / 26)) as -> by congruence.
  assert (is_lower c = true) as Hc.
  { unfold is_lower, c. pose proof (Z.mod_pos_bound v 26).
    rewrite nat_ascii_embedding, !(proj2 (Nat.leb_le _ _)) by lia. done. }
  cbn [List.length forallb]. rewrite Hl, Hf. unfold is_lower_or_digit at 1. rewrite Hc.
  repeat split; by exists c, (random_name_tail 9 (v / 26)).
Qed.

(** A concrete cipher, used where a witness needs one: the plaintext followed
    by sixteen zero bytes. *)
#[export] Instance zero_aead : AEAD := {|
  aead_seal _ _ p := p ++ repeat "0"%char gcm_overhead;
  aead_open _ _ s := Some (take (List.length s - gcm_overhead)%nat s)
|}.

#[export] Instance zero_aead_laws : AEADLaws zero_aead.
Proof.
  split; intros; cbn [aead_seal aead_open zero_aead].
  - rewrite length_app, repeat_length, Nat.add_sub, take_app_length. done.
  - by rewrite length_app, repeat_length.
Qed.

Example encrypt_decrypt_runs :
  exists data, Encrypt (repeat "k"%char 32) (Some (repeat "n"%char 12)) (list_ascii_of_string "lease") = Ok data
    /\ Decrypt (repeat "k"%char 32) data = Ok (list_ascii_of_string "lease").
Proof. eexists; split; reflexivity. Qed.
