(* ===== verification/Files.v ===== *)
(** * Files: state files and their atomic replacement

    The disk is a finite map from paths to entries. [writeAtomic] of
    internal/authorization/lease.go and [Write] of
    internal/securefile/file.go publish a file by writing a temporary sibling
    and renaming it. Which system call fails, and how many bytes a failing
    write leaves behind, are arguments. [crash_step] is the same protocol as a
    step relation whose reachable states are what a crash can leave behind;
    the theorems show that the destination always holds either its previous
    content or all of the new one, and which of the two for each result. *)

From S2P Require Import Prelude Stealth.

(** A directory entry: a regular file, a regular file that cannot be read, or
    something else (a link, a directory). *)
Inductive entry :=
| Regular (b : bytes)
| Unreadable (e : string)
| Special.

Abbreviation disk := (gmap string entry) (only parsing).

Inductive read_error :=
| NotExist
| ReadFailed (e : string).

(** [os.ReadFile]. *)
Definition ReadFile (d : disk) (path : string) : result read_error bytes :=
  match d !! path with
  | None => Err NotExist
  | Some (Regular b) => Ok b
  | Some (Unreadable e) => Err (ReadFailed e)
  | Some Special => Err (ReadFailed "not a regular file")
  end.

(** The system calls of an atomic write, in the order the code makes them. *)
Inductive syscall :=
| SysMkdir | SysCreate | SysChmod | SysWrite | SysSync | SysClose | SysRename
| SysOpenDir | SysSyncDir | SysLstat | SysRandom.

(** [fail s] is the error of system call [s], if it fails; [part] is how much
    of the data a failing write leaves in the temporary file. *)
Record io := mkIo { io_fail : syscall -> option string; io_part : nat }.

Definition io_good : io := mkIo (fun _ => None) 0.

(** Run a call, or clean up with [on_fail] and report its error. *)
Definition try_sys (o : io) (s : syscall) (on_fail : disk)
    (k : result string unit * disk) : result string unit * disk :=
  match io_fail o s with
  | Some e => (Err e, on_fail)
  | None => k
  end.

(** [writeAtomic] of lease.go: the deferred [os.Remove] of the temporary file
    runs on every return after its creation. *)
Definition writeAtomic (o : io) (tmp path : string) (data : bytes) (d : disk)
  : result string unit * disk :=
  try_sys o SysMkdir d
  (try_sys o SysCreate d
  (try_sys o SysChmod (delete tmp d)
  (try_sys o SysWrite (delete tmp d)
  (try_sys o SysSync (delete tmp d)
  (try_sys o SysClose (delete tmp d)
  (try_sys o SysRename (delete tmp d)
  (let d' := delete tmp (<[path := Regular data]> d) in
   try_sys o SysOpenDir d' (try_sys o SysSyncDir d' (Ok tt, d'))))))))).

(** [securefile.Write]: refuses a destination that is not a regular file, and
    syncs only on request. *)
Definition securefile_Write (o : io) (tmp path : string) (data : bytes) (sync : bool) (d : disk)
  : result string unit * disk :=
  try_sys o SysOpenDir d
  (match d !! path with
   | Some Special => (Err "managed state destination is not a regular file"%string, d)
   | _ =>
     try_sys o SysLstat d
     (try_sys o SysRandom d
     (try_sys o SysCreate d
     (try_sys o SysWrite (delete tmp d)
     (try_sys o SysChmod (delete tmp d)
     ((if sync then try_sys o SysSync (delete tmp d) else id)
     (try_sys o SysClose (delete tmp d)
     (try_sys o SysRename (delete tmp d)
     (let d' := delete tmp (<[path := Regular data]> d) in
      if sync then try_sys o SysSyncDir d' (Ok tt, d') else (Ok tt, d')))))))))
   end).

(** ** What a crash can leave behind *)

Inductive write_phase := Started | Created | Written | Renamed | Returned.

(** Disk states between system calls of one atomic write. The data reaches
    the temporary file in pieces; the rename moves it in one step. *)
Inductive crash_step (tmp path : string) (data : bytes)
  : write_phase * disk -> write_phase * disk -> Prop :=
| cs_create d : crash_step tmp path data (Started, d) (Created, <[tmp := Regular []]> d)
| cs_write d n :
    crash_step tmp path data (Created, d) (Created, <[tmp := Regular (take n data)]> d)
| cs_written d :
    crash_step tmp path data (Created, d) (Written, <[tmp := Regular data]> d)
| cs_rename d :
    d !! tmp = Some (Regular data) ->
    crash_step tmp path data (Written, d) (Renamed, delete tmp (<[path := Regular data]> d))
| cs_abort ph d :
    ph <> Returned -> crash_step tmp path data (ph, d) (Returned, delete tmp d)
| cs_return d : crash_step tmp path data (Renamed, d) (Returned, d).

(** Everything but the temporary file and the destination is untouched, and
    the destination holds its old entry or the complete new one. *)
Definition write_inv (tmp path : string) (data : bytes) (d0 : disk) (s : write_phase * disk) : Prop :=
  (forall p, p <> tmp -> p <> path -> snd s !! p = d0 !! p) /\
  (snd s !! path = d0 !! path \/ snd s !! path = Some (Regular data)) /\
  (fst s = Started \/ fst s = Created \/ fst s = Written -> snd s !! path = d0 !! path).

Section Atomicity.
Context (tmp path : string) (data : bytes) (d0 : disk).
Context (Hne : tmp <> path).

Lemma write_inv_step s s' :
  crash_step tmp path data s s' -> write_inv tmp path data d0 s -> write_inv tmp path data d0 s'.
Proof.
  intros Hs (Hother & Hpath & Hearly).
  destruct Hs; cbn [fst snd] in *; split_and!; intros;
    try (by destruct_or?); simplify_map_eq; eauto 6.
  all: try (rewrite lookup_insert_ne by congruence; eauto).
  all: try (rewrite lookup_delete_ne by congruence; eauto).
  all: try (rewrite lookup_insert_ne by congruence; eauto).
  all: rewrite ?lookup_insert_eq; eauto.
Qed.

(** Whatever the crash point, the destination holds old or complete new data. *)
Theorem crash_atomic s :
  rtc (crash_step tmp path data) (Started, d0) s ->
  snd s !! path = d0 !! path \/ snd s !! path = Some (Regular data).
Proof.
  intros Hs. assert (write_inv tmp path data d0 s) as Hi.
  { assert (write_inv tmp path data d0 (Started, d0)) as Hi0 by (split_and!; eauto).
    revert Hi0. induction Hs; eauto using write_inv_step. }
  apply Hi.
Qed.

Lemma try_sys_spec (P : result string unit * disk -> Prop) o s d k :
  (forall e, P (Err e, d)) -> P k -> P (try_sys o s d k).
Proof. unfold try_sys. destruct (io_fail o s); auto. Qed.

(** Close a goal about lookups in an updated disk. *)
Ltac disk_lookup :=
  cbn [fst snd]; split_and!; intros;
  repeat first [rewrite lookup_delete_ne by congruence | rewrite lookup_insert_eq
               | rewrite lookup_insert_ne by congruence];
  first [done | by left | by right | congruence | by split_and!; congruence].

Lemma writeAtomic_spec o :
  let s := writeAtomic o tmp path data d0 in
  (fst s = Ok tt -> snd s !! path = Some (Regular data)) /\
  (snd s !! path = d0 !! path \/ snd s !! path = Some (Regular data)) /\
  (forall p, p <> tmp -> p <> path -> snd s !! p = d0 !! p).
Proof.
  cbv zeta. unfold writeAtomic.
  repeat (apply try_sys_spec; [intros ?; disk_lookup |]). disk_lookup.
Qed.

Lemma securefile_Write_spec o sync :
  let s := securefile_Write o tmp path data sync d0 in
  (fst s = Ok tt -> snd s !! path = Some (Regular data) /\ d0 !! path <> Some Special) /\
  (snd s !! path = d0 !! path \/ snd s !! path = Some (Regular data)) /\
  (forall p, p <> tmp -> p <> path -> snd s !! p = d0 !! p).
Proof.
  cbv zeta. unfold securefile_Write, id.
  apply try_sys_spec; [intros ?; disk_lookup |].
  destruct (d0 !! path) as [[] |] eqn:E, sync;
    repeat (apply try_sys_spec; [intros ?; disk_lookup |]); disk_lookup.
Qed.

(** Without a sync the rename is the last call: a failure leaves the old
    entry. *)
Lemma securefile_Write_unsynced o e d' :
  securefile_Write o tmp path data false d0 = (Err e, d') -> d' !! path = d0 !! path.
Proof.
  unfold securefile_Write, id, try_sys. intros H.
  repeat match type of H with context [match ?x with _ => _ end] => let E := fresh in destruct x eqn:E end;
    first [discriminate | injection H as _ <-; rewrite ?lookup_delete_ne by congruence; congruence].
Qed.

End Atomicity.
