(* ===== verification/Json.v ===== *)
(** * Json: encoding of persisted records

    The programs persist records with [encoding/json]. A component takes the
    encoder of its record as an instance of [Codec]; theorems about reloading
    add the round-trip law [CodecLaws]. [countable_codec] is a concrete codec,
    used where a witness needs one. *)

From S2P Require Import Prelude.

Class Codec (A : Type) := {
  json_Marshal : A -> option (list ascii);
  json_Unmarshal : list ascii -> option A
}.

(** What [encoding/json] promises for values that came from JSON. *)
Class CodecLaws {A} (C : Codec A) :=
  json_roundtrip : forall x b, json_Marshal x = Some b -> json_Unmarshal b = Some x.

Section Countable.
Context {A : Type} `{Countable A}.

Fixpoint positive_bytes (p : positive) : list ascii :=
  match p with
  | xH => []
  | xO p' => "0"%char :: positive_bytes p'
  | xI p' => "1"%char :: positive_bytes p'
  end.

Fixpoint bytes_positive (l : list ascii) : positive :=
  match l with
  | [] => xH
  | c :: l' => if Ascii.eqb c "0"%char then xO (bytes_positive l') else xI (bytes_positive l')
  end.

Lemma bytes_positive_bytes p : bytes_positive (positive_bytes p) = p.
Proof. by induction p as [p IH | p IH |]; cbn; rewrite ?IH. Qed.

Definition countable_codec : Codec A := {|
  json_Marshal x := Some (positive_bytes (encode x));
  json_Unmarshal b := decode (bytes_positive b)
|}.

Lemma countable_codec_laws : CodecLaws countable_codec.
Proof. intros x b [= <-]. cbn. by rewrite bytes_positive_bytes, decode_encode. Qed.

End Countable.
