(* ===== verification/StateFile.v ===== *)
(** * StateFile: the agent's state files

    The layer every persistent record of the agent goes through: securefile's
    bounded read, the purpose-bound envelope of internal/protectedstate, and
    the state files of the runner (internal/agent/agent.go,
    runtime_security_storage.go), which are sealed at rest in stealth mode and,
    for the files that hold private keys, protected under a runtime key.

    The mapping of logical names to paths is a field of the runner: in stealth
    mode it is an HMAC. Random bytes and the outcome of every system call are
    arguments. [StateFiles] is what clients rely on, [runner_files] provides
    it. *)

From S2P Require Import Prelude Stealth Files Json.

(** ** Bounded reads *)

(** [securefile.Read]. *)
Definition securefile_Read (d : disk) (path : string) (limit : Z) : result read_error bytes :=
  match d !! path with
  | None => Err NotExist
  | Some (Regular b) =>
      if limit <? Z.of_nat (List.length b) then Err (ReadFailed "unsafe or oversized managed file") else Ok b
  | Some (Unreadable e) => Err (ReadFailed e)
  | Some Special => Err (ReadFailed "unsafe or oversized managed file")
  end.

(** ** Purpose-bound envelopes: internal/protectedstate *)

Section StateFile.
Context {A : AEAD}.

Definition Magic : bytes := list_ascii_of_string "OBRP1".

Definition has_prefix (raw prefix : bytes) : bool :=
  match strip_prefix prefix raw with Some _ => true | None => false end.

Definition IsProtected (raw : bytes) : bool := has_prefix raw Magic.

Definition bound_prefix (purpose : string) : bytes :=
  list_ascii_of_string "oboard-runtime-state-v1:" ++ list_ascii_of_string purpose ++ [byte_of 0].

Definition Seal (key : bytes) (nonce : option bytes) (purpose : string) (raw : bytes) : result string bytes :=
  match Encrypt key nonce (bound_prefix purpose ++ raw) with
  | Err _ => Err "stealth"%string
  | Ok sealed => Ok (Magic ++ sealed)
  end.

Definition Open (key : bytes) (purpose : string) (raw : bytes) : result string bytes :=
  if negb (IsProtected raw) then Err "invalid protected state"%string
  else
    match Decrypt key (drop (List.length Magic) raw) with
    | Err _ => Err "protected state authentication failed"%string
    | Ok bound =>
        match strip_prefix (bound_prefix purpose) bound with
        | None => Err "protected state purpose mismatch"%string
        | Some rest => Ok rest
        end
    end.

(** ** The runner's state files *)

Record Runner := mkRunner { rn_StealthKey : bytes; rn_statePath : string -> string }.

(** The fields of runtime-security.json the storage reads. *)
Record runtimeProfile := mkProfile { rp_Mode : string }.

Context {CP : Codec runtimeProfile}.

Definition runtimeSecurityFile : string := "runtime-security.json".
Definition runtimeStorageReady : string := "runtime-storage-ready.json".
Definition runtimeSecretsKey : string := "runtime-secrets.key".
Definition runtimeProtectedFiles : list string :=
  ["ssh-inbounds.json"; "ssh-inbounds.last-good.json"; "ssh-inbounds-host-key"; "tunnels.json"; "tunnels.last-good.json"]%string.

Definition stealthOn (r : Runner) : bool := (List.length (rn_StealthKey r) =? KeyLen)%nat.

(** Opens a stealth envelope; anything else is taken as it is. *)
Definition sniff (r : Runner) (raw : bytes) : result string bytes :=
  if stealthOn r && IsEncrypted raw then
    match Decrypt (rn_StealthKey r) raw with Ok p => Ok p | Err _ => Err "stealth"%string end
  else Ok raw.

Fixpoint purpose_of (r : Runner) (path : string) (names : list string) : string :=
  match names with
  | [] => ""
  | name :: names => if path =s rn_statePath r name then name else purpose_of r path names
  end.
Definition runtimeStatePurpose (r : Runner) (path : string) : string := purpose_of r path runtimeProtectedFiles.

Inductive state_error :=
| StateNotExist
| StateFailed (e : string).

Definition lift_read {X} (e : read_error) : result state_error X :=
  match e with NotExist => Err StateNotExist | ReadFailed e => Err (StateFailed e) end.

Definition runtimeStorageKey (r : Runner) (d : disk) : result state_error bytes :=
  match securefile_Read d (rn_statePath r runtimeSecretsKey) 256 with
  | Err e => lift_read e
  | Ok raw =>
      match sniff r raw with
      | Err e => Err (StateFailed e)
      | Ok raw => if (List.length raw =? KeyLen)%nat then Ok raw else Err (StateFailed "invalid runtime storage key")
      end
  end.

Definition runtimeStorageRequired (r : Runner) (d : disk) : bool :=
  match d !! rn_statePath r runtimeStorageReady with
  | Some _ => true
  | None =>
      match securefile_Read d (rn_statePath r runtimeSecurityFile) 4096 with
      | Err NotExist => false
      | Err (ReadFailed _) => true
      | Ok raw =>
          match sniff r raw with
          | Err _ => true
          | Ok raw => match json_Unmarshal raw with
                      | None => true
                      | Some p => negb (rp_Mode p =s "standard")
                      end
          end
      end
  end.

Definition protectRuntimeState (r : Runner) (d : disk) (nonce : option bytes) (path : string) (raw : bytes)
  : result string bytes :=
  let purpose := runtimeStatePurpose r path in
  if purpose =s "" then Ok raw
  else
    match runtimeStorageKey r d with
    | Err StateNotExist => if runtimeStorageRequired r d then Err "runtime storage key missing"%string else Ok raw
    | Err (StateFailed e) => Err e
    | Ok key => Seal key nonce purpose raw
    end.

Definition openRuntimeState (r : Runner) (d : disk) (path : string) (raw : bytes) : result state_error bytes :=
  let purpose := runtimeStatePurpose r path in
  if negb (IsProtected raw) then
    if negb (purpose =s "") && runtimeStorageRequired r d
    then Err (StateFailed "unprotected runtime state rejected") else Ok raw
  else if purpose =s "" then Err (StateFailed "protected state has an unexpected purpose")
  else
    match runtimeStorageKey r d with
    | Err e => Err e
    | Ok key => match Open key purpose raw with Ok p => Ok p | Err e => Err (StateFailed e) end
    end.

Definition stateReadPath (r : Runner) (d : disk) (path : string) : result state_error bytes :=
  match securefile_Read d path (Z.shiftl 32 20) with
  | Err e => lift_read e
  | Ok data =>
      match sniff r data with
      | Err e => Err (StateFailed e)
      | Ok data => openRuntimeState r d path data
      end
  end.

(** What one write draws from its surroundings. *)
Record StateEnv := mkStateEnv {
  se_io : io; se_tmp : string; se_nonce : option bytes; se_protectNonce : option bytes
}.

(** [stateWritePath] and, with [sync], [stateWritePathSynced]. *)
Definition stateWritePath (r : Runner) (e : StateEnv) (sync : bool) (path : string) (data : bytes) (d : disk)
  : result string unit * disk :=
  match protectRuntimeState r d (se_protectNonce e) path data with
  | Err err => (Err err, d)
  | Ok data =>
      if stealthOn r then
        match Encrypt (rn_StealthKey r) (se_nonce e) data with
        | Err _ => (Err "stealth"%string, d)
        | Ok data => securefile_Write (se_io e) (se_tmp e) path data sync d
        end
      else securefile_Write (se_io e) (se_tmp e) path data sync d
  end.

(** ** Enabling the protected storage *)

(** The scan before a key is created: no file may be protected under a key
    that is missing. *)
Fixpoint no_orphans (r : Runner) (d : disk) (names : list string) : result string unit :=
  match names with
  | [] => Ok tt
  | name :: names =>
      match securefile_Read d (rn_statePath r name) (Z.shiftl 8 20) with
      | Err NotExist => no_orphans r d names
      | Err (ReadFailed e) => Err e
      | Ok raw =>
          match sniff r raw with
          | Err e => Err e
          | Ok raw => if IsProtected raw then Err "runtime storage key missing"%string else no_orphans r d names
          end
      end
  end.

(** Rewrites every private file under the key. *)
Fixpoint reprotect (r : Runner) (envs : string -> StateEnv) (names : list string) (d : disk) : result string unit * disk :=
  match names with
  | [] => (Ok tt, d)
  | name :: names =>
      match stateReadPath r d (rn_statePath r name) with
      | Err StateNotExist => reprotect r envs names d
      | Err (StateFailed e) => (Err e, d)
      | Ok raw =>
          match stateWritePath r (envs name) true (rn_statePath r name) raw d with
          | (Err e, d) => (Err e, d)
          | (Ok _, d) => reprotect r envs names d
          end
      end
  end.

(** [fresh] is the generated key, [None] without randomness; [envs] gives the
    surroundings of the write of each file. *)
Definition enableRuntimeStorage (r : Runner) (envs : string -> StateEnv) (fresh : option bytes) (d : disk)
  : result string unit * disk :=
  let '(keyed, d) :=
    match runtimeStorageKey r d with
    | Ok _ => (Ok tt, d)
    | Err (StateFailed e) => (Err e, d)
    | Err StateNotExist =>
        if runtimeStorageRequired r d then (Err "runtime storage key missing"%string, d)
        else
          match no_orphans r d runtimeProtectedFiles with
          | Err e => (Err e, d)
          | Ok _ =>
              match fresh with
              | None => (Err "random"%string, d)
              | Some key => stateWritePath r (envs runtimeSecretsKey) true (rn_statePath r runtimeSecretsKey) key d
              end
          end
    end in
  match keyed with
  | Err e => (Err e, d)
  | Ok _ =>
      match reprotect r envs runtimeProtectedFiles d with
      | (Err e, d) => (Err e, d)
      | (Ok _, d) =>
          stateWritePath r (envs runtimeStorageReady) true (rn_statePath r runtimeStorageReady)
            (list_ascii_of_string "1") d
      end
  end.

(** The checks of [verifyRuntimeStorage] on the private files. *)
Fixpoint verify_files (r : Runner) (d : disk) (key : bytes) (names : list string) : result string unit :=
  match names with
  | [] => Ok tt
  | name :: names =>
      match securefile_Read d (rn_statePath r name) (Z.shiftl 8 20) with
      | Err NotExist => verify_files r d key names
      | Err (ReadFailed e) => Err e
      | Ok raw =>
          match sniff r raw with
          | Err e => Err e
          | Ok raw =>
              if negb (IsProtected raw) then Err "unprotected private state"%string
              else match Open key name raw with Err e => Err e | Ok _ => verify_files r d key names end
          end
      end
  end.

Definition verifyRuntimeStorage (r : Runner) (d : disk) : result string bool :=
  match runtimeStorageKey r d with
  | Err StateNotExist => if runtimeStorageRequired r d then Err "missing"%string else Ok false
  | Err (StateFailed e) => Err e
  | Ok key =>
      match verify_files r d key runtimeProtectedFiles with
      | Err e => Err e
      | Ok _ => Ok (runtimeStorageRequired r d)
      end
  end.

(** ** Envelopes *)

Context {L : AEADLaws A}.

Lemma strip_prefix_app (p l : bytes) : strip_prefix p (p ++ l) = Some l.
Proof. induction p as [| c p IH]; [done |]. cbn. by rewrite Ascii.eqb_refl. Qed.

Lemma strip_prefix_Some (p l rest : bytes) : strip_prefix p l = Some rest -> l = p ++ rest.
Proof.
  revert l. induction p as [| c p IH]; intros l; cbn; [by intros [= ->] |].
  destruct l as [| b l]; [done |]. destruct (Ascii.eqb_spec c b) as [-> |]; [| done].
  intros H. by rewrite (IH _ H).
Qed.

Lemma Seal_Ok key n purpose raw s :
  Seal key (Some n) purpose raw = Ok s ->
  exists sealed, s = Magic ++ sealed /\ Encrypt key (Some n) (bound_prefix purpose ++ raw) = Ok sealed.
Proof. unfold Seal. destruct (Encrypt _ _ _) as [sealed |]; [| done]. intros [= <-]. eauto. Qed.

Lemma Open_sealed key n purpose raw s q :
  List.length n = nonceLen -> Seal key (Some n) purpose raw = Ok s ->
  IsProtected s = true /\
  Open key q s = match strip_prefix (bound_prefix q) (bound_prefix purpose ++ raw) with
                 | Some rest => Ok rest
                 | None => Err "protected state purpose mismatch"%string
                 end.
Proof.
  intros Hn (sealed & -> & He)%Seal_Ok. destruct (Decrypt_Encrypt _ _ _ _ Hn He) as [Hd _].
  assert (IsProtected (Magic ++ sealed) = true) as Hp by (unfold IsProtected, has_prefix; by rewrite strip_prefix_app).
  split; [exact Hp |]. unfold Open. rewrite Hp. cbn [negb]. rewrite drop_app_length, Hd. done.
Qed.

Lemma Encrypt_length key n p s :
  List.length n = nonceLen -> Encrypt key (Some n) p = Ok s -> List.length s = (List.length p + 33)%nat.
Proof.
  intros Hn. unfold Encrypt. split_ifs; [done |]. unfold gcm. destruct (_ =? _)%nat; [| done]. cbn [result_bind].
  intros Heq. assert (s = EnvelopeMagic ++ n ++ aead_seal key n p) as -> by congruence.
  rewrite !length_app, aead_seal_length, Hn. unfold nonceLen, gcm_overhead.
  change (List.length EnvelopeMagic) with 5%nat. lia.
Qed.

(** A purpose is a file name: it holds no NUL byte. *)
Definition no_nul (s : string) : Prop := byte_of 0 ∉ list_ascii_of_string s.

(** Text up to its first NUL is determined by the text that follows it. *)
Lemma nul_terminated (a b ra rb : bytes) :
  byte_of 0 ∉ a -> byte_of 0 ∉ b -> a ++ [byte_of 0] ++ ra = b ++ [byte_of 0] ++ rb -> a = b.
Proof.
  revert b. induction a as [| x a IH]; intros [| y b] Ha Hb E; cbn in E; [done | | |].
  - injection E as <- _. exfalso. apply Hb. constructor.
  - injection E as -> _. exfalso. apply Ha. constructor.
  - injection E as -> E. f_equal. apply (IH b); [set_solver | set_solver | exact E].
Qed.

(** C29: a state file sealed for one purpose opens for no other: copying the
    sealed SSH configuration over the tunnel configuration, or any other such
    swap under the same key, is rejected, and for its own purpose it opens to
    exactly the bytes that were sealed. *)
Theorem sealed_state_opens_for_its_purpose_only key n purpose raw s q x :
  List.length n = nonceLen -> no_nul purpose -> no_nul q ->
  Seal key (Some n) purpose raw = Ok s ->
  Open key q s = Ok x <-> q = purpose /\ x = raw.
Proof.
  intros Hn Hp Hq Hs. destruct (Open_sealed key n purpose raw s q Hn Hs) as [_ ->]. split.
  - destruct (strip_prefix _ _) as [rest |] eqn:E; [| done]. intros [= <-].
    apply strip_prefix_Some in E. unfold bound_prefix in E.
    rewrite <- !app_assoc in E. apply app_inv_head in E.
    pose proof (nul_terminated _ _ _ _ Hp Hq E) as Heq.
    apply (f_equal string_of_list_ascii) in Heq. rewrite !string_of_list_ascii_of_string in Heq. subst q.
    split; [done |]. by apply app_inv_head, app_inv_head in E.
  - intros [-> ->]. by rewrite strip_prefix_app.
Qed.

(** ** Writing and reading back *)

Definition state_names : list string := runtimeSecurityFile :: runtimeStorageReady :: runtimeSecretsKey :: runtimeProtectedFiles.

(** Distinct state files have distinct paths. *)
Definition paths_ok (r : Runner) : Prop :=
  forall a b, a ∈ state_names -> b ∈ state_names -> rn_statePath r a = rn_statePath r b -> a = b.

(** The random source gives whole nonces and the temporary name is no state
    file. *)
Definition nonce_ok (n : option bytes) : Prop := match n with Some n => List.length n = nonceLen | None => True end.
Definition env_ok (r : Runner) (path : string) (e : StateEnv) : Prop :=
  se_tmp e <> path /\ (forall a, a ∈ state_names -> se_tmp e <> rn_statePath r a) /\
  nonce_ok (se_nonce e) /\ nonce_ok (se_protectNonce e).

Lemma securefile_Read_ext d d' path limit : d' !! path = d !! path -> securefile_Read d' path limit = securefile_Read d path limit.
Proof. unfold securefile_Read. by intros ->. Qed.

Lemma runtimeStorageKey_ext r d d' :
  d' !! rn_statePath r runtimeSecretsKey = d !! rn_statePath r runtimeSecretsKey ->
  runtimeStorageKey r d' = runtimeStorageKey r d.
Proof. intros H. unfold runtimeStorageKey. by rewrite (securefile_Read_ext d d' _ _ H). Qed.

Lemma runtimeStorageRequired_ext r d d' :
  d' !! rn_statePath r runtimeStorageReady = d !! rn_statePath r runtimeStorageReady ->
  d' !! rn_statePath r runtimeSecurityFile = d !! rn_statePath r runtimeSecurityFile ->
  runtimeStorageRequired r d' = runtimeStorageRequired r d.
Proof. intros H1 H2. unfold runtimeStorageRequired. by rewrite H1, (securefile_Read_ext d d' _ _ H2). Qed.

(** The bytes [stateWritePath] hands to the file system, and what becomes of
    them. *)
Definition envelope (r : Runner) (n : option bytes) (data : bytes) : result string bytes :=
  if stealthOn r then match Encrypt (rn_StealthKey r) n data with Err _ => Err "stealth"%string | Ok s => Ok s end
  else Ok data.

Lemma stateWritePath_cases r e sync path data d res d' :
  se_tmp e <> path -> stateWritePath r e sync path data d = (res, d') ->
  (forall p, p <> se_tmp e -> p <> path -> d' !! p = d !! p) /\
  ((d' !! path = d !! path /\ res <> Ok tt) \/
   exists prot stored, protectRuntimeState r d (se_protectNonce e) path data = Ok prot /\
     envelope r (se_nonce e) prot = Ok stored /\ (d' !! path = d !! path \/ d' !! path = Some (Regular stored)) /\
     (res = Ok tt -> d' !! path = Some (Regular stored))).
Proof.
  intros Hne. unfold stateWritePath. destruct (protectRuntimeState _ _ _ _ _) as [prot | err].
  2:{ intros [= <- <-]. split; [done |]. by left. }
  intros Hw.
  assert ((exists stored, envelope r (se_nonce e) prot = Ok stored /\
     securefile_Write (se_io e) (se_tmp e) path stored sync d = (res, d')) \/
    (d' = d /\ res <> Ok tt)) as [(stored & He & Hs) | [-> Hr]].
  { unfold envelope. destruct (stealthOn r); [| eauto]. destruct (Encrypt _ _ _); [eauto |].
    injection Hw as <- <-. by right. }
  2:{ split; [done |]. by left. }
  pose proof (securefile_Write_spec (se_tmp e) path stored d Hne (se_io e) sync) as Hspec. rewrite Hs in Hspec.
  cbn [fst snd] in Hspec. destruct Hspec as (Hok & Hold & Hother). split; [done |]. right.
  exists prot, stored. split_and!; [done | done | done |]. intros ->. by apply Hok.
Qed.

Lemma sniff_envelope r n data stored :
  nonce_ok n -> envelope r n data = Ok stored -> sniff r stored = Ok data.
Proof.
  intros Hn. unfold envelope, sniff. destruct (stealthOn r) eqn:Eo; [| by intros [= <-]].
  destruct (Encrypt (rn_StealthKey r) n data) as [s |] eqn:Ee; [| done]. intros [= <-].
  assert (exists nn, n = Some nn) as [nn ->].
  { destruct n as [nn |]; [eauto |]. unfold Encrypt in Ee. destruct (_ <? _); [done |]. by destruct (gcm _). }
  destruct (Decrypt_Encrypt _ _ _ _ Hn Ee) as [-> ->]. done.
Qed.

Lemma envelope_length r n data stored :
  nonce_ok n -> envelope r n data = Ok stored -> (List.length stored <= List.length data + 33)%nat.
Proof.
  intros Hn. unfold envelope. destruct (stealthOn r); [| by intros [= <-]; lia].
  destruct (Encrypt (rn_StealthKey r) n data) as [s |] eqn:Ee; [| done]. intros [= <-].
  destruct n as [nn |].
  - rewrite (Encrypt_length _ _ _ _ Hn Ee). lia.
  - unfold Encrypt in Ee. destruct (_ <? _); [done |]. by destruct (gcm _).
Qed.

(** Reading a path whose file holds an envelope of [data]. *)
Lemma stateReadPath_stored r d path n data stored :
  nonce_ok n -> envelope r n data = Ok stored -> d !! path = Some (Regular stored) ->
  Z.of_nat (List.length data) + 33 <= Z.shiftl 32 20 ->
  stateReadPath r d path = openRuntimeState r d path data.
Proof.
  intros Hn He Hd Hlen. pose proof (envelope_length _ _ _ _ Hn He) as Hl. unfold stateReadPath, securefile_Read.
  rewrite Hd. destruct (Z.ltb_spec (Z.shiftl 32 20) (Z.of_nat (List.length stored))); [lia |].
  by rewrite (sniff_envelope _ _ _ _ Hn He).
Qed.

Lemma stateReadPath_ext r d d' path :
  d' !! path = d !! path ->
  d' !! rn_statePath r runtimeSecretsKey = d !! rn_statePath r runtimeSecretsKey ->
  d' !! rn_statePath r runtimeStorageReady = d !! rn_statePath r runtimeStorageReady ->
  d' !! rn_statePath r runtimeSecurityFile = d !! rn_statePath r runtimeSecurityFile ->
  stateReadPath r d' path = stateReadPath r d path.
Proof.
  intros H1 H2 H3 H4. unfold stateReadPath, openRuntimeState.
  rewrite (securefile_Read_ext d d' _ _ H1), (runtimeStorageKey_ext r d d' H2), (runtimeStorageRequired_ext r d d' H3 H4).
  done.
Qed.

(** ** Purposes *)

Section Purposes.
Context (r : Runner) (Hpaths : paths_ok r).

Lemma purpose_of_in names name :
  (forall x, x ∈ names -> x ∈ state_names) -> name ∈ names -> purpose_of r (rn_statePath r name) names = name.
Proof.
  induction names as [| x names IH]; intros Hsub Hin; [by apply elem_of_nil in Hin |]. cbn [purpose_of].
  destruct (str_eqb (rn_statePath r name) (rn_statePath r x)) eqn:E.
  - apply str_eqb_eq in E. symmetry. apply Hpaths; [| apply Hsub; constructor | exact E]. by apply Hsub.
  - apply str_eqb_neq in E. apply IH; [intros y Hy; apply Hsub; by constructor |].
    apply elem_of_cons in Hin as [-> | Hin]; [done | exact Hin].
Qed.

Lemma purpose_of_out names path : (forall x, x ∈ names -> path <> rn_statePath r x) -> purpose_of r path names = ""%string.
Proof.
  induction names as [| x names IH]; intros Hout; [done |]. cbn [purpose_of].
  rewrite (proj2 (str_eqb_neq _ _) (Hout x ltac:(constructor))). apply IH. intros y Hy. apply Hout. by constructor.
Qed.

Lemma protected_names x : x ∈ runtimeProtectedFiles -> x ∈ state_names.
Proof. intros H. unfold state_names. do 3 (apply elem_of_cons; right). exact H. Qed.

Lemma purpose_protected name :
  name ∈ runtimeProtectedFiles -> runtimeStatePurpose r (rn_statePath r name) = name /\ name <> ""%string.
Proof.
  intros H. split; [apply purpose_of_in; [apply protected_names | exact H] |].
  intros ->. unfold runtimeProtectedFiles in H. rewrite !elem_of_cons, elem_of_nil in H. by destruct_or! H.
Qed.

Lemma purpose_plain name :
  name ∈ [runtimeSecurityFile; runtimeStorageReady; runtimeSecretsKey] -> runtimeStatePurpose r (rn_statePath r name) = ""%string.
Proof.
  intros H. apply purpose_of_out. intros x Hx E.
  assert (name ∈ state_names) as Hn by (unfold state_names; rewrite !elem_of_cons in H |- *; rewrite elem_of_nil in H; tauto).
  pose proof (Hpaths _ _ Hn (protected_names x Hx) E) as ->. unfold runtimeProtectedFiles in Hx.
  rewrite !elem_of_cons, elem_of_nil in H. rewrite !elem_of_cons, elem_of_nil in Hx.
  destruct_or! H; subst x; by destruct_or! Hx.
Qed.

End Purposes.

(** ** The interface of one unprotected state file *)

Class StateFiles := {
  sf_read : disk -> result state_error bytes;
  sf_write : StateEnv -> bytes -> disk -> result string unit * disk;
  sf_env_ok : StateEnv -> Prop;
  sf_data_ok : bytes -> Prop
}.

(** A completed write is what is read back; a failed one leaves the old
    content or the new one. *)
Class StateFilesLaws (F : StateFiles) := {
  sf_written : forall e b d d', sf_env_ok e -> sf_data_ok b -> sf_write e b d = (Ok tt, d') -> sf_read d' = Ok b;
  sf_failed : forall e b d x d', sf_env_ok e -> sf_data_ok b -> sf_write e b d = (Err x, d') ->
    sf_read d' = sf_read d \/ sf_read d' = Ok b
}.

(** The runner's files provide it for every path without a purpose. *)
Definition runner_files (r : Runner) (path : string) : StateFiles := {|
  sf_read d := stateReadPath r d path;
  sf_write e b d := stateWritePath r e true path b d;
  sf_env_ok := env_ok r path;
  sf_data_ok b := IsProtected b = false /\ Z.of_nat (List.length b) + 33 <= Z.shiftl 32 20
|}.

Lemma runner_files_laws r path : runtimeStatePurpose r path = ""%string -> StateFilesLaws (runner_files r path).
Proof.
  intros Hp.
  assert (forall e b d d' stored, nonce_ok (se_nonce e) -> IsProtected b = false -> Z.of_nat (List.length b) + 33 <= Z.shiftl 32 20 ->
    protectRuntimeState r d (se_protectNonce e) path b = Ok b /\
    (envelope r (se_nonce e) b = Ok stored -> d' !! path = Some (Regular stored) -> stateReadPath r d' path = Ok b)) as Hkey.
  { intros e b d d' stored Hn Hprot Hlen. unfold protectRuntimeState. rewrite Hp. split; [done |]. intros He Hd.
    rewrite (stateReadPath_stored _ _ _ _ _ _ Hn He Hd Hlen). unfold openRuntimeState. by rewrite Hprot, Hp. }
  split; cbn.
  - intros e b d d' (Hne & _ & Hn & _) [Hprot Hlen] Hw.
    destruct (stateWritePath_cases _ _ _ _ _ _ _ _ Hne Hw) as [_ [[_ []] | (prot & stored & Hpr & He & _ & Hd)]]; [done |].
    destruct (Hkey e b d d' stored Hn Hprot Hlen) as [Hpr' Hread]. assert (prot = b) as -> by congruence. by apply Hread, Hd.
  - intros e b d x d' (Hne & _ & Hn & _) [Hprot Hlen] Hw.
    destruct (stateWritePath_cases _ _ _ _ _ _ _ _ Hne Hw) as [_ [[Hd _] | (prot & stored & Hpr & He & [Hd | Hd] & _)]].
    + left. unfold stateReadPath, openRuntimeState. by rewrite (securefile_Read_ext d d' _ _ Hd), Hp.
    + left. unfold stateReadPath, openRuntimeState. by rewrite (securefile_Read_ext d d' _ _ Hd), Hp.
    + right. destruct (Hkey e b d d' stored Hn Hprot Hlen) as [Hpr' Hread]. assert (prot = b) as -> by congruence. by apply Hread.
Qed.

(** Text that is neither an envelope nor too large for a state file. *)
Definition plain_text (b : bytes) : Prop :=
  IsProtected b = false /\ IsEncrypted b = false /\ Z.of_nat (List.length b) + 33 <= Z.shiftl 32 20.

(** What a file without a purpose reads as depends on its entry only. *)
Lemma read_ext {r} path d d' : runtimeStatePurpose r path = ""%string -> d' !! path = d !! path ->
  stateReadPath r d' path = stateReadPath r d path.
Proof.
  intros Hp Hd. unfold stateReadPath, openRuntimeState. rewrite (securefile_Read_ext d d' _ _ Hd), Hp. done.
Qed.

(** An unsynced write of such a file: it is read back as written, or as before
    when the write fails. *)
Lemma write_file {r} e path b d res d' :
  runtimeStatePurpose r path = ""%string -> se_tmp e <> path -> nonce_ok (se_nonce e) -> plain_text b ->
  stateWritePath r e false path b d = (res, d') ->
  (forall p, p <> se_tmp e -> p <> path -> d' !! p = d !! p) /\
  match res with Ok _ => stateReadPath r d' path = Ok b | Err _ => stateReadPath r d' path = stateReadPath r d path end.
Proof.
  intros Hp Hne Hn (Hprot & _ & Hlen) Hw. pose proof (stateWritePath_cases _ _ _ _ _ _ _ _ Hne Hw) as [Ho Hc].
  split; [exact Ho |]. destruct res as [[] | m].
  - destruct Hc as [[_ []] | (prot & stored & Hpr & He & _ & Hd)]; [done |]. specialize (Hd eq_refl).
    unfold protectRuntimeState in Hpr. rewrite Hp in Hpr. injection Hpr as <-.
    rewrite (stateReadPath_stored _ _ _ _ _ _ Hn He Hd Hlen). unfold openRuntimeState. by rewrite Hprot, Hp.
  - apply read_ext; [done |]. revert Hw. unfold stateWritePath. destruct (protectRuntimeState _ _ _ _ _); [| by intros [= _ <-]].
    destruct (stealthOn r); [destruct (Encrypt _ _ _); [| by intros [= _ <-]] |];
      intros H; by eapply securefile_Write_unsynced.
Qed.

(** ** Enabling the protected storage *)

Section Enable.
Context (r : Runner) (Hpaths : paths_ok r).
Context (envs : string -> StateEnv) (Henvs : forall a, a ∈ state_names -> env_ok r (rn_statePath r a) (envs a)).

(** The file of [name] holds [raw] sealed for it under [key]. *)
Definition sealed_at (d : disk) (key : bytes) (name : string) (raw : bytes) : Prop :=
  exists n prot m stored, d !! rn_statePath r name = Some (Regular stored) /\ List.length n = nonceLen /\
    Seal key (Some n) name raw = Ok prot /\ nonce_ok m /\ envelope r m prot = Ok stored.

(** A write to one state file leaves the others alone. *)
Lemma write_other a b sync data d res d' :
  a ∈ state_names -> b ∈ state_names -> a <> b ->
  stateWritePath r (envs a) sync (rn_statePath r a) data d = (res, d') ->
  d' !! rn_statePath r b = d !! rn_statePath r b.
Proof.
  intros Ha Hb Hne Hw. destruct (Henvs a Ha) as (Ht & Hts & _).
  destruct (stateWritePath_cases _ _ _ _ _ _ _ _ Ht Hw) as [Ho _]. apply Ho.
  - intros E. exact (Hts b Hb (eq_sym E)).
  - intros E. exact (Hne (Hpaths a b Ha Hb (eq_sym E))).
Qed.

Lemma protected_not_admin name x :
  name ∈ runtimeProtectedFiles -> x ∈ [runtimeSecurityFile; runtimeStorageReady; runtimeSecretsKey] -> name <> x.
Proof.
  intros H Hx ->. destruct (purpose_protected r Hpaths x H) as [Hp Hne].
  rewrite (purpose_plain r Hpaths x Hx) in Hp. by apply Hne.
Qed.

Lemma admin_names x : x ∈ [runtimeSecurityFile; runtimeStorageReady; runtimeSecretsKey] -> x ∈ state_names.
Proof. intros H. unfold state_names. rewrite !elem_of_cons in H |- *. rewrite elem_of_nil in H. tauto. Qed.

(** A write to a private file changes neither the key nor the mode. *)
Lemma write_private name data d res d' :
  name ∈ runtimeProtectedFiles -> stateWritePath r (envs name) true (rn_statePath r name) data d = (res, d') ->
  forall x, x ∈ [runtimeSecurityFile; runtimeStorageReady; runtimeSecretsKey] ->
  d' !! rn_statePath r x = d !! rn_statePath r x.
Proof.
  intros Hn Hw x Hx. apply (write_other name x true data d res d'); [| | | exact Hw].
  - by apply protected_names.
  - by apply admin_names.
  - by apply protected_not_admin.
Qed.

Lemma reprotect_one key name raw d d' :
  name ∈ runtimeProtectedFiles -> runtimeStorageKey r d = Ok key ->
  stateWritePath r (envs name) true (rn_statePath r name) raw d = (Ok tt, d') ->
  sealed_at d' key name raw.
Proof.
  intros Hn Hk Hw. destruct (Henvs name (protected_names _ Hn)) as (Ht & _ & Hn1 & Hn2).
  destruct (stateWritePath_cases _ _ _ _ _ _ _ _ Ht Hw) as [_ [[_ []] | (prot & stored & Hpr & He & _ & Hd)]]; [done |].
  unfold protectRuntimeState in Hpr. destruct (purpose_protected r Hpaths name Hn) as [Hp Hne].
  rewrite Hp, (proj2 (str_eqb_neq _ _) Hne), Hk in Hpr.
  destruct (se_protectNonce (envs name)) as [n |].
  - exists n, prot, (se_nonce (envs name)), stored. split_and!; [by apply Hd | exact Hn2 | exact Hpr | exact Hn1 | exact He].
  - exfalso. unfold Seal, Encrypt in Hpr. destruct (_ <? _) in Hpr; [done |]. by destruct (gcm key).
Qed.

(** The loop of [enableRuntimeStorage]. *)
Lemma reprotect_spec key names d d' :
  NoDup names -> (forall a, a ∈ names -> a ∈ runtimeProtectedFiles) -> runtimeStorageKey r d = Ok key ->
  reprotect r envs names d = (Ok tt, d') ->
  (forall x, x ∈ state_names -> x ∉ names -> d' !! rn_statePath r x = d !! rn_statePath r x) /\
  (forall name, name ∈ names ->
     (d' !! rn_statePath r name = None /\ d !! rn_statePath r name = None) \/
     exists raw, stateReadPath r d (rn_statePath r name) = Ok raw /\ sealed_at d' key name raw).
Proof.
  intros Hnd. revert d. induction Hnd as [| name names Hin Hnd IH]; intros d Hsub Hk; cbn [reprotect].
  { intros [= <-]. split; [done |]. intros name Hn. by apply elem_of_nil in Hn. }
  assert (name ∈ runtimeProtectedFiles) as Hname by (apply Hsub; constructor).
  assert (forall a, a ∈ names -> a ∈ runtimeProtectedFiles) as Hsub' by (intros a Ha; apply Hsub; by constructor).
  destruct (stateReadPath r d (rn_statePath r name)) as [raw | [| e]] eqn:Eread; [| | done].
  - destruct (stateWritePath _ _ _ _ _ _) as [[[] |] d1] eqn:Ew; [| done]. intros Hrest.
    pose proof (write_private _ _ _ _ _ Hname Ew) as Hadm.
    assert (runtimeStorageKey r d1 = Ok key) as Hk1.
    { rewrite (runtimeStorageKey_ext r d d1); [exact Hk |]. apply Hadm. rewrite !elem_of_cons. tauto. }
    destruct (IH d1 Hsub' Hk1 Hrest) as [Hother Hall]. split.
    + intros x Hx Hnot. apply not_elem_of_cons in Hnot as [Hne Hnot]. rewrite (Hother x Hx Hnot).
      apply (write_other name x true raw d (Ok tt) d1); [by apply protected_names | done | congruence | exact Ew].
    + intros x [-> | Hx]%elem_of_cons.
      * right. exists raw. split; [exact Eread |]. destruct (reprotect_one key name raw d d1 Hname Hk Ew) as (n & prot & m & st & Hst & Hrest').
        exists n, prot, m, st. split; [| exact Hrest']. rewrite (Hother name); [exact Hst | by apply protected_names | done].
      * assert (x <> name) as Hne by congruence.
        assert (d1 !! rn_statePath r x = d !! rn_statePath r x) as Hsame.
        { apply (write_other name x true raw d (Ok tt) d1); [by apply protected_names | by apply protected_names, Hsub' | congruence | exact Ew]. }
        destruct (Hall x Hx) as [[H1 H2] | (raw' & Hr & Hs)]; [left; split; congruence |]. right. exists raw'.
        split; [| exact Hs]. rewrite <- Hr. symmetry. apply stateReadPath_ext; [exact Hsame | | |]; apply Hadm; rewrite !elem_of_cons; tauto.
  - intros Hrest. destruct (IH d Hsub' Hk Hrest) as [Hother Hall]. split.
    + intros x Hx Hnot. apply not_elem_of_cons in Hnot as [_ Hnot]. by apply Hother.
    + intros x [-> | Hx]%elem_of_cons; [| by apply Hall]. left.
      assert (d !! rn_statePath r name = None) as Hnone.
      { unfold stateReadPath, securefile_Read, openRuntimeState in Eread. rewrite Hk in Eread.
        destruct (d !! rn_statePath r name) as [[b | e |] |]; [| done | done | done]. destruct (_ <? _) in Eread; [done |].
        destruct (sniff r b) as [x |]; [| done]. destruct (negb (IsProtected x)); [by destruct (_ && _) in Eread |].
        destruct (_ =s "") in Eread; [done |]. by destruct (Open _ _ _). }
      split; [| exact Hnone]. rewrite (Hother name); [exact Hnone | by apply protected_names | done].
Qed.

Lemma bound_prefix_length name : name ∈ runtimeProtectedFiles -> (List.length (bound_prefix name) <= 52)%nat.
Proof.
  unfold runtimeProtectedFiles. rewrite !elem_of_cons, elem_of_nil. intros H.
  destruct_or! H; try subst name; try done; vm_compute; lia.
Qed.

(** Sealing adds at most 128 bytes. *)
Lemma sealed_file d key name raw :
  name ∈ runtimeProtectedFiles -> sealed_at d key name raw -> Z.of_nat (List.length raw) + 128 <= Z.shiftl 8 20 ->
  exists stored prot, d !! rn_statePath r name = Some (Regular stored) /\
    Z.of_nat (List.length stored) <= Z.shiftl 8 20 /\ sniff r stored = Ok prot /\
    IsProtected prot = true /\ Open key name prot = Ok raw.
Proof.
  intros Hname (n & prot & m & stored & Hd & Hn & Hseal & Hm & Henv) Hlen. exists stored, prot.
  destruct (Open_sealed key n name raw prot name Hn Hseal) as [Hprot Hopen]. rewrite strip_prefix_app in Hopen.
  split_and!; [exact Hd | | exact (sniff_envelope _ _ _ _ Hm Henv) | exact Hprot | exact Hopen].
  destruct (Seal_Ok _ _ _ _ _ Hseal) as (sealed & -> & He).
  pose proof (envelope_length _ _ _ _ Hm Henv) as Hl. rewrite length_app, (Encrypt_length _ _ _ _ Hn He), length_app in Hl.
  change (List.length Magic) with 5%nat in Hl. pose proof (bound_prefix_length name Hname). lia.
Qed.

Lemma sealed_reads d key name raw :
  name ∈ runtimeProtectedFiles -> sealed_at d key name raw -> Z.of_nat (List.length raw) + 128 <= Z.shiftl 8 20 ->
  runtimeStorageKey r d = Ok key -> stateReadPath r d (rn_statePath r name) = Ok raw.
Proof.
  intros Hname Hs Hlen Hk. destruct (sealed_file d key name raw Hname Hs Hlen) as (stored & prot & Hd & Hl & Hsn & Hp & Ho).
  unfold stateReadPath, securefile_Read. rewrite Hd.
  change (Z.shiftl 8 20) with 8388608 in Hl. change (Z.shiftl 32 20) with 33554432.
  destruct (Z.ltb_spec 33554432 (Z.of_nat (List.length stored))); [lia |].
  rewrite Hsn. unfold openRuntimeState. destruct (purpose_protected r Hpaths name Hname) as [-> Hne].
  rewrite Hp, Hk, (proj2 (str_eqb_neq _ _) Hne). cbn [negb]. by rewrite Ho.
Qed.

Lemma verify_files_ok d key names :
  (forall name, name ∈ names -> name ∈ runtimeProtectedFiles /\
     (d !! rn_statePath r name = None \/
      exists raw, sealed_at d key name raw /\ Z.of_nat (List.length raw) + 128 <= Z.shiftl 8 20)) ->
  verify_files r d key names = Ok tt.
Proof.
  induction names as [| name names IH]; intros Hall; cbn [verify_files]; [done |].
  assert (verify_files r d key names = Ok tt) as Hrest by (apply IH; intros x Hx; apply Hall; by constructor).
  destruct (Hall name ltac:(constructor)) as [Hname [Hd | (raw & Hs & Hlen)]].
  - unfold securefile_Read. by rewrite Hd.
  - destruct (sealed_file d key name raw Hname Hs Hlen) as (stored & prot & Hd & Hl & Hsn & Hp & Ho).
    unfold securefile_Read. rewrite Hd, (proj2 (Z.ltb_ge _ _) Hl), Hsn, Hp, Ho. done.
Qed.

(** Creating the key does not change what the private files read as: none of
    them is protected yet. *)
Lemma no_orphans_reads names d d1 :
  (forall a, a ∈ names -> a ∈ runtimeProtectedFiles) ->
  runtimeStorageRequired r d = false -> runtimeStorageRequired r d1 = false ->
  (forall x, x ∈ runtimeProtectedFiles -> d1 !! rn_statePath r x = d !! rn_statePath r x) ->
  no_orphans r d names = Ok tt ->
  forall a, a ∈ names -> stateReadPath r d1 (rn_statePath r a) = stateReadPath r d (rn_statePath r a).
Proof.
  intros Hsub Hr Hr1 Hsame. induction names as [| name names IH]; [by intros _ a Ha%elem_of_nil |].
  assert (name ∈ runtimeProtectedFiles) as Hname by (apply Hsub; constructor).
  specialize (IH ltac:(intros a Ha; apply Hsub; by constructor)). cbn [no_orphans]. intros Hno a Ha.
  unfold securefile_Read in Hno.
  assert (no_orphans r d names = Ok tt /\
    stateReadPath r d1 (rn_statePath r name) = stateReadPath r d (rn_statePath r name)) as [Hrest Hfirst].
  { unfold stateReadPath. rewrite (securefile_Read_ext d d1 _ _ (Hsame name Hname)). unfold securefile_Read.
    destruct (d !! rn_statePath r name) as [[b | e |] |]; [| done | done | done].
    destruct (Z.ltb_spec (Z.shiftl 8 20) (Z.of_nat (List.length b))) as [_ | Hle]; [done |].
    change (Z.shiftl 8 20) with 8388608 in Hle. change (Z.shiftl 32 20) with 33554432.
    destruct (Z.ltb_spec 33554432 (Z.of_nat (List.length b))); [lia |].
    destruct (sniff r b) as [x |]; [| done]. destruct (IsProtected x) eqn:Ex; [done |]. split; [exact Hno |].
    unfold openRuntimeState. by rewrite Ex, Hr, Hr1. }
  apply elem_of_cons in Ha as [-> | Ha]; [exact Hfirst | exact (IH Hrest a Ha)].
Qed.

(** The key file after its write. *)
Lemma key_written key d d1 :
  List.length key = KeyLen ->
  stateWritePath r (envs runtimeSecretsKey) true (rn_statePath r runtimeSecretsKey) key d = (Ok tt, d1) ->
  runtimeStorageKey r d1 = Ok key.
Proof.
  intros Hlen Hw. assert (runtimeSecretsKey ∈ state_names) as Hin by (apply admin_names; rewrite !elem_of_cons; tauto).
  destruct (Henvs _ Hin) as (Ht & _ & Hn1 & _).
  destruct (stateWritePath_cases _ _ _ _ _ _ _ _ Ht Hw) as [_ [[_ []] | (prot & stored & Hpr & He & _ & Hd)]]; [done |].
  unfold protectRuntimeState in Hpr. rewrite (purpose_plain r Hpaths) in Hpr by (rewrite !elem_of_cons; tauto).
  cbn in Hpr. injection Hpr as <-. pose proof (envelope_length _ _ _ _ Hn1 He) as Hl. rewrite Hlen in Hl. unfold KeyLen in Hl.
  unfold runtimeStorageKey, securefile_Read. rewrite (Hd eq_refl).
  destruct (Z.ltb_spec 256 (Z.of_nat (List.length stored))); [lia |].
  rewrite (sniff_envelope _ _ _ _ Hn1 He), Hlen. done.
Qed.

Definition fresh_ok (fresh : option bytes) : Prop := match fresh with Some k => List.length k = KeyLen | None => True end.

(** The phases of a successful [enableRuntimeStorage]. *)
Lemma enable_phases fresh d d' :
  fresh_ok fresh -> enableRuntimeStorage r envs fresh d = (Ok tt, d') ->
  exists key d1 d2, runtimeStorageKey r d1 = Ok key /\
    (forall a, a ∈ runtimeProtectedFiles -> stateReadPath r d1 (rn_statePath r a) = stateReadPath r d (rn_statePath r a)) /\
    reprotect r envs runtimeProtectedFiles d1 = (Ok tt, d2) /\
    stateWritePath r (envs runtimeStorageReady) true (rn_statePath r runtimeStorageReady)
      (list_ascii_of_string "1") d2 = (Ok tt, d').
Proof.
  intros Hfresh. unfold enableRuntimeStorage.
  assert (forall d1 res d3, (match reprotect r envs runtimeProtectedFiles d1 with
      | (Err e, d) => (Err e, d)
      | (Ok _, d) => stateWritePath r (envs runtimeStorageReady) true (rn_statePath r runtimeStorageReady)
                       (list_ascii_of_string "1") d
      end) = (res, d3) -> res = Ok tt ->
    exists d2, reprotect r envs runtimeProtectedFiles d1 = (Ok tt, d2) /\
      stateWritePath r (envs runtimeStorageReady) true (rn_statePath r runtimeStorageReady)
        (list_ascii_of_string "1") d2 = (Ok tt, d3)) as Hrest.
  { intros d1 res d3. destruct (reprotect _ _ _ d1) as [[[] |] d2]; [| by intros [= <- <-]]. intros Hw ->. eauto. }
  destruct (runtimeStorageKey r d) as [key | [| e]] eqn:Ek; [| | done].
  { intros H. destruct (Hrest d _ d' H eq_refl) as (d2 & H1 & H2). exists key, d, d2. done. }
  destruct (runtimeStorageRequired r d) eqn:Er; [done |].
  destruct (no_orphans r d runtimeProtectedFiles) as [[] |] eqn:Eno; [| done].
  destruct fresh as [key |]; [| done].
  destruct (stateWritePath r (envs runtimeSecretsKey) _ _ _ _) as [[[] |] d1] eqn:Ew; [| done].
  intros H. destruct (Hrest d1 _ d' H eq_refl) as (d2 & H1 & H2). exists key, d1, d2.
  assert (forall x, x ∈ state_names -> x <> runtimeSecretsKey -> d1 !! rn_statePath r x = d !! rn_statePath r x) as Hsame.
  { intros x Hx Hne. apply (write_other runtimeSecretsKey x true key d (Ok tt) d1); [| done | congruence | exact Ew].
    apply admin_names. rewrite !elem_of_cons. tauto. }
  split; [exact (key_written key d d1 Hfresh Ew) |]. split_and!; [| exact H1 | exact H2].
  apply (no_orphans_reads runtimeProtectedFiles d d1); [done | exact Er | | | exact Eno].
  - rewrite (runtimeStorageRequired_ext r d d1); [exact Er | |]; apply Hsame; try discriminate;
      apply admin_names; rewrite !elem_of_cons; tauto.
  - intros x Hx. apply Hsame; [by apply protected_names |].
    apply protected_not_admin; [exact Hx | rewrite !elem_of_cons; tauto].
Qed.

(** What a successful [enableRuntimeStorage] leaves behind. *)
Lemma enable_result fresh d d' :
  fresh_ok fresh ->
  (forall name raw, name ∈ runtimeProtectedFiles -> stateReadPath r d (rn_statePath r name) = Ok raw ->
     Z.of_nat (List.length raw) + 128 <= Z.shiftl 8 20) ->
  enableRuntimeStorage r envs fresh d = (Ok tt, d') ->
  exists key, runtimeStorageKey r d' = Ok key /\ is_Some (d' !! rn_statePath r runtimeStorageReady) /\
    forall name, name ∈ runtimeProtectedFiles ->
      (d' !! rn_statePath r name = None /\ stateReadPath r d (rn_statePath r name) = Err StateNotExist) \/
      exists raw, stateReadPath r d (rn_statePath r name) = Ok raw /\ sealed_at d' key name raw /\
        Z.of_nat (List.length raw) + 128 <= Z.shiftl 8 20.
Proof.
  intros Hfresh Hsize Hen. destruct (enable_phases fresh d d' Hfresh Hen) as (key & d1 & d2 & Hk & Hreads & Hre & Hready).
  assert (runtimeStorageReady ∈ state_names) as Hrn by (apply admin_names; rewrite !elem_of_cons; tauto).
  assert (runtimeSecretsKey ∈ state_names) as Hkn by (apply admin_names; rewrite !elem_of_cons; tauto).
  assert (forall x, x ∈ state_names -> x <> runtimeStorageReady -> d' !! rn_statePath r x = d2 !! rn_statePath r x) as Hsame.
  { intros x Hx Hne. apply (write_other runtimeStorageReady x true (list_ascii_of_string "1") d2 (Ok tt) d');
      [done | done | congruence | exact Hready]. }
  assert (NoDup runtimeProtectedFiles) as Hnd by (apply (bool_decide_unpack _); by vm_compute).
  destruct (reprotect_spec key runtimeProtectedFiles d1 d2 Hnd ltac:(done) Hk Hre) as [Hother Hall].
  exists key. split_and!.
  - rewrite <- Hk. apply runtimeStorageKey_ext. rewrite Hsame by done. apply Hother; [done |]. intros Hin.
    by apply (protected_not_admin _ runtimeSecretsKey Hin); [rewrite !elem_of_cons; tauto |].
  - destruct (Henvs _ Hrn) as (Ht & _).
    destruct (stateWritePath_cases _ _ _ _ _ _ _ _ Ht Hready) as [_ [[_ []] | (prot & stored & _ & _ & _ & Hd)]]; [done |].
    rewrite (Hd eq_refl). eauto.
  - intros name Hname. rewrite <- (Hreads name Hname).
    assert (d' !! rn_statePath r name = d2 !! rn_statePath r name) as Hpriv.
    { apply Hsame; [by apply protected_names |].
      apply protected_not_admin; [exact Hname | rewrite !elem_of_cons; tauto]. }
    destruct (Hall name Hname) as [[H1 H2] | (raw & Hr & n & prot & m & st & Hd & Hs)].
    + left. split; [by rewrite Hpriv |]. unfold stateReadPath, securefile_Read. by rewrite H2.
    + right. exists raw. split_and!; [exact Hr | exists n, prot, m, st; by rewrite Hpriv |].
      apply (Hsize name raw Hname). by rewrite <- (Hreads name Hname).
Qed.

(** Once the marker exists, a private file that is not protected is refused. *)
Lemma unprotected_refused d name raw x :
  name ∈ runtimeProtectedFiles -> is_Some (d !! rn_statePath r runtimeStorageReady) ->
  sniff r raw = Ok x -> IsProtected x = false ->
  exists e, stateReadPath r (<[rn_statePath r name := Regular raw]> d) (rn_statePath r name) = Err (StateFailed e).
Proof.
  intros Hname [en Hen] Hsn Hx. unfold stateReadPath, securefile_Read. rewrite lookup_insert_eq.
  destruct (_ <? _); [by eexists |]. rewrite Hsn. unfold openRuntimeState.
  destruct (purpose_protected r Hpaths name Hname) as [-> Hne]. rewrite Hx, (proj2 (str_eqb_neq _ _) Hne).
  unfold runtimeStorageRequired. rewrite lookup_insert_ne; [rewrite Hen; by eexists |].
  intros E. apply (protected_not_admin name runtimeStorageReady Hname); [rewrite !elem_of_cons; tauto |].
  apply Hpaths; [by apply protected_names | apply admin_names; rewrite !elem_of_cons; tauto | exact E].
Qed.


End Enable.

End StateFile.

(** ** Witnesses *)

Section Witnesses.

#[local] Instance profile_codec : Codec runtimeProfile := {|
  json_Marshal p := Some (list_ascii_of_string (rp_Mode p));
  json_Unmarshal b := Some (mkProfile (string_of_list_ascii b))
|}.

(** A standard installation: logical names are file names. *)
Definition plain_runner : Runner := mkRunner [] (fun name => "/var/lib/oboard/" +:+ name)%string.
Definition whole_nonce : bytes := repeat "n"%char 12.
Definition plain_env : StateEnv := mkStateEnv io_good ".state-1.tmp" (Some whole_nonce) (Some whole_nonce).
Definition ssh_config : bytes := list_ascii_of_string "[1,2,3]".
Definition before_enable : disk := {["/var/lib/oboard/ssh-inbounds.json"%string := Regular ssh_config]}.

Lemma plain_paths_ok : paths_ok plain_runner.
Proof. intros a b _ _. cbn. intros E. by simplify_eq. Qed.

Lemma plain_env_ok a : a ∈ state_names -> env_ok plain_runner (rn_statePath plain_runner a) plain_env.
Proof. intros _. split_and!; try done. Qed.

Lemma sealed_state_opens_for_its_purpose_only_witness :
  exists s, Seal (repeat "k"%char 32) (Some whole_nonce) "tunnels.json" ssh_config = Ok s /\
    (Open (repeat "k"%char 32) "ssh-inbounds.json" s = Ok ssh_config <->
     "ssh-inbounds.json"%string = "tunnels.json"%string /\ ssh_config = ssh_config).
Proof.
  destruct (Seal (repeat "k"%char 32) (Some whole_nonce) "tunnels.json" ssh_config) as [s | e] eqn:E; [| by vm_compute in E].
  exists s. split; [reflexivity |].
  apply (sealed_state_opens_for_its_purpose_only (repeat "k"%char 32) whole_nonce "tunnels.json" ssh_config s
    "ssh-inbounds.json" ssh_config); [reflexivity | | | exact E];
    apply (bool_decide_unpack _); vm_compute; reflexivity.
Defined.


End Witnesses.
