(* ===== verification/Traffic.v ===== *)
(** * Traffic: the agent's traffic ledger

    Model of internal/agent/traffic.go. The agent turns the cumulative
    counters of the kernel and of the SSH inbounds into ranges, keeps every
    range pending until the Controller has accounted it, persists the ledger
    with a backup copy, and distributes the policies the Controller answers.

    Stream and report identifiers are digests: [sid] and [rid] are functions of
    the section. A policy on the wire either decodes or is opaque. Posts, file
    writes and the kernel's answer have their outcome as an argument. Go
    iterates over its maps in an unspecified order, the model in the order of
    [map_to_list]. A map entry whose value is a JSON null is not modelled: only
    a hand-edited state file has one. *)

From S2P Require Import Prelude Calendar GoTime Stealth Files Json StateFile.

(** ** Data *)

Record TrafficRuntimePolicy := mkPolicy {
  tp_UserID : Z; tp_InboundID : Z; tp_PathID : Z; tp_DeviceIDHash : string; tp_CredentialEpoch : Z;
  tp_CredentialStatus : string; tp_Billable : bool; tp_SpeedLimitMbps : Z; tp_TrafficLimitBytes : Z;
  tp_UsedBaselineBytes : Z; tp_LeaseBytes : Z; tp_ResetLeaseBytes : Z; tp_LeaseEnforced : bool;
  tp_PeriodKey : string; tp_PeriodStart : string; tp_PeriodEnd : string; tp_ResetMode : string; tp_ResetDay : Z;
  tp_ResetAnchor : string; tp_PreviousPeriodKey : string; tp_Timezone : string; tp_QuotaState : string;
  tp_PolicyRevision : Z
}.

#[export] Instance eta_TrafficRuntimePolicy : Eta TrafficRuntimePolicy := fun p =>
  mkPolicy (tp_UserID p) (tp_InboundID p) (tp_PathID p) (tp_DeviceIDHash p) (tp_CredentialEpoch p)
    (tp_CredentialStatus p) (tp_Billable p) (tp_SpeedLimitMbps p) (tp_TrafficLimitBytes p)
    (tp_UsedBaselineBytes p) (tp_LeaseBytes p) (tp_ResetLeaseBytes p) (tp_LeaseEnforced p)
    (tp_PeriodKey p) (tp_PeriodStart p) (tp_PeriodEnd p) (tp_ResetMode p) (tp_ResetDay p)
    (tp_ResetAnchor p) (tp_PreviousPeriodKey p) (tp_Timezone p) (tp_QuotaState p) (tp_PolicyRevision p).

(** A policy as it travels: [interface{}] that decodes to a policy or not. *)
Inductive wire_policy := WPolicy (p : TrafficRuntimePolicy) | WOpaque.

Record trafficSnapshotItem := mkItem {
  ti_Key : string; ti_CounterEpoch : string; ti_Source : string; ti_UserID : Z; ti_InboundID : Z; ti_PathID : Z;
  ti_PeriodKey : string; ti_Upload : Z; ti_Download : Z
}.

Record trafficStreamState := mkStream {
  ts_Source : string; ts_SnapshotKey : string; ts_CounterEpoch : string; ts_PeriodKey : string; ts_UserID : Z;
  ts_InboundID : Z; ts_PathID : Z; ts_ObservedUpload : Z; ts_ObservedDownload : Z; ts_AcceptedUpload : Z;
  ts_AcceptedDownload : Z; ts_Status : string; ts_LastError : string; ts_LastObservedAt : string
}.

#[export] Instance eta_trafficStreamState : Eta trafficStreamState := fun s =>
  mkStream (ts_Source s) (ts_SnapshotKey s) (ts_CounterEpoch s) (ts_PeriodKey s) (ts_UserID s) (ts_InboundID s)
    (ts_PathID s) (ts_ObservedUpload s) (ts_ObservedDownload s) (ts_AcceptedUpload s) (ts_AcceptedDownload s)
    (ts_Status s) (ts_LastError s) (ts_LastObservedAt s).

Record trafficPendingRange := mkRange {
  pr_ReportID : string; pr_Source : string; pr_StreamID : string; pr_CounterEpoch : string; pr_PeriodKey : string;
  pr_UserID : Z; pr_InboundID : option Z; pr_PathID : option Z; pr_FromUpload : Z; pr_ToUpload : Z;
  pr_FromDownload : Z; pr_ToDownload : Z; pr_StartedAt : string; pr_EndedAt : string; pr_SnapshotKey : string
}.

#[export] Instance eta_trafficPendingRange : Eta trafficPendingRange := fun r =>
  mkRange (pr_ReportID r) (pr_Source r) (pr_StreamID r) (pr_CounterEpoch r) (pr_PeriodKey r) (pr_UserID r)
    (pr_InboundID r) (pr_PathID r) (pr_FromUpload r) (pr_ToUpload r) (pr_FromDownload r) (pr_ToDownload r)
    (pr_StartedAt r) (pr_EndedAt r) (pr_SnapshotKey r).

Record trafficSyncState := mkSync { sy_Status : string; sy_LastSuccess : string; sy_LastError : string }.

#[export] Instance eta_trafficSyncState : Eta trafficSyncState := fun s =>
  mkSync (sy_Status s) (sy_LastSuccess s) (sy_LastError s).

Record trafficCounterCheckpoint := mkCheckpoint {
  cc_CounterEpoch : string; cc_PeriodKey : string; cc_Upload : Z; cc_Download : Z
}.

(** A report of the first schema. *)
Record trafficPendingReport := mkPending {
  pp_ReportID : string; pp_UserID : Z; pp_InboundID : option Z; pp_PathID : option Z; pp_PeriodKey : string;
  pp_Upload : Z; pp_Download : Z; pp_StartedAt : string; pp_EndedAt : string; pp_SnapshotKey : string;
  pp_CumulativeUpload : Z; pp_CumulativeDownload : Z
}.

Record trafficLocalState := mkLocal {
  tl_SchemaVersion : Z;
  tl_AgentInstanceID : string;
  tl_Last : gmap string trafficSnapshotItem;
  tl_Pending : list trafficPendingReport;
  tl_Acknowledged : gmap string trafficCounterCheckpoint;
  tl_Streams : gmap string trafficStreamState;
  tl_PendingReports : gmap string trafficPendingRange;
  tl_Sync : trafficSyncState;
  tl_RecoveryRequired : bool;
  tl_PolicyRevision : Z;
  tl_Policies : gmap string TrafficRuntimePolicy
}.

#[export] Instance eta_trafficLocalState : Eta trafficLocalState := fun s =>
  mkLocal (tl_SchemaVersion s) (tl_AgentInstanceID s) (tl_Last s) (tl_Pending s) (tl_Acknowledged s) (tl_Streams s)
    (tl_PendingReports s) (tl_Sync s) (tl_RecoveryRequired s) (tl_PolicyRevision s) (tl_Policies s).

Record trafficAcceptedReport := mkAccepted {
  ta_ReportID : string; ta_Status : string; ta_Reason : string; ta_AcceptedUpload : Z; ta_AcceptedDownload : Z
}.

Record trafficStreamCheckpoint := mkStreamCheckpoint {
  tc_Source : string; tc_StreamID : string; tc_CounterEpoch : string; tc_PeriodKey : string;
  tc_AcceptedUpload : Z; tc_AcceptedDownload : Z; tc_Status : string
}.

Record trafficReportResponse := mkResponse {
  tr_AcceptedReports : list trafficAcceptedReport;
  tr_StreamCheckpoints : list trafficStreamCheckpoint;
  tr_Policies : gmap string wire_policy;
  tr_PolicyRevision : Z
}.

Definition trafficReportBatchSize : nat := 200.
Definition trafficStateSchemaV2 : Z := 2.
Definition trafficSourceCore : string := "core".
Definition trafficStatusHealthy : string := "healthy".
Definition trafficStatusRecovering : string := "recovering".
Definition trafficStatusStale : string := "stale".
Definition trafficStatusStateCorrupt : string := "state_corrupt".
Definition trafficStatusCounterRegression : string := "counter_regression".
Definition trafficStatusCheckpointGap : string := "checkpoint_gap".
Definition trafficStatusCheckpointOverlap : string := "checkpoint_overlap".
Definition trafficStatusEpochConflict : string := "epoch_conflict".
Definition trafficLeaseStaleAfter : Duration := 24 * Hour.
Definition trafficStreamRetention : Duration := 14 * 24 * Hour.

Definition is_one_of (s : string) (l : list string) : bool := existsb (str_eqb s) l.

(** Statuses that need a checkpoint of the Controller. *)
Definition conflict_status (s : string) : bool :=
  is_one_of s [trafficStatusCounterRegression; trafficStatusCheckpointGap; trafficStatusCheckpointOverlap; trafficStatusEpochConflict].

(** ** Observation *)

Section Traffic.
Context (sid : string -> string -> string) (rid : trafficPendingRange -> string).

(** Whether a report of the stream is already waiting. *)
Definition pending_exists (st : trafficLocalState) (streamID key : string) : bool :=
  existsb (fun p => pr_StreamID (snd p) =s streamID) (map_to_list (tl_PendingReports st)) ||
  existsb (fun p => pp_SnapshotKey p =s key) (tl_Pending st).

(** The stream as the item identifies it, with the counters of a new epoch
    reset. *)
Definition enter_stream (now source : string) (it : trafficSnapshotItem) (s : option trafficStreamState) : trafficStreamState :=
  let s := match s with
           | Some s => s
           | None => mkStream source (ti_Key it) "" "" (ti_UserID it) 0 0 0 0 0 0 trafficStatusRecovering "" ""
           end in
  let s := s<|ts_Source := source|><|ts_SnapshotKey := ti_Key it|><|ts_UserID := ti_UserID it|>
            <|ts_InboundID := ti_InboundID it|><|ts_PathID := ti_PathID it|><|ts_LastObservedAt := now|> in
  if negb (ts_CounterEpoch s =s "") && negb (ts_CounterEpoch s =s ti_CounterEpoch it) then
    let s := s<|ts_AcceptedUpload := 0|><|ts_AcceptedDownload := 0|> in
    if ts_Status s =s trafficStatusCounterRegression then s<|ts_Status := trafficStatusHealthy|><|ts_LastError := ""%string|> else s
  else s.

Definition positive_id (n : Z) : option Z := if 0 <? n then Some n else None.

(** The range from the accepted checkpoint to the observed counters. *)
Definition new_range (now source streamID period : string) (it : trafficSnapshotItem) (s : trafficStreamState)
  : trafficPendingRange :=
  let p := mkRange "" source streamID (ti_CounterEpoch it) period (ti_UserID it) (positive_id (ti_InboundID it))
             (positive_id (ti_PathID it)) (ts_AcceptedUpload s) (ti_Upload it) (ts_AcceptedDownload s) (ti_Download it)
             now now (ti_Key it) in
  p<|pr_ReportID := rid p|>.

(** What one item does to its stream, and the report it queues; the boolean is
    the contribution to [changed]. *)
Definition observe_stream (now source streamID : string) (recovering : bool) (it : trafficSnapshotItem)
    (st : trafficLocalState) (s : trafficStreamState) : trafficStreamState * option trafficPendingRange * bool :=
  let period := TrimSpace (ti_PeriodKey it) in
  if (ts_CounterEpoch s =s ti_CounterEpoch it) && (ts_PeriodKey s =s period) &&
     ((ti_Upload it <? ts_ObservedUpload s) || (ti_Download it <? ts_ObservedDownload s)) then
    (s<|ts_Status := trafficStatusCounterRegression|><|ts_LastError := "counter regression in the same epoch"%string|>
      <|ts_ObservedUpload := ti_Upload it|><|ts_ObservedDownload := ti_Download it|>, None, true)
  else
    let s := s<|ts_CounterEpoch := ti_CounterEpoch it|><|ts_PeriodKey := period|>
              <|ts_ObservedUpload := ti_Upload it|><|ts_ObservedDownload := ti_Download it|> in
    if recovering || tl_RecoveryRequired st then
      (if (ts_Status s =s "") || (ts_Status s =s trafficStatusHealthy)
       then s<|ts_Status := trafficStatusRecovering|> else s, None, true)
    else if conflict_status (ts_Status s) then (s, None, true)
    else if (ti_Upload it <? ts_AcceptedUpload s) || (ti_Download it <? ts_AcceptedDownload s) then
      (s<|ts_Status := trafficStatusCounterRegression|>
        <|ts_LastError := "observed counters are below the accepted checkpoint"%string|>, None, true)
    else if (ti_Upload it =? ts_AcceptedUpload s) && (ti_Download it =? ts_AcceptedDownload s) then
      if ts_Status s =s trafficStatusHealthy then (s, None, false)
      else (s<|ts_Status := trafficStatusHealthy|>, None, true)
    else if pending_exists st streamID (ti_Key it) then (s, None, false)
    else if ti_InboundID it <=? 0 then (s<|ts_Status := trafficStatusHealthy|>, None, false)
    else (s<|ts_Status := trafficStatusHealthy|>, Some (new_range now source streamID period it s), true).

Definition item_source (it : trafficSnapshotItem) : string :=
  let source := TrimSpace (ti_Source it) in if source =s "" then trafficSourceCore else source.

Definition observe_one (now : string) (recovering : bool) (acc : trafficLocalState * bool) (it : trafficSnapshotItem)
  : trafficLocalState * bool :=
  let '(st, changed) := acc in
  if (ti_Key it =s "") || (ti_UserID it <=? 0) then acc
  else if ti_CounterEpoch it =s "" then acc
  else
    let source := item_source it in
    let streamID := sid source (ti_Key it) in
    let fresh := bool_decide (tl_Streams st !! streamID = None) in
    let '(s, report, ch) :=
      observe_stream now source streamID recovering it st (enter_stream now source it (tl_Streams st !! streamID)) in
    let st := st<|tl_Streams ::= <[streamID := s]>|> in
    (match report with Some p => st<|tl_PendingReports ::= <[pr_ReportID p := p]>|> | None => st end,
     changed || fresh || ch).

Definition observeTrafficSnapshotLocked (now : Time) (items : list trafficSnapshotItem) (recovering : bool)
    (st : trafficLocalState) : trafficLocalState * bool :=
  fold_left (observe_one (time_Format now) recovering) items (st, false).

(** ** Pruning *)

Definition prunable (now : Time) (st : trafficLocalState) (streamID : string) (s : trafficStreamState) : bool :=
  if existsb (fun p => pr_StreamID (snd p) =s streamID) (map_to_list (tl_PendingReports st)) then false
  else if (TrimSpace (ts_SnapshotKey s) =s "") || (TrimSpace (ts_CounterEpoch s) =s "") ||
          (TrimSpace (ts_PeriodKey s) =s "") || (ts_UserID s <=? 0) then true
  else if TrimSpace (ts_LastObservedAt s) =s "" then false
  else
    match time_Parse (ts_LastObservedAt s) with
    | None => false
    | Some at_ =>
        if time_Sub now at_ <? trafficStreamRetention then false
        else (ts_ObservedUpload s =? ts_AcceptedUpload s) && (ts_ObservedDownload s =? ts_AcceptedDownload s)
    end.

(** A stream of unknown age is dated now. *)
Definition dated (now : Time) (st : trafficLocalState) (streamID : string) (s : trafficStreamState) : trafficStreamState :=
  if existsb (fun p => pr_StreamID (snd p) =s streamID) (map_to_list (tl_PendingReports st)) then s
  else if (TrimSpace (ts_LastObservedAt s) =s "") || bool_decide (time_Parse (ts_LastObservedAt s) = None)
  then s<|ts_LastObservedAt := time_Format now|> else s.

Definition pruneTrafficStreamsLocked (now : Time) (st : trafficLocalState) : trafficLocalState * bool :=
  let kept := filter (fun '(id, s) => prunable now st id s = false) (tl_Streams st) in
  let marked := map_imap (fun id s => Some (dated now st id s)) kept in
  let changed := existsb (fun '(id, s) => prunable now st id s ||
    (TrimSpace (ts_LastObservedAt s) =s "") || bool_decide (time_Parse (ts_LastObservedAt s) = None))
    (List.filter (fun '(id, _) => negb (existsb (fun p => pr_StreamID (snd p) =s id) (map_to_list (tl_PendingReports st))))
       (map_to_list (tl_Streams st))) in
  (st<|tl_Streams := marked|>, changed).

(** ** The first schema *)

Definition trafficDelta (current previous : trafficSnapshotItem) : Z * Z :=
  if negb (ti_PeriodKey previous =s "") && negb (ti_PeriodKey current =s "") &&
     negb (ti_PeriodKey previous =s ti_PeriodKey current)
  then (ti_Upload current, ti_Download current)
  else
    let up := sub64 (ti_Upload current) (ti_Upload previous) in
    let down := sub64 (ti_Download current) (ti_Download previous) in
    if (up <? 0) || (down <? 0) then (ti_Upload current, ti_Download current) else (up, down).

(** [finishLegacyTrafficBridgeLocked] on one entry of [Last]. *)
Definition bridge_one (st : trafficLocalState) (kl : string * trafficSnapshotItem) : trafficLocalState :=
  let '(key, last) := kl in
  let source := if ti_Source last =s "" then trafficSourceCore else ti_Source last in
  if ti_CounterEpoch last =s "" then st
  else
    let streamID := sid source key in
    let s := default (mkStream "" "" "" "" 0 0 0 0 0 0 0 "" "" "") (tl_Streams st !! streamID) in
    let '(au, ad) := match tl_Acknowledged st !! key with
                     | Some a => (cc_Upload a, cc_Download a)
                     | None => (ti_Upload last, ti_Download last)
                     end in
    st<|tl_Streams ::= <[streamID :=
      mkStream source key (ti_CounterEpoch last) (ti_PeriodKey last) (ti_UserID last) (ti_InboundID last)
        (ti_PathID last) (ti_Upload last) (ti_Download last) au ad trafficStatusHealthy (ts_LastError s)
        (ts_LastObservedAt s)]>|>.

Definition finishLegacyTrafficBridgeLocked (st : trafficLocalState) : trafficLocalState :=
  match tl_Pending st with
  | _ :: _ => st
  | [] => fold_left bridge_one (map_to_list (tl_Last st)) (st<|tl_SchemaVersion := trafficStateSchemaV2|>)
  end.

(** One report of the first schema: the first boolean is whether it stays in
    [Pending] for want of an epoch, the second its contribution to [changed]. *)
Definition convert_one (st : trafficLocalState) (p : trafficPendingReport) : trafficLocalState * bool * bool :=
  let last := tl_Last st !! pp_SnapshotKey p in
  let source := match last with
                | Some l => if TrimSpace (ti_Source l) =s "" then trafficSourceCore else ti_Source l
                | None => trafficSourceCore
                end in
  let streamID := sid source (pp_SnapshotKey p) in
  let fresh := bool_decide (tl_Streams st !! streamID = None) in
  let s := default (mkStream source (pp_SnapshotKey p) "" "" (pp_UserID p) 0 0 0 0 0 0 trafficStatusHealthy "" "")
             (tl_Streams st !! streamID) in
  let s := match pp_InboundID p with Some i => s<|ts_InboundID := i|> | None => s end in
  let s := match pp_PathID p with Some i => s<|ts_PathID := i|> | None => s end in
  let fromUpload := sub64 (pp_CumulativeUpload p) (pp_Upload p) in
  let fromDownload := sub64 (pp_CumulativeDownload p) (pp_Download p) in
  let fromUpload := if fromUpload <? 0 then 0 else fromUpload in
  let fromDownload := if fromDownload <? 0 then 0 else fromDownload in
  let s := if (ts_AcceptedUpload s =? 0) && (ts_AcceptedDownload s =? 0)
           then s<|ts_AcceptedUpload := fromUpload|><|ts_AcceptedDownload := fromDownload|> else s in
  let s := s<|ts_ObservedUpload := pp_CumulativeUpload p|><|ts_ObservedDownload := pp_CumulativeDownload p|> in
  let s := if ts_PeriodKey s =s "" then s<|ts_PeriodKey := pp_PeriodKey p|> else s in
  let epoch := if ts_CounterEpoch s =s ""
               then match last with Some l => ti_CounterEpoch l | None => ""%string end else ts_CounterEpoch s in
  let with_stream s := st<|tl_Streams ::= <[streamID := s]>|> in
  if epoch =s "" then (with_stream s, true, fresh)
  else if match pp_InboundID p with Some i => i <=? 0 | None => true end then (with_stream s, false, fresh)
  else
    let r := mkRange (pp_ReportID p) source streamID epoch (pp_PeriodKey p) (pp_UserID p) (pp_InboundID p) (pp_PathID p)
               fromUpload (pp_CumulativeUpload p) fromDownload (pp_CumulativeDownload p) (pp_StartedAt p) (pp_EndedAt p)
               (pp_SnapshotKey p) in
    let r := if TrimSpace (pr_ReportID r) =s "" then r<|pr_ReportID := rid r|> else r in
    ((with_stream (s<|ts_CounterEpoch := epoch|>))<|tl_PendingReports ::= <[pr_ReportID r := r]>|>, false, true).

Definition convert_step (acc : trafficLocalState * list trafficPendingReport * bool) (p : trafficPendingReport)
  : trafficLocalState * list trafficPendingReport * bool :=
  let '(st, remaining, changed) := acc in
  let '(st, keep, ch) := convert_one st p in
  (st, if keep : bool then remaining ++ [p] else remaining, changed || ch).

Definition convertLegacyPendingToRangesLocked (st : trafficLocalState) : trafficLocalState * bool :=
  match tl_Pending st with
  | [] => (st, false)
  | _ :: _ =>
      let '(st, remaining, changed) := fold_left convert_step (tl_Pending st) (st, [], false) in
      (finishLegacyTrafficBridgeLocked (st<|tl_Pending := remaining|>), changed || bool_decide (remaining = []))
  end.

(** ** The Controller's answer *)

(** The Controller requires an inbound on every report. *)
Definition has_inbound (p : trafficPendingRange) : bool :=
  match pr_InboundID p with Some i => 0 <? i | None => false end.

Definition trafficLedgerReportBatch (pending : gmap string trafficPendingRange) : list trafficPendingRange :=
  take trafficReportBatchSize
    (List.filter has_inbound (map snd (map_to_list pending))).

(** One observation on the wire. *)
Record trafficStreamWire := mkWire {
  tw_Source : string; tw_StreamID : string; tw_CounterEpoch : string; tw_PeriodKey : string; tw_UserID : Z;
  tw_InboundID : Z; tw_PathID : Z; tw_CurrentUpload : Z; tw_CurrentDownload : Z; tw_Status : string
}.

(** The closure [add] of [trafficStreamWireBatch]: an incomplete identity or a
    stream already listed is skipped. *)
Definition add_wire (key : string) (w : trafficStreamWire) (out : list trafficStreamWire) : list trafficStreamWire :=
  let source := if tw_Source w =s "" then trafficSourceCore else tw_Source w in
  if (key =s "") || (tw_CounterEpoch w =s "") || (TrimSpace (tw_PeriodKey w) =s "") || (tw_UserID w <=? 0) then out
  else
    let streamID := sid source key in
    if existsb (fun o => tw_StreamID o =s streamID) out then out
    else out ++ [mkWire source streamID (tw_CounterEpoch w) (tw_PeriodKey w) (tw_UserID w) (tw_InboundID w) (tw_PathID w)
                   (tw_CurrentUpload w) (tw_CurrentDownload w) (tw_Status w)].

Definition trafficStreamWireBatch (st : trafficLocalState) (items : list trafficSnapshotItem) : list trafficStreamWire :=
  let out := fold_left (fun out it =>
    add_wire (ti_Key it) (mkWire (ti_Source it) "" (ti_CounterEpoch it) (ti_PeriodKey it) (ti_UserID it) (ti_InboundID it)
      (ti_PathID it) (ti_Upload it) (ti_Download it) "") out) items [] in
  let out := fold_left (fun out s =>
    add_wire (ts_SnapshotKey s) (mkWire (ts_Source s) "" (ts_CounterEpoch s) (ts_PeriodKey s) (ts_UserID s) (ts_InboundID s)
      (ts_PathID s) (ts_ObservedUpload s) (ts_ObservedDownload s) (ts_Status s)) out)
    (map snd (map_to_list (tl_Streams st))) out in
  take 1000 out.

Definition terminalTrafficRejectionReason (reason : string) : bool :=
  is_one_of (TrimSpace reason)
    ["user_deleted"; "user_inactive"; "binding_removed"; "inbound_deleted"; "inbound_disabled"; "path_removed";
     "invalid_report"; "unattributable_traffic"; "legal_tail"; "unauthorized"; "forbidden"]%string.

Definition checkpoint_of (s : trafficStreamState) : trafficCounterCheckpoint :=
  mkCheckpoint (ts_CounterEpoch s) (ts_PeriodKey s) (ts_AcceptedUpload s) (ts_AcceptedDownload s).

Definition apply_checkpoint (st : trafficLocalState) (c : trafficStreamCheckpoint) : trafficLocalState :=
  let s := default (mkStream (tc_Source c) "" "" "" 0 0 0 0 0 0 0 "" "" "") (tl_Streams st !! tc_StreamID c) in
  if negb (tc_CounterEpoch c =s "") && negb (ts_CounterEpoch s =s "") && negb (tc_CounterEpoch c =s ts_CounterEpoch s) then
    st<|tl_Streams ::= <[tc_StreamID c := s<|ts_Status := trafficStatusEpochConflict|>
      <|ts_LastError := "controller epoch does not match local counters"%string|>]>|>
  else
    let s := if tc_CounterEpoch c =s "" then s else s<|ts_CounterEpoch := tc_CounterEpoch c|> in
    let s := if tc_PeriodKey c =s "" then s else s<|ts_PeriodKey := tc_PeriodKey c|> in
    let s := s<|ts_AcceptedUpload := tc_AcceptedUpload c|><|ts_AcceptedDownload := tc_AcceptedDownload c|> in
    let s := if negb (tc_Status c =s "") then s<|ts_Status := tc_Status c|>
             else if (ts_Status s =s trafficStatusRecovering) || (ts_Status s =s trafficStatusStateCorrupt)
             then s<|ts_Status := trafficStatusHealthy|> else s in
    let st := st<|tl_Streams ::= <[tc_StreamID c := s]>|> in
    if ts_SnapshotKey s =s "" then st else st<|tl_Acknowledged ::= <[ts_SnapshotKey s := checkpoint_of s]>|>.

(** An accepted report: its stream takes the accepted counters. *)
Definition apply_acceptance (a : trafficAcceptedReport) (p : trafficPendingRange) (st : trafficLocalState) : trafficLocalState :=
  let st :=
    match tl_Streams st !! pr_StreamID p with
    | None => st
    | Some s =>
        let '(u, d) := if (ta_AcceptedUpload a =? 0) && (ta_AcceptedDownload a =? 0)
                       then (pr_ToUpload p, pr_ToDownload p) else (ta_AcceptedUpload a, ta_AcceptedDownload a) in
        let s := s<|ts_AcceptedUpload := u|><|ts_AcceptedDownload := d|><|ts_Status := trafficStatusHealthy|>
                  <|ts_LastError := ""%string|> in
        let st := st<|tl_Streams ::= <[pr_StreamID p := s]>|> in
        if pr_SnapshotKey p =s "" then st
        else st<|tl_Acknowledged ::= <[pr_SnapshotKey p :=
               mkCheckpoint (pr_CounterEpoch p) (pr_PeriodKey p) (ts_AcceptedUpload s) (ts_AcceptedDownload s)]>|>
    end in
  st<|tl_PendingReports ::= delete (ta_ReportID a)|>.

Definition apply_refusal (a : trafficAcceptedReport) (p : trafficPendingRange) (terminal : bool) (st : trafficLocalState)
  : trafficLocalState :=
  let st :=
    match tl_Streams st !! pr_StreamID p with
    | Some s =>
        if terminal then st
        else
          let s := s<|ts_Status := ta_Status a|><|ts_LastError := ta_Status a|> in
          let s := if ta_Status a =s "rejected" then s
                   else s<|ts_AcceptedUpload := ta_AcceptedUpload a|><|ts_AcceptedDownload := ta_AcceptedDownload a|> in
          st<|tl_Streams ::= <[pr_StreamID p := s]>|>
    | None => st
    end in
  st<|tl_PendingReports ::= delete (ta_ReportID a)|>.

Definition apply_accepted (st : trafficLocalState) (a : trafficAcceptedReport) : trafficLocalState :=
  let report := tl_PendingReports st !! ta_ReportID a in
  if is_one_of (ta_Status a) [""; "accepted"; "duplicate"; "covered"]%string then
    match report with Some p => apply_acceptance a p st | None => st end
  else if is_one_of (ta_Status a) [trafficStatusCheckpointGap; trafficStatusCheckpointOverlap; trafficStatusEpochConflict; "rejected"%string]
  then
    let terminal := (ta_Status a =s "rejected") && terminalTrafficRejectionReason (ta_Reason a) in
    let st := match report with Some p => apply_refusal a p terminal st | None => st end in
    if terminal then st else st<|tl_RecoveryRequired := true|>
  else st.

(** The last loop: a stream in conflict puts the ledger into recovery. *)
Definition note_conflict (st : trafficLocalState) (s : trafficStreamState) : trafficLocalState :=
  if conflict_status (ts_Status s) || (ts_Status s =s trafficStatusStateCorrupt) then
    st<|tl_Sync ::= fun y => y<|sy_Status := ts_Status s|><|sy_LastError := ts_LastError s|>|><|tl_RecoveryRequired := true|>
  else st.

Definition applyTrafficLedgerResponse (now : Time) (resp : trafficReportResponse) (st : trafficLocalState) : trafficLocalState :=
  let st := fold_left apply_checkpoint (tr_StreamCheckpoints resp) st in
  let st := fold_left apply_accepted (tr_AcceptedReports resp) st in
  let st := match tr_StreamCheckpoints resp with
            | [] => st
            | _ :: _ =>
                let st := st<|tl_RecoveryRequired := false|> in
                if sy_Status (tl_Sync st) =s trafficStatusStateCorrupt
                then st<|tl_Sync ::= fun y => y<|sy_Status := trafficStatusRecovering|>|> else st
            end in
  let st := if negb (tl_RecoveryRequired st) && negb (sy_Status (tl_Sync st) =s trafficStatusCounterRegression) &&
               negb (sy_Status (tl_Sync st) =s trafficStatusStateCorrupt)
            then st<|tl_Sync ::= fun y => y<|sy_Status := trafficStatusHealthy|>|> else st in
  let st := st<|tl_Sync ::= fun y => y<|sy_LastSuccess := time_Format now|><|sy_LastError := ""%string|>|> in
  fold_left note_conflict (map snd (map_to_list (tl_Streams st))) st.

(** ** Policies *)

(** The lease is withdrawn from a policy that enforces one. *)
Definition withdraw_lease (w : wire_policy) : wire_policy :=
  match w with
  | WPolicy p => if tp_LeaseEnforced p then WPolicy (p<|tp_LeaseBytes := 0|>) else w
  | WOpaque => w
  end.

Definition applyStaleLeasePolicies (now : Time) (policies : gmap string wire_policy) (st : trafficLocalState)
  : gmap string wire_policy * trafficLocalState :=
  if bool_decide (policies = ∅) || (sy_LastSuccess (tl_Sync st) =s "") then (policies, st)
  else
    match time_Parse (sy_LastSuccess (tl_Sync st)) with
    | None => (policies, st)
    | Some at_ =>
        if time_Sub now at_ <? trafficLeaseStaleAfter then (policies, st)
        else
          (withdraw_lease <$> policies,
           if (sy_Status (tl_Sync st) =s "") || (sy_Status (tl_Sync st) =s trafficStatusHealthy)
           then st<|tl_Sync ::= fun y => y<|sy_Status := trafficStatusStale|>|> else st)
    end.

Definition trafficPoliciesFromWire (policies : gmap string wire_policy) : gmap string TrafficRuntimePolicy :=
  omap (fun w => match w with WPolicy p => Some p | WOpaque => None end) policies.

Definition trafficPolicyRevisionFromPolicies (policies : gmap string TrafficRuntimePolicy) : Z :=
  fold_left (fun rev p => if rev <? tp_PolicyRevision p then tp_PolicyRevision p else rev)
    (map snd (map_to_list policies)) 0.

Context (contentID : gmap string TrafficRuntimePolicy -> string).

Inductive revision_verdict := RevisionApply | RevisionSkip | RevisionError.

Definition checkTrafficPolicyRevision (applied : Z) (appliedPolicies : gmap string TrafficRuntimePolicy)
    (incoming : Z) (incomingPolicies : gmap string TrafficRuntimePolicy) : revision_verdict :=
  if incoming <=? 0 then RevisionError
  else if incoming <? applied then RevisionSkip
  else if incoming =? applied then
    if contentID appliedPolicies =s contentID incomingPolicies then RevisionSkip else RevisionError
  else RevisionApply.

(** The two halves of a lease shared by both runtimes. *)
Definition core_share (p : TrafficRuntimePolicy) : TrafficRuntimePolicy :=
  p<|tp_LeaseBytes := Z.quot (add64 (tp_LeaseBytes p) 1) 2|><|tp_ResetLeaseBytes := Z.quot (add64 (tp_ResetLeaseBytes p) 1) 2|>.
Definition ssh_share (p : TrafficRuntimePolicy) : TrafficRuntimePolicy :=
  p<|tp_LeaseBytes := Z.quot (tp_LeaseBytes p) 2|><|tp_ResetLeaseBytes := Z.quot (tp_ResetLeaseBytes p) 2|>.

(** What one policy becomes for the kernel and for the SSH inbounds. *)
Definition partition_one (coreUsers sshUsers : gset Z) (w : wire_policy) : option wire_policy * option wire_policy :=
  match w with
  | WOpaque => (Some w, Some w)
  | WPolicy p =>
      if tp_UserID p <=? 0 then (Some w, Some w)
      else
        let hasCore := bool_decide (tp_UserID p ∈ coreUsers) in
        let hasSSH := bool_decide (tp_UserID p ∈ sshUsers) in
        let '(hasCore, hasSSH) := if negb hasCore && negb hasSSH then (true, true) else (hasCore, hasSSH) in
        let '(cp, sp) := if hasCore && hasSSH && tp_LeaseEnforced p then (core_share p, ssh_share p) else (p, p) in
        (if hasCore : bool then Some (WPolicy cp) else None, if hasSSH : bool then Some (WPolicy sp) else None)
  end.

Definition partitionRuntimePolicyLeases (policies : gmap string wire_policy) (coreUsers sshUsers : gset Z)
  : gmap string wire_policy * gmap string wire_policy :=
  (omap (fun w => fst (partition_one coreUsers sshUsers w)) policies,
   omap (fun w => snd (partition_one coreUsers sshUsers w)) policies).

(** ** Persistence *)

Context {A : AEAD} {CP : Codec runtimeProfile} {CS : Codec trafficLocalState}.

Definition range_ok (id : string) (p : trafficPendingRange) : bool :=
  negb (TrimSpace (pr_ReportID p) =s "") && (pr_ReportID p =s id) &&
  (pr_FromUpload p <=? pr_ToUpload p) && (pr_FromDownload p <=? pr_ToDownload p).

Definition validateTrafficState (st : trafficLocalState) : bool :=
  (0 <=? tl_SchemaVersion st) && (tl_SchemaVersion st <=? trafficStateSchemaV2) &&
  forallb (fun '(id, p) => range_ok id p) (map_to_list (tl_PendingReports st)).

Definition trafficStatePath (r : Runner) : string := rn_statePath r "traffic-state.json".
Definition trafficStateBackupPath (r : Runner) : string := trafficStatePath r +:+ ".bak".

Definition readTrafficStateFile (r : Runner) (d : disk) (path : string) : result state_error trafficLocalState :=
  match stateReadPath r d path with
  | Err e => Err e
  | Ok b =>
      if TrimSpace (string_of_list_ascii b) =s "" then Err (StateFailed "traffic state is empty")
      else match json_Unmarshal b with
           | None => Err (StateFailed "json")
           | Some st => if validateTrafficState st then Ok st else Err (StateFailed "invalid traffic state")
           end
  end.

(** [fresh] is a new counter epoch. *)
Definition migrateLoadedTrafficState (fresh : string) (st : trafficLocalState) (missing : bool) : trafficLocalState :=
  let st := if tl_AgentInstanceID st =s "" then st<|tl_AgentInstanceID := fresh|> else st in
  let st := st<|tl_PendingReports ::= filter (fun '(_, p) => has_inbound p = true)|> in
  if trafficStateSchemaV2 <=? tl_SchemaVersion st then st
  else if missing && bool_decide (tl_Last st = ∅) && (List.length (tl_Pending st) =? 0)%nat && bool_decide (tl_PendingReports st = ∅)
  then st<|tl_SchemaVersion := trafficStateSchemaV2|> else st.

Definition empty_local : trafficLocalState := mkLocal 0 "" ∅ [] ∅ ∅ ∅ (mkSync "" "" "") false 0 ∅.

Definition corruptTrafficState (fresh reason : string) : trafficLocalState :=
  mkLocal trafficStateSchemaV2 fresh ∅ [] ∅ ∅ ∅ (mkSync trafficStatusStateCorrupt "" reason) true 0 ∅.

Definition loadTrafficState (r : Runner) (fresh : string) (d : disk) : trafficLocalState :=
  match readTrafficStateFile r d (trafficStatePath r) with
  | Ok st => migrateLoadedTrafficState fresh st false
  | Err e =>
      match e, readTrafficStateFile r d (trafficStateBackupPath r) with
      | StateFailed _, Ok backup =>
          (migrateLoadedTrafficState fresh backup false)
            <|tl_Sync ::= fun y => y<|sy_Status := trafficStatusRecovering|>
                                    <|sy_LastError := "primary traffic-state.json was unreadable"%string|>|>
            <|tl_RecoveryRequired := true|>
      | StateFailed _, Err _ => corruptTrafficState fresh "traffic-state.json is corrupt"
      | StateNotExist, Ok backup =>
          (migrateLoadedTrafficState fresh backup false)
            <|tl_RecoveryRequired := true|><|tl_Sync ::= fun y => y<|sy_Status := trafficStatusRecovering|>|>
      | StateNotExist, Err _ =>
          (migrateLoadedTrafficState fresh empty_local true)
            <|tl_RecoveryRequired := true|><|tl_Sync ::= fun y => y<|sy_Status := trafficStatusRecovering|>|>
      end
  end.

Record TrafficSave := mkTrafficSave { sv_mkdirFails : bool; sv_backup : StateEnv; sv_primary : StateEnv }.

(** The document [saveTrafficState] writes. *)
Definition saved_form (st : trafficLocalState) : trafficLocalState :=
  if (tl_SchemaVersion st =? 0) && (List.length (tl_Pending st) =? 0)%nat
  then st<|tl_SchemaVersion := trafficStateSchemaV2|> else st.

Definition saveTrafficState (r : Runner) (e : TrafficSave) (st : trafficLocalState) (d : disk) : result string unit * disk :=
  if sv_mkdirFails e then (Err "mkdir"%string, d)
  else
    let st := saved_form st in
    if negb (validateTrafficState st) then (Err "invalid traffic state"%string, d)
    else
      match json_Marshal st with
      | None => (Err "json"%string, d)
      | Some b =>
          let '(backup, d) :=
            match stateReadPath r d (trafficStatePath r) with
            | Ok ((_ :: _) as current) => stateWritePath r (sv_backup e) true (trafficStateBackupPath r) current d
            | _ => (Ok tt, d)
            end in
          match backup with
          | Err err => (Err err, d)
          | Ok _ => stateWritePath r (sv_primary e) true (trafficStatePath r) b d
          end
      end.

(** ** Reporting *)

(** The body of the post. *)
Record trafficRequest := mkRequest {
  rq_AgentInstanceID : string;
  rq_Streams : list trafficStreamWire;
  rq_Reports : list trafficPendingRange
}.

Definition trafficLedgerRequest (st : trafficLocalState) (items : list trafficSnapshotItem) : trafficRequest :=
  mkRequest (tl_AgentInstanceID st) (trafficStreamWireBatch st items) (trafficLedgerReportBatch (tl_PendingReports st)).

(** The surroundings of one [reportTrafficLedger]: the Controller that answers
    the post, whether the authorization and the kernel's policy update succeed,
    the text of the error a failing stage gives, and the saves in their
    order. *)
Record Exchange := mkExchange {
  ex_now : Time;
  ex_later : Time;
  ex_post : trafficRequest -> option trafficReportResponse;
  ex_authorized : bool;
  ex_pushed : bool;
  ex_coreUsers : option (gset Z);
  ex_sshUsers : gset Z;
  ex_cancelled : bool;
  ex_error : string;
  ex_checkpointSave : TrafficSave;
  ex_policySave : TrafficSave;
  ex_errorSave : TrafficSave
}.

(** The policies handed to the kernel and to the SSH inbounds in one call,
    with the acknowledged checkpoints both get. *)
Record policyPush := mkPush {
  pu_core : gmap string wire_policy;
  pu_ssh : gmap string wire_policy;
  pu_acknowledged : gmap string trafficCounterCheckpoint
}.

(** The agent's side of the ledger: [tw_pushed] lists the calls of
    [pushTrafficPolicies] that succeeded, newest first. *)
Record TrafficWorld := mkTrafficWorld {
  tw_state : trafficLocalState;
  tw_disk : disk;
  tw_pushed : list policyPush
}.

#[export] Instance eta_TrafficWorld : Eta TrafficWorld := fun w => mkTrafficWorld (tw_state w) (tw_disk w) (tw_pushed w).

Definition save_world (r : Runner) (e : TrafficSave) (w : TrafficWorld) : option string * TrafficWorld :=
  let '(res, d) := saveTrafficState r e (tw_state w) (tw_disk w) in
  (match res with Ok _ => None | Err x => Some x end, w<|tw_disk := d|>).

(** [pushTrafficPolicies]; [ok] is the kernel's answer. The SSH manager is
    only updated after it. *)
Definition pushTrafficPolicies (policies : gmap string wire_policy) (acknowledged : gmap string trafficCounterCheckpoint)
    (coreUsers : option (gset Z)) (sshUsers : gset Z) (ok : bool) (w : TrafficWorld) : bool * TrafficWorld :=
  let '(core, ssh) := match coreUsers with
                      | None => (policies, policies)
                      | Some users => partitionRuntimePolicyLeases policies users sshUsers
                      end in
  if ok then (true, w<|tw_pushed ::= fun l => mkPush core ssh acknowledged :: l|>) else (false, w).

(** The stages of [reportTrafficLedger], up to its deferred bookkeeping. *)
Definition exchange (r : Runner) (x : Exchange) (items : list trafficSnapshotItem) (w : TrafficWorld) : option string * TrafficWorld :=
  match ex_post x (trafficLedgerRequest (tw_state w) items) with
  | None => (Some "controller_request"%string, w)
  | Some resp =>
      if negb (ex_authorized x) then (Some "authorization_apply"%string, w)
      else
        let w := w<|tw_state ::= applyTrafficLedgerResponse (ex_now x) resp|> in
        match save_world r (ex_checkpointSave x) w with
        | (Some _, w) => (Some "checkpoint_persist"%string, w)
        | (None, w) =>
            let '(policies, st) := applyStaleLeasePolicies (ex_later x) (tr_Policies resp) (tw_state w) in
            let w := w<|tw_state := st|> in
            let typed := trafficPoliciesFromWire policies in
            let revision := if tr_PolicyRevision resp =? 0 then trafficPolicyRevisionFromPolicies typed else tr_PolicyRevision resp in
            let verdict := if 0 <? revision
                           then checkTrafficPolicyRevision (tl_PolicyRevision st) (tl_Policies st) revision typed
                           else RevisionApply in
            match verdict with
            | RevisionError => (Some "revision_check"%string, w)
            | RevisionSkip => (None, w)
            | RevisionApply =>
                match pushTrafficPolicies policies (tl_Acknowledged (tw_state w)) (ex_coreUsers x) (ex_sshUsers x) (ex_pushed x) w with
                | (false, w) => (Some "runtime_apply"%string, w)
                | (true, w) =>
                    let w := w<|tw_state ::= fun st => st<|tl_PolicyRevision := revision|><|tl_Policies := typed|>|> in
                    match save_world r (ex_policySave x) w with
                    | (Some _, w) => (Some "policy_persist"%string, w)
                    | (None, w) => (None, w)
                    end
                end
            end
        end
  end.

Definition reportTrafficLedger (r : Runner) (x : Exchange) (items : list trafficSnapshotItem) (w : TrafficWorld)
    : option string * TrafficWorld :=
  match exchange r x items w with
  | (None, w) => (None, w)
  | (Some stage, w) =>
      if ex_cancelled x then (Some stage, w)
      else
        let w := w<|tw_state ::= fun st =>
          st<|tl_Sync ::= fun y => y<|sy_Status := trafficStatusStale|><|sy_LastError := stage +:+ ": " +:+ ex_error x|>|>|> in
        (Some stage, snd (save_world r (ex_errorSave x) w))
  end.

(** One cycle of [collectAndReportTraffic]; [items] is [None] when neither
    the kernel nor the SSH inbounds gave counters. *)
Definition collectAndReportTraffic (r : Runner) (now : Time) (items : option (list trafficSnapshotItem))
    (x x2 : Exchange) (s1 s2 : TrafficSave) (w : TrafficWorld) : option string * TrafficWorld :=
  let w := w<|tw_state ::= fun st => fst (convertLegacyPendingToRangesLocked st)|> in
  let '(st, pruned) := pruneTrafficStreamsLocked now (tw_state w) in
  let w := w<|tw_state := st|> in
  match items with
  | None =>
      match (if pruned : bool then save_world r s1 w else (None, w)) with
      | (Some e, w) => (Some e, w)
      | (None, w) => reportTrafficLedger r x [] w
      end
  | Some items =>
      if tl_RecoveryRequired (tw_state w) || (sy_Status (tl_Sync (tw_state w)) =s trafficStatusStateCorrupt) then
        let w := w<|tw_state ::= fun st => fst (convertLegacyPendingToRangesLocked (fst (observeTrafficSnapshotLocked now items true st)))|> in
        match save_world r s1 w with
        | (Some e, w) => (Some e, w)
        | (None, w) =>
            match reportTrafficLedger r x items w with
            | (Some e, w) => (Some e, w)
            | (None, w) =>
                if tl_RecoveryRequired (tw_state w) then (None, w)
                else
                  let w := w<|tw_state ::= fun st => fst (convertLegacyPendingToRangesLocked (fst (observeTrafficSnapshotLocked now items false st)))|> in
                  match save_world r s2 w with
                  | (Some e, w) => (Some e, w)
                  | (None, w) =>
                      if bool_decide (tl_PendingReports (tw_state w) = ∅) then (None, w) else reportTrafficLedger r x2 items w
                  end
            end
        end
      else
        let '(st, changed) := observeTrafficSnapshotLocked now items false (tw_state w) in
        let '(st, converted) := convertLegacyPendingToRangesLocked st in
        let w := w<|tw_state := st|> in
        match (if changed || converted || pruned then save_world r s1 w else (None, w)) with
        | (Some e, w) => (Some e, w)
        | (None, w) => reportTrafficLedger r x items w
        end
  end.

(** [persistTrafficCheckpointBeforeRuntimeTransition]; [stateDir] is the
    configured state directory. *)
Definition persistTrafficCheckpoint (r : Runner) (stateDir : string) (now : Time) (items : option (list trafficSnapshotItem)) (e : TrafficSave)
    (w : TrafficWorld) : option string * TrafficWorld :=
  if TrimSpace stateDir =s "" then (None, w)
  else
    let w := match items with
             | Some items => w<|tw_state ::= fun st => fst (observeTrafficSnapshotLocked now items false st)|>
             | None => w
             end in
    save_world r e w.

(** [applyTrafficPolicyTask]; [leased] says whether the task carries an
    authorization, which [ex_authorized] says was applied. *)
Definition applyTrafficPolicyTask (r : Runner) (leased : bool) (revision : Z) (policies : gmap string TrafficRuntimePolicy)
    (x : Exchange) (w : TrafficWorld) : option string * TrafficWorld :=
  if negb (ex_authorized x) then (Some "authorization_apply"%string, w)
  else if leased && (revision =? 0) && bool_decide (policies = ∅) then (None, w)
  else
    match checkTrafficPolicyRevision (tl_PolicyRevision (tw_state w)) (tl_Policies (tw_state w)) revision policies with
    | RevisionError => (Some "revision_check"%string, w)
    | RevisionSkip => (None, w)
    | RevisionApply =>
        match pushTrafficPolicies (WPolicy <$> policies) (tl_Acknowledged (tw_state w)) (ex_coreUsers x) (ex_sshUsers x) (ex_pushed x) w with
        | (false, w) => (Some "runtime_apply"%string, w)
        | (true, w) =>
            let w := w<|tw_state ::= fun st => st<|tl_PolicyRevision := revision|><|tl_Policies := policies|>|> in
            match save_world r (ex_policySave x) w with
            | (Some _, w) => (Some "policy_persist"%string, w)
            | (None, w) => (None, w)
            end
        end
    end.

(** After a restart the policies of the state file are applied again. *)
Definition restoreTrafficRuntimePolicies (x : Exchange) (w : TrafficWorld) : bool * TrafficWorld :=
  let policies := WPolicy <$> tl_Policies (tw_state w) in
  if bool_decide (policies = ∅) then (true, w)
  else pushTrafficPolicies policies (tl_Acknowledged (tw_state w)) (ex_coreUsers x) (ex_sshUsers x) (ex_pushed x) w.

(** The state in memory, read from the disk at its first use. *)
Definition trafficStateLocked (r : Runner) (fresh : string) (d : disk) (cached : option trafficLocalState) : trafficLocalState :=
  let st := match cached with Some st => st | None => loadTrafficState r fresh d end in
  if tl_AgentInstanceID st =s "" then st<|tl_AgentInstanceID := fresh|> else st.

End Traffic.
