(* ===== verification/TrafficInv.v ===== *)
(** * TrafficInv: what the traffic ledger promises

    Theorems about the definitions of Traffic: queued ranges stay valid, the
    ranges the Controller accounts tile the counters of an epoch, pruning and
    saving lose nothing, leases are split exactly, policy revisions only move
    forward under positive revisions - and the places where the code departs
    from that. *)

From S2P Require Import Prelude Calendar GoTime Stealth Files Json StateFile Traffic.

(** Pruning loses no accounting: a stream leaves the ledger only when no
    queued report refers to it and either its identity is incomplete, so that
    it could never be sent, or every observed byte has been accepted and it
    was last seen at least two weeks ago; every other stream keeps its
    counters. *)
Theorem pruning_loses_no_accounting now st x s :
  tl_Streams st !! x = Some s ->
  match tl_Streams (fst (pruneTrafficStreamsLocked now st)) !! x with
  | Some s' => ts_ObservedUpload s' = ts_ObservedUpload s /\ ts_ObservedDownload s' = ts_ObservedDownload s /\
      ts_AcceptedUpload s' = ts_AcceptedUpload s /\ ts_AcceptedDownload s' = ts_AcceptedDownload s /\
      ts_CounterEpoch s' = ts_CounterEpoch s
  | None =>
      (forall id p, tl_PendingReports st !! id = Some p -> pr_StreamID p <> x) /\
      (TrimSpace (ts_SnapshotKey s) = ""%string \/ TrimSpace (ts_CounterEpoch s) = ""%string \/
       TrimSpace (ts_PeriodKey s) = ""%string \/ ts_UserID s <= 0 \/
       (ts_ObservedUpload s = ts_AcceptedUpload s /\ ts_ObservedDownload s = ts_AcceptedDownload s /\
        exists at_, time_Parse (ts_LastObservedAt s) = Some at_ /\ trafficStreamRetention <= time_Sub now at_))
  end.
Proof.
  intros Hs. unfold pruneTrafficStreamsLocked. cbn [fst tl_Streams upd]. rewrite map_lookup_imap, map_lookup_filter, Hs. cbn.
  destruct (prunable now st x s) eqn:Ep; cbn.
  2:{ rewrite option_guard_True by done. cbn. unfold dated. destruct (existsb _ _); [done |]. by destruct (_ || _). }
  rewrite option_guard_False by done. cbn. unfold prunable in Ep. destruct (existsb _ _) eqn:Eref; [done |]. split.
  - intros id p Hp Hx. apply not_true_iff_false in Eref. apply Eref. apply existsb_exists. exists (id, p).
    split; [by apply list_elem_of_In, elem_of_map_to_list | by apply str_eqb_eq].
  - destruct (_ || _ || _ || _) eqn:Einc.
    + rewrite !orb_true_iff, !str_eqb_eq, Z.leb_le in Einc. tauto.
    + destruct (TrimSpace (ts_LastObservedAt s) =s ""); [done |]. destruct (time_Parse _) as [at_ |]; [| done].
      destruct (Z.ltb_spec (time_Sub now at_) trafficStreamRetention); [done |]. zify_bool. do 4 right. eauto.
Qed.

(** A lease shared by both runtimes is split without loss: for a user
    served by the kernel and by the SSH inbounds the two enforced halves are
    non-negative and add up to the lease the Controller granted, and a user
    served by one runtime gets the whole lease there and nothing elsewhere. *)
Theorem shared_lease_is_split_exactly policies coreUsers sshUsers key p :
  policies !! key = Some (WPolicy p) -> 0 < tp_UserID p -> tp_LeaseEnforced p = true ->
  0 <= tp_LeaseBytes p < max_int64 ->
  let '(core, ssh) := partitionRuntimePolicyLeases policies coreUsers sshUsers in
  match core !! key, ssh !! key with
  | Some (WPolicy c), Some (WPolicy h) =>
      tp_LeaseBytes c + tp_LeaseBytes h = tp_LeaseBytes p /\ 0 <= tp_LeaseBytes h <= tp_LeaseBytes c
  | Some (WPolicy c), None => c = p /\ tp_UserID p ∈ coreUsers
  | None, Some (WPolicy h) => h = p /\ tp_UserID p ∈ sshUsers
  | _, _ => False
  end.
Proof.
  intros Hp Hu Hl Hr. unfold partitionRuntimePolicyLeases. rewrite !lookup_omap, Hp. cbn.
  rewrite (proj2 (Z.leb_gt _ _) Hu), Hl.
  assert (tp_LeaseBytes (core_share p) + tp_LeaseBytes (ssh_share p) = tp_LeaseBytes p /\
    0 <= tp_LeaseBytes (ssh_share p) <= tp_LeaseBytes (core_share p)) as Hsplit.
  { unfold core_share, ssh_share. cbn. unfold add64. rewrite wrap64_id by (unfold in_int64, min_int64; lia).
    rewrite !Z.quot_div_nonneg by lia. Z.to_euclidean_division_equations. lia. }
  destruct (bool_decide_reflect (tp_UserID p ∈ coreUsers)), (bool_decide_reflect (tp_UserID p ∈ sshUsers)); cbn; done.
Qed.

Section Ledger.
Context (sid : string -> string -> string) (rid : trafficPendingRange -> string).

(** ** Observation of one item *)

(** The report [observe_stream] queues starts at the accepted checkpoint of
    the stream and ends at its counters; the checkpoint itself stays. *)
Lemma observe_stream_spec now source x rec it st s s' o ch :
  observe_stream rid now source x rec it st s = (s', o, ch) ->
  ts_AcceptedUpload s' = ts_AcceptedUpload s /\ ts_AcceptedDownload s' = ts_AcceptedDownload s /\
  (ts_CounterEpoch s' = ts_CounterEpoch s \/ ts_CounterEpoch s' = ti_CounterEpoch it) /\
  forall p, o = Some p ->
    pr_StreamID p = x /\ pr_ReportID p = rid (p<|pr_ReportID := ""%string|>) /\ pr_CounterEpoch p = ti_CounterEpoch it /\
    pr_FromUpload p = ts_AcceptedUpload s /\ pr_FromDownload p = ts_AcceptedDownload s /\
    pr_ToUpload p = ti_Upload it /\ pr_ToDownload p = ti_Download it /\
    pr_FromUpload p <= pr_ToUpload p /\ pr_FromDownload p <= pr_ToDownload p /\
    has_inbound p = true /\ pending_exists st x (ti_Key it) = false.
Proof.
  unfold observe_stream. destruct (_ && _ && _); [intros [= <- <- _]; split_and!; auto; done |].
  destruct (rec || _); [destruct (_ || _); intros [= <- <- _]; split_and!; auto; done |].
  destruct (conflict_status _); [intros [= <- <- _]; split_and!; auto; done |].
  cbn [ts_AcceptedUpload ts_AcceptedDownload upd].
  destruct (_ || _) eqn:Ereg; [intros [= <- <- _]; split_and!; auto; done |].
  destruct (_ && _); [destruct (_ =s _); intros [= <- <- _]; split_and!; auto; done |].
  destruct (pending_exists _ _ _) eqn:Epe; [intros [= <- <- _]; split_and!; auto; done |].
  destruct (Z.leb_spec (ti_InboundID it) 0) as [Hin | Hin]; [intros [= <- <- _]; split_and!; auto; done |].
  apply orb_false_iff in Ereg as [R1 R2]. zify_bool.
  intros [= <- <- _]. split_and!; auto. intros p [= <-]. cbn. split_and!; try done.
  unfold has_inbound, new_range, positive_id. cbn. rewrite (proj2 (Z.ltb_lt _ _) Hin). by apply Z.ltb_lt.
Qed.

Lemma enter_stream_spec now source it s :
  let s' := enter_stream now source it s in
  match s with
  | None => ts_AcceptedUpload s' = 0 /\ ts_AcceptedDownload s' = 0 /\ ts_CounterEpoch s' = ""%string
  | Some s => ts_CounterEpoch s' = ts_CounterEpoch s /\
      (ts_CounterEpoch s = ""%string \/ ts_CounterEpoch s = ti_CounterEpoch it ->
       ts_AcceptedUpload s' = ts_AcceptedUpload s /\ ts_AcceptedDownload s' = ts_AcceptedDownload s)
  end.
Proof.
  unfold enter_stream. destruct s as [s |]; [| done]. cbn [ts_CounterEpoch upd].
  destruct (negb (ts_CounterEpoch s =s "") && negb (ts_CounterEpoch s =s ti_CounterEpoch it)) eqn:E; [| done].
  split; [split_if; reflexivity |]. apply andb_true_iff in E as [E1 E2]. zify_bool.
  apply str_eqb_neq in E1, E2. by intros [H | H].
Qed.

(** The two ways [observe_one] leaves the ledger. *)
Lemma observe_one_cases now rec st ch it :
  let st' := fst (observe_one sid rid now rec (st, ch) it) in
  st' = st \/
  exists s' o, let x := sid (item_source it) (ti_Key it) in
    ti_CounterEpoch it <> ""%string /\
    (exists c, observe_stream rid now (item_source it) x rec it st
       (enter_stream now (item_source it) it (tl_Streams st !! x)) = (s', o, c)) /\
    tl_Streams st' = <[x := s']> (tl_Streams st) /\
    tl_PendingReports st' = match o with Some p => <[pr_ReportID p := p]> (tl_PendingReports st)
                                       | None => tl_PendingReports st end /\
    tl_Pending st' = tl_Pending st /\ tl_SchemaVersion st' = tl_SchemaVersion st.
Proof.
  cbv zeta. unfold observe_one. destruct (_ || _); [by left |]. destruct (_ =s "") eqn:Ee; [by left |].
  apply str_eqb_neq in Ee. right.
  destruct (observe_stream _ _ _ _ _ _ _ _) as [[s' o] c] eqn:E. exists s', o. cbn.
  split_and!; [done | by exists c | by destruct o ..].
Qed.

(** ** Queued ranges are valid *)

Definition ranges_ok (st : trafficLocalState) : Prop :=
  0 <= tl_SchemaVersion st <= trafficStateSchemaV2 /\ map_Forall (fun id p => range_ok id p = true) (tl_PendingReports st).

Lemma ranges_ok_validate st : ranges_ok st <-> validateTrafficState st = true.
Proof.
  unfold ranges_ok, validateTrafficState. rewrite !andb_true_iff, !Z.leb_le, forallb_forall.
  split; intros [Hs Hp]; (split; [done |]).
  - intros [id p] Hin. apply list_elem_of_In, elem_of_map_to_list in Hin. exact (Hp _ _ Hin).
  - intros id p Hl. apply elem_of_map_to_list, list_elem_of_In in Hl. exact (Hp _ Hl).
Qed.

(** A digest is never blank. *)
Context (rid_text : forall p, TrimSpace (rid p) <> ""%string).

Lemma observe_one_ranges now rec acc it : ranges_ok (fst acc) -> ranges_ok (fst (observe_one sid rid now rec acc it)).
Proof.
  destruct acc as [st ch]. intros [Hs Hp]. cbn [fst] in *.
  destruct (observe_one_cases now rec st ch it) as [-> | (s' & o & _ & (c & Eo) & _ & Epr & _ & Esc)]; [done |].
  unfold ranges_ok. rewrite Esc, Epr. split; [done |]. destruct o as [p |]; [| done].
  destruct (observe_stream_spec _ _ _ _ _ _ _ _ _ _ Eo) as (_ & _ & _ & Hrep).
  destruct (Hrep p eq_refl) as (_ & Hid & _ & _ & _ & _ & _ & Hu & Hd & _).
  apply map_Forall_insert_2; [| done]. unfold range_ok. rewrite str_eqb_refl.
  rewrite (proj2 (str_eqb_neq _ _)) by (rewrite Hid; apply rid_text).
  by rewrite (proj2 (Z.leb_le _ _) Hu), (proj2 (Z.leb_le _ _) Hd).
Qed.

Lemma observe_ranges now items rec st :
  ranges_ok st -> ranges_ok (fst (observeTrafficSnapshotLocked sid rid now items rec st)).
Proof.
  intros H. apply (fold_left_inv _ (fun acc => ranges_ok (fst acc))); [done |]. intros. by apply observe_one_ranges.
Qed.

(** An answer only removes reports. *)
Definition fewer (st st' : trafficLocalState) : Prop :=
  tl_PendingReports st' ⊆ tl_PendingReports st /\ tl_SchemaVersion st' = tl_SchemaVersion st /\
  tl_PolicyRevision st' = tl_PolicyRevision st /\ tl_Policies st' = tl_Policies st.

Lemma fewer_refl st : fewer st st.
Proof. done. Qed.

Lemma fewer_trans a b c : fewer a b -> fewer b c -> fewer a c.
Proof. intros (A1 & A2 & A3 & A4) (B1 & B2 & B3 & B4). split_and!; [by etrans | congruence ..]. Qed.

Lemma fewer_fold {B} (f : trafficLocalState -> B -> trafficLocalState) l st :
  (forall st b, fewer st (f st b)) -> fewer st (fold_left f l st).
Proof.
  intros Hf. revert st. induction l as [| b l IH]; intros st; cbn; [apply fewer_refl |].
  exact (fewer_trans _ _ _ (Hf st b) (IH _)).
Qed.

Lemma fewer_ranges st st' : fewer st st' -> ranges_ok st -> ranges_ok st'.
Proof.
  intros (Hsub & Hs & _) [H1 H2]. split; [by rewrite Hs |]. intros id p Hp. apply (H2 id p). by apply (lookup_weaken _ _ _ _ Hp).
Qed.

Lemma apply_checkpoint_fewer st c : fewer st (apply_checkpoint st c).
Proof. unfold apply_checkpoint. destruct (_ && _ && _); [done |]. by destruct (_ =s ""). Qed.

Lemma apply_accepted_fewer st a : fewer st (apply_accepted st a).
Proof.
  unfold apply_accepted. destruct (is_one_of _ _).
  - destruct (_ !! _) as [p |]; [| done]. unfold apply_acceptance.
    destruct (tl_Streams st !! _); [destruct (_ && _); destruct (_ =s "") |];
      (split_and!; [apply delete_subseteq | done ..]).
  - destruct (is_one_of _ _); [| done].
    set (terminal := _ && _). destruct (_ !! _) as [p |]; [| by destruct terminal].
    unfold apply_refusal. destruct (tl_Streams st !! _); destruct terminal; (split_and!; [apply delete_subseteq | done ..]).
Qed.

Lemma note_conflict_fewer st s : fewer st (note_conflict st s).
Proof. unfold note_conflict. by destruct (_ || _). Qed.

Lemma applyResponse_fewer now resp st : fewer st (applyTrafficLedgerResponse now resp st).
Proof.
  unfold applyTrafficLedgerResponse. cbv zeta.
  eapply fewer_trans; [apply (fewer_fold apply_checkpoint (tr_StreamCheckpoints resp)), apply_checkpoint_fewer |].
  eapply fewer_trans; [apply (fewer_fold apply_accepted (tr_AcceptedReports resp)), apply_accepted_fewer |].
  set (st1 := fold_left apply_accepted _ _).
  eapply fewer_trans; [| apply fewer_fold, note_conflict_fewer].
  destruct (tr_StreamCheckpoints resp); cbn [tl_Sync upd]; repeat split_if; done.
Qed.

Lemma prune_fewer now st : fewer st (fst (pruneTrafficStreamsLocked now st)).
Proof. done. Qed.

(** The operations of a ledger without reports of the first schema. *)
Inductive ledger_op :=
| LObserve (now : Time) (items : list trafficSnapshotItem) (recovering : bool)
| LPrune (now : Time)
| LAnswer (now : Time) (resp : trafficReportResponse).

Definition ledger_step (st : trafficLocalState) (o : ledger_op) : trafficLocalState :=
  match o with
  | LObserve now items rec => fst (observeTrafficSnapshotLocked sid rid now items rec st)
  | LPrune now => fst (pruneTrafficStreamsLocked now st)
  | LAnswer now resp => applyTrafficLedgerResponse now resp st
  end.


(** ** The accepted ranges tile the counters *)

Section Tiling.
(** Distinct streams have distinct report digests; [E] is the counter epoch of
    each stream. *)
Context (rid_stream : forall p q, rid p = rid q -> pr_StreamID p = pr_StreamID q).
Context (E : string -> string).

Definition item_ok (it : trafficSnapshotItem) : Prop :=
  ti_CounterEpoch it = ""%string \/ ti_CounterEpoch it = E (sid (item_source it) (ti_Key it)).

(** Bytes accounted for a stream by a list of accepted reports. *)
Definition total (from to : trafficPendingRange -> Z) (x : string) (acc : list trafficPendingRange) : Z :=
  fold_right (fun p n => if pr_StreamID p =s x then to p - from p + n else n) 0 acc.

Definition total_up := total pr_FromUpload pr_ToUpload.
Definition total_down := total pr_FromDownload pr_ToDownload.

Lemma total_snoc from to x acc p :
  total from to x (acc ++ [p]) = total from to x acc + (if pr_StreamID p =s x then to p - from p else 0).
Proof.
  unfold total. induction acc as [| q acc IH]; cbn; [destruct (_ =s _); lia |]. rewrite IH.
  destruct (pr_StreamID q =s x); lia.
Qed.

Definition starts_at (p : trafficPendingRange) (s : trafficStreamState) : Prop :=
  pr_FromUpload p = ts_AcceptedUpload s /\ pr_FromDownload p = ts_AcceptedDownload s.

Record tiled (st : trafficLocalState) (acc : list trafficPendingRange) : Prop := {
  td_id : forall id p, tl_PendingReports st !! id = Some p -> id = rid (p<|pr_ReportID := ""%string|>);
  td_start : forall id p, tl_PendingReports st !! id = Some p ->
    exists s, tl_Streams st !! pr_StreamID p = Some s /\ starts_at p s;
  td_one : forall id p id' p', tl_PendingReports st !! id = Some p -> tl_PendingReports st !! id' = Some p' ->
    pr_StreamID p = pr_StreamID p' -> id = id';
  td_total : forall x s, tl_Streams st !! x = Some s ->
    (ts_CounterEpoch s = ""%string \/ ts_CounterEpoch s = E x) /\
    total_up x acc = ts_AcceptedUpload s /\ total_down x acc = ts_AcceptedDownload s;
  td_none : forall x, tl_Streams st !! x = None -> total_up x acc = 0 /\ total_down x acc = 0
}.

Lemma tiled_ext st st' acc :
  tl_PendingReports st' = tl_PendingReports st -> tl_Streams st' = tl_Streams st -> tiled st acc -> tiled st' acc.
Proof. intros E1 E2 [T1 T2 T3 T4 T5]. split; rewrite ?E1, ?E2; done. Qed.


Lemma pending_exists_false st x key id p :
  pending_exists st x key = false -> tl_PendingReports st !! id = Some p -> pr_StreamID p <> x.
Proof.
  intros Hpe Hp Hx. apply orb_false_iff in Hpe as [Hpe _]. apply not_true_iff_false in Hpe. apply Hpe.
  apply existsb_exists. exists (id, p). split; [by apply list_elem_of_In, elem_of_map_to_list | by apply str_eqb_eq].
Qed.

(** The checkpoint an observed stream ends up with is the accounted total. *)
Lemma observed_totals now rec st acc it s' o c :
  tiled st acc -> item_ok it -> ti_CounterEpoch it <> ""%string ->
  let x := sid (item_source it) (ti_Key it) in
  observe_stream rid now (item_source it) x rec it st (enter_stream now (item_source it) it (tl_Streams st !! x)) = (s', o, c) ->
  (ts_CounterEpoch s' = ""%string \/ ts_CounterEpoch s' = E x) /\
  total_up x acc = ts_AcceptedUpload s' /\ total_down x acc = ts_AcceptedDownload s' /\
  (forall s, tl_Streams st !! x = Some s ->
     ts_AcceptedUpload s' = ts_AcceptedUpload s /\ ts_AcceptedDownload s' = ts_AcceptedDownload s).
Proof.
  cbv zeta. set (x := sid _ _). intros HT Hit Hne Eo.
  destruct (observe_stream_spec _ _ _ _ _ _ _ _ _ _ Eo) as (Hu & Hd & Hep & _).
  pose proof (enter_stream_spec now (item_source it) it (tl_Streams st !! x)) as He. cbv zeta in He.
  set (s0 := enter_stream _ _ _ _) in *.
  assert (ti_CounterEpoch it = E x) as Hix by (destruct Hit; [done | assumption]).
  destruct (tl_Streams st !! x) as [s |] eqn:Es.
  - destruct (td_total _ _ HT x s Es) as (Hse & Htu & Htd). destruct He as [Hee Hkeep].
    destruct Hkeep as [Ku Kd]; [destruct Hse as [H | H]; [by left | right; congruence] |].
    split_and!; [destruct Hep as [H | H]; rewrite H; [rewrite Hee; exact Hse | by right] | lia | lia |].
    intros s1 [= <-]. split; congruence.
  - destruct (td_none _ _ HT x Es) as [Htu Htd]. destruct He as (Ku & Kd & Ke).
    split_and!; [destruct Hep as [H | H]; rewrite H; [left; exact Ke | by right] | lia | lia | done].
Qed.

Lemma observe_one_tiled now rec st ch acc it :
  tiled st acc -> item_ok it -> tiled (fst (observe_one sid rid now rec (st, ch) it)) acc.
Proof.
  intros HT Hit. destruct (observe_one_cases now rec st ch it) as [-> | (s' & o & Hne & (c & Eo) & Est & Epr & _)]; [done |].
  cbv zeta in Eo, Est. set (x := sid _ _) in *.
  destruct (observed_totals _ _ _ _ _ _ _ _ HT Hit Hne Eo) as (Hep & Htu & Htd & Hsame). fold x in Hep, Htu, Htd, Hsame.
  assert (forall id p, tl_PendingReports st !! id = Some p -> exists s, <[x := s']> (tl_Streams st) !! pr_StreamID p = Some s /\ starts_at p s) as Hold.
  { intros id p Hp. destruct (td_start _ _ HT id p Hp) as (s & Hs & Hst).
    destruct (decide (pr_StreamID p = x)) as [Hx | Hx].
    - rewrite Hx in *. exists s'. split; [apply lookup_insert_eq |]. destruct (Hsame s Hs), Hst. split; congruence.
    - exists s. by rewrite lookup_insert_ne by congruence. }
  assert (forall y, <[x := s']> (tl_Streams st) !! y = None -> total_up y acc = 0 /\ total_down y acc = 0) as Hnone
    by (intros y [Hy _]%lookup_insert_None; by apply (td_none _ _ HT)).
  assert (forall y s, <[x := s']> (tl_Streams st) !! y = Some s -> (ts_CounterEpoch s = ""%string \/ ts_CounterEpoch s = E y) /\
    total_up y acc = ts_AcceptedUpload s /\ total_down y acc = ts_AcceptedDownload s) as Htot.
  { intros y s [[<- <-] | [Hy Hs]]%lookup_insert_Some; [done | by apply (td_total _ _ HT)]. }
  destruct o as [p |].
  2:{ destruct HT as [T1 T2 T3 T4 T5]. split; rewrite ?Est, ?Epr; done. }
  destruct (observe_stream_spec _ _ _ _ _ _ _ _ _ _ Eo) as (Hau & Had & _ & Hrep).
  destruct (Hrep p eq_refl) as (Hpx & Hid & _ & Hfu & Hfd & _ & _ & _ & _ & _ & Hpe).
  assert (forall id q, tl_PendingReports st !! id = Some q -> id <> pr_ReportID p) as Hfresh.
  { intros id q Hq Heq. apply (pending_exists_false _ _ _ _ _ Hpe Hq).
    rewrite (td_id _ _ HT id q Hq), Hid in Heq. apply rid_stream in Heq. cbn in Heq. congruence. }
  split; rewrite ?Est, ?Epr; [| | | exact Htot | exact Hnone].
  - intros id q [[<- <-] | [_ Hq]]%lookup_insert_Some; [exact Hid | by apply (td_id _ _ HT)].
  - intros id q [[<- <-] | [_ Hq]]%lookup_insert_Some; [| by apply (Hold id)].
    exists s'. rewrite Hpx. split; [apply lookup_insert_eq |]. split; congruence.
  - intros id q id' q' [[<- <-] | [_ Hq]]%lookup_insert_Some [[<- <-] | [_ Hq']]%lookup_insert_Some Hst; [done | | |].
    + exfalso. apply (pending_exists_false _ _ _ _ _ Hpe Hq'). congruence.
    + exfalso. apply (pending_exists_false _ _ _ _ _ Hpe Hq). congruence.
    + by apply (td_one _ _ HT id q id' q').
Qed.

(** The Controller accounts a queued report as it was sent. *)
Definition honest (st : trafficLocalState) (id : string) : trafficAcceptedReport :=
  match tl_PendingReports st !! id with
  | Some p => mkAccepted id "accepted" "" (pr_ToUpload p) (pr_ToDownload p)
  | None => mkAccepted id "duplicate" "" 0 0
  end.

Lemma apply_acceptance_spec a p st s :
  tl_Streams st !! pr_StreamID p = Some s -> ta_AcceptedUpload a = pr_ToUpload p -> ta_AcceptedDownload a = pr_ToDownload p ->
  exists s1, tl_Streams (apply_acceptance a p st) = <[pr_StreamID p := s1]> (tl_Streams st) /\
    tl_PendingReports (apply_acceptance a p st) = delete (ta_ReportID a) (tl_PendingReports st) /\
    ts_AcceptedUpload s1 = pr_ToUpload p /\ ts_AcceptedDownload s1 = pr_ToDownload p /\
    ts_CounterEpoch s1 = ts_CounterEpoch s.
Proof.
  intros Hs Hu Hd. unfold apply_acceptance. rewrite Hs, Hu, Hd.
  eexists. destruct (_ && _); (split_and!; [by destruct (_ =s "") | by destruct (_ =s "") | done ..]).
Qed.

Lemma accept_pending_tiled st acc id p a :
  tiled st acc -> tl_PendingReports st !! id = Some p -> a = honest st id ->
  tiled (apply_acceptance a p st) (acc ++ [p]) /\
  tl_PendingReports (apply_acceptance a p st) = delete id (tl_PendingReports st).
Proof.
  intros HT Ep ->. unfold honest. rewrite Ep. destruct (td_start _ _ HT id p Ep) as (s & Hs & Hfu & Hfd).
  destruct (apply_acceptance_spec (mkAccepted id "accepted" "" (pr_ToUpload p) (pr_ToDownload p)) p st s Hs eq_refl eq_refl)
    as (s1 & Hstr & Hpr & Hu1 & Hd1 & He1). split; [| exact Hpr]. cbn [ta_ReportID] in Hpr.
  assert (forall y, total_up y (acc ++ [p]) = total_up y acc + (if pr_StreamID p =s y then pr_ToUpload p - pr_FromUpload p else 0)) as Hup
    by (intros; apply total_snoc).
  assert (forall y, total_down y (acc ++ [p]) = total_down y acc + (if pr_StreamID p =s y then pr_ToDownload p - pr_FromDownload p else 0)) as Hdown
    by (intros; apply total_snoc).
  split; rewrite ?Hpr, ?Hstr.
  - intros id' q [_ Hq]%lookup_delete_Some. by apply (td_id _ _ HT).
  - intros id' q [Hne Hq]%lookup_delete_Some. destruct (td_start _ _ HT id' q Hq) as (sq & Hsq & Hst').
    exists sq. split; [| done]. rewrite lookup_insert_ne; [done |]. intros Hx.
    apply Hne. by apply (td_one _ _ HT id p id' q).
  - intros id1 q1 id2 q2 [_ H1]%lookup_delete_Some [_ H2]%lookup_delete_Some. by apply (td_one _ _ HT).
  - intros y sy. rewrite Hup, Hdown. intros [[<- <-] | [Hne Hy]]%lookup_insert_Some.
    + rewrite str_eqb_refl. destruct (td_total _ _ HT _ s Hs) as (H1 & H2 & H3). rewrite He1. split_and!; [exact H1 | lia | lia].
    + rewrite (proj2 (str_eqb_neq _ _) Hne). destruct (td_total _ _ HT y sy Hy) as (H1 & H2 & H3). split_and!; [done | lia | lia].
  - intros y [Hy Hne]%lookup_insert_None. rewrite Hup, Hdown, (proj2 (str_eqb_neq _ _) Hne).
    destruct (td_none _ _ HT y Hy). lia.
Qed.

(** One honest entry of an answer computed for the ledger [st0]. *)
Lemma accept_one_tiled st0 st acc id :
  tiled st acc -> tl_PendingReports st !! id = tl_PendingReports st0 !! id ->
  tiled (apply_accepted st (honest st0 id)) (acc ++ option_list (tl_PendingReports st0 !! id)) /\
  tl_PendingReports (apply_accepted st (honest st0 id)) = delete id (tl_PendingReports st).
Proof.
  intros HT Hsame. unfold apply_accepted.
  assert (honest st0 id = honest st id) as -> by (unfold honest; by rewrite Hsame).
  assert (ta_ReportID (honest st id) = id /\ is_one_of (ta_Status (honest st id)) [""; "accepted"; "duplicate"; "covered"]%string = true)
    as [-> ->] by (unfold honest; by destruct (_ !! id)).
  rewrite <- Hsame. destruct (tl_PendingReports st !! id) as [p |] eqn:Ep.
  - by apply (accept_pending_tiled st acc id p).
  - cbn. rewrite app_nil_r. split; [done |]. by rewrite delete_id.
Qed.

Lemma accept_all_tiled st0 ids st acc :
  NoDup ids -> tiled st acc -> (forall id, id ∈ ids -> tl_PendingReports st !! id = tl_PendingReports st0 !! id) ->
  tiled (fold_left apply_accepted (map (honest st0) ids) st) (acc ++ omap (fun id => tl_PendingReports st0 !! id) ids).
Proof.
  intros Hnd. revert st acc. induction Hnd as [| id ids Hin Hnd IH]; intros st acc HT Hsame; cbn.
  { by rewrite app_nil_r. }
  destruct (accept_one_tiled st0 st acc id HT (Hsame id ltac:(constructor))) as [HT1 Hpr1].
  assert (forall id', id' ∈ ids -> tl_PendingReports (apply_accepted st (honest st0 id)) !! id' = tl_PendingReports st0 !! id') as Hrest.
  { intros id' Hid'. rewrite Hpr1, lookup_delete_ne by congruence. apply Hsame. by constructor. }
  specialize (IH _ _ HT1 Hrest). destruct (tl_PendingReports st0 !! id) as [p |]; cbn in IH.
  - by rewrite <- app_assoc in IH.
  - by rewrite app_nil_r in IH.
Qed.

(** The part of [applyTrafficLedgerResponse] after the two loops leaves
    streams and reports alone. *)
Lemma apply_response_core now resp st :
  tr_StreamCheckpoints resp = [] ->
  let st1 := fold_left apply_accepted (tr_AcceptedReports resp) st in
  tl_PendingReports (applyTrafficLedgerResponse now resp st) = tl_PendingReports st1 /\
  tl_Streams (applyTrafficLedgerResponse now resp st) = tl_Streams st1.
Proof.
  intros Hc. unfold applyTrafficLedgerResponse. rewrite Hc. cbv zeta. cbn [fold_left].
  set (st1 := fold_left apply_accepted _ _).
  assert (forall l st', tl_PendingReports (fold_left note_conflict l st') = tl_PendingReports st' /\
    tl_Streams (fold_left note_conflict l st') = tl_Streams st') as Hn.
  { induction l as [| x l IH]; intros st'; cbn; [done |]. destruct (IH (note_conflict st' x)) as [-> ->].
    unfold note_conflict. by destruct (_ || _). }
  match goal with |- tl_PendingReports (fold_left _ ?l ?st') = _ /\ _ => destruct (Hn l st') as [-> ->] end.
  by destruct (_ && _ && _).
Qed.

(** Observations and honest answers, with the reports accepted so far. *)
Inductive tile_op :=
| TObserve (now : Time) (items : list trafficSnapshotItem) (recovering : bool)
| TAccept (now : Time) (ids : gset string).

Definition tile_step (sa : trafficLocalState * list trafficPendingRange) (o : tile_op)
  : trafficLocalState * list trafficPendingRange :=
  let '(st, acc) := sa in
  match o with
  | TObserve now items rec => (fst (observeTrafficSnapshotLocked sid rid now items rec st), acc)
  | TAccept now ids =>
      (applyTrafficLedgerResponse now (mkResponse (map (honest st) (elements ids)) [] ∅ 0) st,
       acc ++ omap (fun id => tl_PendingReports st !! id) (elements ids))
  end.

Definition tile_ok (o : tile_op) : Prop := match o with TObserve _ items _ => Forall item_ok items | TAccept _ _ => True end.

Lemma tile_step_tiled sa o : tile_ok o -> tiled (fst sa) (snd sa) -> tiled (fst (tile_step sa o)) (snd (tile_step sa o)).
Proof.
  destruct sa as [st acc]. destruct o as [now items rec | now ids]; cbn; intros Hok HT.
  - rewrite Forall_forall in Hok. unfold observeTrafficSnapshotLocked.
    apply (fold_left_inv _ (fun a => tiled (fst a) acc)); [done |]. intros [st' ch] it Hin HT'. apply observe_one_tiled; auto.
  - destruct (apply_response_core now (mkResponse (map (honest st) (elements ids)) [] ∅ 0) st eq_refl) as [Hp Hs].
    apply (tiled_ext (fold_left apply_accepted (map (honest st) (elements ids)) st)); [exact Hp | exact Hs |].
    apply accept_all_tiled; [apply NoDup_elements | done | done].
Qed.

Lemma empty_tiled : tiled empty_local [].
Proof. split; cbn; try (intros *; by rewrite lookup_empty). Qed.


End Tiling.

(** ** The request *)

Definition wire_ok (w : trafficStreamWire) : Prop :=
  tw_CounterEpoch w <> ""%string /\ TrimSpace (tw_PeriodKey w) <> ""%string /\ 0 < tw_UserID w /\
  tw_Source w <> ""%string.

Lemma add_wire_ok key w out :
  Forall wire_ok out -> NoDup (map tw_StreamID out) ->
  Forall wire_ok (add_wire sid key w out) /\ NoDup (map tw_StreamID (add_wire sid key w out)).
Proof.
  intros Hf Hn. unfold add_wire. destruct (_ || _ || _ || _) eqn:E; [done |]. rewrite !orb_false_iff in E.
  destruct E as [[[E1 E2] E3] E4]. zify_bool. apply str_eqb_neq in E2, E3.
  destruct (existsb _ out) eqn:Ex; [done |]. split.
  - apply Forall_app. split; [done |]. constructor; [| constructor]. unfold wire_ok. cbn. split_and!; [done | done | done |].
    by destruct (tw_Source w =s "") eqn:Es; [| apply str_eqb_neq in Es].
  - rewrite map_app. apply NoDup_app. split_and!; [done | | apply NoDup_singleton].
    intros x Hx Hin. apply list_elem_of_singleton in Hin. cbn in Hin. subst x.
    apply list_elem_of_fmap in Hx as (o & Ho & Hin). apply not_true_iff_false in Ex. apply Ex.
    apply existsb_exists. exists o. split; [by apply list_elem_of_In | apply str_eqb_eq; exact (eq_sym Ho)].
Qed.

(** The observations of a request carry a complete identity each, name no
    stream twice and number at most a thousand. *)
Theorem request_is_well_formed st items :
  let out := trafficStreamWireBatch sid st items in
  Forall wire_ok out /\ NoDup (map tw_StreamID out) /\ (List.length out <= 1000)%nat.
Proof.
  cbv zeta. unfold trafficStreamWireBatch. set (out1 := fold_left _ items []).
  assert (Forall wire_ok out1 /\ NoDup (map tw_StreamID out1)) as H1.
  { apply (fold_left_inv _ (fun out => Forall wire_ok out /\ NoDup (map tw_StreamID out))); [split; constructor |].
    intros out it _ []. by apply add_wire_ok. }
  set (out2 := fold_left _ _ out1).
  assert (Forall wire_ok out2 /\ NoDup (map tw_StreamID out2)) as [H2 H3].
  { apply (fold_left_inv _ (fun out => Forall wire_ok out /\ NoDup (map tw_StreamID out))); [done |].
    intros out it _ []. by apply add_wire_ok. }
  split_and!; [by apply Forall_take | | rewrite length_take; lia].
  rewrite <- (take_drop 1000 out2), map_app in H3. by apply NoDup_app in H3 as [? _].
Qed.

(** ** Policies *)

Lemma time_Sub_self now later : now <= later -> later - now < trafficLeaseStaleAfter -> (time_Sub later now <? trafficLeaseStaleAfter) = true.
Proof.
  intros H1 H2. apply Z.ltb_lt. unfold time_Sub. rewrite clamp_id; [done |].
  unfold trafficLeaseStaleAfter, Hour, Minute, Second, min_int64, max_int64 in *. lia.
Qed.

Lemma note_conflict_success st s : sy_LastSuccess (tl_Sync (note_conflict st s)) = sy_LastSuccess (tl_Sync st).
Proof. unfold note_conflict. by destruct (_ || _). Qed.

Lemma applyResponse_success now resp st : sy_LastSuccess (tl_Sync (applyTrafficLedgerResponse now resp st)) = time_Format now.
Proof.
  unfold applyTrafficLedgerResponse. cbv zeta.
  apply (fold_left_inv _ (fun st => sy_LastSuccess (tl_Sync st) = time_Format now)); [done |].
  intros a b _ Ha. by rewrite note_conflict_success.
Qed.

Lemma stale_leases_kept now later resp st :
  four_digit_year now -> now <= later < now + trafficLeaseStaleAfter ->
  applyStaleLeasePolicies later (tr_Policies resp) (applyTrafficLedgerResponse now resp st) =
    (tr_Policies resp, applyTrafficLedgerResponse now resp st).
Proof.
  intros Hy Hl. unfold applyStaleLeasePolicies. rewrite applyResponse_success. destruct (_ || _); [done |].
  rewrite time_Parse_Format by done. by rewrite time_Sub_self by lia.
Qed.

Context (contentID : gmap string TrafficRuntimePolicy -> string).
Context {A : AEAD} {L : AEADLaws A} {CP : Codec runtimeProfile} {CS : Codec trafficLocalState} {LS : CodecLaws CS}.

(** ** Revisions *)

Lemma save_world_state r e w : tw_state (snd (save_world r e w)) = tw_state w.
Proof. unfold save_world. by destruct (saveTrafficState _ _ _ _). Qed.

Lemma stale_revision later pol st :
  tl_PolicyRevision (snd (applyStaleLeasePolicies later pol st)) = tl_PolicyRevision st.
Proof.
  unfold applyStaleLeasePolicies. destruct (_ || _); [done |]. destruct (time_Parse _); [| done].
  destruct (_ <? _); [done |]. cbn. by destruct (_ || _).
Qed.

Lemma push_state policies acks cu su ok w : tw_state (snd (pushTrafficPolicies policies acks cu su ok w)) = tw_state w.
Proof. unfold pushTrafficPolicies. destruct cu; cbn; by destruct ok. Qed.

Lemma check_apply applied ap incoming ip :
  checkTrafficPolicyRevision contentID applied ap incoming ip = RevisionApply -> applied < incoming.
Proof.
  unfold checkTrafficPolicyRevision. destruct (_ <=? 0); [done |]. destruct (Z.ltb_spec incoming applied); [done |].
  destruct (Z.eqb_spec incoming applied); [by destruct (_ =s _) |]. lia.
Qed.

Definition revision (w : TrafficWorld) : Z := tl_PolicyRevision (tw_state w).

Lemma task_revision r leased rev pol x w : revision w <= revision (snd (applyTrafficPolicyTask contentID r leased rev pol x w)).
Proof.
  unfold revision, applyTrafficPolicyTask. destruct (negb _); [done |]. destruct (_ && _ && _); [done |].
  destruct (checkTrafficPolicyRevision _ _ _ _ _) eqn:Ec; [| done | done].
  apply check_apply in Ec. destruct (pushTrafficPolicies _ _ _ _ _ w) as [[] w1] eqn:Ep;
    pose proof (push_state (WPolicy <$> pol) (tl_Acknowledged (tw_state w)) (ex_coreUsers x) (ex_sshUsers x) (ex_pushed x) w) as Hps; rewrite Ep in Hps; cbn in Hps;
    [| cbn; rewrite Hps; lia].
  destruct (save_world _ _ _) as [[] w2] eqn:Es;
    match type of Es with save_world ?a ?b ?c = _ => pose proof (save_world_state a b c) as Hss end;
    rewrite Es in Hss; cbn in Hss |- *; rewrite Hss; cbn; lia.
Qed.

(** The revision an answer carries. *)
Definition answer_revision (resp : trafficReportResponse) : Z :=
  if tr_PolicyRevision resp =? 0 then trafficPolicyRevisionFromPolicies (trafficPoliciesFromWire (tr_Policies resp)) else tr_PolicyRevision resp.

(** The answer arrives less than a day after the post was stamped. *)
Definition prompt (x : Exchange) : Prop := four_digit_year (ex_now x) /\ ex_now x <= ex_later x < ex_now x + trafficLeaseStaleAfter.

(** What an exchange does to the applied policies. *)
Lemma exchange_policies r x items w resp err w' :
  prompt x -> ex_post x (trafficLedgerRequest sid (tw_state w) items) = Some resp -> exchange sid contentID r x items w = (err, w') ->
  (tl_PolicyRevision (tw_state w') = revision w /\ tl_Policies (tw_state w') = tl_Policies (tw_state w) /\
   (err <> None \/ 0 < answer_revision resp)) \/
  ((0 < answer_revision resp -> revision w < answer_revision resp) /\
   tl_PolicyRevision (tw_state w') = answer_revision resp /\ tl_Policies (tw_state w') = trafficPoliciesFromWire (tr_Policies resp) /\
   tw_pushed w' <> tw_pushed w).
Proof.
  intros [Hy Hl] Hresp. unfold revision, exchange. rewrite Hresp. destruct (negb _); [intros [= <- <-]; left; by auto |].
  set (st1 := applyTrafficLedgerResponse (ex_now x) resp (tw_state w)).
  assert (fewer (tw_state w) st1) as (_ & _ & H1 & H2) by apply applyResponse_fewer.
  change (w<|tw_state ::= applyTrafficLedgerResponse (ex_now x) resp|>) with (w<|tw_state := st1|>).
  destruct (save_world r (ex_checkpointSave x) (w<|tw_state := st1|>)) as [e1 w2] eqn:Es.
  pose proof (save_world_state r (ex_checkpointSave x) (w<|tw_state := st1|>)) as Hs. rewrite Es in Hs. cbn [snd tw_state upd] in Hs.
  assert (tw_pushed w2 = tw_pushed w) as Hp2.
  { unfold save_world in Es. destruct (saveTrafficState _ _ _ _). by injection Es as _ <-. }
  destruct e1; [intros [= <- <-]; left; rewrite Hs; by auto |].
  rewrite Hs. unfold st1 at 1. rewrite (stale_leases_kept _ _ _ _ Hy Hl). fold st1. cbv zeta.
  fold (answer_revision resp). set (typed := trafficPoliciesFromWire (tr_Policies resp)).
  destruct (if 0 <? answer_revision resp then _ else _) eqn:Ev.
  2:{ intros [= <- <-]. left. cbn. split_and!; [done | done |]. right. destruct (Z.ltb_spec 0 (answer_revision resp)); [done | done]. }
  2:{ intros [= <- <-]. left. cbn. by auto. }
  assert (0 < answer_revision resp -> tl_PolicyRevision (tw_state w) < answer_revision resp) as Hlt.
  { intros Hpos. rewrite (proj2 (Z.ltb_lt _ _) Hpos) in Ev. apply check_apply in Ev. congruence. }
  unfold pushTrafficPolicies. destruct (match ex_coreUsers x with Some _ => _ | None => _ end) as [core ssh].
  destruct (ex_pushed x); [| intros [= <- <-]; left; cbn; by auto].
  match goal with |- context [save_world r ?e ?w0] =>
    pose proof (save_world_state r e w0) as Hs3; assert (tw_pushed (snd (save_world r e w0)) = tw_pushed w0) as Hp3
      by (unfold save_world; by destruct (saveTrafficState _ _ _ _)); destruct (save_world r e w0) as [e3 w3] end.
  cbn in Hs3, Hp3. intros Heq. assert (w' = w3) as -> by (destruct e3; congruence). right.
  rewrite Hs3, Hp3, Hp2. cbn. split_and!; try done. intros Hc. apply (f_equal List.length) in Hc. cbn in Hc. lia.
Qed.

Lemma report_policies r x items w :
  let w1 := snd (exchange sid contentID r x items w) in
  let w2 := snd (reportTrafficLedger sid contentID r x items w) in
  tl_PolicyRevision (tw_state w2) = tl_PolicyRevision (tw_state w1) /\ tl_Policies (tw_state w2) = tl_Policies (tw_state w1).
Proof.
  cbv zeta. unfold reportTrafficLedger. destruct (exchange sid contentID r x items w) as [[stage |] w1]; [| done].
  destruct (ex_cancelled x); [done |]. cbn [snd]. rewrite save_world_state. done.
Qed.

(** Policy tasks and exchanges, the two ways a policy reaches the runtimes. *)
Inductive policy_op :=
| PTask (leased : bool) (rev : Z) (policies : gmap string TrafficRuntimePolicy) (x : Exchange)
| PReport (x : Exchange) (items : list trafficSnapshotItem)
| PRestore (x : Exchange).

Definition policy_step (r : Runner) (w : TrafficWorld) (o : policy_op) : TrafficWorld :=
  match o with
  | PTask leased rev policies x => snd (applyTrafficPolicyTask contentID r leased rev policies x w)
  | PReport x items => snd (reportTrafficLedger sid contentID r x items w)
  | PRestore x => snd (restoreTrafficRuntimePolicies x w)
  end.

(** Every answer carries a revision. *)
Definition policy_op_ok (o : policy_op) : Prop :=
  match o with
  | PReport x _ => prompt x /\ forall request resp, ex_post x request = Some resp -> 0 < answer_revision resp
  | _ => True
  end.

(** C27: applied policies never go back: however policy tasks and reports
    interleave, are delayed or fail half-way, the revision in force only
    grows, as long as the Controller's answers carry one. *)
Theorem policy_revision_never_goes_back r ops w :
  Forall policy_op_ok ops -> revision w <= revision (fold_left (policy_step r) ops w).
Proof.
  intros Hops. rewrite Forall_forall in Hops. apply (fold_left_inv _ (fun w' => revision w <= revision w')); [done |].
  intros w' o Hin Hw. specialize (Hops o Hin). destruct o as [leased rev pol x | x items | x]; cbn [policy_step].
  { pose proof (task_revision r leased rev pol x w'). lia. }
  2:{ unfold restoreTrafficRuntimePolicies. destruct (bool_decide _); [done |]. unfold revision at 2. by rewrite push_state. }
  destruct Hops as [Hprompt Hpos]. unfold revision at 2. destruct (report_policies r x items w') as [-> _].
  destruct (ex_post x (trafficLedgerRequest sid (tw_state w') items)) as [resp |] eqn:Er.
  - destruct (exchange sid contentID r x items w') as [err w2] eqn:Ex.
    destruct (exchange_policies r x items w' resp err w2 Hprompt Er Ex) as [[H _] | (H & H' & _)]; cbn; [lia |].
    specialize (Hpos _ resp Er). specialize (H Hpos). lia.
  - unfold exchange. by rewrite Er.
Qed.

(** An answer without policies and without a revision resets the guard:
    the agent applies it as revision 0 and forgets the policies it had
    applied, so that a delayed older policy is accepted afterwards. *)
Theorem empty_answer_forgets_revision r x items w resp w' :
  prompt x -> ex_post x (trafficLedgerRequest sid (tw_state w) items) = Some resp -> tr_Policies resp = ∅ -> tr_PolicyRevision resp = 0 ->
  exchange sid contentID r x items w = (None, w') ->
  revision w' = 0 /\ tl_Policies (tw_state w') = ∅.
Proof.
  intros Hprompt Hr Hp Hrev Hex. assert (answer_revision resp = 0) as Ha by (unfold answer_revision; by rewrite Hrev, Hp).
  destruct (exchange_policies r x items w resp None w' Hprompt Hr Hex) as [(_ & _ & [[] | H]) | (_ & H1 & H2 & _)]; [done | lia |].
  unfold revision. rewrite H1, Ha, H2, Hp. done.
Qed.

(** The protection against stale leases never acts: a report stamps the
    present as its last success before it asks how long ago the last success
    was, so however long the Controller was out of reach, an enforced lease of
    its answer is handed to the runtimes in full. *)
Theorem stale_lease_withdrawal_is_dead x resp st key p :
  prompt x -> tr_Policies resp !! key = Some (WPolicy p) ->
  fst (applyStaleLeasePolicies (ex_later x) (tr_Policies resp) (applyTrafficLedgerResponse (ex_now x) resp st)) !! key =
    Some (WPolicy p).
Proof. intros [Hy Hl] Hp. by rewrite stale_leases_kept. Qed.

(** ** Saving *)

(** Neither file is private, and the temporary names are fresh. *)
Definition save_paths_ok (r : Runner) (e : TrafficSave) : Prop :=
  runtimeStatePurpose r (trafficStatePath r) = ""%string /\ runtimeStatePurpose r (trafficStateBackupPath r) = ""%string /\
  env_ok r (trafficStateBackupPath r) (sv_backup e) /\ env_ok r (trafficStatePath r) (sv_primary e) /\
  se_tmp (sv_backup e) <> trafficStatePath r /\ se_tmp (sv_primary e) <> trafficStateBackupPath r.

Lemma backup_path_ne r : trafficStateBackupPath r <> trafficStatePath r.
Proof.
  unfold trafficStateBackupPath. intros H. apply (f_equal String.length) in H. rewrite string_length_app in H. cbn in H. lia.
Qed.

Lemma read_plain_ext r d d' path :
  runtimeStatePurpose r path = ""%string -> d' !! path = d !! path -> stateReadPath r d' path = stateReadPath r d path.
Proof. intros Hp Hd. unfold stateReadPath, openRuntimeState. by rewrite (securefile_Read_ext d d' _ _ Hd), Hp. Qed.

Lemma read_plain_unprotected r d path b : runtimeStatePurpose r path = ""%string -> stateReadPath r d path = Ok b -> IsProtected b = false.
Proof.
  intros Hp. unfold stateReadPath, openRuntimeState. rewrite Hp. destruct (securefile_Read d path _) as [raw | []]; [| done | done].
  destruct (sniff r raw) as [x |]; [| done]. cbn. destruct (IsProtected x) eqn:E; [done |]. by intros [= <-].
Qed.

Lemma readTrafficStateFile_Ok r d path st :
  readTrafficStateFile r d path = Ok st ->
  exists b, stateReadPath r d path = Ok b /\ b <> [] /\
    (forall d' path', stateReadPath r d' path' = Ok b -> readTrafficStateFile r d' path' = Ok st).
Proof.
  unfold readTrafficStateFile. destruct (stateReadPath r d path) as [b |]; [| done]. intros H. exists b.
  split_and!; [done | by intros -> | by intros d' path' ->].
Qed.

(** Documents are within the size limit and never blank. *)
Context (json_document : forall (st : trafficLocalState) b, json_Marshal st = Some b ->
  IsProtected b = false /\ Z.of_nat (List.length b) + 33 <= Z.shiftl 32 20 /\ TrimSpace (string_of_list_ascii b) <> ""%string).

Lemma marshalled_reads r d path st b :
  validateTrafficState st = true -> json_Marshal st = Some b -> stateReadPath r d path = Ok b ->
  readTrafficStateFile r d path = Ok st.
Proof.
  intros Hv Hm Hr. unfold readTrafficStateFile. destruct (json_document st b Hm) as (_ & _ & Hne).
  by rewrite Hr, (proj2 (str_eqb_neq _ _) Hne), (json_roundtrip _ _ Hm), Hv.
Qed.

(** Writing the backup leaves the primary file alone, and the reverse. *)
Lemma backup_write_other r e b d res d1 :
  save_paths_ok r e -> stateWritePath r (sv_backup e) true (trafficStateBackupPath r) b d = (res, d1) ->
  stateReadPath r d1 (trafficStatePath r) = stateReadPath r d (trafficStatePath r).
Proof.
  intros (P1 & _ & (Hb & _) & _ & Hbt & _) Ew. apply read_plain_ext; [exact P1 |].
  destruct (stateWritePath_cases _ _ _ _ _ _ _ _ Hb Ew) as [Ho _].
  apply Ho; [exact (not_eq_sym Hbt) | exact (not_eq_sym (backup_path_ne r))].
Qed.

Lemma primary_write_other r e b d res d1 :
  save_paths_ok r e -> stateWritePath r (sv_primary e) true (trafficStatePath r) b d = (res, d1) ->
  stateReadPath r d1 (trafficStateBackupPath r) = stateReadPath r d (trafficStateBackupPath r).
Proof.
  intros (_ & P2 & _ & (Hb & _) & _ & Hpt) Ew. apply read_plain_ext; [exact P2 |].
  destruct (stateWritePath_cases _ _ _ _ _ _ _ _ Hb Ew) as [Ho _].
  apply Ho; [exact (not_eq_sym Hpt) | exact (backup_path_ne r)].
Qed.


(** ** A report of an older epoch *)

(** Accepting a report of an older epoch misplaces the checkpoint: a
    kernel restart starts a new epoch while a report of the old one is still
    queued; when the Controller then accepts it, the bytes of the old epoch
    become the accepted checkpoint of the new one, although nothing of the new
    epoch was accounted. *)
Theorem old_epoch_acceptance_misplaces_checkpoint now st x s p id :
  tl_PendingReports st !! id = Some p -> pr_StreamID p = x -> tl_Streams st !! x = Some s ->
  pr_CounterEpoch p <> ts_CounterEpoch s -> (pr_ToUpload p <> 0 \/ pr_ToDownload p <> 0) ->
  exists s', tl_Streams (applyTrafficLedgerResponse now (mkResponse [honest st id] [] ∅ 0) st) !! x = Some s' /\
    ts_CounterEpoch s' = ts_CounterEpoch s /\ ts_AcceptedUpload s' = pr_ToUpload p /\ ts_AcceptedDownload s' = pr_ToDownload p.
Proof.
  intros Hp <- Hs Hne Hz. destruct (apply_response_core now (mkResponse [honest st id] [] ∅ 0) st eq_refl) as [_ ->].
  cbn [fold_left tr_AcceptedReports]. unfold apply_accepted, honest. rewrite Hp. cbn [ta_ReportID ta_Status]. rewrite Hp. cbn [is_one_of existsb].
  destruct (apply_acceptance_spec (mkAccepted id "accepted" "" (pr_ToUpload p) (pr_ToDownload p)) p st s Hs eq_refl eq_refl)
    as (s1 & Hstr & _ & Hu1 & Hd1 & He1).
  exists s1. split_and!; [| done | done | done].
  change (tl_Streams (apply_acceptance (mkAccepted id "accepted" "" (pr_ToUpload p) (pr_ToDownload p)) p st) !! pr_StreamID p = Some s1).
  rewrite Hstr. apply lookup_insert_eq.
Qed.

End Ledger.

(** ** Witnesses *)

#[export] Instance TrafficRuntimePolicy_eq_dec : EqDecision TrafficRuntimePolicy.
Proof. solve_decision. Defined.
#[export] Instance trafficSnapshotItem_eq_dec : EqDecision trafficSnapshotItem.
Proof. solve_decision. Defined.
#[export] Instance trafficStreamState_eq_dec : EqDecision trafficStreamState.
Proof. solve_decision. Defined.
#[export] Instance trafficPendingRange_eq_dec : EqDecision trafficPendingRange.
Proof. solve_decision. Defined.
#[export] Instance trafficSyncState_eq_dec : EqDecision trafficSyncState.
Proof. solve_decision. Defined.
#[export] Instance trafficCounterCheckpoint_eq_dec : EqDecision trafficCounterCheckpoint.
Proof. solve_decision. Defined.
#[export] Instance trafficPendingReport_eq_dec : EqDecision trafficPendingReport.
Proof. solve_decision. Defined.
#[export] Instance trafficLocalState_eq_dec : EqDecision trafficLocalState.
Proof. solve_decision. Defined.

Section Witnesses.

Definition plain_sid (source key : string) : string := source +:+ "/" +:+ key.
Definition morning : Time := 1704067200 * Second.
Definition an_item (epoch : string) (up down : Z) : trafficSnapshotItem := mkItem "k" epoch "" 7 1 0 "p" up down.


(** A stream everything of which is accepted, last seen three weeks earlier. *)
Definition old_stream : trafficStreamState :=
  mkStream "core" "k" "e" "p" 7 1 0 10 20 10 20 trafficStatusHealthy "" "2023-12-11T00:00:00Z".
Definition with_old_stream : trafficLocalState := empty_local<|tl_Streams := {["core/k"%string := old_stream]}|>.

Lemma pruning_loses_no_accounting_witness :
  tl_Streams (fst (pruneTrafficStreamsLocked morning with_old_stream)) !! "core/k"%string = None /\
  ts_ObservedUpload old_stream = ts_AcceptedUpload old_stream.
Proof.
  assert (tl_Streams with_old_stream !! "core/k"%string = Some old_stream) as Hs by reflexivity.
  pose proof (pruning_loses_no_accounting morning with_old_stream "core/k" old_stream Hs) as H.
  destruct (tl_Streams (fst (pruneTrafficStreamsLocked morning with_old_stream)) !! "core/k"%string) as [s |] eqn:E;
    [by vm_compute in E | split; reflexivity].
Defined.

Definition tile_run : list tile_op :=
  [TObserve morning [an_item "e" 10 20] false; TAccept morning {["core/k"%string]}; TObserve morning [an_item "e" 15 20] false].


Definition leased : TrafficRuntimePolicy :=
  mkPolicy 7 1 0 "" 0 "" true 0 0 0 1001 0 true "p" "" "" "" 1 "" "" "" "" 3.

Lemma shared_lease_is_split_exactly_witness :
  let '(core, ssh) := partitionRuntimePolicyLeases {["7"%string := WPolicy leased]} {[7]} {[7]} in
  match core !! "7"%string, ssh !! "7"%string with
  | Some (WPolicy c), Some (WPolicy h) => tp_LeaseBytes c + tp_LeaseBytes h = 1001 /\ 0 <= tp_LeaseBytes h <= tp_LeaseBytes c
  | Some (WPolicy c), None => c = leased /\ 7 ∈ ({[7]} : gset Z)
  | None, Some (WPolicy h) => h = leased /\ 7 ∈ ({[7]} : gset Z)
  | _, _ => False
  end.
Proof.
  assert (({["7"%string := WPolicy leased]} : gmap string wire_policy) !! "7"%string = Some (WPolicy leased)) as Hp by reflexivity.
  assert (0 <= tp_LeaseBytes leased < max_int64) as Hr by by_compute.
  exact (shared_lease_is_split_exactly {["7"%string := WPolicy leased]} {[7]} {[7]} "7" leased Hp eq_refl eq_refl Hr).
Defined.

(** A codec of one document. *)
Definition the_document : trafficLocalState := empty_local<|tl_SchemaVersion := 2|>.
#[local] Instance one_document : Codec trafficLocalState := {|
  json_Marshal st := if decide (st = the_document) then Some (list_ascii_of_string "{}") else None;
  json_Unmarshal b := if decide (b = list_ascii_of_string "{}") then Some the_document else None
|}.
#[local] Instance one_document_laws : CodecLaws one_document.
Proof. intros x b. cbn. destruct (decide (x = the_document)) as [-> |]; [| done]. intros [= <-]. reflexivity. Defined.
#[local] Instance profile_name : Codec runtimeProfile := {|
  json_Marshal p := Some (list_ascii_of_string (rp_Mode p));
  json_Unmarshal b := Some (mkProfile (string_of_list_ascii b))
|}.

Definition good_save : TrafficSave := mkTrafficSave false plain_env plain_env.
Definition an_exchange (resp : option trafficReportResponse) : Exchange :=
  mkExchange morning morning (fun _ => resp) true true None ∅ false "" good_save good_save good_save.
Definition fresh_world : TrafficWorld := mkTrafficWorld empty_local ∅ [].

Lemma policy_revision_never_goes_back_witness :
  revision fresh_world <= revision (fold_left (policy_step plain_sid (fun _ => "id"%string) plain_runner)
    [PTask false 5 ∅ (an_exchange None); PReport (an_exchange (Some (mkResponse [] [] ∅ 4))) []] fresh_world).
Proof.
  apply (policy_revision_never_goes_back plain_sid (fun _ => "id"%string) plain_runner
    [PTask false 5 ∅ (an_exchange None); PReport (an_exchange (Some (mkResponse [] [] ∅ 4))) []] fresh_world).
  constructor; [exact I |]. constructor; [| constructor]. split; [split; by_compute |]. intros request resp [= <-]. reflexivity.
Defined.

Definition any_document : Codec trafficLocalState := {|
  json_Marshal _ := Some (list_ascii_of_string "{}");
  json_Unmarshal _ := Some the_document
|}.

Lemma empty_answer_forgets_revision_witness :
  exists w', exchange (CS := any_document) plain_sid (fun _ => "id"%string) plain_runner (an_exchange (Some (mkResponse [] [] ∅ 0))) []
      (mkTrafficWorld (the_document<|tl_PolicyRevision := 9|>) ∅ []) = (None, w') /\ revision w' = 0.
Proof.
  set (x := an_exchange (Some (mkResponse [] [] ∅ 0))). set (w := mkTrafficWorld _ ∅ []).
  destruct (exchange (CS := any_document) plain_sid (fun _ => "id"%string) plain_runner x [] w) as [err w'] eqn:E.
  assert (err = None) as -> by (apply (f_equal fst) in E; cbn [fst] in E; rewrite <- E; vm_compute; reflexivity).
  exists w'. split; [reflexivity |].
  assert (prompt x) as Hp by (split; [split; by_compute | split; by_compute]).
  exact (proj1 (empty_answer_forgets_revision (CS := any_document) plain_sid (fun _ => "id"%string) plain_runner x [] w (mkResponse [] [] ∅ 0) w'
    Hp eq_refl eq_refl eq_refl E)).
Defined.

Lemma stale_lease_withdrawal_is_dead_witness :
  fst (applyStaleLeasePolicies (morning + 1) {["7"%string := WPolicy leased]}
    (applyTrafficLedgerResponse morning (mkResponse [] [] {["7"%string := WPolicy leased]} 3) empty_local)) !! "7"%string = Some (WPolicy leased).
Proof.
  set (resp := mkResponse [] [] {["7"%string := WPolicy leased]} 3).
  assert (prompt (an_exchange (Some resp))) as Hp by (split; [split; by_compute | split; by_compute]).
  assert (tr_Policies resp !! "7"%string = Some (WPolicy leased)) as Hk by reflexivity.
  exact (stale_lease_withdrawal_is_dead (an_exchange (Some resp)) resp empty_local "7" leased Hp Hk).
Defined.

Definition stored_document : disk := {["/var/lib/oboard/traffic-state.json"%string := Regular (list_ascii_of_string "{}")]}.


(** The kernel restarted with a report of ten bytes still queued. *)
Definition queued : trafficPendingRange :=
  mkRange "tr" "core" "core/k" "e" "p" 7 (Some 1) None 0 10 0 20 "2024-01-01T00:00:00Z" "2024-01-01T00:01:00Z" "k".
Definition restarted : trafficLocalState :=
  empty_local<|tl_Streams := {["core/k"%string := old_stream<|ts_CounterEpoch := "f"%string|><|ts_AcceptedUpload := 0|>]}|>
             <|tl_PendingReports := {["tr"%string := queued]}|>.

Lemma old_epoch_acceptance_misplaces_checkpoint_witness :
  exists s', tl_Streams (applyTrafficLedgerResponse morning (mkResponse [honest restarted "tr"] [] ∅ 0) restarted) !! "core/k"%string = Some s' /\
    ts_CounterEpoch s' = "f"%string /\ ts_AcceptedUpload s' = 10 /\ ts_AcceptedDownload s' = 20.
Proof.
  assert (tl_PendingReports restarted !! "tr"%string = Some queued) as Hp by reflexivity.
  destruct (tl_Streams restarted !! "core/k"%string) as [s |] eqn:Hs; [| discriminate Hs].
  assert (s = old_stream<|ts_CounterEpoch := "f"%string|><|ts_AcceptedUpload := 0|>) as -> by (vm_compute in Hs; by injection Hs as <-).
  refine (old_epoch_acceptance_misplaces_checkpoint morning restarted "core/k" _ queued "tr" Hp eq_refl Hs _ (or_introl _)); by vm_compute.
Defined.

End Witnesses.
