(* ===== verification/Authorization.v ===== *)
(** * Authorization: leases and the deny watermark

    Model of internal/authorization/lease.go (the kernel carries the same
    file): the lease the Controller signs for one server, and the [Store] that
    installs leases, remembers denied keys and persists both.

    A store operation takes the store, the disk and the [Env] of the call (the
    clock it reads and the outcome of its system calls) and returns its result
    with the new store and disk. JSON encoding is the class [Codec] of Json.v. *)

From S2P Require Import Prelude GoTime Stealth Files Json.

Definition MaxLifetime : Duration := 5 * Minute.
Definition maxDeniedKeys : Z := 65536.

(** ** Leases *)

Record Lease := mkLease {
  l_Revision : Z;
  l_Sequence : Z;
  l_Digest : string;
  l_IssuedAt : string;
  l_ExpiresAt : string;
  l_Grants : gmap string string;
  l_Denied : list string
}.

#[export] Instance eta_Lease : Eta Lease := fun l =>
  mkLease (l_Revision l) (l_Sequence l) (l_Digest l) (l_IssuedAt l) (l_ExpiresAt l)
    (l_Grants l) (l_Denied l).

(** The validity window [issued, expires), [None] for an error. *)
Definition lease_window (l : Lease) : option (Time * Time) :=
  issued ← time_Parse (l_IssuedAt l);
  let expires := issued + MaxLifetime in
  if l_ExpiresAt l =s "" then Some (issued, expires)
  else
    parsed ← time_Parse (l_ExpiresAt l);
    if Before parsed issued || After parsed expires then None
    else Some (issued, parsed).

Definition grant_ok (expires : Time) (key raw : string) : bool :=
  match time_Parse raw with
  | Some fin => negb (key =s "") && (str_len key <=? 256) && negb (After fin expires)
  | None => false
  end.

Definition denial_ok (key : string) : bool := negb (key =s "") && (str_len key <=? 256).

(** A nil lease is valid. *)
Definition lease_Validate (ol : option Lease) : result string unit :=
  match ol with
  | None => Ok tt
  | Some l =>
      match lease_window l with
      | None => Err "invalid authorization snapshot"%string
      | Some (_, expires) =>
          if (l_Revision l <=? 0) || (l_Sequence l <? 0) ||
             (65536 <? Z.of_nat (size (l_Grants l))) ||
             (maxDeniedKeys <? Z.of_nat (List.length (l_Denied l))) ||
             (128 <? str_len (l_Digest l))
          then Err "invalid authorization snapshot"%string
          else if bool_decide (map_Forall (fun k raw => grant_ok expires k raw = true) (l_Grants l))
          then
            if forallb denial_ok (l_Denied l) then Ok tt
            else Err "invalid authorization denial"%string
          else Err "invalid authorization grant"%string
      end
  end.

(** An absent grant reads as the empty string, which does not parse. *)
Definition lease_Allows (ol : option Lease) (key : string) (now : Time) : bool :=
  match ol with
  | None => false
  | Some l =>
      if key =s "" then false
      else
        match lease_window l with
        | None => false
        | Some (issued, expires) =>
            if Before now issued || negb (Before now expires) then false
            else
              match time_Parse (default ""%string (l_Grants l !! key)) with
              | Some fin => negb (After fin expires) && Before now fin
              | None => false
              end
        end
  end.

Definition next_grant (now : Time) (key raw : string) (next : Time) : Time :=
  match time_Parse raw with
  | Some fin => if After fin now && Before fin next then fin else next
  | None => next
  end.

Definition lease_NextExpiry (ol : option Lease) (now : Time) : Time :=
  match ol with
  | None => time_zero
  | Some l =>
      match lease_window l with
      | None => time_zero
      | Some (_, expires) =>
          let next := map_fold (next_grant now) expires (l_Grants l) in
          if negb (After next now) then time_zero else next
      end
  end.

(** ** The store *)

Record deniedEntry := mkDenied { de_Revision : Z; de_At : string }.

Record Store := mkStore {
  st_path : string;
  st_key : bytes;
  st_loaded : bool;
  st_err : option string;
  st_lease : option Lease;
  st_denied : gmap string deniedEntry;
  st_bootID : string;
  st_onChange : bool
}.

#[export] Instance eta_Store : Eta Store := fun s =>
  mkStore (st_path s) (st_key s) (st_loaded s) (st_err s) (st_lease s) (st_denied s)
    (st_bootID s) (st_onChange s).

Definition NewStore (path : string) (key : bytes) (bootID : string) : Store :=
  mkStore path key false None None ∅ bootID false.

Definition SetChangeHook (s : Store) (registered : bool) : Store := s<|st_onChange := registered|>.

(** Outcome of one file write: its system calls, nonce and temporary name. *)
Record WriteEnv := mkWriteEnv { we_io : io; we_nonce : option bytes; we_tmp : string }.

(** What one call reads from its surroundings. *)
Record Env := mkEnv { env_now : Time; env_first : WriteEnv; env_second : WriteEnv }.

Inductive state_error := StateMissing | StateFailed (e : string).

Section Store.
Context {A : AEAD} {CL : Codec Lease} {CD : Codec (gmap string deniedEntry)}.

Definition deniedPath (s : Store) : string :=
  if st_path s =s "" then ""%string else (st_path s +:+ ".denied.json")%string.

Definition readState (s : Store) (d : disk) (path : string) : result state_error bytes :=
  match ReadFile d path with
  | Err NotExist => Err StateMissing
  | Err (ReadFailed e) => Err (StateFailed e)
  | Ok data =>
      if (0 <? List.length (st_key s))%nat && IsEncrypted data then
        match Decrypt (st_key s) data with
        | Ok p => Ok p
        | Err _ => Err (StateFailed "stealth envelope is corrupt or the key does not match")
        end
      else Ok data
  end.

Definition writeState (w : WriteEnv) (s : Store) (path : string) (data : bytes) (d : disk)
  : result string unit * disk :=
  if (0 <? List.length (st_key s))%nat then
    match Encrypt (st_key s) (we_nonce w) data with
    | Err _ => (Err "encrypt"%string, d)
    | Ok sealed => writeAtomic (we_io w) (we_tmp w) path sealed d
    end
  else writeAtomic (we_io w) (we_tmp w) path data d.

(** The deny file, read after the lease file was accepted or is absent. *)
Definition load_denied (s : Store) (d : disk) : Store :=
  match readState s d (deniedPath s) with
  | Err StateMissing => s
  | Err (StateFailed e) => s<|st_err := Some e|>
  | Ok data =>
      match json_Unmarshal (A := gmap string deniedEntry) data with
      | None => s<|st_err := Some "invalid deny watermark"%string|>
      | Some denied =>
          if maxDeniedKeys <? Z.of_nat (size denied)
          then s<|st_err := Some "authorization deny watermark exceeds bounds"%string|>
          else s<|st_denied := denied|>
      end
  end.

Definition store_load (s : Store) (d : disk) : Store :=
  if st_loaded s then s
  else
    let s := s<|st_loaded := true|> in
    if st_path s =s "" then s
    else
      match readState s d (st_path s) with
      | Err StateMissing => load_denied s d
      | Err (StateFailed e) => s<|st_err := Some e|>
      | Ok data =>
          match json_Unmarshal (A := Lease) data with
          | None => s<|st_err := Some "invalid lease"%string|>
          | Some l =>
              match lease_Validate (Some l) with
              | Err e => s<|st_err := Some e|>
              | Ok _ => load_denied (s<|st_lease := Some l|>) d
              end
          end
      end.

Definition store_Snapshot (s : Store) (d : disk) : (option Lease * option string) * Store :=
  let s := store_load s d in ((st_lease s, st_err s), s).

Record Status := mkStatus {
  status_Revision : Z; status_Sequence : Z; status_Digest : string; status_IssuedAt : string;
  status_ExpiresAt : string; status_BootID : string; status_DeniedCount : Z; status_GrantCount : Z
}.

Definition store_Status (s : Store) (d : disk) : Status * Store :=
  let s := store_load s d in
  let n := Z.of_nat (size (st_denied s)) in
  (match st_lease s with
   | None => mkStatus 0 0 "" "" "" (st_bootID s) n 0
   | Some l => mkStatus (l_Revision l) (l_Sequence l) (l_Digest l) (l_IssuedAt l) (l_ExpiresAt l)
                 (st_bootID s) n (Z.of_nat (size (l_Grants l)))
   end, s).

(** The deny watermark is consulted before the lease. *)
Definition store_Allows (s : Store) (d : disk) (key : string) (now : Time) : bool * Store :=
  if key =s "" then (false, s)
  else
    let s := store_load s d in
    match st_err s with
    | Some _ => (false, s)
    | None =>
        match st_denied s !! key with
        | Some _ => (false, s)
        | None => (lease_Allows (st_lease s) key now, s)
        end
    end.

Definition store_Denied (s : Store) (d : disk) (key : string) : bool * Store :=
  let s := store_load s d in (bool_decide (is_Some (st_denied s !! key)), s).

Definition string_le (a b : string) : Prop := String.leb a b = true.
#[export] Instance string_le_dec a b : Decision (string_le a b).
Proof. unfold string_le. apply _. Defined.

(** [sort.Strings]. *)
Definition sort_Strings (l : list string) : list string := merge_sort string_le l.

Definition store_DeniedKeys (s : Store) (d : disk) : list string * Store :=
  let s := store_load s d in (sort_Strings (elements (dom (st_denied s))), s).

Record UpdateResult := mkUpdate {
  ur_Installed : bool; ur_Superseded : bool; ur_Unchanged : bool; ur_Revoked : list string
}.

Definition no_update : UpdateResult := mkUpdate false false false [].

Inductive update_error :=
| ErrUnreadable (e : string)
| ErrInvalid (e : string)
| ErrConflict
| ErrMarshal
| ErrWrite (e : string).

Inductive leaseOrder := orderNewer | orderOlder | orderEqual | orderConflict.

Definition window_or_zero (l : Lease) : Time * Time :=
  default (time_zero, time_zero) (lease_window l).

(** [compare] orders a candidate against the installed lease. *)
Definition store_compare (current candidate : Lease) : leaseOrder :=
  let '(curIssued, curExpires) := window_or_zero current in
  let candIssued := fst (window_or_zero candidate) in
  if l_Revision current <? l_Revision candidate then orderNewer
  else if l_Revision candidate <? l_Revision current then
    if negb (Before candIssued curExpires) then orderNewer else orderOlder
  else if negb (l_Digest candidate =s "") && negb (l_Digest current =s "") &&
          negb (l_Digest candidate =s l_Digest current) then
    if negb (Before candIssued curExpires) then orderNewer else orderConflict
  else if (0 <? l_Sequence candidate) && (0 <? l_Sequence current) then
    if l_Sequence current <? l_Sequence candidate then orderNewer
    else if l_Sequence candidate <? l_Sequence current then orderOlder
    else if candIssued =? curIssued then orderEqual else orderConflict
  else if After candIssued curIssued then orderNewer
  else if Before candIssued curIssued then orderOlder
  else orderEqual.

(** One iteration of the loop over [candidate.Denied]. *)
Definition deny_one (now : Time) (rev : Z)
    (acc : gmap string string * gmap string deniedEntry * gset string) (key : string)
  : gmap string string * gmap string deniedEntry * gset string :=
  let '(grants, denied, revoked) := acc in
  (delete key grants,
   if Z.of_nat (size denied) <? maxDeniedKeys
   then <[key := mkDenied rev (time_Format now)]> denied else denied,
   {[key]} ∪ revoked).

(** Whether the pruning loop keeps an entry of the watermark. *)
Definition keep_denial (now : Time) (rev : Z) (grants : gmap string string)
    (key : string) (e : deniedEntry) : bool :=
  bool_decide (is_Some (grants !! key)) ||
  match time_Parse (de_At e) with
  | None => true
  | Some at_ => negb ((de_Revision e <? rev) && (MaxLifetime <? time_Sub now at_))
  end.

Definition prune_denied (now : Time) (rev : Z) (grants : gmap string string)
    (denied : gmap string deniedEntry) : gmap string deniedEntry :=
  filter (fun '(k, e) => keep_denial now rev grants k e = true) denied.

(** Keys granted before and not granted by the incoming lease. *)
Definition dropped_grants (current : option Lease) (candidate : Lease) : gset string :=
  match current with
  | None => ∅
  | Some l => dom (l_Grants l) ∖ dom (l_Grants candidate)
  end.

(** The writes of both files: the lease first, then the watermark. A failing
    write leaves the store with an error, so that it refuses every key. *)
Definition persist (e : Env) (s : Store) (candidate : Lease) (d : disk)
  : result update_error unit * Store * disk :=
  if st_path s =s "" then (Ok tt, s, d)
  else
    match json_Marshal candidate with
    | None => (Err ErrMarshal, s, d)
    | Some data =>
        match writeState (env_first e) s (st_path s) data d with
        | (Err m, d1) => (Err (ErrWrite m), s<|st_err := Some m|>, d1)
        | (Ok _, d1) =>
            match json_Marshal (st_denied s) with
            | None => (Err ErrMarshal, s, d1)
            | Some deniedData =>
                match writeState (env_second e) s (deniedPath s) deniedData d1 with
                | (Err m, d2) => (Err (ErrWrite m), s<|st_err := Some m|>, d2)
                | (Ok _, d2) => (Ok tt, s, d2)
                end
            end
        end
    end.

(** Installation of an accepted candidate: denials, pruning, persistence. The
    boolean tells whether the change hook runs. *)
Definition install (e : Env) (s : Store) (candidate : Lease) (d : disk)
  : (UpdateResult * bool * option update_error) * Store * disk :=
  let now := env_now e in
  let dropped := dropped_grants (st_lease s) candidate in
  let '(grants, denied, revoked) :=
    fold_left (deny_one now (l_Revision candidate)) (l_Denied candidate)
      (l_Grants candidate, st_denied s, dropped) in
  let candidate := candidate<|l_Grants := grants|> in
  let s := s<|st_denied := prune_denied now (l_Revision candidate) grants denied|> in
  match persist e s candidate d with
  | (Err m, s, d) => ((no_update, false, Some m), s, d)
  | (Ok _, s, d) =>
      ((mkUpdate true false false (sort_Strings (elements revoked)), st_onChange s, None),
       s<|st_lease := Some candidate|>, d)
  end.

Definition store_UpdateWithResult (e : Env) (s : Store) (incoming : option Lease) (d : disk)
  : (UpdateResult * bool * option update_error) * Store * disk :=
  let s := store_load s d in
  match st_err s with
  | Some m => ((no_update, false, Some (ErrUnreadable m)), s, d)
  | None =>
      match incoming with
      | None => ((mkUpdate false false true [], false, None), s, d)
      | Some candidate =>
          match lease_Validate (Some candidate) with
          | Err m => ((no_update, false, Some (ErrInvalid m)), s, d)
          | Ok _ =>
              match st_lease s with
              | None => install e s candidate d
              | Some current =>
                  match store_compare current candidate with
                  | orderOlder => ((mkUpdate false true false [], false, None), s, d)
                  | orderConflict => ((no_update, false, Some ErrConflict), s, d)
                  | orderNewer => install e s candidate d
                  | orderEqual =>
                      if negb (bool_decide (l_Grants candidate = l_Grants current)) ||
                         negb (l_Digest candidate =s l_Digest current)
                      then ((no_update, false, Some ErrConflict), s, d)
                      else if (List.length (l_Denied candidate) =? 0)%nat
                      then ((mkUpdate false false true [], false, None), s, d)
                      else install e s candidate d
                  end
              end
          end
      end
  end.

(** [Deny]: the loop stops at the first key that finds the watermark full. *)
Fixpoint deny_keys (now : Time) (rev : Z) (keys : list string)
    (denied : gmap string deniedEntry) (changed : bool) : gmap string deniedEntry * bool :=
  match keys with
  | [] => (denied, changed)
  | key :: rest =>
      if negb (denial_ok key) then deny_keys now rev rest denied changed
      else
        match denied !! key with
        | Some existing =>
            if rev <=? de_Revision existing then deny_keys now rev rest denied changed
            else if maxDeniedKeys <=? Z.of_nat (size denied) then (denied, changed)
            else deny_keys now rev rest (<[key := mkDenied rev (time_Format now)]> denied) true
        | None =>
            if maxDeniedKeys <=? Z.of_nat (size denied) then (denied, changed)
            else deny_keys now rev rest (<[key := mkDenied rev (time_Format now)]> denied) true
        end
  end.

Definition store_Deny (e : Env) (s : Store) (keys : list string) (revision : Z) (d : disk)
  : (bool * option update_error) * Store * disk :=
  let s := store_load s d in
  match st_err s with
  | Some m => ((false, Some (ErrUnreadable m)), s, d)
  | None =>
      let '(denied, changed) := deny_keys (env_now e) revision keys (st_denied s) false in
      let s := s<|st_denied := denied|> in
      if negb changed then ((false, None), s, d)
      else if st_path s =s "" then ((st_onChange s, None), s, d)
      else
        match json_Marshal (st_denied s) with
        | None => ((false, Some ErrMarshal), s, d)
        | Some data =>
            match writeState (env_first e) s (deniedPath s) data d with
            | (Err m, d) => ((false, Some (ErrWrite m)), s<|st_err := Some m|>, d)
            | (Ok _, d) => ((st_onChange s, None), s, d)
            end
        end
  end.

End Store.

#[global] Arguments lease_window : simpl never.
#[global] Arguments lease_Validate : simpl never.
#[global] Arguments lease_Allows : simpl never.

(** ** Traces of store operations *)

Inductive store_op :=
| OpUpdate (incoming : option Lease)
| OpDeny (keys : list string) (revision : Z).

Section Traces.
Context {A : AEAD} {CL : Codec Lease} {CD : Codec (gmap string deniedEntry)}.

Definition run_op (sd : Store * disk) (step : Env * store_op) : Store * disk :=
  let '(s, d) := sd in
  match step with
  | (e, OpUpdate l) => let '(_, s', d') := store_UpdateWithResult e s l d in (s', d')
  | (e, OpDeny ks r) => let '(_, s', d') := store_Deny e s ks r d in (s', d')
  end.

Definition run_ops (sd : Store * disk) (ops : list (Env * store_op)) : Store * disk :=
  fold_left run_op ops sd.

(** A store whose lease is valid and whose watermark is within its bound. *)
Definition store_inv (s : Store) : Prop :=
  lease_Validate (st_lease s) = Ok tt /\ Z.of_nat (size (st_denied s)) <= maxDeniedKeys.

End Traces.

(** ** Leases: facts *)

Lemma lease_window_bounds l i x :
  lease_window l = Some (i, x) -> i <= x <= i + MaxLifetime.
Proof.
  unfold lease_window. destruct (time_Parse (l_IssuedAt l)) as [i' |]; [| done]. cbn [mbind option_bind].
  destruct (l_ExpiresAt l =s ""); [intros [= <- <-]; unfold MaxLifetime, Minute, Second; lia |].
  destruct (time_Parse (l_ExpiresAt l)) as [x' |]; [| done]. cbn [mbind option_bind].
  unfold Before, After. destruct (_ || _) eqn:E; [done |]. intros [= <- <-]. zify_bool. lia.
Qed.

(** The window does not depend on grants or denials. *)
Lemma lease_window_grants l g : lease_window (l<|l_Grants := g|>) = lease_window l.
Proof. reflexivity. Qed.

Lemma lease_Allows_spec l key now :
  lease_Allows (Some l) key now = true <->
  key <> ""%string /\
  exists i x raw fin, lease_window l = Some (i, x) /\ i <= now < x /\
    l_Grants l !! key = Some raw /\ time_Parse raw = Some fin /\ now < fin <= x.
Proof.
  unfold lease_Allows, Before, After. destruct (key =s "") eqn:Ek.
  { apply str_eqb_eq in Ek. naive_solver. }
  apply str_eqb_neq in Ek. destruct (lease_window l) as [[i x] |] eqn:Ew; [| naive_solver].
  destruct (_ || _) eqn:E1.
  { split; [done |]. intros (_ & ? & ? & ? & ? & [= <- <-] & Hn & _).
    apply orb_true_iff in E1 as [E1 | E1]; zify_bool; lia. }
  zify_bool. destruct (l_Grants l !! key) as [raw |] eqn:Eg; cbn [from_option id].
  - destruct (time_Parse raw) as [fin |] eqn:Ep;
      [| split; [done |]; intros (_ & ? & ? & ? & ? & _ & _ & [= <-] & Hp & _); congruence].
    split.
    + intros Hb. zify_bool. split; [done |]. exists i, x, raw, fin.
      split_and!; done || lia.
    + intros (_ & ? & ? & ? & ? & [= <- <-] & _ & [= <-] & Hp & Hf).
      rewrite Ep in Hp. injection Hp as <-.
      apply andb_true_iff; split; [apply negb_true_iff, Z.ltb_ge | apply Z.ltb_lt]; lia.
  - split; [done |]. intros (_ & ? & ? & ? & ? & _ & _ & ? & _). congruence.
Qed.

(** The fold of [NextExpiry] is a lower bound of the window end and of every
    grant that ends after [now], and it stays after [now] when the window does. *)
Lemma next_grant_fold now x (g : gmap string string) :
  let next := map_fold (next_grant now) x g in
  next <= x /\ (now < x -> now < next) /\
  (forall k raw fin, g !! k = Some raw -> time_Parse raw = Some fin -> now < fin -> next <= fin).
Proof.
  cbv zeta.
  apply (map_fold_weak_ind (fun next g => next <= x /\ (now < x -> now < next) /\
    forall k raw fin, g !! k = Some raw -> time_Parse raw = Some fin -> now < fin -> next <= fin)).
  - split_and!; [lia | done |]. intros k raw fin Hk. by rewrite lookup_empty in Hk.
  - intros k raw m next Hk (Hx & Hn & Hall). unfold next_grant, After, Before.
    assert (forall r, r <= next -> (forall fin, time_Parse raw = Some fin -> now < fin -> r <= fin) ->
      forall k' raw' fin, <[k:=raw]> m !! k' = Some raw' -> time_Parse raw' = Some fin ->
      now < fin -> r <= fin) as Hins.
    { intros r Hr Hnew k' raw' fin Hl Hp Hf. apply lookup_insert_Some in Hl as [[<- <-] | [Hne Hl]]; [eauto |].
      specialize (Hall _ _ _ Hl Hp Hf). lia. }
    destruct (time_Parse raw) as [fin |] eqn:Ep.
    + destruct (_ && _) eqn:E; zify_bool.
      * split_and!; [lia | lia |]. apply Hins; [lia |]. intros ? [= <-]; lia.
      * split_and!; [lia | done |]. apply Hins; [lia |]. intros ? [= <-] ?.
        apply andb_false_iff in E as [E | E]; zify_bool; lia.
    + split_and!; [lia | done |]. apply Hins; [lia | done].
Qed.

(** [NextExpiry] never sleeps past a revocation: what the lease admits now it
    still admits at every instant before the reported expiry. *)
Lemma lease_NextExpiry_safe ol now key t :
  lease_Allows ol key now = true ->
  now < lease_NextExpiry ol now /\
  (now <= t < lease_NextExpiry ol now -> lease_Allows ol key t = true).
Proof.
  destruct ol as [l |]; [| done]. rewrite !lease_Allows_spec.
  intros (Hk & i & x & raw & fin & Hw & Hn & Hg & Hp & Hf).
  unfold lease_NextExpiry. rewrite Hw.
  destruct (next_grant_fold now x (l_Grants l)) as (Hx & Hlt & Hall).
  specialize (Hall _ _ _ Hg Hp ltac:(lia)). specialize (Hlt ltac:(lia)).
  unfold After. rewrite (proj2 (Z.ltb_lt _ _) Hlt). cbn [negb].
  split; [lia |]. intros Ht. split; [done |]. exists i, x, raw, fin. split_and!; done || lia.
Qed.

Section StoreFacts.
Context {A : AEAD} {CL : Codec Lease} {CD : Codec (gmap string deniedEntry)}.

(** ** Watermark loops *)

(** An invariant of the watermark kept by recording a denial. *)
Lemma deny_one_fold (P : gmap string deniedEntry -> Prop) now rev keys acc :
  P (snd (fst acc)) ->
  (forall k m, P m -> Z.of_nat (size m) < maxDeniedKeys -> P (<[k := mkDenied rev (time_Format now)]> m)) ->
  P (snd (fst (fold_left (deny_one now rev) keys acc))).
Proof.
  intros H0 Hins. apply (fold_left_inv _ (fun acc => P (snd (fst acc)))); [done |].
  intros [[g m] r] k _ Hm. cbn in *. destruct (Z.ltb_spec (Z.of_nat (size m)) maxDeniedKeys); auto.
Qed.

Lemma deny_one_grants now rev keys acc :
  fst (fst (fold_left (deny_one now rev) keys acc)) =
  filter (fun '(k, _) => k ∉ keys) (fst (fst acc)).
Proof.
  revert acc; induction keys as [| k keys IH]; intros [[g m] r]; cbn [fold_left].
  - symmetry. apply map_filter_id. intros. set_solver.
  - rewrite IH. cbn [fst deny_one]. apply map_eq. intros i.
    rewrite !map_lookup_filter, lookup_delete.
    destruct (decide (k = i)) as [-> | Hne]; cbn.
    + destruct (g !! i); cbn; [| done]. case_guard; [set_solver | done].
    + destruct (g !! i); cbn; [| done]. do 2 case_guard; cbn; set_solver.
Qed.

Lemma deny_one_revoked now rev keys acc :
  snd (fold_left (deny_one now rev) keys acc) = list_to_set keys ∪ snd acc.
Proof.
  revert acc; induction keys as [| k keys IH]; intros [[g m] r]; cbn [fold_left]; [set_solver |].
  rewrite IH. cbn. set_solver.
Qed.

Lemma deny_keys_ind (P : gmap string deniedEntry -> Prop) now rev keys m c :
  P m ->
  (forall k m, P m -> Z.of_nat (size m) < maxDeniedKeys -> P (<[k := mkDenied rev (time_Format now)]> m)) ->
  P (fst (deny_keys now rev keys m c)).
Proof.
  revert m c; induction keys as [| k keys IH]; intros m c Hm Hins; cbn; [done |].
  destruct (negb (denial_ok k)); [by apply IH |].
  destruct (m !! k) as [ex |]; [destruct (rev <=? de_Revision ex); [by apply IH |] |];
    (destruct (Z.leb_spec maxDeniedKeys (Z.of_nat (size m))); [done |]; apply IH; auto).
Qed.

Lemma bounded_insert (k : string) (e : deniedEntry) (m : gmap string deniedEntry) :
  Z.of_nat (size m) < maxDeniedKeys -> Z.of_nat (size (<[k:=e]> m)) <= maxDeniedKeys.
Proof. pose proof (size_insert_le m k e). lia. Qed.

(** ** The store invariant *)

Lemma lease_Validate_spec l :
  lease_Validate (Some l) = Ok tt <->
  exists i x, lease_window l = Some (i, x) /\
    (0 < l_Revision l /\ 0 <= l_Sequence l /\ Z.of_nat (size (l_Grants l)) <= 65536 /\
     Z.of_nat (List.length (l_Denied l)) <= maxDeniedKeys /\ str_len (l_Digest l) <= 128) /\
    map_Forall (fun k raw => grant_ok x k raw = true) (l_Grants l) /\
    forallb denial_ok (l_Denied l) = true.
Proof.
  unfold lease_Validate. destruct (lease_window l) as [[i x] |] eqn:Ew; [| naive_solver].
  destruct (_ || _ || _ || _ || _) eqn:E1.
  { split; [done |]. intros (? & ? & [= <- <-] & Hb & _).
    repeat (apply orb_true_iff in E1 as [E1 | E1]); zify_bool; lia. }
  zify_bool. destruct (bool_decide _) eqn:E2; zify_bool.
  - destruct (forallb denial_ok (l_Denied l)) eqn:E3.
    + split; [| done]. intros _. exists i, x. split_and!; done || lia.
    + split; [done |]. intros (? & ? & _ & _ & _ & ?). congruence.
  - split; [done |]. intros (? & ? & [= <- <-] & _ & ? & _). done.
Qed.

Lemma lease_Validate_grants l g :
  g ⊆ l_Grants l -> lease_Validate (Some l) = Ok tt -> lease_Validate (Some (l<|l_Grants := g|>)) = Ok tt.
Proof.
  intros Hsub. rewrite !lease_Validate_spec. intros (i & x & Hw & Hb & Hg & Hd).
  exists i, x. pose proof (map_subseteq_size _ _ Hsub). cbn in *. split_and!; try done; try lia.
  intros k raw Hk. apply Hg. by eapply lookup_weaken.
Qed.

Lemma store_load_idemp s d : st_loaded s = true -> store_load s d = s.
Proof. unfold store_load. by intros ->. Qed.

(** The fields of a store that [load], denials and persistence leave alone. *)
Lemma load_denied_fields s d :
  st_loaded (load_denied s d) = st_loaded s /\ st_lease (load_denied s d) = st_lease s /\
  (Z.of_nat (size (st_denied s)) <= maxDeniedKeys ->
   Z.of_nat (size (st_denied (load_denied s d))) <= maxDeniedKeys).
Proof.
  unfold load_denied. destruct (readState _ _ _) as [data | [| e]]; cbn; try done.
  destruct (json_Unmarshal data); cbn; [| done].
  destruct (Z.ltb_spec maxDeniedKeys (Z.of_nat (size g))); cbn; done.
Qed.

Lemma store_load_loaded s d : st_loaded (store_load s d) = true.
Proof.
  unfold store_load. destruct (st_loaded s) eqn:E; [done |].
  destruct (_ =s ""); [done |].
  destruct (readState _ _ _) as [data | [| e]]; try done.
  - destruct (json_Unmarshal data) as [l |]; [| done].
    destruct (lease_Validate (Some l)); [| done].
    by rewrite (proj1 (load_denied_fields _ _)).
  - by rewrite (proj1 (load_denied_fields _ _)).
Qed.

Lemma load_denied_config s d :
  st_path (load_denied s d) = st_path s /\ st_key (load_denied s d) = st_key s.
Proof.
  unfold load_denied. destruct (readState _ _ _) as [data | [| e]]; try done.
  destruct (json_Unmarshal data); [| done]. by destruct (_ <? _).
Qed.

Lemma store_load_config s d :
  st_path (store_load s d) = st_path s /\ st_key (store_load s d) = st_key s.
Proof.
  unfold store_load. destruct (st_loaded s); [done |]. destruct (_ =s ""); [done |].
  destruct (readState _ _ _) as [data | [| e]]; try done;
    [| by destruct (load_denied_config (s<|st_loaded := true|>) d) as [-> ->]].
  destruct (json_Unmarshal data) as [l |]; [| done].
  destruct (lease_Validate (Some l)); [| done].
  by destruct (load_denied_config (s<|st_loaded := true|><|st_lease := Some l|>) d) as [-> ->].
Qed.

Lemma store_load_inv s d : store_inv s -> store_inv (store_load s d).
Proof.
  intros [Hl Hd]. unfold store_load. destruct (st_loaded s); [done |].
  destruct (_ =s _); [done |].
  destruct (readState _ _ _) as [data | [| e]]; try done.
  - destruct (json_Unmarshal data) as [l |]; [| done].
    destruct (lease_Validate (Some l)) as [[] |] eqn:Ev; [| done].
    destruct (load_denied_fields (s<|st_loaded := true|><|st_lease := Some l|>) d) as (_ & Hlease & Hden).
    split; [by rewrite Hlease | by apply Hden].
  - destruct (load_denied_fields (s<|st_loaded := true|>) d) as (_ & Hlease & Hden).
    split; [by rewrite Hlease | by apply Hden].
Qed.

Lemma persist_fields e s c d r s' d' :
  persist e s c d = (r, s', d') ->
  st_lease s' = st_lease s /\ st_denied s' = st_denied s /\ st_loaded s' = st_loaded s /\
  st_path s' = st_path s /\ st_key s' = st_key s /\ st_onChange s' = st_onChange s /\
  (r = Ok tt -> s' = s).
Proof.
  unfold persist. destruct (st_path s =s ""); [intros [= <- <- <-]; done |].
  destruct (json_Marshal c); [| intros [= <- <- <-]; done].
  destruct (writeState _ _ _ _ d) as [[] d1]; [| intros [= <- <- <-]; done].
  destruct (json_Marshal (st_denied s)); [| intros [= <- <- <-]; done].
  destruct (writeState _ _ _ _ d1) as [[] d2]; intros [= <- <- <-]; done.
Qed.

(** [install] as equations on the fields of the resulting store. *)
Lemma install_fields e s c d ur h er s' d' :
  install e s c d = ((ur, h, er), s', d') ->
  let acc := fold_left (deny_one (env_now e) (l_Revision c)) (l_Denied c)
               (l_Grants c, st_denied s, dropped_grants (st_lease s) c) in
  let grants := fst (fst acc) in
  st_denied s' = prune_denied (env_now e) (l_Revision c) grants (snd (fst acc)) /\
  st_loaded s' = st_loaded s /\ st_path s' = st_path s /\ st_key s' = st_key s /\
  ((er = None /\ ur = mkUpdate true false false (sort_Strings (elements (snd acc))) /\
    st_lease s' = Some (c<|l_Grants := grants|>) /\ st_err s' = st_err s) \/
   (er <> None /\ ur = no_update /\ st_lease s' = st_lease s)).
Proof.
  unfold install. destruct (fold_left _ _ _) as [[g m] r] eqn:Ef. cbn [fst snd].
  destruct (persist _ _ _ _) as [[pr ps] pd] eqn:Ep. apply persist_fields in Ep.
  destruct Ep as (Hl & Hd & Hlo & Hp & Hk & Hh & Hok). cbn in *.
  destruct pr as [[] |]; intros [= <- <- <- <- <-]; cbn.
  - rewrite (Hok eq_refl) in *. cbn. split_and!; try done. left. done.
  - split_and!; try done. right. done.
Qed.

Lemma filter_grants_sub (g : gmap string string) (ks : list string) :
  filter (fun '(k, _) => k ∉ ks) g ⊆ g.
Proof. apply map_filter_subseteq. Qed.

Lemma install_inv e s c d x s' d' :
  install e s c d = (x, s', d') -> store_inv s -> lease_Validate (Some c) = Ok tt -> store_inv s'.
Proof.
  destruct x as [[ur h] er]. intros Hi [Hl Hd] Hc.
  destruct (install_fields _ _ _ _ _ _ _ _ _ Hi) as (Hden & _ & _ & _ & Hcase).
  split.
  - destruct Hcase as [(_ & _ & -> & _) | (_ & _ & ->)]; [| done].
    apply lease_Validate_grants; [| done]. rewrite deny_one_grants. apply filter_grants_sub.
  - rewrite Hden. unfold prune_denied. etransitivity; [apply Nat2Z.inj_le, size_filter_le |].
    apply (deny_one_fold (fun m => Z.of_nat (size m) <= maxDeniedKeys)); [done |].
    intros. by apply bounded_insert.
Qed.

(** Every outcome of [UpdateWithResult]: refused with the loaded store
    unchanged, or an installation. *)
Lemma update_cases e s l d x s' d' :
  store_UpdateWithResult e s l d = (x, s', d') ->
  (s' = store_load s d /\ d' = d /\ ur_Installed (fst (fst x)) = false) \/
  (exists c, l = Some c /\ st_err (store_load s d) = None /\ lease_Validate (Some c) = Ok tt /\
     install e (store_load s d) c d = (x, s', d') /\
     match st_lease (store_load s d) with
     | None => True
     | Some cur => store_compare cur c = orderNewer \/
         (store_compare cur c = orderEqual /\ l_Grants c = l_Grants cur /\ l_Digest c = l_Digest cur)
     end).
Proof.
  unfold store_UpdateWithResult. set (s0 := store_load s d).
  destruct (st_err s0) eqn:Ee; [intros [= <- <- <-]; left; done |].
  destruct l as [c |]; [| intros [= <- <- <-]; left; done].
  destruct (lease_Validate (Some c)) as [[] |] eqn:Ev; [| intros [= <- <- <-]; left; done].
  destruct (st_lease s0) as [cur |] eqn:El; [| intros Hi; right; eauto 10].
  destruct (store_compare cur c) eqn:Ec; try (intros [= <- <- <-]; left; done).
  - intros Hi. right. exists c. split_and!; auto.
  - destruct (_ || _) eqn:E1; [intros [= <- <- <-]; left; done |]. zify_bool.
    destruct (_ =? _)%nat; [intros [= <- <- <-]; left; done |].
    intros Hi. right. exists c. split_and!; auto. right. split_and!; auto. by apply str_eqb_eq.
Qed.

Lemma run_op_inv sd step : store_inv (fst sd) -> store_inv (fst (run_op sd step)).
Proof.
  destruct sd as [s d], step as [e [l | ks r]]; cbn [run_op]; intros Hs.
  - destruct (store_UpdateWithResult e s l d) as [[x s'] d'] eqn:E.
    apply update_cases in E as [(-> & _) | (c & _ & _ & Hv & Hi & _)].
    + by apply store_load_inv.
    + eapply install_inv; eauto using store_load_inv.
  - pose proof (store_load_inv s d Hs) as [Hl Hd].
    unfold store_Deny. set (s0 := store_load s d) in *.
    destruct (st_err s0); [done |].
    pose proof (deny_keys_ind (fun m => Z.of_nat (size m) <= maxDeniedKeys)
      (env_now e) r ks (st_denied s0) false Hd) as Hk.
    destruct (deny_keys _ _ _ _ _) as [m c]. cbn [fst] in Hk.
    specialize (Hk ltac:(intros; by apply bounded_insert)).
    destruct (negb c); [done |]. destruct (_ =s ""); [done |].
    destruct (json_Marshal _); [| done]. destruct (writeState _ _ _ _ _) as [[] ?]; done.
Qed.

(** ** Denials *)

(** Every entry recorded since [t0] survives pruning until [t0 + MaxLifetime]. *)
Definition fresh_denial (t0 : Time) (key : string) (m : gmap string deniedEntry) : Prop :=
  exists e, m !! key = Some e /\ forall at_, time_Parse (de_At e) = Some at_ -> t0 <= at_.

(** The store refuses [key]: it holds an error, or a fresh denial. *)
Definition refusing (t0 : Time) (key : string) (s : Store) : Prop :=
  st_loaded s = true /\ (st_err s <> None \/ fresh_denial t0 key (st_denied s)).

Lemma refusing_not_allowed t0 key s d now : refusing t0 key s -> fst (store_Allows s d key now) = false.
Proof.
  intros [Hl Hr]. unfold store_Allows. destruct (key =s ""); [done |].
  rewrite store_load_idemp by done. destruct (st_err s); [done |].
  destruct Hr as [? | (e & He & _)]; [done |]. by rewrite He.
Qed.

Section Window.
Context (t0 : Time) (key : string).

Definition in_denial_window (step : Env * store_op) : Prop :=
  four_digit_year (env_now (fst step)) /\ t0 <= env_now (fst step) <= t0 + MaxLifetime.

Lemma fresh_insert k now rev m :
  four_digit_year now -> t0 <= now ->
  fresh_denial t0 key m -> fresh_denial t0 key (<[k := mkDenied rev (time_Format now)]> m).
Proof.
  intros Hy Hn (e & He & Hat). unfold fresh_denial. destruct (decide (k = key)) as [-> | Hne].
  - eexists. split; [apply lookup_insert_eq |]. cbn. intros at_. rewrite time_Parse_Format by done.
    intros [= <-]. done.
  - exists e. by rewrite lookup_insert_ne.
Qed.

Lemma fresh_prune now rev grants m :
  t0 <= now <= t0 + MaxLifetime ->
  fresh_denial t0 key m -> fresh_denial t0 key (prune_denied now rev grants m).
Proof.
  intros Hn (e & He & Hat). exists e. split; [| done].
  apply map_lookup_filter_Some. split; [done |]. unfold keep_denial.
  apply orb_true_iff. right. destruct (time_Parse (de_At e)) as [at_ |] eqn:Ep; [| done].
  specialize (Hat _ eq_refl). apply negb_true_iff, andb_false_iff. right. apply Z.ltb_ge.
  unfold time_Sub, clamp, MaxLifetime, Minute, Second, min_int64, max_int64 in *. split_ifs; zify_bool; lia.
Qed.

Lemma run_op_refusing sd step :
  in_denial_window step -> refusing t0 key (fst sd) -> refusing t0 key (fst (run_op sd step)).
Proof.
  destruct sd as [s d], step as [e [l | ks r]]; cbn [run_op fst]; intros [Hy Hw] [Hl Hr];
    cbn [fst] in Hy, Hw.
  - destruct (store_UpdateWithResult e s l d) as [[x s'] d'] eqn:E.
    apply update_cases in E as [(-> & _) | (c & _ & He & _ & Hi & _)];
      rewrite (store_load_idemp s d Hl) in *; [done |].
    destruct Hr as [? | Hr]; [done |]. destruct x as [[ur h] er].
    destruct (install_fields _ _ _ _ _ _ _ _ _ Hi) as (Hden & Hlo & _).
    cbn [fst]. split; [by rewrite Hlo |]. right. rewrite Hden. apply fresh_prune; [done |].
    apply (deny_one_fold (fresh_denial t0 key)); [done |].
    intros. apply fresh_insert; done || lia.
  - unfold store_Deny. rewrite (store_load_idemp s d Hl).
    destruct (st_err s) eqn:Ee; [split; [done |]; left; cbn; congruence |].
    destruct Hr as [? | Hr]; [done |].
    pose proof (deny_keys_ind (fresh_denial t0 key) (env_now e) r ks (st_denied s) false Hr) as Hk.
    destruct (deny_keys _ _ _ _ _) as [m c]. cbn [fst] in Hk.
    specialize (Hk ltac:(intros; apply fresh_insert; done || lia)).
    assert (refusing t0 key (s<|st_denied := m|>)) as Hm by (split; [done | right; done]).
    destruct (negb c); [done |]. destruct (_ =s ""); [done |].
    destruct (json_Marshal _); [| done].
    destruct (writeState _ _ _ _ _) as [[] ?]; cbn; [done |]. split; [done | left; cbn; done].
Qed.

End Window.

Lemma deny_keys_records now rev keys key m c :
  four_digit_year now -> key ∈ keys -> denial_ok key = true -> m !! key = None ->
  Z.of_nat (size m) + Z.of_nat (List.length keys) <= maxDeniedKeys ->
  fresh_denial now key (fst (deny_keys now rev keys m c)).
Proof.
  intros Hy. revert m c; induction keys as [| k keys IH]; intros m c Hin Hok Hm Hroom; [set_solver |].
  assert (Z.of_nat (List.length (k :: keys)) = Z.of_nat (List.length keys) + 1) as Hlen by (cbn; lia).
  cbn [deny_keys].
  assert (forall c', fresh_denial now key
    (fst (deny_keys now rev keys (<[key := mkDenied rev (time_Format now)]> m) c'))) as Hnow.
  { intros c'. apply deny_keys_ind.
    - eexists. split; [apply lookup_insert_eq |]. cbn. rewrite time_Parse_Format by done. by intros ? [= <-].
    - intros. apply fresh_insert; done || lia. }
  destruct (decide (k = key)) as [-> | Hne].
  - rewrite Hok. cbn [negb]. rewrite Hm.
    destruct (Z.leb_spec maxDeniedKeys (Z.of_nat (size m))); [lia | done].
  - assert (key ∈ keys) as Hin' by set_solver.
    destruct (negb (denial_ok k)); [apply IH; done || lia |].
    pose proof (size_insert_le m k (mkDenied rev (time_Format now))).
    destruct (m !! k) as [ex |]; [destruct (rev <=? de_Revision ex); [apply IH; done || lia |] |];
      (destruct (Z.leb_spec maxDeniedKeys (Z.of_nat (size m))); [lia |];
       apply IH; [done | done | by rewrite lookup_insert_ne | lia]).
Qed.

Lemma store_Deny_refuses e s d keys rev key :
  four_digit_year (env_now e) -> key ∈ keys -> denial_ok key = true ->
  st_denied (store_load s d) !! key = None ->
  Z.of_nat (size (st_denied (store_load s d))) + Z.of_nat (List.length keys) <= maxDeniedKeys ->
  refusing (env_now e) key (fst (run_op (s, d) (e, OpDeny keys rev))).
Proof.
  intros Hy Hin Hok Hnone Hroom. cbn [run_op]. unfold store_Deny.
  pose proof (store_load_loaded s d) as Hl. set (s0 := store_load s d) in *.
  destruct (st_err s0) eqn:Ee; [split; [done |]; left; cbn; congruence |].
  pose proof (deny_keys_records (env_now e) rev keys key (st_denied s0) false Hy Hin Hok Hnone Hroom) as Hk.
  destruct (deny_keys _ _ _ _ _) as [m c]. cbn [fst] in Hk.
  assert (refusing (env_now e) key (s0<|st_denied := m|>)) as Hm by (split; [done | right; done]).
  destruct (negb c); [done |]. destruct (_ =s ""); [done |].
  destruct (json_Marshal _); [| done].
  destruct (writeState _ _ _ _ _) as [[] ?]; cbn; [done |]. split; [done | left; cbn; done].
Qed.

(** ** Errors *)

Lemma run_op_error sd step m :
  st_loaded (fst sd) = true -> st_err (fst sd) = Some m ->
  fst (run_op sd step) = fst sd.
Proof.
  destruct sd as [s d], step as [e [l | ks r]]; cbn [run_op fst]; intros Hl He.
  - unfold store_UpdateWithResult. by rewrite store_load_idemp, He.
  - unfold store_Deny. by rewrite store_load_idemp, He.
Qed.

(** ** Ordering *)

(** [candidate] does not step behind [current]: a higher revision, or issued
    once [current] has expired, or the same revision with the same digest and
    at least the same sequence number or issuing time. *)
Definition not_behind (current candidate : Lease) : Prop :=
  let '(curIssued, curExpires) := window_or_zero current in
  let candIssued := fst (window_or_zero candidate) in
  l_Revision current < l_Revision candidate \/
  curExpires <= candIssued \/
  (l_Revision current = l_Revision candidate /\
   (l_Digest candidate = ""%string \/ l_Digest current = ""%string \/
    l_Digest candidate = l_Digest current) /\
   ((0 < l_Sequence candidate /\ 0 < l_Sequence current /\ l_Sequence current <= l_Sequence candidate) \/
    (l_Sequence candidate <= 0 \/ l_Sequence current <= 0) /\ curIssued <= candIssued)).

Lemma store_compare_not_behind current candidate :
  store_compare current candidate = orderNewer \/ store_compare current candidate = orderEqual ->
  not_behind current candidate.
Proof.
  unfold store_compare, not_behind. destruct (window_or_zero current) as [ci cx].
  set (ni := fst (window_or_zero candidate)). unfold Before, After.
  intros Hc.
  destruct (Z.ltb_spec (l_Revision current) (l_Revision candidate)); [left; lia | right].
  destruct (Z.ltb_spec (l_Revision candidate) (l_Revision current)).
  { destruct (Z.ltb_spec ni cx); cbn in Hc; [destruct Hc; done | left; lia]. }
  destruct (negb _ && negb _ && negb _) eqn:Ed.
  { destruct (Z.ltb_spec ni cx); cbn in Hc; [destruct Hc; done | left; lia]. }
  right. split; [lia |]. split.
  { repeat (apply andb_false_iff in Ed as [Ed | Ed]); apply negb_false_iff, str_eqb_eq in Ed; auto. }
  clear Ed. destruct (_ && _) eqn:Es; zify_bool.
  - left. split_and!; try lia.
    destruct (Z.ltb_spec (l_Sequence current) (l_Sequence candidate)); [lia |].
    destruct (Z.ltb_spec (l_Sequence candidate) (l_Sequence current)); [destruct Hc; done | lia].
  - right. split; [apply andb_false_iff in Es as [Es | Es]; zify_bool; lia |].
    destruct (Z.ltb_spec ci ni); [lia |]. destruct (Z.ltb_spec ni ci); [destruct Hc; done | lia].
Qed.

(** A lease compared with itself, or with a copy that lost grants, is equal. *)
Lemma store_compare_refl l g : store_compare (l<|l_Grants := g|>) l = orderEqual.
Proof.
  unfold store_compare, window_or_zero. rewrite lease_window_grants. cbn.
  destruct (default (time_zero, time_zero) (lease_window l)) as [i x]. cbn.
  rewrite !Z.ltb_irrefl, str_eqb_refl, !andb_false_r, Z.eqb_refl. unfold After, Before.
  rewrite !Z.ltb_irrefl. by destruct (_ && _).
Qed.

(** ** Persistence *)

Context {AL : AEADLaws A} {LL : CodecLaws CL} {LD : CodecLaws CD}.

(** A write whose temporary name is fresh and whose nonce has its length. *)
Definition write_ok (w : WriteEnv) (s : Store) : Prop :=
  we_tmp w <> st_path s /\ we_tmp w <> deniedPath s /\
  match we_nonce w with Some n => List.length n = nonceLen | None => True end.

Lemma readState_writeState w s s' path data d d' :
  st_key s' = st_key s -> we_tmp w <> path ->
  match we_nonce w with Some n => List.length n = nonceLen | None => True end ->
  writeState w s path data d = (Ok tt, d') -> readState s' d' path = Ok data.
Proof.
  intros Hkey Htmp Hn. unfold writeState, readState, ReadFile. rewrite Hkey.
  destruct (Nat.ltb_spec 0 (List.length (st_key s))) as [Hk | Hk].
  - destruct (Encrypt (st_key s) (we_nonce w) data) as [sealed |] eqn:Ee; [| done].
    intros Hw. pose proof (writeAtomic_spec (we_tmp w) path sealed d Htmp (we_io w)) as Hs.
    rewrite Hw in Hs. destruct Hs as [Hs _]. cbn in Hs. rewrite Hs by done.
    destruct (we_nonce w) as [n |].
    + destruct (Decrypt_Encrypt _ _ _ _ Hn Ee) as [-> ->]. done.
    + unfold Encrypt in Ee. destruct (_ <? _); [done |]. unfold gcm in Ee. destruct (_ =? _)%nat; done.
  - intros Hw. pose proof (writeAtomic_spec (we_tmp w) path data d Htmp (we_io w)) as Hs.
    rewrite Hw in Hs. destruct Hs as [Hs _]. cbn in Hs. by rewrite Hs.
Qed.

Lemma readState_key s s' d path : st_key s = st_key s' -> readState s d path = readState s' d path.
Proof. unfold readState. by intros ->. Qed.

(** A write leaves every other file as it was. *)
Lemma writeState_other w s path data d p :
  p <> we_tmp w -> p <> path -> we_tmp w <> path ->
  snd (writeState w s path data d) !! p = d !! p.
Proof.
  intros H1 H2 H3. unfold writeState.
  assert (forall b, snd (writeAtomic (we_io w) (we_tmp w) path b d) !! p = d !! p) as Hw.
  { intros b. by apply (proj2 (proj2 (writeAtomic_spec (we_tmp w) path b d H3 (we_io w)))). }
  destruct (0 <? _)%nat; [destruct (Encrypt _ _ _) |]; done.
Qed.

Lemma deniedPath_ne s : st_path s <> ""%string -> deniedPath s <> st_path s.
Proof.
  unfold deniedPath. intros Hp. rewrite (proj2 (str_eqb_neq _ _) Hp). intros He.
  apply (f_equal String.length) in He. rewrite string_length_app in He. cbn in He. lia.
Qed.

(** What a successful [persist] leaves on disk. *)
Lemma persist_readback e s c d s1 d1 s' :
  st_path s <> ""%string -> write_ok (env_first e) s -> write_ok (env_second e) s ->
  persist e s c d = (Ok tt, s1, d1) -> st_key s' = st_key s ->
  exists bl bd, readState s' d1 (st_path s) = Ok bl /\ json_Unmarshal bl = Some c /\
    readState s' d1 (deniedPath s) = Ok bd /\ json_Unmarshal bd = Some (st_denied s).
Proof.
  intros Hp (Ht1 & Ht1' & Hn1) (Ht2 & Ht2' & Hn2). unfold persist.
  rewrite (proj2 (str_eqb_neq _ _) Hp).
  destruct (json_Marshal c) as [bl |] eqn:Ec; [| done].
  destruct (writeState (env_first e) s (st_path s) bl d) as [[[] |] d2] eqn:Ew1; [| done].
  destruct (json_Marshal (st_denied s)) as [bd |] eqn:Ed; [| done].
  destruct (writeState (env_second e) s (deniedPath s) bd d2) as [[[] |] d3] eqn:Ew2; [| done].
  intros [= <- <-] Hkey. exists bl, bd.
  pose proof (readState_writeState _ _ s' _ _ _ _ Hkey Ht1 Hn1 Ew1) as Hr1.
  pose proof (readState_writeState _ _ s' _ _ _ _ Hkey Ht2' Hn2 Ew2) as Hr2.
  pose proof (writeState_other (env_second e) s (deniedPath s) bd d2 (st_path s)
    ltac:(congruence) ltac:(pose proof (deniedPath_ne s Hp); congruence) Ht2') as Ho.
  rewrite Ew2 in Ho. cbn in Ho.
  split_and!; [| by apply json_roundtrip | done | by apply json_roundtrip].
  unfold readState, ReadFile in *. by rewrite Ho.
Qed.

Lemma install_reload e s c d ur h s' d' boot :
  store_inv s -> st_err s = None -> st_path s <> ""%string ->
  lease_Validate (Some c) = Ok tt ->
  write_ok (env_first e) s -> write_ok (env_second e) s ->
  install e s c d = ((ur, h, None), s', d') ->
  let r := store_load (NewStore (st_path s) (st_key s) boot) d' in
  st_err r = None /\ st_lease r = st_lease s' /\ st_denied r = st_denied s'.
Proof.
  intros Hinv Herr Hp Hv Hw1 Hw2 Hi.
  pose proof (install_inv _ _ _ _ _ _ _ Hi Hinv Hv) as [Hvalid Hsize].
  destruct (install_fields _ _ _ _ _ _ _ _ _ Hi) as (Hden & _ & _ & _ & [(_ & _ & Hlease & _) | (? & _)]); [| done].
  revert Hi. unfold install. destruct (fold_left _ _ _) as [[g m] rv]. cbn [fst snd] in *.
  destruct (persist _ _ _ _) as [[[[] |] s1] d1] eqn:Epe; [| done]. intros [= _ _ <- <-].
  set (s0 := s<|st_denied := _|>) in Epe.
  destruct (persist_readback _ s0 _ _ _ _ (NewStore (st_path s) (st_key s) boot)
    Hp Hw1 Hw2 Epe eq_refl) as (bl & bd & Hr1 & Hu1 & Hr2 & Hu2).
  cbv zeta. unfold store_load. cbn [st_loaded NewStore st_path upd].
  rewrite (proj2 (str_eqb_neq _ _) Hp).
  set (r0 := NewStore (st_path s) (st_key s) boot) in *.
  change (st_path s0) with (st_path s) in Hr1. change (deniedPath s0) with (deniedPath s) in Hr2.
  rewrite (readState_key _ r0) by reflexivity. rewrite Hr1, Hu1.
  rewrite Hlease in Hvalid. rewrite Hvalid.
  unfold load_denied. rewrite (readState_key _ r0) by reflexivity.
  match goal with |- context [readState _ d1 ?y] => change y with (deniedPath s) end.
  rewrite Hr2, Hu2. rewrite Hden in *. rewrite Hlease.
  change (st_denied s0) with (prune_denied (env_now e) (l_Revision c) g m).
  by rewrite (proj2 (Z.ltb_ge _ _) Hsize).
Qed.

End StoreFacts.

(** ** What the store promises *)

Section StoreTheorems.
Context {A : AEAD} {CL : Codec Lease} {CD : Codec (gmap string deniedEntry)}.

Lemma run_ops_inv (P : Store * disk -> Prop) sd ops :
  P sd -> (forall sd step, step ∈ ops -> P sd -> P (run_op sd step)) -> P (run_ops sd ops).
Proof. intros H0 Hs. unfold run_ops. apply fold_left_inv; auto. Qed.

(** C5: whatever sequence of updates and denials a store goes through, with
    whatever clock and system-call outcomes, a key it then admits is granted by
    a valid lease whose window of at most [MaxLifetime] contains the instant of
    the question, before the end of that key's own grant, and the key is not on
    the deny watermark, which stays within its bound. *)
Theorem admitted_key_is_leased path key boot d0 ops k now :
  let '(s, d) := run_ops (NewStore path key boot, d0) ops in
  let '(allowed, s') := store_Allows s d k now in
  allowed = true ->
  Z.of_nat (size (st_denied s')) <= maxDeniedKeys /\ st_denied s' !! k = None /\
  exists l i x raw fin, st_lease s' = Some l /\ lease_Validate (Some l) = Ok tt /\
    lease_window l = Some (i, x) /\ x <= i + MaxLifetime /\ i <= now < x /\
    l_Grants l !! k = Some raw /\ time_Parse raw = Some fin /\ now < fin.
Proof.
  assert (store_inv (fst (run_ops (NewStore path key boot, d0) ops))) as Hinv.
  { apply (run_ops_inv (fun sd => store_inv (fst sd))); [| intros; by apply run_op_inv].
    split; [done |]. cbn. rewrite map_size_empty. unfold maxDeniedKeys. lia. }
  destruct (run_ops _ _) as [s d]. cbn [fst] in Hinv. apply (store_load_inv s d) in Hinv as [Hv Hsz].
  unfold store_Allows. destruct (k =s ""); [done |].
  destruct (st_err (store_load s d)); [done |].
  destruct (st_denied (store_load s d) !! k) eqn:Ek; [done |]. intros Hal.
  split_and!; [done | done |].
  destruct (st_lease (store_load s d)) as [l |] eqn:El; [| done].
  apply lease_Allows_spec in Hal as (_ & i & x & raw & fin & Hw & Hn & Hg & Hp & Hf).
  exists l, i, x, raw, fin. pose proof (lease_window_bounds _ _ _ Hw). split_and!; done || lia.
Qed.


(** C10: an update either leaves the lease alone or installs a lease that does
    not step behind the installed one: its revision is higher, or it was
    issued once the installed lease had expired, or it has the same revision
    and digest and is not older. *)
Theorem installed_lease_never_steps_behind e s cur c d ur h er s' d' :
  st_lease (store_load s d) = Some cur ->
  store_UpdateWithResult e s (Some c) d = ((ur, h, er), s', d') ->
  (st_lease s' = Some cur /\ ur_Installed ur = false) \/
  (exists g, st_lease s' = Some (c<|l_Grants := g|>) /\ g ⊆ l_Grants c /\
     ur_Installed ur = true /\ er = None /\ not_behind cur c).
Proof.
  intros Hcur Hu. apply update_cases in Hu as [(-> & _ & Hf) | (c' & [= <-] & _ & _ & Hi & Ho)].
  { left. by rewrite Hcur. }
  rewrite Hcur in Ho.
  destruct (install_fields _ _ _ _ _ _ _ _ _ Hi) as (_ & _ & _ & _ & [(-> & -> & Hl & _) | (_ & -> & Hl)]).
  - right. eexists. split; [exact Hl |]. split_and!; try done.
    + rewrite deny_one_grants. apply filter_grants_sub.
    + apply store_compare_not_behind. naive_solver.
  - left. by rewrite Hl, Hcur.
Qed.

Lemma elem_of_sort_Strings k (X : gset string) : k ∈ sort_Strings (elements X) <-> k ∈ X.
Proof. unfold sort_Strings. by rewrite merge_sort_Permutation, elem_of_elements. Qed.

(** The keys an installation reports as revoked are exactly those the old
    lease granted and the new one does not, with those the new one denies, and
    none of them is granted by the lease the store holds afterwards. *)
Theorem revoked_keys_exact e s c d ur h er s' d' k :
  store_UpdateWithResult e s (Some c) d = ((ur, h, er), s', d') -> ur_Installed ur = true ->
  (k ∈ ur_Revoked ur <->
     k ∈ l_Denied c \/
     (exists cur, st_lease (store_load s d) = Some cur /\ is_Some (l_Grants cur !! k) /\ l_Grants c !! k = None)) /\
  (k ∈ ur_Revoked ur -> exists l, st_lease s' = Some l /\ l_Grants l !! k = None).
Proof.
  intros Hu Hinst. apply update_cases in Hu as [(_ & _ & Hf) | (c' & [= <-] & _ & _ & Hi & _)].
  { cbn [fst] in Hf. congruence. }
  destruct (install_fields _ _ _ _ _ _ _ _ _ Hi) as (_ & _ & _ & _ & [(-> & -> & Hl & _) | (_ & -> & _)]); [| done].
  cbn [ur_Revoked]. rewrite elem_of_sort_Strings, deny_one_revoked. cbn [snd].
  assert (k ∈ dropped_grants (st_lease (store_load s d)) c <->
    exists cur, st_lease (store_load s d) = Some cur /\ is_Some (l_Grants cur !! k) /\ l_Grants c !! k = None) as Hdrop.
  { unfold dropped_grants. destruct (st_lease (store_load s d)) as [cur |].
    - rewrite elem_of_difference, elem_of_dom, not_elem_of_dom. naive_solver.
    - split; [set_solver | naive_solver]. }
  rewrite elem_of_union, elem_of_list_to_set, Hdrop. split; [done |].
  intros Hk. eexists. split; [exact Hl |]. cbn [l_Grants upd]. rewrite deny_one_grants. cbn [fst].
  apply map_lookup_filter_None. destruct Hk as [Hk | (cur & _ & _ & Hk)]; [right; set_solver | left; done].
Qed.

(** Once a store has met a read or write error it refuses every key, and no
    later update or denial changes it: only a restart reads the disk again. *)
Theorem failed_store_fails_closed s d m ops key now :
  st_err (store_load s d) = Some m ->
  fst (run_ops (store_load s d, d) ops) = store_load s d /\
  fst (store_Allows (fst (run_ops (store_load s d, d) ops)) d key now) = false.
Proof.
  intros He. pose proof (store_load_loaded s d) as Hl. set (s0 := store_load s d) in *.
  assert (fst (run_ops (s0, d) ops) = s0) as Hr.
  { apply (run_ops_inv (fun sd => fst sd = s0)); [done |].
    intros sd step _ Hsd. rewrite <- Hsd. eapply run_op_error; rewrite Hsd; eauto. }
  rewrite Hr. split; [done |]. unfold store_Allows. destruct (_ =s _); [done |].
  rewrite store_load_idemp by done. by rewrite He.
Qed.

(** When some key is admitted now, the instant [NextExpiry] reports lies in
    the future and every key admitted now stays admitted until then: a
    reaper that sleeps until that instant misses no expiry. *)
Theorem NextExpiry_is_next_revocation ol now key t :
  lease_Allows ol key now = true ->
  now < lease_NextExpiry ol now /\
  (now <= t < lease_NextExpiry ol now -> lease_Allows ol key t = true).
Proof. apply lease_NextExpiry_safe. Qed.

Context {AL : AEADLaws A} {LL : CodecLaws CL} {LD : CodecLaws CD}.

(** C9: a lease whose installation returned success survives a restart: a
    fresh store on the same path and key loads the same lease and the same
    watermark, sealed or not, without an error. *)
Theorem installed_lease_survives_restart e s c d ur h s' d' boot :
  store_inv s -> st_path s <> ""%string ->
  write_ok (env_first e) (store_load s d) -> write_ok (env_second e) (store_load s d) ->
  store_UpdateWithResult e s (Some c) d = ((ur, h, None), s', d') -> ur_Installed ur = true ->
  let r := store_load (NewStore (st_path s) (st_key s) boot) d' in
  st_err r = None /\ st_lease r = st_lease s' /\ st_denied r = st_denied s'.
Proof.
  intros Hinv Hp Hw1 Hw2 Hu Hinst.
  apply update_cases in Hu as [(_ & _ & Hf) | (c' & [= <-] & He & Hv & Hi & _)].
  { cbn [fst] in Hf. congruence. }
  pose proof (store_load_config s d) as [Hpath Hkey]. rewrite <- Hpath, <- Hkey.
  eapply install_reload; eauto using store_load_inv. by rewrite Hpath.
Qed.

End StoreTheorems.

(** ** Witnesses *)

Definition lease_fields (l : Lease) :=
  (l_Revision l, l_Sequence l, l_Digest l, l_IssuedAt l, l_ExpiresAt l, l_Grants l, l_Denied l).

#[export] Instance Lease_eq_dec : EqDecision Lease.
Proof. solve_decision. Defined.

#[export] Instance Lease_countable : Countable Lease.
Proof.
  refine (inj_countable' lease_fields
    (fun '(r, q, g, i, x, gr, dn) => mkLease r q g i x gr dn) _). by intros [].
Defined.

#[export] Instance deniedEntry_eq_dec : EqDecision deniedEntry.
Proof. solve_decision. Defined.

#[export] Instance deniedEntry_countable : Countable deniedEntry.
Proof.
  refine (inj_countable' (fun e => (de_Revision e, de_At e)) (fun '(r, a) => mkDenied r a) _).
  by intros [].
Defined.

Section Witnesses.
#[local] Instance lease_codec : Codec Lease := countable_codec.
#[local] Instance denied_codec : Codec (gmap string deniedEntry) := countable_codec.

Definition sample_lease : Lease :=
  mkLease 7 1 "d" "2024-01-01T00:00:00Z" "" {["u" := "2024-01-01T00:04:00Z"]} [].
Definition sample_now : Time := 1704067260 * Second.
Definition sample_write : WriteEnv := mkWriteEnv io_good (Some (repeat "n"%char 12)) "t".
Definition sample_env : Env := mkEnv sample_now sample_write sample_write.
Definition sample_store : Store := NewStore "p" [] "b".

Lemma admitted_key_is_leased_witness :
  let '(s, d) := run_ops (NewStore "" [] "b", ∅) [(sample_env, OpUpdate (Some sample_lease))] in
  let '(allowed, s') := store_Allows s d "u" sample_now in
  allowed = true /\ st_denied s' !! "u"%string = None.
Proof.
  pose proof (admitted_key_is_leased "" [] "b" ∅ [(sample_env, OpUpdate (Some sample_lease))]
    "u" sample_now) as H.
  destruct (run_ops _ _) as [s d] eqn:Er. destruct (store_Allows s d "u" sample_now) as [al s'] eqn:Ea.
  assert (al = true) as Hal.
  { vm_compute in Er. injection Er as <- <-. vm_compute in Ea. by injection Ea as <- <-. }
  split; [done | apply (H Hal)].
Defined.


(** The store after the sample lease was installed on an empty disk. *)
Definition sample_installed : Store := fst (run_ops (sample_store, ∅) [(sample_env, OpUpdate (Some sample_lease))]).
Definition sample_disk : disk := snd (run_ops (sample_store, ∅) [(sample_env, OpUpdate (Some sample_lease))]).
Definition sample_next : Lease :=
  mkLease 8 1 "e" "2024-01-01T00:01:00Z" "" {["v" := "2024-01-01T00:05:00Z"]} ["w"%string].

Lemma sample_update :
  exists ur s' d',
    store_UpdateWithResult sample_env sample_installed (Some sample_next) sample_disk = ((ur, false, None), s', d') /\
    ur_Installed ur = true.
Proof. do 3 eexists. split; vm_compute; reflexivity. Qed.

Lemma installed_lease_never_steps_behind_witness :
  exists s', snd (fst (store_UpdateWithResult sample_env sample_installed (Some sample_next) sample_disk)) = s' /\
    not_behind sample_lease sample_next.
Proof.
  destruct sample_update as (ur & s' & d' & Hu & Hi). exists s'. split; [by rewrite Hu |].
  assert (st_lease (store_load sample_installed sample_disk) = Some sample_lease) as Hl by by_compute.
  destruct (installed_lease_never_steps_behind sample_env sample_installed sample_lease sample_next
    sample_disk ur false None s' d' Hl Hu) as [[_ Hf] | (g & _ & _ & _ & _ & Hn)]; [congruence | done].
Defined.

Lemma revoked_keys_exact_witness :
  exists ur, fst (fst (fst (store_UpdateWithResult sample_env sample_installed (Some sample_next) sample_disk)))
      = (ur, false) /\ "u"%string ∈ ur_Revoked ur.
Proof.
  destruct sample_update as (ur & s' & d' & Hu & Hi). exists ur. split; [by rewrite Hu |].
  apply (revoked_keys_exact sample_env sample_installed sample_next sample_disk ur false None s' d' "u" Hu Hi).
  right. exists sample_lease. split_and!; [by_compute | vm_compute; eauto | by_compute].
Defined.

Lemma failed_store_fails_closed_witness :
  fst (store_Allows (fst (run_ops (store_load sample_store {["p" := Regular []]}, {["p" := Regular []]})
    [(sample_env, OpUpdate (Some sample_lease))])) {["p" := Regular []]} "u" sample_now) = false.
Proof.
  apply (failed_store_fails_closed sample_store {["p" := Regular []]} "invalid lease"
    [(sample_env, OpUpdate (Some sample_lease))] "u" sample_now). reflexivity.
Defined.

Lemma NextExpiry_is_next_revocation_witness :
  lease_Allows (Some sample_lease) "u" (sample_now + Minute) = true.
Proof.
  apply (NextExpiry_is_next_revocation (Some sample_lease) sample_now "u" (sample_now + Minute)); by_compute.
Defined.

Lemma installed_lease_survives_restart_witness :
  exists s' d', snd (fst (store_UpdateWithResult sample_env sample_installed (Some sample_next) sample_disk)) = s' /\
    snd (store_UpdateWithResult sample_env sample_installed (Some sample_next) sample_disk) = d' /\
    st_lease (store_load (NewStore "p" [] "c") d') = st_lease s'.
Proof.
  destruct sample_update as (ur & s' & d' & Hu & Hi). exists s', d'. rewrite Hu. split_and!; [done | done |].
  assert (st_path sample_installed = "p"%string) as Hp by by_compute.
  assert (st_key sample_installed = []) as Hk by by_compute.
  rewrite <- Hp, <- Hk.
  refine (proj1 (proj2 (installed_lease_survives_restart (AL := zero_aead_laws) (LL := countable_codec_laws)
    (LD := countable_codec_laws) sample_env sample_installed sample_next sample_disk ur false s' d' "c"
    _ _ _ _ Hu Hi))); by_compute.
Defined.

End Witnesses.
