(* ===== verification/Netip.v ===== *)
(** * Netip: the fragment of Go's [net/netip] the sources use

    An [Addr] is the zero address, an IPv4 address or an IPv6 address, as an
    unsigned integer of its width. Zones are left out: every use below drops
    them. Prefixes are masked addresses with a length; [Addr_String] prints the
    canonical text, with the longest run of zero groups of an IPv6 address
    compressed. *)

From S2P Require Import Prelude.

Inductive Addr := NoAddr | V4 (a : Z) | V6 (a : Z).

#[export] Instance Addr_eq_dec : EqDecision Addr.
Proof. solve_decision. Defined.

#[export] Instance Addr_countable : Countable Addr.
Proof.
  refine (inj_countable' (fun a => match a with NoAddr => inl () | V4 x => inr (inl x) | V6 x => inr (inr x) end)
    (fun s => match s with inl _ => NoAddr | inr (inl x) => V4 x | inr (inr x) => V6 x end) _).
  by intros [].
Defined.

Definition addr_ok (a : Addr) : Prop :=
  match a with NoAddr => True | V4 x => 0 <= x < 2 ^ 32 | V6 x => 0 <= x < 2 ^ 128 end.

Definition IsValid (a : Addr) : bool := match a with NoAddr => false | _ => true end.
Definition Is4 (a : Addr) : bool := match a with V4 _ => true | _ => false end.
Definition Is6 (a : Addr) : bool := match a with V6 _ => true | _ => false end.

(** [Unmap]: an IPv4-mapped IPv6 address becomes the IPv4 address. *)
Definition Unmap (a : Addr) : Addr :=
  match a with
  | V6 x => if Z.shiftr x 32 =? 65535 then V4 (x mod 2 ^ 32) else a
  | _ => a
  end.

(** Membership in [net/bits] for a [w]-bit address. *)
Definition in_net (w net bits x : Z) : bool := Z.shiftr x (w - bits) =? net.

Definition IsPrivate (a : Addr) : bool :=
  match a with
  | V4 x => in_net 32 10 8 x || in_net 32 (172 * 16 + 1) 12 x || in_net 32 (192 * 256 + 168) 16 x
  | V6 x => in_net 128 126 7 x
  | NoAddr => false
  end.

Definition IsLoopback (a : Addr) : bool :=
  match a with V4 x => in_net 32 127 8 x | V6 x => x =? 1 | NoAddr => false end.

Definition IsUnspecified (a : Addr) : bool :=
  match a with V4 x => x =? 0 | V6 x => x =? 0 | NoAddr => false end.

Definition IsMulticast (a : Addr) : bool :=
  match a with V4 x => in_net 32 14 4 x | V6 x => in_net 128 255 8 x | NoAddr => false end.

Definition IsLinkLocalUnicast (a : Addr) : bool :=
  match a with V4 x => in_net 32 (169 * 256 + 254) 16 x | V6 x => in_net 128 1018 10 x | NoAddr => false end.

(** ** Prefixes *)

Record Prefix := mkPrefix { pf_addr : Addr; pf_bits : Z }.

#[export] Instance Prefix_eq_dec : EqDecision Prefix.
Proof. solve_decision. Defined.

#[export] Instance Prefix_countable : Countable Prefix.
Proof.
  refine (inj_countable' (fun p => (pf_addr p, pf_bits p)) (fun '(a, b) => mkPrefix a b) _). by intros [].
Defined.

Definition zero_prefix : Prefix := mkPrefix NoAddr 0.
Definition Prefix_IsValid (p : Prefix) : bool := IsValid (pf_addr p).

Definition mask (w bits x : Z) : Z := Z.shiftl (Z.shiftr x (w - bits)) (w - bits).

(** [PrefixFrom(a, bits).Masked()], for lengths within the address. *)
Definition masked_prefix (a : Addr) (bits : Z) : Prefix :=
  match a with
  | NoAddr => zero_prefix
  | V4 x => mkPrefix (V4 (mask 32 bits x)) bits
  | V6 x => mkPrefix (V6 (mask 128 bits x)) bits
  end.

(** ** Text *)

Definition dec (n : Z) : string := pretty (Z.to_N n).

Definition hex_digit (n : Z) : ascii :=
  if n <? 10 then ascii_of_nat (Z.to_nat (48 + n)) else ascii_of_nat (Z.to_nat (87 + n)).

Fixpoint strip_zeros (l : list Z) : list Z :=
  match l with
  | 0 :: ((_ :: _) as r) => strip_zeros r
  | _ => l
  end.

(** A 16-bit group without leading zeros. *)
Definition hex_group (g : Z) : string :=
  string_of_list_ascii (map hex_digit (strip_zeros [g / 4096; g / 256 mod 16; g / 16 mod 16; g mod 16])).

Definition groups (x : Z) : list Z := map (fun i => Z.shiftr x (112 - 16 * i) mod 65536) (below 8).

(** Length of the run of zeros at the head. *)
Fixpoint zero_run (l : list Z) : nat :=
  match l with 0 :: r => S (zero_run r) | _ => O end.

(** First longest run of at least two zero groups: start and length. *)
Fixpoint longest_run (i : nat) (l : list Z) (best : nat * nat) : nat * nat :=
  match l with
  | [] => best
  | _ :: r =>
      let n := zero_run l in
      longest_run (S i) r (if ((2 <=? n) && (snd best <? n))%nat then (i, n) else best)
  end.

Fixpoint join_groups (gs : list Z) : string :=
  match gs with
  | [] => ""%string
  | [g] => hex_group g
  | g :: r => (hex_group g +:+ ":" +:+ join_groups r)%string
  end.

Definition V6_String (x : Z) : string :=
  let gs := groups x in
  let '(i, n) := longest_run 0 gs (O, O) in
  if (n =? 0)%nat then join_groups gs
  else (join_groups (take i gs) +:+ "::" +:+ join_groups (drop (i + n) gs))%string.

Definition V4_String (x : Z) : string :=
  (dec (x / 16777216) +:+ "." +:+ dec (x / 65536 mod 256) +:+ "." +:+ dec (x / 256 mod 256) +:+ "." +:+
   dec (x mod 256))%string.

Definition Addr_String (a : Addr) : string :=
  match a with NoAddr => "invalid IP"%string | V4 x => V4_String x | V6 x => V6_String x end.

Definition Prefix_String (p : Prefix) : string :=
  if Prefix_IsValid p then (Addr_String (pf_addr p) +:+ "/" +:+ dec (pf_bits p))%string
  else "invalid Prefix"%string.

Example netip_text :
  Prefix_String (masked_prefix (V4 (203 * 16777216 + 113 * 256 + 9)) 24) = "203.0.113.0/24"%string /\
  Addr_String (V6 (0x20010db8 * 2 ^ 96 + 1)) = "2001:db8::1"%string /\
  Prefix_String (masked_prefix (V6 (0x20010db8abcd12345678 * 2 ^ 48)) 56) = "2001:db8:abcd:1200::/56"%string.
Proof. repeat split; vm_compute; reflexivity. Qed.
