(* ===== verification/Window.v ===== *)
(** * Window: traffic accounting periods

    Model of [runtimeTrafficWindow] and its helpers in
    kernel/oboard-sb/internal/minibox/ratelimit.go: the period key, start and
    end of the accounting period that contains an instant, in a location and
    for each reset mode. The theorems are for locations with a fixed offset
    (the default of the code, UTC+8, is one): the periods contain the instant
    they were computed for and do not depend on which instant of the period
    they were computed from, so that they partition time. For reset days
    after the 28th this fails, as [month_end_window_misses_now] shows. *)

From S2P Require Import Prelude Calendar GoTime.

(** [time.Date(year, month+1, 0, ..., time.UTC).Day()] is the last day. *)
Definition runtimeClampedMonthDay (year month day : Z) : Z :=
  let '(_, _, last) := time_Date UTC (Date UTC year (month + 1) 0 0) in
  if last <? day then last else if day <? 1 then 1 else day.

(** [t.Format("2006-01-02")] in a location. *)
Definition format_date (loc : Location) (t : Time) : string :=
  let '(y, m, d) := time_Date loc t in
  string_of_list_ascii (fmt_year y ++ "-"%char :: pad2 m ++ "-"%char :: pad2 d).

Definition runtimeAnniversaryBoundary (anchor : Time) (months : Z) (loc : Location) : Time :=
  let '(ay, am, ad) := time_Date loc anchor in
  let clock := time_Clock loc anchor in
  let monthStart := Date loc ay (am + months) 1 clock in
  let '(y, m, _) := time_Date loc monthStart in
  Date loc y m (runtimeClampedMonthDay y m ad) clock.

Definition runtimeAnniversaryWindow (now anchor : Time) (loc : Location) : Time * Time :=
  if Before now anchor then (anchor, runtimeAnniversaryBoundary anchor 1 loc)
  else
    let '(ny, nm, _) := time_Date loc now in
    let '(ay, am, _) := time_Date loc anchor in
    let months := (ny - ay) * 12 + (nm - am) in
    let start := runtimeAnniversaryBoundary anchor months loc in
    if Before now start
    then (runtimeAnniversaryBoundary anchor (months - 1) loc, runtimeAnniversaryBoundary anchor (months - 1 + 1) loc)
    else (start, runtimeAnniversaryBoundary anchor (months + 1) loc).

(** 9999-12-31T23:59:59 in the location. *)
Definition end_of_time (loc : Location) : Time := Date loc 9999 12 31 (86399 * Second).

Definition runtimeTrafficWindow (now : Time) (mode : string) (day : Z) (anchor : Time) (loc : Location)
  : string * Time * Time :=
  let day := if day <? 1 then 1 else day in
  let day := if 31 <? day then 31 else day in
  if mode =s "never" then
    let anchor := if IsZero anchor then now else anchor in
    (time_Format anchor, anchor, end_of_time loc)
  else if mode =s "anniversary_month" then
    let anchor := if IsZero anchor then now else anchor in
    let '(start, fin) := runtimeAnniversaryWindow now anchor loc in
    (time_Format start, start, fin)
  else
    let '(ny, nm, _) := time_Date loc now in
    if negb (mode =s "month_day") then
      let start := Date loc ny nm 1 0 in
      (format_date loc start, start, AddMonths loc start 1)
    else
      let start := Date loc ny nm (runtimeClampedMonthDay ny nm day) 0 in
      let start :=
        if Before now start then
          let '(py, pm, _) := time_Date loc (AddMonths loc start (-1)) in
          Date loc py pm (runtimeClampedMonthDay py pm day) 0
        else start in
      let '(xy, xm, _) := time_Date loc (AddMonths loc start 1) in
      (format_date loc start, start, Date loc xy xm (runtimeClampedMonthDay xy xm day) 0).

(** ** Local time at a fixed offset *)

Section Fixed.
Context (off : Z).

Definition fixed : Location := FixedZone off.

(** The instant of day [d] of month [k] (counted from year 0), [c]
    nanoseconds after local midnight. *)
Definition local (k d c : Z) : Time := (month_start k + (d - 1)) * nanos_per_day + c - off * Second.

Lemma Date_fixed y m d c : Date fixed y m d c = local (12 * y + (m - 1)) d c.
Proof.
  unfold Date, local, date_utc, fixed, FixedZone, loc_offset. cbn [loc_lookup fst].
  unfold nanos_per_day. destruct (Z.eqb_spec off 0) as [-> |]; [lia |].
  destruct (_ || _); lia.
Qed.

Lemma wall_fixed t : wall fixed t = t + off * Second.
Proof. reflexivity. Qed.

Lemma local_date k d c :
  1 <= d <= month_len k -> 0 <= c < nanos_per_day ->
  time_Date fixed (local k d c) = (k / 12, k mod 12 + 1, d) /\ time_Clock fixed (local k d c) = c.
Proof.
  intros Hd Hc. unfold time_Date, time_Clock. rewrite wall_fixed.
  replace (local k d c + off * Second) with (c + (month_start k + (d - 1)) * nanos_per_day)
    by (unfold local; lia).
  assert (nanos_per_day <> 0) by discriminate.
  rewrite Z.div_add, Z.mod_add by done. rewrite (Z.div_small c), (Z.mod_small c), Z.add_0_l by done.
  split; [by apply civil_of_month | done].
Qed.

(** The month an instant falls in. *)
Definition month_of (t : Time) : Z := let '(y, m, _) := time_Date fixed t in 12 * y + (m - 1).

Lemma local_of t :
  exists d c, t = local (month_of t) d c /\ 1 <= d <= month_len (month_of t) /\ 0 <= c < nanos_per_day.
Proof.
  unfold month_of. destruct (time_Date fixed t) as [[y m] d] eqn:E.
  unfold time_Date in E. destruct (civil_in_month _ _ _ _ E) as (Hz & Hd & Hm).
  exists d, (time_Clock fixed t). split_and!; try lia.
  - unfold local. rewrite <- Hz. unfold time_Clock. rewrite wall_fixed.
    pose proof (Z.div_mod (t + off * Second) nanos_per_day ltac:(discriminate)). lia.
  - unfold time_Clock. apply Z.mod_pos_bound. done.
  - unfold time_Clock. apply Z.mod_pos_bound. done.
Qed.

Lemma local_month_mono k k' : k <= k' -> local k 1 0 <= local k' 1 0.
Proof. intros H. pose proof (month_start_mono _ _ H). unfold local, nanos_per_day, Second. lia. Qed.

Lemma local_in_month k d c :
  1 <= d <= month_len k -> 0 <= c < nanos_per_day -> local k 1 0 <= local k d c < local (k + 1) 1 0.
Proof. intros Hd Hc. unfold local. rewrite month_start_succ. unfold nanos_per_day, Second in *. lia. Qed.

(** Months partition time. *)
Lemma month_of_range t : local (month_of t) 1 0 <= t < local (month_of t + 1) 1 0.
Proof. destruct (local_of t) as (d & c & Ht & Hd & Hc). rewrite Ht at 2 3. by apply local_in_month. Qed.

Lemma month_of_unique k t : local k 1 0 <= t < local (k + 1) 1 0 -> month_of t = k.
Proof.
  intros H. pose proof (month_of_range t) as Hr.
  destruct (Z.lt_trichotomy (month_of t) k) as [Hlt | [? | Hgt]]; [| done |].
  - pose proof (local_month_mono (month_of t + 1) k ltac:(lia)). lia.
  - pose proof (local_month_mono (k + 1) (month_of t) ltac:(lia)). lia.
Qed.

Lemma clamped_fixed k day :
  runtimeClampedMonthDay (k / 12) (k mod 12 + 1) day =
  (if month_len k <? day then month_len k else if day <? 1 then 1 else day).
Proof.
  unfold runtimeClampedMonthDay, Date, time_Date, wall, UTC, FixedZone, loc_offset, date_utc.
  cbn [loc_lookup fst]. rewrite Z.eqb_refl.
  replace (12 * (k / 12) + (k mod 12 + 1 + 1 - 1)) with (k + 1)
    by (pose proof (Z.div_mod k 12); lia).
  rewrite month_start_succ. pose proof (month_len_range k).
  replace (_ / nanos_per_day) with (month_start k + (month_len k - 1)).
  - rewrite civil_of_month by lia. done.
  - apply Z.div_unique with 0; unfold nanos_per_day, Second; lia.
Qed.

(** ** One boundary per month *)

(** Periods whose boundary in month [k] is day [d], or the last day of a
    shorter month, at [c] past midnight. *)
Section Boundary.
Context (d c : Z) (Hd : 1 <= d) (Hc : 0 <= c < nanos_per_day).

Definition boundary (k : Z) : Time := local k (Z.min d (month_len k)) c.

Lemma boundary_in_month k : local k 1 0 <= boundary k < local (k + 1) 1 0.
Proof. apply local_in_month; [| done]. pose proof (month_len_range k). lia. Qed.

(** The month whose boundary opens the period of [t]. *)
Definition period_month (t : Time) : Z :=
  if t <? boundary (month_of t) then month_of t - 1 else month_of t.

Lemma period_contains t : boundary (period_month t) <= t < boundary (period_month t + 1).
Proof.
  unfold period_month. pose proof (month_of_range t) as Hr.
  pose proof (boundary_in_month (month_of t - 1)) as Hp. pose proof (boundary_in_month (month_of t + 1)).
  destruct (Z.ltb_spec t (boundary (month_of t)));
    replace (month_of t - 1 + 1) with (month_of t) in * by lia; lia.
Qed.

Lemma boundary_mono j k : j < k -> boundary j < boundary k.
Proof.
  intros H. pose proof (boundary_in_month j). pose proof (boundary_in_month k).
  pose proof (local_month_mono (j + 1) k ltac:(lia)). lia.
Qed.

Lemma period_unique j t : boundary j <= t < boundary (j + 1) -> period_month t = j.
Proof.
  intros H. pose proof (period_contains t) as Hp.
  destruct (Z.lt_trichotomy (period_month t) j) as [Hlt | [? | Hgt]]; [| done |].
  - destruct (Z.eq_dec (period_month t + 1) j) as [<- |]; [lia |].
    pose proof (boundary_mono (period_month t + 1) j ltac:(lia)). lia.
  - destruct (Z.eq_dec (j + 1) (period_month t)) as [E |]; [rewrite E in H; lia |].
    pose proof (boundary_mono (j + 1) (period_month t) ltac:(lia)). lia.
Qed.

End Boundary.

(** ** The window as a pair of boundaries *)

Lemma month_split k : 12 * (k / 12) + (k mod 12 + 1 - 1) = k.
Proof. pose proof (Z.div_mod k 12). lia. Qed.

Lemma time_Date_of t :
  exists d, time_Date fixed t = (month_of t / 12, month_of t mod 12 + 1, d).
Proof.
  destruct (local_of t) as (d & c & Ht & Hd & Hc). exists d. rewrite Ht at 1. by apply local_date.
Qed.

Lemma clamped_min k day :
  1 <= day -> runtimeClampedMonthDay (k / 12) (k mod 12 + 1) day = Z.min day (month_len k).
Proof. intros H. rewrite clamped_fixed. pose proof (month_len_range k). split_ifs; zify_bool; lia. Qed.

Lemma Date_boundary k day c :
  1 <= day ->
  Date fixed (k / 12) (k mod 12 + 1) (runtimeClampedMonthDay (k / 12) (k mod 12 + 1) day) c = boundary day c k.
Proof. intros H. by rewrite Date_fixed, month_split, clamped_min. Qed.

(** Moving by months a boundary that fits every month involved. *)
Lemma AddMonths_local k d c n :
  1 <= d <= 28 -> 0 <= c < nanos_per_day -> AddMonths fixed (local k d c) n = local (k + n) d c.
Proof.
  intros Hd Hc. unfold AddMonths. pose proof (month_len_range k).
  destruct (local_date k d c ltac:(lia) Hc) as [-> ->]. rewrite Date_fixed. f_equal.
  pose proof (month_split k). lia.
Qed.

Lemma boundary_date k d c :
  1 <= d -> 0 <= c < nanos_per_day ->
  exists d', time_Date fixed (boundary d c k) = (k / 12, k mod 12 + 1, d').
Proof.
  intros Hd Hc. eexists. apply local_date; [| done]. pose proof (month_len_range k). lia.
Qed.

Lemma boundary_28 d k : 1 <= d <= 28 -> boundary d 0 k = local k d 0.
Proof. intros Hd. unfold boundary. pose proof (month_len_range k). f_equal. lia. Qed.

(** Day and clock of an anchor. *)
Definition day_of (t : Time) : Z := let '(_, _, d) := time_Date fixed t in d.

Lemma anniversary_boundary anchor j :
  runtimeAnniversaryBoundary anchor j fixed =
  boundary (day_of anchor) (time_Clock fixed anchor) (month_of anchor + j).
Proof.
  unfold runtimeAnniversaryBoundary, day_of. destruct (local_of anchor) as (d & c & Ha & Hd & Hc).
  destruct (local_date _ _ _ Hd Hc) as [HD HC]. rewrite <- Ha in HD, HC. rewrite HD, HC, Date_fixed.
  replace (12 * (month_of anchor / 12) + (month_of anchor mod 12 + 1 + j - 1)) with (month_of anchor + j)
    by (pose proof (month_split (month_of anchor)); lia).
  pose proof (month_len_range (month_of anchor + j)).
  destruct (local_date (month_of anchor + j) 1 c ltac:(lia) Hc) as [-> _]. by rewrite Date_boundary by lia.
Qed.

(** The day and clock every boundary of a mode has. *)
Definition mode_day (mode : string) (day : Z) (anchor : Time) : Z :=
  if mode =s "anniversary_month" then day_of anchor
  else if mode =s "month_day" then Z.max 1 day else 1.
Definition mode_clock (mode : string) (anchor : Time) : Z :=
  if mode =s "anniversary_month" then time_Clock fixed anchor else 0.

(** The period key is a function of the period alone. *)
Definition mode_key (mode : string) (start : Time) : string :=
  if mode =s "anniversary_month" then time_Format start else format_date fixed start.

(** What the theorems assume of a policy: a periodic mode, a reset day every
    month has, an anchor that is set and past. *)
Definition regular (mode : string) (day : Z) (anchor now : Time) : Prop :=
  mode <> "never"%string /\ (mode = "month_day"%string -> day <= 28) /\
  (mode = "anniversary_month"%string -> anchor <> time_zero /\ anchor <= now).

Lemma mode_day_pos mode day anchor : 1 <= mode_day mode day anchor.
Proof.
  unfold mode_day, day_of. split_ifs; [| lia | lia].
  destruct (time_Date fixed anchor) as [[y m] d] eqn:E. unfold time_Date in E.
  apply civil_in_month in E. lia.
Qed.

Lemma mode_clock_range mode anchor : 0 <= mode_clock mode anchor < nanos_per_day.
Proof. unfold mode_clock, time_Clock. split_ifs; [by apply Z.mod_pos_bound | done]. Qed.

Lemma anchor_boundary anchor : anchor = boundary (day_of anchor) (time_Clock fixed anchor) (month_of anchor).
Proof.
  destruct (local_of anchor) as (d & c & Ha & Hd & Hc).
  destruct (local_date _ _ _ Hd Hc) as [HD HC]. rewrite <- Ha in HD, HC.
  unfold day_of. rewrite HD, HC. unfold boundary. rewrite Z.min_l by lia. done.
Qed.

Lemma anniversary_window now anchor :
  anchor <= now ->
  let k := period_month (day_of anchor) (time_Clock fixed anchor) now in
  runtimeAnniversaryWindow now anchor fixed =
  (boundary (day_of anchor) (time_Clock fixed anchor) k,
   boundary (day_of anchor) (time_Clock fixed anchor) (k + 1)).
Proof.
  intros Ha k. unfold runtimeAnniversaryWindow, Before. rewrite (proj2 (Z.ltb_ge _ _) Ha).
  destruct (time_Date_of now) as (nd & ->). destruct (time_Date_of anchor) as (ad & ->).
  set (months := (_ - _) * 12 + _).
  assert (month_of anchor + months = month_of now) as Hm.
  { unfold months. pose proof (month_split (month_of anchor)). pose proof (month_split (month_of now)). lia. }
  rewrite !anniversary_boundary, Hm. unfold k, period_month.
  replace (month_of anchor + (months - 1)) with (month_of now - 1) by lia.
  replace (month_of anchor + (months - 1 + 1)) with (month_of now - 1 + 1) by lia.
  replace (month_of anchor + (months + 1)) with (month_of now + 1) by lia.
  by destruct (now <? _).
Qed.

Lemma month_day_window now day :
  1 <= day <= 28 ->
  let k := period_month day 0 now in
  let start := if Before now (boundary day 0 (month_of now))
    then let '(py, pm, _) := time_Date fixed (AddMonths fixed (boundary day 0 (month_of now)) (-1)) in
         Date fixed py pm (runtimeClampedMonthDay py pm day) 0
    else boundary day 0 (month_of now) in
  start = boundary day 0 k /\
  (let '(xy, xm, _) := time_Date fixed (AddMonths fixed start 1) in
   Date fixed xy xm (runtimeClampedMonthDay xy xm day) 0) = boundary day 0 (k + 1).
Proof.
  intros Hd. cbv zeta. unfold period_month, Before.
  assert (forall j n, (let '(y, m, _) := time_Date fixed (AddMonths fixed (boundary day 0 j) n) in
    Date fixed y m (runtimeClampedMonthDay y m day) 0) = boundary day 0 (j + n)) as Hmove.
  { intros j n. rewrite boundary_28, AddMonths_local, <- (boundary_28 day) by done.
    destruct (boundary_date (j + n) day 0 ltac:(lia) ltac:(done)) as (d' & ->). apply Date_boundary. lia. }
  destruct (now <? _).
  - rewrite Hmove. split; [done |]. apply Hmove.
  - split; [done |]. apply Hmove.
Qed.

(** On a regular policy the code computes the boundaries around [now]. *)
Lemma window_fixed mode day anchor now :
  regular mode day anchor now ->
  let d := mode_day mode day anchor in
  let c := mode_clock mode anchor in
  let k := period_month d c now in
  runtimeTrafficWindow now mode day anchor fixed =
  (mode_key mode (boundary d c k), boundary d c k, boundary d c (k + 1)).
Proof.
  intros (Hn & Hday & Hanchor). cbv zeta. unfold runtimeTrafficWindow, mode_day, mode_clock, mode_key.
  rewrite (proj2 (str_eqb_neq _ _) Hn).
  destruct (mode =s "anniversary_month") eqn:Ea.
  { apply str_eqb_eq in Ea. destruct (Hanchor Ea) as [Hz Hle]. unfold IsZero.
    rewrite (proj2 (Z.eqb_neq _ _) Hz). by rewrite (anniversary_window now anchor Hle). }
  destruct (time_Date_of now) as (nd & ->). destruct (mode =s "month_day") eqn:Em; cbn [negb].
  - apply str_eqb_eq in Em. specialize (Hday Em).
    assert ((if 31 <? (if day <? 1 then 1 else day) then 31 else if day <? 1 then 1 else day) = Z.max 1 day)
      as -> by (destruct (Z.ltb_spec day 1); [cbn | destruct (Z.ltb_spec 31 day)]; lia).
    rewrite !Date_boundary by lia.
    destruct (month_day_window now (Z.max 1 day) ltac:(lia)) as [Hs He]. rewrite Hs in He. rewrite !Hs.
    destruct (time_Date fixed (AddMonths _ _ 1)) as [[xy xm] xd]. by rewrite He.
  - rewrite Date_fixed, month_split.
    assert (period_month 1 0 now = month_of now) as ->.
    { unfold period_month. rewrite boundary_28 by lia. pose proof (month_of_range now).
      destruct (Z.ltb_spec now (local (month_of now) 1 0)); [lia | done]. }
    by rewrite AddMonths_local, !boundary_28 by done.
Qed.

Lemma regular_later mode day anchor now t :
  regular mode day anchor now ->
  boundary (mode_day mode day anchor) (mode_clock mode anchor)
    (period_month (mode_day mode day anchor) (mode_clock mode anchor) now) <= t ->
  regular mode day anchor t.
Proof.
  intros (Hn & Hday & Hanchor) Ht. split_and!; [done | done |].
  intros Ha. destruct (Hanchor Ha) as [Hz Hle]. split; [done |].
  pose proof (mode_day_pos mode day anchor) as HD. pose proof (mode_clock_range mode anchor) as HC.
  pose proof (anchor_boundary anchor) as Hb.
  unfold mode_day, mode_clock in *. rewrite (proj2 (str_eqb_eq _ _) Ha) in *.
  set (b := boundary (day_of anchor) (time_Clock fixed anchor)) in *.
  set (k := period_month _ _ now) in *.
  pose proof (period_contains (day_of anchor) (time_Clock fixed anchor) HD HC now) as [_ Hlt].
  destruct (Z.le_gt_cases (month_of anchor) k) as [Hk | Hk].
  - destruct (Z.eq_dec (month_of anchor) k) as [E | E]; [rewrite E in Hb; lia |].
    pose proof (boundary_mono (day_of anchor) (time_Clock fixed anchor) HD HC (month_of anchor) k ltac:(lia)).
    fold b in H. lia.
  - fold k b in Hlt. destruct (Z.eq_dec (k + 1) (month_of anchor)) as [E | E]; [rewrite E in Hlt; lia |].
    pose proof (boundary_mono (day_of anchor) (time_Clock fixed anchor) HD HC (k + 1) (month_of anchor) ltac:(lia)).
    fold b in H. lia.
Qed.

End Fixed.

(** At a fixed offset and on a regular policy, the accounting period of
    [now] contains [now], is the period every one of its instants gets, key
    included, and the next period starts where it ends: the periods partition
    time, so no traffic falls between two periods or is counted in two. *)
Theorem traffic_windows_partition_time off mode day anchor now :
  regular mode day anchor now ->
  let '(key, start, fin) := runtimeTrafficWindow now mode day anchor (FixedZone off) in
  start <= now < fin /\
  (forall t, start <= t < fin -> runtimeTrafficWindow t mode day anchor (FixedZone off) = (key, start, fin)) /\
  (exists key' fin', runtimeTrafficWindow fin mode day anchor (FixedZone off) = (key', fin, fin') /\ fin < fin').
Proof.
  intros Hr. fold (fixed off). rewrite window_fixed by done.
  set (d := mode_day off mode day anchor). set (c := mode_clock off mode anchor).
  set (k := period_month off d c now).
  pose proof (mode_day_pos off mode day anchor) as HD. pose proof (mode_clock_range off mode anchor) as HC.
  fold d in HD. fold c in HC. pose proof (period_contains off d c HD HC now) as Hin. fold k in Hin.
  assert (boundary off d c (k + 1) < boundary off d c (k + 1 + 1)) as Hlt by (apply boundary_mono; done || lia).
  split_and!; [lia | lia | |].
  - intros t Ht. rewrite window_fixed by (eapply (regular_later off); [exact Hr | fold d c k; lia]).
    fold d c. by rewrite (period_unique off d c HD HC k t Ht).
  - rewrite window_fixed by (eapply (regular_later off); [exact Hr | fold d c k; lia]).
    fold d c. rewrite (period_unique off d c HD HC (k + 1)) by lia. eauto.
Qed.

Lemma traffic_windows_partition_time_witness :
  let '(_, start, fin) := runtimeTrafficWindow (1704067200 * Second) "month_day" 15 time_zero (FixedZone 28800) in
  start <= 1704067200 * Second < fin.
Proof.
  pose proof (traffic_windows_partition_time 28800 "month_day" 15 time_zero (1704067200 * Second)
    ltac:(split_and!; [discriminate | intros _; lia | discriminate])) as H.
  destruct (runtimeTrafficWindow _ _ _ _ _) as [[key s] e]. exact (proj1 H).
Defined.

(** With a reset day after the 28th the month-day mode can compute a
    period that does not contain the present: on 15 March 2023 with reset day
    31 the code moves 31 March back by a month, which normalises to 3 March,
    and so answers a period that opens on 31 March and closes on 31 May, while
    the period of 31 January, computed on that day, closes on 31 March. *)
Theorem month_end_window_misses_now :
  let loc := FixedZone 28800 in
  let now := date_utc 2023 3 15 0 0 0 0 in
  let '(_, start, fin) := runtimeTrafficWindow now "month_day" 31 time_zero loc in
  let '(key', start', fin') := runtimeTrafficWindow (Date loc 2023 1 31 0) "month_day" 31 time_zero loc in
  now < start /\ start = Date loc 2023 3 31 0 /\ fin = Date loc 2023 5 31 0 /\
  key' = "2023-01-31"%string /\ fin' = Date loc 2023 3 31 0.
Proof. vm_compute. split_and!; reflexivity. Qed.
