(* ===== verification/Quota.v ===== *)
(** * Quota: per-user traffic state of the kernel

    Model of [runtimeState] in kernel/oboard-sb/internal/minibox/ratelimit.go:
    the policy in force, its rollover to the next accounting period, the byte
    counters with their acknowledgements and the quota verdict. A state may
    share the usage of its user with other states: the shared
    [runtimeUserUsage] is passed in and returned as [option usage].

    One call reads the clock once ([now]); the random epoch of fresh counters
    is an argument. Counters are int64 and wrap around. Time-zone data is the
    class [TimeZones]. *)

From S2P Require Import Prelude Calendar GoTime Window.

(** [time.LoadLocation], [None] for an unknown name. *)
Class TimeZones := LoadLocation : string -> option Location.

Record RuntimeUserLimit := mkLimit {
  AuthorizationKey : string;
  UserID : Z;
  InboundID : Z;
  PathID : Z;
  DeviceIDHash : string;
  CredentialEpoch : Z;
  CredentialStatus : string;
  Billable : bool;
  SpeedLimitMbps : Z;
  TrafficLimitBytes : Z;
  UsedBaselineBytes : Z;
  LeaseBytes : Z;
  ResetLeaseBytes : Z;
  LeaseEnforced : bool;
  PeriodKey : string;
  PeriodStart : string;
  PeriodEnd : string;
  ResetMode : string;
  ResetDay : Z;
  ResetAnchor : string;
  PreviousPeriodKey : string;
  Timezone : string;
  QuotaState : string
}.

#[export] Instance eta_RuntimeUserLimit : Eta RuntimeUserLimit := fun p =>
  mkLimit (AuthorizationKey p) (UserID p) (InboundID p) (PathID p) (DeviceIDHash p) (CredentialEpoch p)
    (CredentialStatus p) (Billable p) (SpeedLimitMbps p) (TrafficLimitBytes p) (UsedBaselineBytes p)
    (LeaseBytes p) (ResetLeaseBytes p) (LeaseEnforced p) (PeriodKey p) (PeriodStart p) (PeriodEnd p)
    (ResetMode p) (ResetDay p) (ResetAnchor p) (PreviousPeriodKey p) (Timezone p) (QuotaState p).

Definition zero_limit : RuntimeUserLimit :=
  mkLimit "" 0 0 0 "" 0 "" false 0 0 0 0 0 false "" "" "" "" 0 "" "" "" "".

Record runtimeCounters := mkCounters {
  epoch : string;
  upload : Z;
  download : Z;
  acknowledgedUpload : Z;
  acknowledgedDownload : Z
}.

#[export] Instance eta_runtimeCounters : Eta runtimeCounters := fun c =>
  mkCounters (epoch c) (upload c) (download c) (acknowledgedUpload c) (acknowledgedDownload c).

Definition newRuntimeCounters (ep : string) : runtimeCounters := mkCounters ep 0 0 0 0.

Record runtimeUsagePeriod := mkPeriod {
  up_upload : Z; up_download : Z; up_ackUpload : Z; up_ackDownload : Z
}.

#[export] Instance eta_runtimeUsagePeriod : Eta runtimeUsagePeriod := fun p =>
  mkPeriod (up_upload p) (up_download p) (up_ackUpload p) (up_ackDownload p).

(** [runtimeUserUsage.periods]. *)
Abbreviation usage := (gmap string runtimeUsagePeriod) (only parsing).

Definition usage_period (u : usage) (key : string) : runtimeUsagePeriod :=
  default (mkPeriod 0 0 0 0) (u !! key).

(** A token bucket: bytes per second and burst. *)
Record limiter := mkLimiter { lim_rate : Z; lim_burst : Z }.

Record runtimeConfig := mkConfig {
  policy : RuntimeUserLimit;
  readLimiter : option limiter;
  writeLimiter : option limiter;
  counters : runtimeCounters
}.

#[export] Instance eta_runtimeConfig : Eta runtimeConfig := fun c =>
  mkConfig (policy c) (readLimiter c) (writeLimiter c) (counters c).

Record runtimeState := mkState {
  rs_key : string;
  rs_user : string;
  rs_inbound : string;
  config : runtimeConfig
}.

#[export] Instance eta_runtimeState : Eta runtimeState := fun s =>
  mkState (rs_key s) (rs_user s) (rs_inbound s) (config s).

Definition rateLimitIOChunk : Z := 64 * 1024.

Definition newRuntimeLimiters (limit : RuntimeUserLimit) : option limiter * option limiter :=
  if SpeedLimitMbps limit <=? 0 then (None, None)
  else
    let bytesPerSecond := Z.quot (mul64 (SpeedLimitMbps limit) 1000000) 8 in
    if bytesPerSecond <=? 0 then (None, None)
    else
      let burst := Z.quot bytesPerSecond 5 in
      let burst := if burst <? rateLimitIOChunk then rateLimitIOChunk else burst in
      (Some (mkLimiter bytesPerSecond burst), Some (mkLimiter bytesPerSecond burst)).

Definition storePolicyLocked (s : runtimeState) (p : RuntimeUserLimit) (ep : string) (resetTraffic : bool)
  : runtimeState :=
  let cts := if resetTraffic then newRuntimeCounters ep else counters (config s) in
  let '(rl, wl) := newRuntimeLimiters p in
  s<|config := mkConfig p rl wl cts|>.

Definition newRuntimeState (key user inbound : string) (p : RuntimeUserLimit) (ep : string) : runtimeState :=
  storePolicyLocked (mkState key user inbound (mkConfig zero_limit None None (newRuntimeCounters ep))) p ep true.

Definition Shanghai : Location := FixedZone (8 * 3600).

Section Policy.
Context {TZ : TimeZones}.

Definition policy_location (p : RuntimeUserLimit) : Location :=
  if Timezone p =s "" then Shanghai
  else match LoadLocation (Timezone p) with Some l => l | None => Shanghai end.

(** An unset or unreadable anchor is the zero time. *)
Definition policy_anchor (p : RuntimeUserLimit) : Time :=
  if ResetAnchor p =s "" then time_zero
  else default time_zero (time_Parse (ResetAnchor p)).

(** The policy of the period that contains [now]. *)
Definition next_period (now : Time) (p : RuntimeUserLimit) : RuntimeUserLimit :=
  let '(periodKey, start, nextEnd) :=
    runtimeTrafficWindow now (ResetMode p) (ResetDay p) (policy_anchor p) (policy_location p) in
  let p := p<|PeriodKey := periodKey|><|PeriodStart := time_Format start|>
            <|PeriodEnd := time_Format nextEnd|><|UsedBaselineBytes := 0|> in
  let p := if LeaseEnforced p then p<|LeaseBytes := ResetLeaseBytes p|> else p in
  p<|QuotaState := "active"%string|>.

Definition period_over (now : Time) (p : RuntimeUserLimit) : bool :=
  if PeriodEnd p =s "" then false
  else match time_Parse (PeriodEnd p) with
       | None => false
       | Some fin => negb (Before now fin)
       end.

(** [currentConfig]: rolls the policy over once its period has ended. *)
Definition currentConfig (now : Time) (ep : string) (s : runtimeState) : runtimeState :=
  let p := policy (config s) in
  if period_over now p then
    storePolicyLocked s (next_period now p) ep
      ((PreviousPeriodKey p =s "") || negb (PreviousPeriodKey p =s PeriodKey p))
  else s.

Definition count (billed : runtimeCounters) (up down : Z) : runtimeCounters :=
  let billed := if 0 <? up then billed<|upload ::= fun x => add64 x up|> else billed in
  if 0 <? down then billed<|download ::= fun x => add64 x down|> else billed.

Definition count_period (p : runtimeUsagePeriod) (up down : Z) : runtimeUsagePeriod :=
  let p := if 0 <? up then p<|up_upload ::= fun x => add64 x up|> else p in
  if 0 <? down then p<|up_download ::= fun x => add64 x down|> else p.

Definition count_usage (u : usage) (key : string) (up down : Z) : usage :=
  <[key := count_period (usage_period u key) up down]> u.

Definition addTraffic (now : Time) (ep : string) (up down : Z) (s : runtimeState) (u : option usage)
  : runtimeState * option usage :=
  let s := currentConfig now ep s in
  let p := policy (config s) in
  if negb (Billable p) || (UserID p <=? 0) then (s, u)
  else
    (s<|config ::= fun c => c<|counters ::= fun b => count b up down|>|>,
     match u with Some u => Some (count_usage u (PeriodKey p) up down) | None => None end).

Definition normalizeCredentialStatus (value : string) : string :=
  let value := ToLower (TrimSpace value) in
  if value =s "" then "active"%string else value.

Definition runtimePositiveDifference (total acknowledged : Z) : Z :=
  if total <=? acknowledged then 0 else total - acknowledged.

Definition runtimeMinInt64 (left right : Z) : Z := if left <? right then left else right.

Definition period_unacknowledged (p : runtimeUsagePeriod) : Z :=
  add64 (runtimePositiveDifference (up_upload p) (up_ackUpload p))
        (runtimePositiveDifference (up_download p) (up_ackDownload p)).

Definition unacknowledged (s : runtimeState) (u : option usage) : Z :=
  match u with
  | Some u => period_unacknowledged (usage_period u (PeriodKey (policy (config s))))
  | None =>
      let c := counters (config s) in
      add64 (runtimePositiveDifference (upload c) (acknowledgedUpload c))
            (runtimePositiveDifference (download c) (acknowledgedDownload c))
  end.

Definition runtimeEffectiveCap (p : RuntimeUserLimit) : Z :=
  if TrafficLimitBytes p <=? 0 then 0
  else
    let capBytes := TrafficLimitBytes p in
    if negb (LeaseEnforced p) then capBytes
    else
      let leaseBytes := if LeaseBytes p <? 0 then 0 else LeaseBytes p in
      let leaseCap := add64 (UsedBaselineBytes p) leaseBytes in
      if leaseCap <? capBytes then leaseCap else capBytes.

Definition runtimeConfigDenied (p : RuntimeUserLimit) (unack : Z) : bool :=
  if negb (normalizeCredentialStatus (CredentialStatus p) =s "active") then true
  else if negb (Billable p) || (UserID p <=? 0) then false
  else if QuotaState p =s "quota_exceeded" then true
  else if TrafficLimitBytes p <=? 0 then false
  else runtimeEffectiveCap p <=? add64 (UsedBaselineBytes p) unack.

(** The verdict with the state after a possible rollover. *)
Definition quotaDeniedFor (now : Time) (ep : string) (admitted : bool) (s : runtimeState) (u : option usage)
  : bool * runtimeState :=
  let s := currentConfig now ep s in
  let p := policy (config s) in
  let status := normalizeCredentialStatus (CredentialStatus p) in
  (if status =s "active" then runtimeConfigDenied p (unacknowledged s u)
   else if status =s "reject_new" then negb admitted
   else true, s).

Record TrafficCounterAcknowledgement := mkAck {
  ack_CounterEpoch : string; ack_PeriodKey : string; ack_Upload : Z; ack_Download : Z
}.

(** The acknowledged value of one counter after a checkpoint. *)
Definition ack_value (checkpoint total previous : Z) : Z :=
  let v := runtimeMinInt64 checkpoint total in
  let v := if v <? 0 then 0 else v in
  if v <? previous then previous else v.

Definition acknowledge (cp : TrafficCounterAcknowledgement) (s : runtimeState) (u : option usage)
  : runtimeState * option usage :=
  let p := policy (config s) in
  let c := counters (config s) in
  if ack_PeriodKey cp =s "" then (s, u)
  else if negb (PeriodKey p =s ack_PeriodKey cp) then (s, u)
  else if negb (ack_CounterEpoch cp =s "") && negb (ack_CounterEpoch cp =s epoch c) then (s, u)
  else
    let up := ack_value (ack_Upload cp) (upload c) (acknowledgedUpload c) in
    let down := ack_value (ack_Download cp) (download c) (acknowledgedDownload c) in
    (s<|config ::= fun cf => cf<|counters := c<|acknowledgedUpload := up|><|acknowledgedDownload := down|>|>|>,
     match u with
     | None => None
     | Some u =>
         let q := usage_period u (ack_PeriodKey cp) in
         Some (<[ack_PeriodKey cp :=
           q<|up_ackUpload ::= fun x => add64 x (sub64 up (acknowledgedUpload c))|>
            <|up_ackDownload ::= fun x => add64 x (sub64 down (acknowledgedDownload c))|>]> u)
     end).

Definition updatePolicy (p : RuntimeUserLimit) (ep : string) (s : runtimeState) : runtimeState :=
  let current := policy (config s) in
  let periodChanged := negb (PeriodKey current =s "") && negb (PeriodKey p =s "") &&
                       negb (PeriodKey current =s PeriodKey p) in
  let reset := periodChanged && ((PreviousPeriodKey p =s "") || negb (PreviousPeriodKey p =s PeriodKey current)) in
  storePolicyLocked s p ep reset.

Record TrafficCounter := mkTrafficCounter {
  tc_Key : string; tc_CounterEpoch : string; tc_User : string; tc_Inbound : string; tc_UserID : Z;
  tc_InboundID : Z; tc_PathID : Z; tc_PeriodKey : string; tc_Upload : Z; tc_Download : Z
}.

Definition state_snapshot (now : Time) (ep : string) (s : runtimeState) : option TrafficCounter * runtimeState :=
  let s := currentConfig now ep s in
  let p := policy (config s) in
  let c := counters (config s) in
  (if (upload c =? 0) && (download c =? 0) then None
   else Some (mkTrafficCounter (rs_key s) (epoch c) (rs_user s) (rs_inbound s) (UserID p) (InboundID p)
                (PathID p) (PeriodKey p) (upload c) (download c)), s).

(** ** Merging policies *)

Definition mergeRuntimeIdentity (current update : RuntimeUserLimit) : RuntimeUserLimit :=
  let current := if negb (AuthorizationKey update =s "") then current<|AuthorizationKey := AuthorizationKey update|> else current in
  let current := if 0 <? UserID update then current<|UserID := UserID update|> else current in
  let current := if 0 <? InboundID update then current<|InboundID := InboundID update|> else current in
  let current := current<|PathID := PathID update|><|DeviceIDHash := DeviceIDHash update|>
                   <|CredentialEpoch := CredentialEpoch update|><|CredentialStatus := CredentialStatus update|> in
  let current := if negb (SpeedLimitMbps update =? 0) then current<|SpeedLimitMbps := SpeedLimitMbps update|> else current in
  let current := if negb (TrafficLimitBytes update =? 0) then current<|TrafficLimitBytes := TrafficLimitBytes update|> else current in
  let current := if negb (LeaseBytes update =? 0) then current<|LeaseBytes := LeaseBytes update|> else current in
  current<|Billable := Billable update || Billable current|>
         <|LeaseEnforced := LeaseEnforced update || LeaseEnforced current|>.

Definition mergeRuntimePolicy (current update : RuntimeUserLimit) : RuntimeUserLimit :=
  update<|InboundID := InboundID current|><|UserID := UserID current|>
        <|AuthorizationKey := AuthorizationKey current|><|DeviceIDHash := DeviceIDHash current|>
        <|CredentialEpoch := CredentialEpoch current|><|CredentialStatus := CredentialStatus current|>
        <|PathID := PathID current|>.

End Policy.

(** ** Operations on one state *)

Inductive state_op :=
| OpTraffic (up down : Z)
| OpAck (cp : TrafficCounterAcknowledgement)
| OpPolicy (p : RuntimeUserLimit)
| OpCurrent.

Section Facts.
Context {TZ : TimeZones}.

Definition run_state_op (su : runtimeState * option usage) (step : Time * string * state_op)
  : runtimeState * option usage :=
  let '(s, u) := su in
  let '(now, ep, op) := step in
  match op with
  | OpTraffic up down => addTraffic now ep up down s u
  | OpAck cp => acknowledge cp s u
  | OpPolicy p => (updatePolicy p ep s, u)
  | OpCurrent => (currentConfig now ep s, u)
  end.

Definition run_state (su : runtimeState * option usage) (ops : list (Time * string * state_op)) :=
  fold_left run_state_op ops su.

Definition op_traffic (step : Time * string * state_op) : Z :=
  match step with (_, _, OpTraffic up down) => Z.max 0 up + Z.max 0 down | _ => 0 end.

Definition traffic_of (ops : list (Time * string * state_op)) : Z :=
  foldr (fun step n => op_traffic step + n) 0 ops.

(** Counters that never exceed [budget] and are acknowledged at most up to
    what was counted. *)
Definition counters_ok (budget : Z) (c : runtimeCounters) : Prop :=
  0 <= acknowledgedUpload c <= upload c /\ 0 <= acknowledgedDownload c <= download c /\
  upload c <= budget /\ download c <= budget.

Lemma add64_small a b : in_int64 (a + b) -> add64 a b = a + b.
Proof. apply wrap64_id. Qed.

Lemma storePolicy_counters s p ep r :
  counters (config (storePolicyLocked s p ep r)) = if r then newRuntimeCounters ep else counters (config s).
Proof. unfold storePolicyLocked. by destruct (newRuntimeLimiters p). Qed.

Lemma storePolicy_policy s p ep r : policy (config (storePolicyLocked s p ep r)) = p.
Proof. unfold storePolicyLocked. by destruct (newRuntimeLimiters p). Qed.

Lemma storePolicy_ok budget s p ep r :
  0 <= budget -> counters_ok budget (counters (config s)) ->
  counters_ok budget (counters (config (storePolicyLocked s p ep r))).
Proof. intros Hb Hc. rewrite storePolicy_counters. destruct r; [| done]. unfold counters_ok. cbn. lia. Qed.

Lemma currentConfig_ok budget now ep s :
  0 <= budget -> counters_ok budget (counters (config s)) ->
  counters_ok budget (counters (config (currentConfig now ep s))).
Proof. intros. unfold currentConfig. destruct (period_over _ _); [by apply storePolicy_ok | done]. Qed.

Lemma count_ok budget c up down :
  counters_ok budget c -> budget + Z.max 0 up + Z.max 0 down <= max_int64 ->
  counters_ok (budget + Z.max 0 up + Z.max 0 down) (count c up down).
Proof.
  intros (Hu & Hd & Hub & Hdb) Hmax. unfold count, counters_ok.
  destruct (Z.ltb_spec 0 up), (Z.ltb_spec 0 down); cbn;
    rewrite ?add64_small by (unfold in_int64, min_int64; lia); lia.
Qed.

Lemma ack_value_range cp total previous :
  0 <= previous <= total -> previous <= ack_value cp total previous <= total.
Proof. intros H. unfold ack_value, runtimeMinInt64. split_ifs; zify_bool; lia. Qed.

Lemma acknowledge_counters cp s u :
  let c := counters (config s) in
  counters (config (fst (acknowledge cp s u))) = c \/
  counters (config (fst (acknowledge cp s u))) =
    c<|acknowledgedUpload := ack_value (ack_Upload cp) (upload c) (acknowledgedUpload c)|>
     <|acknowledgedDownload := ack_value (ack_Download cp) (download c) (acknowledgedDownload c)|>.
Proof.
  cbv zeta. unfold acknowledge. destruct (_ =s ""); [by left |]. destruct (negb _); [by left |].
  destruct (_ && _); [by left |]. by right.
Qed.

Lemma acknowledge_ok budget cp s u :
  counters_ok budget (counters (config s)) ->
  counters_ok budget (counters (config (fst (acknowledge cp s u)))).
Proof.
  intros (Hu & Hd & Hub & Hdb).
  destruct (acknowledge_counters cp s u) as [-> | ->]; [done |]. unfold counters_ok. cbn.
  pose proof (ack_value_range (ack_Upload cp) _ _ Hu).
  pose proof (ack_value_range (ack_Download cp) _ _ Hd). lia.
Qed.

Lemma run_state_op_ok budget su step :
  0 <= budget -> budget + op_traffic step <= max_int64 ->
  counters_ok budget (counters (config (fst su))) ->
  counters_ok (budget + op_traffic step) (counters (config (fst (run_state_op su step)))).
Proof.
  destruct su as [s u], step as [[now ep] [up down | cp | p |]]; cbn [run_state_op op_traffic fst];
    intros Hb Hmax Hc; rewrite ?Z.add_0_r.
  - unfold addTraffic. pose proof (currentConfig_ok budget now ep s Hb Hc) as Hc'.
    set (s' := currentConfig now ep s) in *. destruct (_ || _); cbn [fst].
    + unfold counters_ok in *. lia.
    + rewrite Z.add_assoc. apply (count_ok budget (counters (config s'))); [done | lia].
  - by apply acknowledge_ok.
  - by apply storePolicy_ok.
  - by apply currentConfig_ok.
Qed.

Lemma traffic_of_nonneg ops : 0 <= traffic_of ops.
Proof.
  induction ops as [| step ops IH]; [done |].
  assert (0 <= op_traffic step) by (destruct step as [[] []]; cbn; lia).
  cbn [traffic_of foldr]. fold (traffic_of ops). lia.
Qed.

Lemma run_state_ok budget su ops :
  0 <= budget -> budget + traffic_of ops <= max_int64 ->
  counters_ok budget (counters (config (fst su))) ->
  counters_ok (budget + traffic_of ops) (counters (config (fst (run_state su ops)))).
Proof.
  revert budget su. induction ops as [| step ops IH]; intros budget su Hb Hmax Hc.
  { cbn. by rewrite Z.add_0_r. }
  cbn [traffic_of foldr] in *. fold (traffic_of ops) in *.
  assert (0 <= op_traffic step) by (destruct step as [[] []]; cbn; lia).
  pose proof (traffic_of_nonneg ops). rewrite Z.add_assoc in *. cbn [run_state fold_left].
  apply (IH (budget + op_traffic step)); [lia | lia |]. apply run_state_op_ok; done || lia.
Qed.

(** ** Verdicts *)

(** Counters and baseline that leave room for [up + down] more bytes. *)
Definition room (s : runtimeState) (u : option usage) (up down : Z) : Prop :=
  0 <= UsedBaselineBytes (policy (config s)) /\
  match u with
  | None => exists b, counters_ok b (counters (config s)) /\ 0 <= b /\
      UsedBaselineBytes (policy (config s)) + 2 * b + up + down <= max_int64
  | Some u => let q := usage_period u (PeriodKey (policy (config s))) in
      0 <= up_upload q /\ 0 <= up_download q /\ 0 <= up_ackUpload q /\ 0 <= up_ackDownload q /\
      UsedBaselineBytes (policy (config s)) + up_upload q + up_download q + up + down <= max_int64
  end.

Lemma positive_difference_bounds t a : 0 <= a -> 0 <= runtimePositiveDifference t a <= Z.max 0 t.
Proof. unfold runtimePositiveDifference. split_ifs; zify_bool; lia. Qed.

Lemma positive_difference_mono t a n : 0 <= n -> runtimePositiveDifference t a <= runtimePositiveDifference (t + n) a.
Proof. unfold runtimePositiveDifference. split_ifs; zify_bool; lia. Qed.

(** The sum of two differences, before and after [up] and [down] bytes. *)
Lemma differences_mono base t1 a1 t2 a2 up down :
  0 <= base -> 0 <= t1 -> 0 <= a1 -> 0 <= t2 -> 0 <= a2 -> 0 <= up -> 0 <= down ->
  base + t1 + t2 + up + down <= max_int64 ->
  let sum t1 t2 := add64 (runtimePositiveDifference t1 a1) (runtimePositiveDifference t2 a2) in
  0 <= sum t1 t2 <= sum (t1 + up) (t2 + down) /\ base + sum (t1 + up) (t2 + down) <= max_int64.
Proof.
  cbv zeta beta. intros.
  pose proof (positive_difference_bounds t1 a1). pose proof (positive_difference_bounds t2 a2).
  pose proof (positive_difference_bounds (t1 + up) a1). pose proof (positive_difference_bounds (t2 + down) a2).
  pose proof (positive_difference_mono t1 a1 up). pose proof (positive_difference_mono t2 a2 down).
  rewrite !add64_small by (unfold in_int64, min_int64; lia). lia.
Qed.

Lemma count_fields c up down :
  0 <= up -> 0 <= down -> 0 <= upload c -> 0 <= download c ->
  upload c + up <= max_int64 -> download c + down <= max_int64 ->
  count c up down = mkCounters (epoch c) (upload c + up) (download c + down)
    (acknowledgedUpload c) (acknowledgedDownload c).
Proof.
  intros. unfold count. destruct c as [e u d au ad]; cbn in *.
  destruct (Z.ltb_spec 0 up), (Z.ltb_spec 0 down); unfold upd; cbn;
    rewrite ?add64_small by (unfold in_int64, min_int64, max_int64 in *; lia); f_equal; lia.
Qed.

Lemma count_period_fields q up down :
  0 <= up -> 0 <= down -> 0 <= up_upload q -> 0 <= up_download q ->
  up_upload q + up <= max_int64 -> up_download q + down <= max_int64 ->
  count_period q up down = mkPeriod (up_upload q + up) (up_download q + down) (up_ackUpload q) (up_ackDownload q).
Proof.
  intros. unfold count_period. destruct q as [u d au ad]; cbn in *.
  destruct (Z.ltb_spec 0 up), (Z.ltb_spec 0 down); unfold upd; cbn;
    rewrite ?add64_small by (unfold in_int64, min_int64, max_int64 in *; lia); f_equal; lia.
Qed.

Lemma usage_period_count u k up down :
  usage_period (count_usage u k up down) k = count_period (usage_period u k) up down.
Proof.
  change (default (mkPeriod 0 0 0 0) (count_usage u k up down !! k) = count_period (usage_period u k) up down).
  unfold count_usage. by rewrite lookup_insert_eq.
Qed.

(** Traffic inside a period never lowers the unacknowledged bytes. *)
Lemma traffic_unacknowledged s u up down :
  0 <= up -> 0 <= down -> room s u up down ->
  let s' := s<|config ::= fun c => c<|counters ::= fun b => count b up down|>|> in
  let u' := match u with Some u => Some (count_usage u (PeriodKey (policy (config s))) up down) | None => None end in
  0 <= unacknowledged s u <= unacknowledged s' u' /\
  UsedBaselineBytes (policy (config s)) + unacknowledged s' u' <= max_int64.
Proof.
  intros Hup Hdown [Hbase Hroom]. cbv zeta. unfold unacknowledged. destruct u as [u |].
  - destruct Hroom as (H1 & H2 & H3 & H4 & H5).
    match goal with |- context [usage_period (count_usage _ ?k _ _) ?k'] => change k' with k end.
    rewrite usage_period_count. set (q := usage_period u _) in *. rewrite count_period_fields by lia.
    by apply differences_mono.
  - destruct Hroom as (b & (H1 & H2 & H3 & H4) & Hb & H5). cbn [counters config upd].
    rewrite count_fields by lia. cbn [upload download acknowledgedUpload acknowledgedDownload].
    apply differences_mono; lia.
Qed.

(** The verdict of a policy only gets stricter as unacknowledged bytes grow. *)
Lemma runtimeConfigDenied_mono p n n' :
  0 <= UsedBaselineBytes p -> 0 <= n <= n' -> UsedBaselineBytes p + n' <= max_int64 ->
  runtimeConfigDenied p n = true -> runtimeConfigDenied p n' = true.
Proof.
  intros Hb Hn Hmax. unfold runtimeConfigDenied. destruct (negb _); [done |]. destruct (_ || _); [done |].
  destruct (_ =s _); [done |]. destruct (_ <=? 0); [done |].
  rewrite !add64_small by (unfold in_int64, min_int64; lia). intros H. zify_bool. lia.
Qed.

Lemma addTraffic_policy now ep up down s u :
  policy (config (fst (addTraffic now ep up down s u))) = policy (config (currentConfig now ep s)).
Proof. unfold addTraffic. by destruct (_ || _). Qed.

Lemma currentConfig_id now ep s : period_over now (policy (config s)) = false -> currentConfig now ep s = s.
Proof. intros H. unfold currentConfig. by rewrite H. Qed.


(** Inside a period, traffic never lifts a denial: a state that refuses a
    connection for its quota still refuses it after any further upload and
    download, whether its usage is its own or shared with the other states of
    its user. *)
Theorem traffic_never_lifts_denial now ep ep' ep'' adm up down s u :
  period_over now (policy (config s)) = false -> 0 <= up -> 0 <= down -> room s u up down ->
  fst (quotaDeniedFor now ep adm s u) = true ->
  let '(s', u') := addTraffic now ep' up down s u in
  fst (quotaDeniedFor now ep'' adm s' u') = true.
Proof.
  intros Hover Hup Hdown Hroom. pose proof (traffic_unacknowledged s u up down Hup Hdown Hroom) as Hmono.
  destruct Hroom as [Hbase _].
  pose proof (addTraffic_policy now ep' up down s u) as Hp. unfold quotaDeniedFor.
  rewrite (currentConfig_id now ep s Hover). rewrite (currentConfig_id now ep' s Hover) in Hp.
  destruct (addTraffic now ep' up down s u) as [s' u'] eqn:Ea. cbn [fst] in *.
  rewrite (currentConfig_id now ep'' s') by (by rewrite Hp). rewrite Hp.
  destruct (_ =s "active"); [| done]. revert Ea. unfold addTraffic.
  rewrite (currentConfig_id now ep' s Hover). destruct (_ || _) eqn:Eb.
  - intros [= <- <-]. done.
  - intros [= <- <-]. destruct Hmono as [Hm Hx]. by apply runtimeConfigDenied_mono.
Qed.


(** A credential with status reject_new keeps its admitted connections
    whatever the quota says: unlike what the comment of [quotaDeniedFor]
    promises, exhaustion does not close their traffic. *)
Theorem reject_new_ignores_quota now ep admitted s u :
  period_over now (policy (config s)) = false ->
  normalizeCredentialStatus (CredentialStatus (policy (config s))) = "reject_new"%string ->
  fst (quotaDeniedFor now ep admitted s u) = negb admitted.
Proof.
  intros Hover Hs. unfold quotaDeniedFor. rewrite (currentConfig_id now ep s Hover), Hs. done.
Qed.

End Facts.

(** ** Witnesses *)

Section Samples.
#[local] Instance no_zones : TimeZones := fun _ => None.

Definition sample_policy : RuntimeUserLimit :=
  zero_limit<|UserID := 7|><|Billable := true|><|TrafficLimitBytes := 1000|>
    <|PeriodKey := "2024-01-01"%string|><|PeriodEnd := "2024-01-31T16:00:00Z"%string|>
    <|ResetMode := "month"%string|>.
Definition sample_state : runtimeState := newRuntimeState "user:a" "a" "" sample_policy "ce".
Definition in_january : Time := date_utc 2024 1 10 0 0 0 0.
Definition in_march : Time := date_utc 2024 3 10 0 0 0 0.


(** The sample state once it has used up its limit. *)
Definition sample_full : runtimeState * option usage := addTraffic in_january "x" 1000 0 sample_state (Some ∅).

Lemma traffic_never_lifts_denial_witness :
  let '(s', u') := addTraffic in_january "x" 5 6 (fst sample_full) (snd sample_full) in
  fst (quotaDeniedFor in_january "x" true s' u') = true.
Proof.
  assert (period_over in_january (policy (config (fst sample_full))) = false) as H1 by by_compute.
  assert (room (fst sample_full) (snd sample_full) 5 6) as H2 by by_compute.
  assert (fst (quotaDeniedFor in_january "x" true (fst sample_full) (snd sample_full)) = true) as H3 by by_compute.
  exact (traffic_never_lifts_denial in_january "x" "x" "x" true 5 6 (fst sample_full) (snd sample_full)
    H1 ltac:(lia) ltac:(lia) H2 H3).
Defined.


Lemma reject_new_ignores_quota_witness :
  fst (quotaDeniedFor in_january "x" true
    (newRuntimeState "user:a" "a" ""
       (sample_policy<|CredentialStatus := "reject_new"%string|><|QuotaState := "quota_exceeded"%string|>) "ce") None)
  = false.
Proof. apply (reject_new_ignores_quota in_january "x" true); by_compute. Defined.

(** When a policy moves a state to a new period and carries its counters
    over, acknowledging the carried bytes makes the user's shared usage of the
    new period acknowledge more than it counted: here 900 bytes that follow are
    counted by the state but missing from the bytes its quota is checked with. *)
Theorem period_migration_hides_traffic :
  let moved := sample_policy<|PeriodKey := "b"%string|><|PreviousPeriodKey := "2024-01-01"%string|> in
  let '(s, u) := run_state (sample_state, Some ∅)
    [(in_january, "x"%string, OpTraffic 900 0); (in_january, "x"%string, OpPolicy moved);
     (in_january, "x"%string, OpTraffic 100 0); (in_january, "x"%string, OpAck (mkAck "" "b" 1000 0));
     (in_january, "x"%string, OpTraffic 900 0)] in
  let c := counters (config s) in
  upload c - acknowledgedUpload c = 900 /\ unacknowledged s u = 0.
Proof. vm_compute. split; reflexivity. Qed.

End Samples.
