(* ===== verification/Tracker.v ===== *)
(** * Tracker: connections of the kernel and their authorization

    Model of [RateLimitTracker] in kernel/oboard-sb/internal/minibox
    (ratelimit.go, authorization.go, snell_admission.go): the runtime states
    of users and inbounds, the live connections with their indexes by user
    and by credential, the Snell parent connections, and the operations that
    admit, account and close them.

    Objects the code shares by pointer live in heaps: runtime states in
    [t_heap], per-user usage in [t_usages], connections in the two indexes,
    Snell parents in [t_parents]. The code iterates over Go maps in an
    unspecified order; the model iterates in the order of [elements]. One call
    reads the clock once, and the epoch of the counters of the state at
    address [a] is [ev_epoch ev a]. The calls an operation makes on the audit
    log, the socket governor and the sockets are recorded in [t_log]. *)

From S2P Require Import Prelude GoTime Stealth Files Json Authorization Window Quota.

Record connectionIdentity := mkIdentity {
  authorizationKey : string; credentialEpoch : Z; userID : Z
}.

Inductive net := TCP | UDP.

#[export] Instance net_eq_dec : EqDecision net.
Proof. solve_decision. Defined.

(** [trackedConn] and [trackedPacketConn]. *)
Record trackedConn := mkConn {
  c_state : nat; c_identity : connectionIdentity; c_admitted : bool; c_auditKey : string; c_closed : bool
}.

#[export] Instance eta_trackedConn : Eta trackedConn := fun c =>
  mkConn (c_state c) (c_identity c) (c_admitted c) (c_auditKey c) (c_closed c).

(** The connections of one kind, with [active] and [byCredential]. *)
Record index := mkIndex {
  ix_conns : gmap nat trackedConn;
  ix_active : gmap string (gset nat);
  ix_byCredential : gmap string (gset nat)
}.

#[export] Instance eta_index : Eta index := fun ix =>
  mkIndex (ix_conns ix) (ix_active ix) (ix_byCredential ix).

Record parentConn := mkParent {
  p_state : option nat; p_identity : connectionIdentity; p_closed : bool; p_authScope : string;
  p_credential : bytes
}.

#[export] Instance eta_parentConn : Eta parentConn := fun p =>
  mkParent (p_state p) (p_identity p) (p_closed p) (p_authScope p) (p_credential p).

Record snellIdentity := mkSnell { sn_authorizationKey : string; sn_credential : bytes }.

(** A runtime state with its [usage] pointer. *)
Record cell := mkCell { cell_state : runtimeState; cell_usage : option nat }.

#[export] Instance eta_cell : Eta cell := fun c => mkCell (cell_state c) (cell_usage c).

Inductive effect :=
| AuditStart (n : net) (admitted : bool)
| AuditEnd (auditKey : string)
| AuditPayload (auditKey : string) (up down : Z)
| ActivityRecord (id : nat) (up down : Z)
| ObserveConnections (active : Z)
| CloseSocket (n : net) (id : nat)
| CloseParent (id : nat).

Record tracker := mkTracker {
  t_auth : Store;
  t_disk : disk;
  t_heap : gmap nat cell;
  t_states : gmap string nat;
  t_usages : gmap nat usage;
  t_tcp : index;
  t_udp : index;
  t_activeTCP : Z;
  t_auditEnabled : bool;
  t_usersFailed : bool;
  t_parents : gmap nat parentConn;
  t_snellParents : gset nat;
  t_snellUsers : gmap string snellIdentity;
  t_snellRetired : gset string;
  t_next : nat;
  t_log : list effect
}.

#[export] Instance eta_tracker : Eta tracker := fun t =>
  mkTracker (t_auth t) (t_disk t) (t_heap t) (t_states t) (t_usages t) (t_tcp t) (t_udp t) (t_activeTCP t)
    (t_auditEnabled t) (t_usersFailed t) (t_parents t) (t_snellParents t) (t_snellUsers t) (t_snellRetired t)
    (t_next t) (t_log t).

(** What one call reads from its surroundings. *)
Record Event := mkEvent { ev_env : Env; ev_epoch : nat -> string }.
Definition ev_now (ev : Event) : Time := env_now (ev_env ev).

Definition emit (x : effect) (t : tracker) : tracker := t<|t_log ::= fun l => x :: l|>.

Definition the_index (n : net) (t : tracker) : index := match n with TCP => t_tcp t | UDP => t_udp t end.
Definition with_index (n : net) (f : index -> index) (t : tracker) : tracker :=
  match n with TCP => t<|t_tcp ::= f|> | UDP => t<|t_udp ::= f|> end.

(** ** Verdicts *)

Section Tracker.
Context {A : AEAD} {CL : Codec Lease} {CD : Codec (gmap string deniedEntry)} {TZ : TimeZones}.

(** [Store.Allows]: loading is memoised, so only the answer matters here. *)
Definition Allows (t : tracker) (key : string) (now : Time) : bool :=
  fst (store_Allows (t_auth t) (t_disk t) key now).

Definition state_identity (s : runtimeState) : connectionIdentity :=
  let p := policy (config s) in mkIdentity (AuthorizationKey p) (CredentialEpoch p) (UserID p).

Definition authorizationRevokedFor (t : tracker) (now : Time) (s : runtimeState) (id : connectionIdentity) : bool :=
  let p := policy (config s) in
  if (UserID p <=? 0) && (AuthorizationKey p =s "") && (authorizationKey id =s "") then false
  else
    let key := if authorizationKey id =s "" then AuthorizationKey p else authorizationKey id in
    if negb (Allows t key now) then true
    else negb (authorizationKey id =s "") && negb (AuthorizationKey p =s "") &&
         (negb (authorizationKey id =s AuthorizationKey p) ||
          ((0 <? credentialEpoch id) && (0 <? CredentialEpoch p) &&
           negb (credentialEpoch id =? CredentialEpoch p))).

Definition cell_usage_of (t : tracker) (c : cell) : option usage :=
  match cell_usage c with Some u => Some (default ∅ (t_usages t !! u)) | None => None end.

Definition put_state (a : nat) (s : runtimeState) (t : tracker) : tracker :=
  t<|t_heap ::= alter (fun c => c<|cell_state := s|>) a|>.

Definition put_usage (c : cell) (u : option usage) (t : tracker) : tracker :=
  match cell_usage c, u with
  | Some r, Some u => t<|t_usages ::= <[r := u]>|>
  | _, _ => t
  end.

(** [state.currentConfig()] for the state at [a]. *)
Definition refresh (ev : Event) (a : nat) (t : tracker) : tracker :=
  match t_heap t !! a with
  | None => t
  | Some c => put_state a (currentConfig (ev_now ev) (ev_epoch ev a) (cell_state c)) t
  end.

(** [runtimeState.denied]. *)
Definition state_denied (ev : Event) (a : nat) (t : tracker) : bool * tracker :=
  match t_heap t !! a with
  | None => (true, t)
  | Some c =>
      if authorizationRevokedFor t (ev_now ev) (cell_state c) (state_identity (cell_state c)) then (true, t)
      else
        let s := currentConfig (ev_now ev) (ev_epoch ev a) (cell_state c) in
        (runtimeConfigDenied (policy (config s)) (unacknowledged s (cell_usage_of t c)), put_state a s t)
  end.

(** [quotaDeniedFor] for the state at [a]. *)
Definition quota_denied (ev : Event) (admitted : bool) (a : nat) (t : tracker) : bool * tracker :=
  match t_heap t !! a with
  | None => (false, t)
  | Some c =>
      let '(b, s) := quotaDeniedFor (ev_now ev) (ev_epoch ev a) admitted (cell_state c) (cell_usage_of t c) in
      (b, put_state a s t)
  end.

(** [authorizationRevokedFor(identity) || quotaDeniedFor(admitted)]. *)
Definition deny_identity (ev : Event) (a : nat) (id : connectionIdentity) (admitted : bool) (t : tracker)
  : bool * tracker :=
  match t_heap t !! a with
  | None => (false, t)
  | Some c =>
      if authorizationRevokedFor t (ev_now ev) (cell_state c) id then (true, t)
      else quota_denied ev admitted a t
  end.

Definition conn_deny (ev : Event) (c : trackedConn) (t : tracker) : bool * tracker :=
  deny_identity ev (c_state c) (c_identity c) (c_admitted c) t.

(** ** The connection indexes *)

Definition add_to (m : gmap string (gset nat)) (k : string) (id : nat) : gmap string (gset nat) :=
  <[k := {[id]} ∪ default ∅ (m !! k)]> m.

(** An emptied set is removed from its map. *)
Definition remove_from (m : gmap string (gset nat)) (k : string) (id : nat) : gmap string (gset nat) :=
  let s := default ∅ (m !! k) ∖ {[id]} in
  if decide (s = ∅) then delete k m else <[k := s]> m.

Definition index_add (key : string) (id : nat) (c : trackedConn) (ix : index) : index :=
  let cred := authorizationKey (c_identity c) in
  let ix := ix<|ix_active ::= fun m => add_to m key id|> in
  if cred =s "" then ix else ix<|ix_byCredential ::= fun m => add_to m cred id|>.

Definition index_remove (key : string) (id : nat) (c : trackedConn) (ix : index) : index :=
  let cred := authorizationKey (c_identity c) in
  let ix := ix<|ix_active ::= fun m => remove_from m key id|> in
  if cred =s "" then ix else ix<|ix_byCredential ::= fun m => remove_from m cred id|>.

Definition state_key (t : tracker) (a : nat) : string :=
  match t_heap t !! a with Some c => rs_key (cell_state c) | None => ""%string end.

(** [unregisterConn] and [unregisterPacketConn]. *)
Definition unregisterConn (n : net) (key : string) (id : nat) (c : trackedConn) (t : tracker) : tracker :=
  let t := with_index n (index_remove key id c) t in
  match n with
  | UDP => t
  | TCP =>
      let active := t_activeTCP t - 1 in
      let active := if active <? 0 then 0 else active in
      emit (ObserveConnections active) (t<|t_activeTCP := active|>)
  end.

(** [Close]: the bookkeeping runs once, the socket is closed every time. *)
Definition closeConn (n : net) (id : nat) (t : tracker) : tracker :=
  match ix_conns (the_index n t) !! id with
  | None => t
  | Some c =>
      let t :=
        if c_closed c then t
        else
          let t := with_index n (fun ix => ix<|ix_conns ::= <[id := c<|c_closed := true|>]>|>) t in
          let t := emit (AuditEnd (c_auditKey c)) t in
          unregisterConn n (state_key t (c_state c)) id c t in
      emit (CloseSocket n id) t
  end.

Definition close_if (n : net) (id : nat) (bt : bool * tracker) : tracker :=
  if fst bt then closeConn n id (snd bt) else snd bt.

(** [registerConn] and [registerPacketConn]. *)
Definition registerConn (ev : Event) (n : net) (key : string) (id : nat) (c : trackedConn) (t : tracker) : tracker :=
  if key =s "" then t
  else
    let t := with_index n (index_add key id c) t in
    let t := match n with
             | UDP => t
             | TCP => emit (ObserveConnections (t_activeTCP t + 1)) (t<|t_activeTCP ::= fun x => x + 1|>)
             end in
    close_if n id (conn_deny ev c t).

Definition stateForKey (t : tracker) (key : string) : option nat :=
  if key =s "" then None else t_states t !! key.

Definition runtimeFor (t : tracker) (inbound user : string) : option nat :=
  match (if user =s "" then None else stateForKey t ("user:" +:+ user)) with
  | Some a => Some a
  | None => if inbound =s "" then None else stateForKey t ("inbound:" +:+ inbound)
  end.

(** [RoutedConnection] and [RoutedPacketConnection]: the new connection, or
    [None] when the connection is handed back untracked. *)
Definition RoutedConnection (ev : Event) (n : net) (inbound user auditKey : string) (t : tracker)
  : option nat * tracker :=
  match runtimeFor t inbound user with
  | None => (None, t)
  | Some a =>
      let t := refresh ev a t in
      match t_heap t !! a with
      | None => (None, t)
      | Some c =>
          let cfg := config (cell_state c) in
          if bool_decide (readLimiter cfg = None) && bool_decide (writeLimiter cfg = None) && negb (Billable (policy cfg))
          then (None, t)
          else
            let '(denied, t) := state_denied ev a t in
            let id := t_next t in
            let conn := mkConn a (state_identity (cell_state c)) (negb denied) auditKey false in
            let t := emit (AuditStart n (negb denied)) (t<|t_next ::= S|>) in
            let t := with_index n (fun ix => ix<|ix_conns ::= <[id := conn]>|>) t in
            let t := registerConn ev n (rs_key (cell_state c)) id conn t in
            (Some id, close_if n id (conn_deny ev conn t))
      end
  end.

(** ** Traffic *)

(** [runtimeState.addTraffic] for the state at [a]. *)
Definition state_addTraffic (ev : Event) (a : nat) (up down : Z) (t : tracker) : tracker :=
  match t_heap t !! a with
  | None => t
  | Some c =>
      let '(s, u) := addTraffic (ev_now ev) (ev_epoch ev a) up down (cell_state c) (cell_usage_of t c) in
      put_usage c u (put_state a s t)
  end.

(** [trackedConn.addTraffic]: activity, quota and audit of one payload. The
    activity condition reads the current configuration only once the audit is
    enabled and the connection was admitted. *)
Definition conn_addTraffic (ev : Event) (id : nat) (c : trackedConn) (up down : Z) (t : tracker) : tracker :=
  let t :=
    if t_auditEnabled t && c_admitted c then
      let t := refresh ev (c_state c) t in
      match t_heap t !! c_state c with
      | Some x =>
          if Billable (policy (config (cell_state x))) && (0 <=? up) && (0 <=? down)
          then emit (ActivityRecord id up down) t else t
      | None => t
      end
    else t in
  let t := state_addTraffic ev (c_state c) up down t in
  emit (AuditPayload (c_auditKey c) up down) t.

Inductive io_error := QuotaExceeded | IOFailed | WaitFailed | ErrShortWrite.

Definition current_limiter (sel : runtimeConfig -> option limiter) (ev : Event) (a : nat) (t : tracker)
  : option limiter * tracker :=
  let t := refresh ev a t in
  (match t_heap t !! a with Some x => sel (config (cell_state x)) | None => None end, t).

(** What the underlying connection and the limiter answer to one transfer. *)
Record transfer := mkTransfer { tr_n : Z; tr_err : bool; tr_waitErr : bool }.

(** [trackedConn.Read]: [r] is the answer to the read of at most the buffer. *)
Definition conn_Read (ev : Event) (id : nat) (c : trackedConn) (r : transfer) (t : tracker)
  : (Z * option io_error) * tracker :=
  let '(d, t) := conn_deny ev c t in
  if d then ((0, Some QuotaExceeded), t)
  else
    let '(_, t) := current_limiter readLimiter ev (c_state c) t in
    let err := if tr_err r then Some IOFailed else None in
    if tr_n r <=? 0 then ((tr_n r, err), t)
    else
      let '(lim, t) := current_limiter readLimiter ev (c_state c) t in
      let err := match err, lim with
                 | None, Some _ => if tr_waitErr r then Some WaitFailed else None
                 | _, _ => err
                 end in
      let t := conn_addTraffic ev id c (tr_n r) 0 t in
      ((tr_n r, err), close_if TCP id (conn_deny ev c t)).

(** The chunk loop of [trackedConn.Write] under a limiter: [rs] are the
    answers to the chunks in order, [size] the bytes left to write. Each
    iteration consumes an answer; [None] for the error means that the loop
    wrote everything. *)
Fixpoint write_chunks (ev : Event) (id : nat) (c : trackedConn) (rs : list transfer) (total size : Z) (t : tracker)
  : (Z * option io_error) * tracker :=
  if size <=? 0 then ((total, None), t)
  else
    match rs with
    | [] => ((total, Some WaitFailed), t)
    | r :: rs' =>
        let chunkSize := Z.min rateLimitIOChunk size in
        if tr_waitErr r then ((total, Some WaitFailed), t)
        else
          let t := if 0 <? tr_n r then conn_addTraffic ev id c 0 (tr_n r) t else t in
          let total := total + tr_n r in
          if tr_err r then ((total, Some IOFailed), t)
          else if negb (tr_n r =? chunkSize) then ((total, Some ErrShortWrite), t)
          else write_chunks ev id c rs' total (size - chunkSize) t
    end.

Definition conn_Write (ev : Event) (id : nat) (c : trackedConn) (size : Z) (rs : list transfer) (t : tracker)
  : (Z * option io_error) * tracker :=
  let '(d, t) := conn_deny ev c t in
  if d then ((0, Some QuotaExceeded), t)
  else
    let '(lim, t) := current_limiter writeLimiter ev (c_state c) t in
    match lim with
    | None =>
        match rs with
        | [] => ((0, Some IOFailed), t)
        | r :: _ =>
            let err := if tr_err r then Some IOFailed else None in
            if tr_n r <=? 0 then ((tr_n r, err), t)
            else
              let t := conn_addTraffic ev id c 0 (tr_n r) t in
              ((tr_n r, err), close_if TCP id (conn_deny ev c t))
        end
    | Some _ =>
        match write_chunks ev id c rs 0 size t with
        | ((total, Some e), t) => ((total, Some e), t)
        | ((total, None), t) => ((total, None), close_if TCP id (conn_deny ev c t))
        end
    end.

(** [ReadBuffer]: unlike [Read], a failed wait returns before the bytes are
    accounted. *)
Definition ReadBuffer (ev : Event) (id : nat) (c : trackedConn) (r : transfer) (t : tracker)
  : option io_error * tracker :=
  let '(d, t) := conn_deny ev c t in
  if d then (Some QuotaExceeded, t)
  else
    let err := if tr_err r then Some IOFailed else None in
    if tr_n r <=? 0 then (err, t)
    else
      let '(lim, t) := current_limiter readLimiter ev (c_state c) t in
      if bool_decide (is_Some lim) && tr_waitErr r && negb (tr_err r) then (Some WaitFailed, t)
      else
        let t := conn_addTraffic ev id c (tr_n r) 0 t in
        (err, close_if TCP id (conn_deny ev c t)).

(** The loop of [WriteBuffer]: whole chunks while more than one is left, each
    consuming an answer; the last answer belongs to the final write. *)
Fixpoint buffer_chunks (ev : Event) (id : nat) (c : trackedConn) (rs : list transfer) (len : Z) (t : tracker)
  : option io_error * tracker :=
  match rs with
  | [] => (Some WaitFailed, t)
  | r :: rs' =>
      if tr_waitErr r then (Some WaitFailed, t)
      else
        let t := if 0 <? tr_n r then conn_addTraffic ev id c 0 (tr_n r) t else t in
        if rateLimitIOChunk <? len then
          if tr_err r then (Some IOFailed, t)
          else if negb (tr_n r =? rateLimitIOChunk) then (Some ErrShortWrite, t)
          else buffer_chunks ev id c rs' (len - tr_n r) t
        else (if tr_err r then Some IOFailed else None, close_if TCP id (conn_deny ev c t))
  end.

Definition WriteBuffer (ev : Event) (id : nat) (c : trackedConn) (len : Z) (rs : list transfer) (t : tracker)
  : option io_error * tracker :=
  let '(d, t) := conn_deny ev c t in
  if d then (Some QuotaExceeded, t)
  else if len =? 0 then (match rs with r :: _ => if tr_err r then Some IOFailed else None | [] => None end, t)
  else
    let '(lim, t) := current_limiter writeLimiter ev (c_state c) t in
    match lim with
    | Some _ => buffer_chunks ev id c rs len t
    | None =>
        match rs with
        | [] => (Some IOFailed, t)
        | r :: _ =>
            let err := if tr_err r then Some IOFailed else None in
            if tr_n r <=? 0 then (err, t)
            else (err, let t := conn_addTraffic ev id c 0 (tr_n r) t in close_if TCP id (conn_deny ev c t))
        end
    end.

(** The callbacks of [trackedCounterConn]. *)
Definition count_transfer (ev : Event) (id : nat) (c : trackedConn) (up down : Z) (t : tracker) : tracker :=
  let t := conn_addTraffic ev id c up down t in close_if TCP id (conn_deny ev c t).

Definition countUpload (ev : Event) (id : nat) (c : trackedConn) (n : Z) (t : tracker) : tracker :=
  if n <=? 0 then t else count_transfer ev id c n 0 t.

Definition countDownload (ev : Event) (id : nat) (c : trackedConn) (n : Z) (t : tracker) : tracker :=
  if n <=? 0 then t else count_transfer ev id c 0 n t.

(** [ReadPacket]: [tr_n] is the length of the packet, [tr_waitErr] that the
    limiter does not allow it; the packet is then dropped. The first component
    is the number of bytes handed to the caller. *)
Definition ReadPacket (ev : Event) (id : nat) (c : trackedConn) (r : transfer) (t : tracker)
  : (Z * option io_error) * tracker :=
  let '(d, t) := conn_deny ev c t in
  if d then ((0, Some QuotaExceeded), t)
  else if tr_err r then ((tr_n r, Some IOFailed), t)
  else if tr_n r <=? 0 then ((tr_n r, None), t)
  else
    let '(lim, t) := current_limiter readLimiter ev (c_state c) t in
    if bool_decide (is_Some lim) && tr_waitErr r then ((0, None), t)
    else
      let t := conn_addTraffic ev id c (tr_n r) 0 t in
      ((tr_n r, None), close_if UDP id (conn_deny ev c t)).

(** [WritePacket] of [size] bytes: the first component is whether the packet
    was sent. *)
Definition WritePacket (ev : Event) (id : nat) (c : trackedConn) (size : Z) (r : transfer) (t : tracker)
  : (bool * option io_error) * tracker :=
  let '(d, t) := conn_deny ev c t in
  if d then ((false, Some QuotaExceeded), t)
  else
    let '(lim, t) := if 0 <? size then current_limiter writeLimiter ev (c_state c) t else (None, t) in
    if bool_decide (is_Some lim) && tr_waitErr r then ((false, None), t)
    else if tr_err r then ((false, Some IOFailed), t)
    else if 0 <? size then
      let t := conn_addTraffic ev id c 0 size t in
      ((true, None), close_if UDP id (conn_deny ev c t))
    else ((true, None), t).

(** The reservations [waitBytes] asks of a limiter, in order; every one takes
    at least a byte, so [n] of them are enough. *)
Fixpoint wait_chunks (fuel : nat) (burst n : Z) : list Z :=
  match fuel with
  | O => []
  | S fuel =>
      if n <=? 0 then []
      else let chunk := if burst <? n then burst else n in chunk :: wait_chunks fuel burst (n - chunk)
  end.

Definition waitBytes (burst n : Z) : list Z :=
  let burst := if burst <=? 0 then 1 else burst in
  wait_chunks (Z.to_nat n) burst n.

(** ** Snell parents *)

(** [parentConn.Close]. *)
Definition closeParent (id : nat) (t : tracker) : tracker :=
  match t_parents t !! id with
  | None => t
  | Some p =>
      emit (CloseParent id)
        (if p_closed p then t
         else t<|t_parents ::= <[id := p<|p_closed := true|>]>|><|t_snellParents ::= fun s => s ∖ {[id]}|>)
  end.

(** [WrapParent]. *)
Definition WrapParent (t : tracker) : nat * tracker :=
  let id := t_next t in
  (id, t<|t_next ::= S|><|t_parents ::= <[id := mkParent None (mkIdentity "" 0 0) false "" []]>|>).

Definition nul : string := String (byte_of 0) EmptyString.
Definition snell_scope (inbound user : string) : string := inbound +:+ nul +:+ user.

Definition idle (t : tracker) (key : string) (a : nat) : bool :=
  bool_decide (default ∅ (ix_active (t_tcp t) !! key) = ∅) &&
  bool_decide (default ∅ (ix_active (t_udp t) !! key) = ∅) &&
  forallb (fun id => match t_parents t !! id with Some p => negb (bool_decide (p_state p = Some a)) | None => true end)
    (elements (t_snellParents t)).

Definition fully_acknowledged (s : runtimeState) : bool :=
  let c := counters (config s) in
  (upload c =? acknowledgedUpload c) && (download c =? acknowledgedDownload c).

(** One iteration of [pruneSnellCounters]. *)
Definition prune_one (t : tracker) (key : string) : tracker :=
  match t_states t !! key with
  | None => t<|t_snellRetired ::= fun s => s ∖ {[key]}|>
  | Some a =>
      match t_heap t !! a with
      | None => t
      | Some c =>
          if idle t key a && fully_acknowledged (cell_state c)
          then t<|t_states ::= delete key|><|t_snellRetired ::= fun s => s ∖ {[key]}|>
          else t
      end
  end.

Definition pruneSnellCounters (t : tracker) : tracker :=
  fold_left prune_one (elements (t_snellRetired t)) t.

(** Whether [reapSnellParents] closes a parent; the quota test may roll the
    policy of its state over. *)
Definition parent_stale (ev : Event) (force : bool) (p : parentConn) (t : tracker) : bool * tracker :=
  let installed := t_snellUsers t !! p_authScope p in
  if force || match installed with
              | None => true
              | Some s => negb (bool_decide (sn_credential s = p_credential p))
              end
  then (true, t)
  else match p_state p with
       | None => (false, t)
       | Some a => deny_identity ev a (p_identity p) true t
       end.

Definition collect_stale (ev : Event) (force : bool) (acc : list nat * tracker) (id : nat) : list nat * tracker :=
  let '(closing, t) := acc in
  match t_parents t !! id with
  | None => (closing, t)
  | Some p => let '(b, t) := parent_stale ev force p t in (if b then id :: closing else closing, t)
  end.

Definition reapSnellParents (ev : Event) (force : bool) (t : tracker) : nat * tracker :=
  let '(closing, t) := fold_left (collect_stale ev force) (elements (t_snellParents t)) ([], t) in
  (List.length closing, pruneSnellCounters (fold_left (fun t id => closeParent id t) closing t)).

(** [Admit], once the users barrier is held for reading: [p] is the parent
    found in the context or the connection. *)
Definition Admit (ev : Event) (inbound user : string) (p : option nat) (t : tracker) : bool * tracker :=
  if t_usersFailed t then (false, t)
  else
    match runtimeFor t inbound user with
    | None => (false, t)
    | Some a =>
        match t_heap t !! a with
        | None => (false, t)
        | Some c =>
            if AuthorizationKey (policy (config (cell_state c))) =s "" then (false, t)
            else
              let '(d, t) := state_denied ev a t in
              if d then (false, t)
              else
                match p with
                | None => (false, t)
                | Some id =>
                    let scope := snell_scope inbound user in
                    match t_snellUsers t !! scope, t_parents t !! id, t_heap t !! a with
                    | Some installed, Some par, Some c =>
                        if negb (sn_authorizationKey installed =s AuthorizationKey (policy (config (cell_state c)))) ||
                           p_closed par
                        then (false, t)
                        else
                          let '(d, t) := state_denied ev a t in
                          if d then (false, t)
                          else if match p_state par with
                                  | None => false
                                  | Some a' => negb (Nat.eqb a' a) ||
                                      authorizationRevokedFor t (ev_now ev) (cell_state c) (p_identity par) ||
                                      negb (bool_decide (p_credential par = sn_credential installed))
                                  end
                          then (false, t)
                          else
                            (true, t<|t_parents ::= <[id := mkParent (Some a) (state_identity (cell_state c)) false
                                        scope (sn_credential installed)]>|>
                                    <|t_snellParents ::= fun s => {[id]} ∪ s|>)
                    | _, _, _ => (false, t)
                    end
                end
        end
    end.

(** ** Closing and reaping *)

Definition closeConns (n : net) (ids : list nat) (t : tracker) : tracker :=
  fold_left (fun t id => closeConn n id t) ids t.

(** Both kinds, TCP first; the lists are taken before anything is closed. *)
Definition closeAll (tcp udp : list nat) (t : tracker) : tracker := closeConns UDP udp (closeConns TCP tcp t).

Definition members (m : gmap string (gset nat)) (k : string) : list nat := elements (default ∅ (m !! k)).

Definition closeActive (ev : Event) (key : string) (t : tracker) : tracker :=
  snd (reapSnellParents ev false
    (closeAll (members (ix_active (t_tcp t)) key) (members (ix_active (t_udp t)) key) t)).

Definition closeByCredential (credential : string) (t : tracker) : nat * tracker :=
  if credential =s "" then (O, t)
  else
    let conns := members (ix_byCredential (t_tcp t)) credential in
    let packets := members (ix_byCredential (t_udp t)) credential in
    ((List.length conns + List.length packets)%nat, closeAll conns packets t).

(** The verdict of [revokedConnections] on one registered connection. *)
Definition conn_revoked (t : tracker) (now : Time) (c : trackedConn) : bool :=
  match t_heap t !! c_state c with
  | Some x => authorizationRevokedFor t now (cell_state x) (c_identity c)
  | None => false
  end.

Definition revoked_in (t : tracker) (now : Time) (ix : index) : list nat :=
  List.filter (fun id => match ix_conns ix !! id with Some c => conn_revoked t now c | None => false end)
    (elements (⋃ (map snd (map_to_list (ix_active ix))))).

Definition revokedConnections (now : Time) (t : tracker) : list nat * list nat :=
  (revoked_in t now (t_tcp t), revoked_in t now (t_udp t)).

(** Keys whose credential status is neither active nor reject_new; reading
    the status rolls the policies over. *)
Definition collect_status (ev : Event) (acc : list string * tracker) (ka : string * nat) : list string * tracker :=
  let '(keys, t) := acc in
  let t := refresh ev (snd ka) t in
  match t_heap t !! snd ka with
  | None => (keys, t)
  | Some c =>
      let status := normalizeCredentialStatus (CredentialStatus (policy (config (cell_state c)))) in
      (if negb (status =s "active") && negb (status =s "reject_new") then fst ka :: keys else keys, t)
  end.

Definition ReapAuthorization (ev : Event) (t : tracker) : nat * tracker :=
  let '(conns, packets) := revokedConnections (ev_now ev) t in
  let t := closeAll conns packets t in
  let '(keys, t) := fold_left (collect_status ev) (map_to_list (t_states t)) ([], t) in
  let t := fold_left (fun t key => closeActive ev key t) keys t in
  ((List.length conns + List.length packets)%nat, snd (reapSnellParents ev false t)).

(** ** Authorization updates *)

Definition auth_Deny (ev : Event) (keys : list string) (revision : Z) (t : tracker) : option update_error * tracker :=
  let '((_, err), s, d) := store_Deny (ev_env ev) (t_auth t) keys revision (t_disk t) in
  (err, t<|t_auth := s|><|t_disk := d|>).

Definition auth_Update (ev : Event) (lease : option Lease) (t : tracker) : option update_error * tracker :=
  let '((_, _, err), s, d) := store_UpdateWithResult (ev_env ev) (t_auth t) lease (t_disk t) in
  (err, t<|t_auth := s|><|t_disk := d|>).

Definition DenyAuthorization (ev : Event) (keys : list string) (revision : Z) (t : tracker)
  : (nat * option update_error) * tracker :=
  match auth_Deny ev keys revision t with
  | (Some e, t) => ((O, Some e), t)
  | (None, t) =>
      let '(closed, t) :=
        fold_left (fun '(n, t) key => let '(m, t) := closeByCredential key t in ((n + m)%nat, t)) keys (O, t) in
      ((closed, None), t)
  end.

(** [ApplyAuthorization]; [ev'] is the second write of the call. *)
Definition ApplyAuthorization (ev ev' : Event) (lease : option Lease) (deny : list string) (t : tracker)
  : option update_error * tracker :=
  let revision := match lease with Some l => l_Revision l | None => 0 end in
  let '(err, t) := if (0 <? List.length deny)%nat then auth_Deny ev deny revision t else (None, t) in
  match err with
  | Some e => (Some e, t)
  | None =>
      let '(err, t) := match lease with Some _ => auth_Update ev' lease t | None => (None, t) end in
      match err with
      | Some e => (Some e, t)
      | None => (None, snd (ReapAuthorization ev' t))
      end
  end.

(** [InitializeAuthorization]: a store on the kernel's own path. The wake-up
    hook of the reaper is registered on it. *)
Definition InitializeAuthorization (ev : Event) (path : string) (key : bytes) (boot : string) (lease : option Lease)
    (t : tracker) : option string * tracker :=
  let missing := bool_decide (lease = None) &&
    existsb (fun ka => match t_heap t !! snd ka with
                       | Some c => negb (AuthorizationKey (policy (config (cell_state c))) =s "")
                       | None => false
                       end) (map_to_list (t_states t)) in
  if missing then (Some "authorization snapshot is required for installed credentials"%string, t)
  else
    let '((_, _, err), s, d) := store_UpdateWithResult (ev_env ev) (NewStore path key boot) lease (t_disk t) in
    match err with
    | Some _ => (Some "authorization"%string, t<|t_disk := d|>)
    | None => (None, t<|t_auth := SetChangeHook s true|><|t_disk := d|>)
    end.

Definition authorizationReaperMaxWait : Duration := 5 * Second.

(** How long the reaper sleeps. *)
Definition nextAuthorizationWait (now : Time) (t : tracker) : Duration :=
  let '((lease, err), _) := store_Snapshot (t_auth t) (t_disk t) in
  match err, lease with
  | None, Some l =>
      let next := lease_NextExpiry (Some l) now in
      if IsZero next then authorizationReaperMaxWait
      else
        let until := add64 (time_Sub next now) (10 * Millisecond) in
        if until <? authorizationReaperMaxWait
        then (if until <? 10 * Millisecond then 10 * Millisecond else until)
        else authorizationReaperMaxWait
  | _, _ => authorizationReaperMaxWait
  end.

(** ** Policies, acknowledgements and users *)

Definition state_user (t : tracker) (a : nat) : Z :=
  match t_heap t !! a with Some c => UserID (policy (config (cell_state c))) | None => 0 end.

(** One entry of [UpdatePolicies]: the state of the key, then every state of
    the user. [acc] is the map [updates]. *)
Definition policy_updates (t : tracker) (acc : gmap nat RuntimeUserLimit) (kp : string * RuntimeUserLimit)
  : gmap nat RuntimeUserLimit :=
  let '(key, p) := kp in
  let merged a acc := match t_heap t !! a with
                      | Some c => <[a := mergeRuntimePolicy (policy (config (cell_state c))) p]> acc
                      | None => acc
                      end in
  let acc := match t_states t !! key with Some a => merged a acc | None => acc end in
  if UserID p <=? 0 then acc
  else fold_left (fun acc ka => if state_user t (snd ka) =? UserID p then merged (snd ka) acc else acc)
         (map_to_list (t_states t)) acc.

Definition apply_policy (ev : Event) (t : tracker) (ap : nat * RuntimeUserLimit) : tracker :=
  let '(a, p) := ap in
  match t_heap t !! a with
  | None => t
  | Some c =>
      let t := put_state a (updatePolicy p (ev_epoch ev a) (cell_state c)) t in
      let id := match t_heap t !! a with Some c => state_identity (cell_state c) | None => mkIdentity "" 0 0 end in
      let '(d, t) := deny_identity ev a id true t in
      if d then closeActive ev (state_key t a) t else t
  end.

(** [policies] lists the map in the order it is iterated. *)
Definition UpdatePolicies (ev : Event) (policies : list (string * RuntimeUserLimit)) (t : tracker) : tracker :=
  let updates := fold_left (policy_updates t) policies ∅ in
  fold_left (apply_policy ev) (map_to_list updates) t.

Definition ack_one (t : tracker) (kc : string * TrafficCounterAcknowledgement) : tracker :=
  let '(key, cp) := kc in
  match t_states t !! key with
  | None => t
  | Some a =>
      match t_heap t !! a with
      | None => t
      | Some c =>
          let '(s, u) := acknowledge cp (cell_state c) (cell_usage_of t c) in
          put_usage c u (put_state a s t)
      end
  end.

Definition AcknowledgeTraffic (acks : list (string * TrafficCounterAcknowledgement)) (t : tracker) : tracker :=
  pruneSnellCounters (fold_left ack_one acks t).

Record UserInstallEntry := mkEntry {
  en_InboundTag : string; en_AuthUser : string; en_PSK : string; en_AuthorizationKey : string;
  en_UserID : Z; en_InboundID : Z; en_PathID : Z; en_DeviceIDHash : string; en_CredentialEpoch : Z;
  en_CredentialStatus : string; en_Policy : RuntimeUserLimit
}.

(** The policy an entry installs. *)
Definition entry_policy (e : UserInstallEntry) : RuntimeUserLimit :=
  let p := en_Policy e in
  let p := if en_AuthorizationKey e =s "" then p else p<|AuthorizationKey := en_AuthorizationKey e|> in
  let p := if 0 <? en_UserID e then p<|UserID := en_UserID e|> else p in
  let p := if 0 <? en_InboundID e then p<|InboundID := en_InboundID e|> else p in
  let p := p<|PathID := en_PathID e|><|DeviceIDHash := en_DeviceIDHash e|>
            <|CredentialEpoch := en_CredentialEpoch e|><|CredentialStatus := en_CredentialStatus e|> in
  if negb (Billable p) && (0 <? UserID p) then p<|Billable := true|> else p.

(** The usage an installed state shares: that of a state of the same user. *)
Definition shared_usage (t : tracker) (user : Z) : option nat :=
  head (omap (fun ka => match t_heap t !! snd ka with
                        | Some c => if UserID (policy (config (cell_state c))) =? user then cell_usage c else None
                        | None => None
                        end) (map_to_list (t_states t))).

Definition install_user (ev : Event) (t : tracker) (e : UserInstallEntry) : tracker :=
  let user := TrimSpace (en_AuthUser e) in
  if user =s "" then t
  else
    let p := entry_policy e in
    let key := ("user:" +:+ user)%string in
    let create :=
      let a := t_next t in
      let t' := t<|t_next ::= S|> in
      let s := newRuntimeState key user "" p (ev_epoch ev a) in
      let '(u, t') :=
        if 0 <? UserID p then
          match shared_usage t (UserID p) with
          | Some r => (Some r, t')
          | None => let r := t_next t' in (Some r, t'<|t_next ::= S|><|t_usages ::= <[r := ∅]>|>)
          end
        else (None, t') in
      t'<|t_heap ::= <[a := mkCell s u]>|><|t_states ::= <[key := a]>|> in
    match t_states t !! key with
    | Some a =>
        match t_heap t !! a with
        | Some c =>
            put_state a (updatePolicy (mergeRuntimeIdentity (policy (config (cell_state c))) p) (ev_epoch ev a)
                           (cell_state c)) t
        | None => t
        end
    | None => create
    end.

Definition ReplaceScopedUsers (ev : Event) (entries : list UserInstallEntry) (t : tracker) : tracker :=
  fold_left (install_user ev) entries t.

(** [strings.Cut(key, NUL)]: what follows the first NUL. *)
Fixpoint after_nul (s : string) : string :=
  match s with
  | EmptyString => EmptyString
  | String c r => if Ascii.eqb c (byte_of 0) then r else after_nul r
  end.

Definition in_scope (scope : list string) (key : string) : bool :=
  existsb (fun tag => HasPrefix key (tag +:+ nul)) scope.

Context (sha256 : string -> bytes).

(** [publishSnellUsers]: the scoped part of the table is replaced. *)
Definition publishSnellUsers (scope : list string) (entries : list UserInstallEntry) (t : tracker) : tracker :=
  let gone := List.filter (in_scope scope) (map fst (map_to_list (t_snellUsers t))) in
  let t := t<|t_snellRetired ::= fun s => list_to_set (map (fun k => "user:" +:+ after_nul k)%string gone) ∪ s|>
            <|t_snellUsers ::= filter (fun '(k, _) => in_scope scope k = false)|> in
  fold_left (fun t e =>
    if en_PSK e =s "" then t
    else t<|t_snellRetired ::= fun s => s ∖ {["user:" +:+ en_AuthUser e]}|>
          <|t_snellUsers ::= <[snell_scope (en_InboundTag e) (en_AuthUser e) :=
              mkSnell (en_AuthorizationKey e) (sha256 (en_PSK e))]>|>) entries t.

Definition CloseSnellInbound (tag : string) (t : tracker) : tracker :=
  let parents := List.filter (fun id => match t_parents t !! id with
                                        | Some p => HasPrefix (p_authScope p) (tag +:+ nul)
                                        | None => false
                                        end) (elements (t_snellParents t)) in
  fold_left (fun t id => closeParent id t) parents t.

(** [Snapshot]: the counters of every state. *)
Definition snapshot_one (ev : Event) (acc : list TrafficCounter * tracker) (ka : string * nat)
  : list TrafficCounter * tracker :=
  let '(out, t) := acc in
  match t_heap t !! snd ka with
  | None => (out, t)
  | Some c =>
      let '(o, s) := state_snapshot (ev_now ev) (ev_epoch ev (snd ka)) (cell_state c) in
      (match o with Some x => out ++ [x] | None => out end, put_state (snd ka) s t)
  end.

Definition Snapshot (ev : Event) (t : tracker) : list TrafficCounter * tracker :=
  fold_left (snapshot_one ev) (map_to_list (t_states t)) ([], t).

(** ** Construction *)

(** The usage of a user, created on first use. *)
Definition usage_for (user : Z) (byUser : gmap Z nat) (t : tracker) : option nat * gmap Z nat * tracker :=
  if user <=? 0 then (None, byUser, t)
  else
    match byUser !! user with
    | Some r => (Some r, byUser, t)
    | None => let r := t_next t in
        (Some r, <[user := r]> byUser, t<|t_next ::= S|><|t_usages ::= <[r := ∅]>|>)
    end.

Definition add_state (ev : Event) (key user inbound : string) (p : RuntimeUserLimit) (acc : gmap Z nat * tracker)
  : gmap Z nat * tracker :=
  let '(byUser, t) := acc in
  let a := t_next t in
  let '(u, byUser, t) := usage_for (UserID p) byUser (t<|t_next ::= S|>) in
  (byUser, t<|t_heap ::= <[a := mkCell (newRuntimeState key user inbound p (ev_epoch ev a)) u]>|>
            <|t_states ::= <[key := a]>|>).

Definition empty_index : index := mkIndex ∅ ∅ ∅.

Definition empty_tracker (s : Store) (d : disk) (audit : bool) : tracker :=
  mkTracker s d ∅ ∅ ∅ empty_index empty_index 0 audit false ∅ ∅ ∅ ∅ 0 [].

(** [newRateLimitTracker]: users, then inbounds. The lease of the metadata is
    installed in a store without a path; its error is ignored. *)
Definition newRateLimitTracker (ev : Event) (boot : string) (users inbounds : list (string * RuntimeUserLimit))
    (lease : option Lease) (audit : bool) (d : disk) : tracker :=
  let '(_, s, d) := store_UpdateWithResult (ev_env ev) (SetChangeHook (NewStore "" [] boot) true) lease d in
  let add_user acc up := if fst up =s "" then acc else
    let p := if negb (Billable (snd up)) && (0 <? UserID (snd up)) then (snd up)<|Billable := true|> else snd up in
    add_state ev ("user:" +:+ fst up) (fst up) "" p acc in
  let add_inbound acc ip := if fst ip =s "" then acc else
    add_state ev ("inbound:" +:+ fst ip) "" (fst ip) (snd ip) acc in
  snd (fold_left add_inbound inbounds (fold_left add_user users (∅, empty_tracker s d audit))).

End Tracker.
