(* ===== verification/TrackerInv.v ===== *)
(** * TrackerInv: what the connection tracker guarantees

    Proofs about Tracker.v. [inv] says that the indexes list exactly the open
    connections, that the gauge counts them and that states and connections
    are well formed; [shrink] that an operation keeps identities and opens
    nothing. Every operation keeps [inv]; the ones that only account, roll
    policies over or close satisfy [good], which composes. From them follow
    the promises: denials, reaping and updates leave no revoked session open,
    a routed connection is admitted, and no unacknowledged counter is
    dropped. *)

From S2P Require Import Prelude GoTime Stealth Files Json Authorization Window Quota Tracker.

(** ** Facts about the indexes *)

Lemma add_to_lookup m k id k' :
  default ∅ (add_to m k id !! k') = (if decide (k = k') then {[id]} ∪ default ∅ (m !! k') else default ∅ (m !! k')).
Proof.
  unfold add_to. case_decide as Hk; [subst; by rewrite lookup_insert_eq | by rewrite lookup_insert_ne].
Qed.

Lemma remove_from_lookup m k id k' :
  default ∅ (remove_from m k id !! k') = (if decide (k = k') then default ∅ (m !! k') ∖ {[id]} else default ∅ (m !! k')).
Proof.
  unfold remove_from. case_decide as He; case_decide as Hk; subst.
  - by rewrite lookup_delete_eq, He.
  - by rewrite lookup_delete_ne.
  - by rewrite lookup_insert_eq.
  - by rewrite lookup_insert_ne.
Qed.

Definition open_in (ix : index) (id : nat) (c : trackedConn) : Prop :=
  ix_conns ix !! id = Some c /\ c_closed c = false.

(** Both maps of an index list exactly its open connections. *)
Definition index_exact (K : nat -> string) (ix : index) : Prop :=
  (forall k id, id ∈ default ∅ (ix_active ix !! k) <-> exists c, open_in ix id c /\ K (c_state c) = k) /\
  (forall k id, id ∈ default ∅ (ix_byCredential ix !! k) <->
     exists c, open_in ix id c /\ authorizationKey (c_identity c) = k /\ k <> ""%string).

Definition open_count (ix : index) : nat :=
  size (filter (fun p : nat * trackedConn => c_closed (snd p) = false) (ix_conns ix)).

Lemma index_exact_ext K K' ix :
  (forall id c, open_in ix id c -> K' (c_state c) = K (c_state c)) -> index_exact K ix -> index_exact K' ix.
Proof.
  intros HK [H1 H2]. split; [| done]. intros k id. rewrite H1. split; intros (c & Ho & Hk); exists c; split; try done.
  - by rewrite (HK _ _ Ho).
  - by rewrite <- (HK _ _ Ho).
Qed.

Section IndexOps.
Context (K : nat -> string) (ix : index) (id : nat) (c : trackedConn) (Hix : index_exact K ix).

Definition closed_index : index :=
  index_remove (K (c_state c)) id c (ix<|ix_conns ::= <[id := c<|c_closed := true|>]>|>).
Definition opened_index : index := index_add (K (c_state c)) id c (ix<|ix_conns ::= <[id := c]>|>).

Lemma closed_index_conns : ix_conns closed_index = <[id := c<|c_closed := true|>]> (ix_conns ix).
Proof. unfold closed_index, index_remove. by destruct (_ =s _). Qed.

Lemma opened_index_conns : ix_conns opened_index = <[id := c]> (ix_conns ix).
Proof. unfold opened_index, index_add. by destruct (_ =s _). Qed.

Lemma closed_index_open id' c' : open_in closed_index id' c' <-> open_in ix id' c' /\ id' <> id.
Proof.
  unfold open_in. rewrite closed_index_conns. destruct (decide (id' = id)) as [-> | Hne].
  - rewrite lookup_insert_eq. split; [| naive_solver]. intros [[= <-] Hc]. done.
  - rewrite lookup_insert_ne by done. naive_solver.
Qed.

Lemma closed_index_count :
  open_in ix id c -> S (open_count closed_index) = open_count ix.
Proof.
  intros [Hc Ho]. unfold open_count. rewrite closed_index_conns, map_filter_insert_False by done.
  rewrite map_filter_delete, map_size_delete.
  assert (filter (fun p : nat * trackedConn => c_closed (snd p) = false) (ix_conns ix) !! id = Some c) as Hl
    by (by apply map_lookup_filter_Some).
  rewrite Hl. cbn.
  assert (size (filter (fun p : nat * trackedConn => c_closed (snd p) = false) (ix_conns ix)) <> 0%nat) as Hs.
  { rewrite map_size_ne_0_lookup. by exists id, c. }
  lia.
Qed.

Lemma closed_index_exact : open_in ix id c -> index_exact K closed_index.
Proof.
  intros Hc. destruct Hix as [H1 H2]. split; intros k id'.
  - setoid_rewrite closed_index_open.
    assert (ix_active closed_index = remove_from (ix_active ix) (K (c_state c)) id) as ->.
    { unfold closed_index, index_remove. by destruct (_ =s _). }
    rewrite remove_from_lookup. case_decide as Hk.
    + rewrite elem_of_difference, H1, elem_of_singleton. naive_solver.
    + rewrite H1. split; [| naive_solver]. intros (c' & Ho & Hk'). exists c'. split_and!; try done.
      intros ->. destruct Hc as [Hc _], Ho as [Ho _]. congruence.
  - setoid_rewrite closed_index_open. unfold closed_index, index_remove.
    destruct (authorizationKey (c_identity c) =s "") eqn:Ec; cbn [ix_byCredential upd].
    + apply str_eqb_eq in Ec. rewrite H2. split; [| naive_solver].
      intros (c' & Ho & Hk & Hne). exists c'. split_and!; try done.
      intros ->. destruct Hc as [Hc _], Ho as [Ho _]. congruence.
    + apply str_eqb_neq in Ec. rewrite remove_from_lookup. case_decide as Hk.
      * rewrite elem_of_difference, H2, elem_of_singleton. naive_solver.
      * rewrite H2. split; [| naive_solver]. intros (c' & Ho & Hk' & Hne). exists c'. split_and!; try done.
        intros ->. destruct Hc as [Hc _], Ho as [Ho _]. congruence.
Qed.

Section Open.
Context (Hfresh : ix_conns ix !! id = None) (Hopen : c_closed c = false).

Lemma opened_index_open id' c' : open_in opened_index id' c' <-> (id' = id /\ c' = c) \/ open_in ix id' c'.
Proof.
  unfold open_in. rewrite opened_index_conns. destruct (decide (id' = id)) as [-> | Hne].
  - rewrite lookup_insert_eq. rewrite Hfresh. naive_solver.
  - rewrite lookup_insert_ne by done. naive_solver.
Qed.

Lemma opened_index_count : open_count opened_index = S (open_count ix).
Proof.
  unfold open_count. rewrite opened_index_conns, map_filter_insert_True by done.
  rewrite map_size_insert_None; [done |]. apply map_lookup_filter_None. by left.
Qed.

Lemma opened_index_exact : index_exact K opened_index.
Proof.
  destruct Hix as [H1 H2]. split; intros k id'.
  - setoid_rewrite opened_index_open.
    assert (ix_active opened_index = add_to (ix_active ix) (K (c_state c)) id) as ->.
    { unfold opened_index, index_add. by destruct (_ =s _). }
    rewrite add_to_lookup. case_decide as Hk; [rewrite elem_of_union, H1, elem_of_singleton | rewrite H1]; naive_solver.
  - setoid_rewrite opened_index_open. unfold opened_index, index_add.
    destruct (authorizationKey (c_identity c) =s "") eqn:Ec; cbn [ix_byCredential upd].
    + apply str_eqb_eq in Ec. rewrite H2. naive_solver.
    + apply str_eqb_neq in Ec. rewrite add_to_lookup.
      case_decide as Hk; [rewrite elem_of_union, H2, elem_of_singleton | rewrite H2]; naive_solver.
Qed.

End Open.
End IndexOps.

(** ** The invariant of the tracker *)

Definition next_ok (t : tracker) : Prop :=
  (forall n id, is_Some (ix_conns (the_index n t) !! id) -> (id < t_next t)%nat) /\
  (forall a, is_Some (t_heap t !! a) -> (a < t_next t)%nat).

(** Registered states are in the heap under their key, open connections point
    into the heap, the indexes are exact and the TCP gauge counts. *)
Record inv (t : tracker) : Prop := {
  inv_index : forall n, index_exact (state_key t) (the_index n t);
  inv_gauge : t_activeTCP t = Z.of_nat (open_count (t_tcp t));
  inv_conns : forall n id c, ix_conns (the_index n t) !! id = Some c -> is_Some (t_heap t !! c_state c);
  inv_states : forall key a, t_states t !! key = Some a ->
    key <> ""%string /\ exists c, t_heap t !! a = Some c /\ rs_key (cell_state c) = key;
  inv_next : next_ok t
}.

(** What never changes about a runtime state in place. *)
Definition same_identity (c c' : cell) : Prop :=
  rs_key (cell_state c') = rs_key (cell_state c) /\
  state_identity (cell_state c') = state_identity (cell_state c) /\ cell_usage c' = cell_usage c.

(** [t'] keeps the states, identities and the authorization of [t], and its
    open connections are among those of [t]. *)
Record shrink (t t' : tracker) : Prop := {
  sh_open : forall n id c, open_in (the_index n t') id c -> open_in (the_index n t) id c;
  sh_heap : forall a c, t_heap t !! a = Some c -> exists c', t_heap t' !! a = Some c' /\ same_identity c c';
  sh_dom : forall a, is_Some (t_heap t' !! a) -> is_Some (t_heap t !! a);
  sh_states : t_states t' ⊆ t_states t;
  sh_auth : t_auth t' = t_auth t;
  sh_disk : t_disk t' = t_disk t
}.

Definition good (t t' : tracker) : Prop := inv t -> inv t' /\ shrink t t'.

Lemma same_identity_trans a b c : same_identity a b -> same_identity b c -> same_identity a c.
Proof. intros (H1 & H2 & H3) (H4 & H5 & H6). unfold same_identity. split_and!; congruence. Qed.

Lemma shrink_refl t : shrink t t.
Proof. split; try done. intros a c Hc. exists c. by repeat split. Qed.

Lemma shrink_trans t1 t2 t3 : shrink t1 t2 -> shrink t2 t3 -> shrink t1 t3.
Proof.
  intros [A1 A2 A3 A4 A5 A6] [B1 B2 B3 B4 B5 B6]. split; eauto; try congruence.
  - intros a c Hc. destruct (A2 _ _ Hc) as (c' & Hc' & Hs). destruct (B2 _ _ Hc') as (c'' & Hc'' & Hs').
    eauto using same_identity_trans.
  - by etransitivity.
Qed.

#[export] Instance good_preorder : PreOrder good.
Proof.
  split; [intros t Hi; split; [done | apply shrink_refl] |].
  intros t1 t2 t3 H12 H23 Hi. destruct (H12 Hi) as [Hi2 Hs2]. destruct (H23 Hi2) as [Hi3 Hs3].
  eauto using shrink_trans.
Qed.

Lemma good_fold {B} (f : tracker -> B -> tracker) l t :
  (forall t b, good t (f t b)) -> good t (fold_left f l t).
Proof.
  intros Hf. revert t. induction l as [| b l IH]; intros t; cbn; [reflexivity |].
  etransitivity; [apply Hf | apply IH].
Qed.

Lemma good_fold_acc {B C} (f : C * tracker -> B -> C * tracker) l acc :
  (forall acc b, good (snd acc) (snd (f acc b))) -> good (snd acc) (snd (fold_left f l acc)).
Proof.
  intros Hf. revert acc. induction l as [| b l IH]; intros acc; cbn; [reflexivity |].
  etransitivity; [apply Hf | apply IH].
Qed.

(** Changes that leave the connections alone and keep the identities. *)
Lemma good_quiet t t' :
  t_tcp t' = t_tcp t -> t_udp t' = t_udp t -> t_activeTCP t' = t_activeTCP t -> t_next t' = t_next t ->
  t_auth t' = t_auth t -> t_disk t' = t_disk t -> t_states t' ⊆ t_states t ->
  (forall a c, t_heap t !! a = Some c -> exists c', t_heap t' !! a = Some c' /\ same_identity c c') ->
  (forall a, is_Some (t_heap t' !! a) -> is_Some (t_heap t !! a)) ->
  good t t'.
Proof.
  intros H1 H2 H3 H4 H5 H6 H7 H8 H9 [I1 I2 I3 I4 [I5 I6]].
  assert (forall n, the_index n t' = the_index n t) as Hn by (by intros []).
  assert (forall a, is_Some (t_heap t !! a) -> state_key t' a = state_key t a) as Hk.
  { intros a [c Hc]. unfold state_key. destruct (H8 _ _ Hc) as (c' & -> & Hs & _). by rewrite Hc. }
  split; split.
  - intros n. rewrite Hn. eapply index_exact_ext; [| apply I1]. intros id c [Hc _]. apply Hk. eauto.
  - congruence.
  - intros n id c. rewrite Hn. intros Hc. destruct (I3 _ _ _ Hc) as [x Hx].
    destruct (H8 _ _ Hx) as (c' & ? & _). eauto.
  - intros key a Ha. eapply lookup_weaken in Ha; [| done]. destruct (I4 _ _ Ha) as (Hne & c & Hc & Hkey).
    destruct (H8 _ _ Hc) as (c' & Hc' & Hs & _). split; [done |]. exists c'. split; congruence.
  - split; [intros n id; rewrite Hn, H4; apply I5 |]. intros a Ha. rewrite H4. auto.
  - intros n id c. by rewrite Hn.
  - done.
  - done.
  - done.
  - done.
  - done.
Qed.

Ltac quiet := apply good_quiet; try done; intros; eauto using shrink_refl; try (eexists; split; [eassumption | by repeat split]).

Lemma good_emit x t : good t (emit x t).
Proof. quiet. Qed.

Lemma good_put_state a s t c :
  t_heap t !! a = Some c -> rs_key s = rs_key (cell_state c) -> state_identity s = state_identity (cell_state c) ->
  good t (put_state a s t).
Proof.
  intros Hc Hk Hi. apply good_quiet; try done; cbn.
  - intros a' c' Hc'. destruct (decide (a = a')) as [<- | Hne].
    + rewrite lookup_alter_eq, Hc'. eexists. split; [done |]. rewrite Hc in Hc'. injection Hc' as <-. by repeat split.
    + rewrite lookup_alter_ne by done. exists c'. split; [done | by repeat split].
  - intros a' Ha'. destruct (decide (a = a')) as [<- | Hne]; [eauto |]. by rewrite lookup_alter_ne in Ha'.
Qed.

Lemma good_put_usage c u t : good t (put_usage c u t).
Proof. unfold put_usage. destruct (cell_usage c), u; [quiet | reflexivity ..]. Qed.

Section TrackerFacts.
Context {A : AEAD} {CL : Codec Lease} {CD : Codec (gmap string deniedEntry)} {TZ : TimeZones}.

(** [s'] has the key and the identity of [s]. *)
Definition kin (s s' : runtimeState) : Prop := rs_key s' = rs_key s /\ state_identity s' = state_identity s.

Lemma currentConfig_kin now ep s : kin s (currentConfig now ep s).
Proof.
  unfold currentConfig. destruct (period_over _ _); [| done].
  unfold storePolicyLocked, next_period. destruct (runtimeTrafficWindow _ _ _ _ _) as [[k st] fin].
  destruct (newRuntimeLimiters _) as [rl wl]. unfold kin, state_identity. cbn.
  by destruct (LeaseEnforced (policy (config s))).
Qed.

Lemma addTraffic_kin now ep up down s u : kin s (fst (addTraffic now ep up down s u)).
Proof. unfold addTraffic. pose proof (currentConfig_kin now ep s). by destruct (_ || _). Qed.

Lemma quotaDeniedFor_kin now ep adm s u : kin s (snd (quotaDeniedFor now ep adm s u)).
Proof. apply currentConfig_kin. Qed.

Lemma acknowledge_kin cp s u : kin s (fst (acknowledge cp s u)).
Proof. unfold acknowledge. destruct (_ =s ""); [done |]. destruct (negb _); [done |]. by destruct (_ && _). Qed.

Lemma snapshot_kin now ep s : kin s (snd (state_snapshot now ep s)).
Proof. apply currentConfig_kin. Qed.

Lemma good_put_kin a s t c : t_heap t !! a = Some c -> kin (cell_state c) s -> good t (put_state a s t).
Proof. intros Hc [? ?]. by eapply good_put_state. Qed.

Lemma good_refresh ev a t : good t (refresh ev a t).
Proof.
  unfold refresh. destruct (t_heap t !! a) as [c |] eqn:E; [| reflexivity].
  eapply good_put_kin; eauto using currentConfig_kin.
Qed.

Lemma good_state_denied ev a t : good t (snd (state_denied ev a t)).
Proof.
  unfold state_denied. destruct (t_heap t !! a) as [c |] eqn:E; [| reflexivity].
  destruct (authorizationRevokedFor _ _ _ _); [reflexivity |]. eapply good_put_kin; eauto using currentConfig_kin.
Qed.

Lemma good_quota_denied ev adm a t : good t (snd (quota_denied ev adm a t)).
Proof.
  unfold quota_denied. destruct (t_heap t !! a) as [c |] eqn:E; [| reflexivity].
  pose proof (quotaDeniedFor_kin (ev_now ev) (ev_epoch ev a) adm (cell_state c) (cell_usage_of t c)) as Hk.
  destruct (quotaDeniedFor _ _ _ _ _) as [b s]. by eapply good_put_kin.
Qed.

Lemma good_deny_identity ev a id adm t : good t (snd (deny_identity ev a id adm t)).
Proof.
  unfold deny_identity. destruct (t_heap t !! a); [| reflexivity].
  destruct (authorizationRevokedFor _ _ _ _); [reflexivity | apply good_quota_denied].
Qed.

Lemma good_conn_deny ev c t : good t (snd (conn_deny ev c t)).
Proof. apply good_deny_identity. Qed.

Lemma good_state_addTraffic ev a up down t : good t (state_addTraffic ev a up down t).
Proof.
  unfold state_addTraffic. destruct (t_heap t !! a) as [c |] eqn:E; [| reflexivity].
  pose proof (addTraffic_kin (ev_now ev) (ev_epoch ev a) up down (cell_state c) (cell_usage_of t c)) as Hk.
  destruct (addTraffic _ _ _ _ _ _) as [s u]. etransitivity; [by eapply good_put_kin | apply good_put_usage].
Qed.

Lemma good_conn_addTraffic ev id c up down t : good t (conn_addTraffic ev id c up down t).
Proof.
  unfold conn_addTraffic. etransitivity; [| apply good_emit]. etransitivity; [| apply good_state_addTraffic].
  destruct (_ && _); [| reflexivity].
  destruct (t_heap (refresh ev (c_state c) t) !! c_state c); [| apply good_refresh].
  destruct (_ && _ && _); [| apply good_refresh]. etransitivity; [apply good_refresh | apply good_emit].
Qed.

(** ** Closing connections *)

Lemma the_with_index n n' f t :
  the_index n' (with_index n f t) = if decide (n = n') then f (the_index n' t) else the_index n' t.
Proof. by destruct n, n'. Qed.

Lemma closeConn_closed n id t c :
  ix_conns (the_index n t) !! id = Some c -> c_closed c = true -> closeConn n id t = emit (CloseSocket n id) t.
Proof. intros Hc Ho. unfold closeConn. by rewrite Hc, Ho. Qed.

Lemma closeConn_open n id t c :
  open_in (the_index n t) id c ->
  let t' := closeConn n id t in
  the_index n t' = closed_index (state_key t) (the_index n t) id c /\
  (forall n', n' <> n -> the_index n' t' = the_index n' t) /\
  t_heap t' = t_heap t /\ t_states t' = t_states t /\ t_auth t' = t_auth t /\ t_disk t' = t_disk t /\
  t_next t' = t_next t /\
  t_activeTCP t' = match n with TCP => Z.max 0 (t_activeTCP t - 1) | UDP => t_activeTCP t end.
Proof.
  intros [Hc Ho]. cbv zeta. unfold closeConn. rewrite Hc, Ho. unfold unregisterConn.
  destruct n; cbn; split_and!; try done; try (intros [] ?; done).
  destruct (Z.ltb_spec (t_activeTCP t - 1) 0); lia.
Qed.

Lemma good_closeConn n id t : good t (closeConn n id t).
Proof.
  destruct (ix_conns (the_index n t) !! id) as [c |] eqn:Hc; [| unfold closeConn; rewrite Hc; reflexivity].
  destruct (c_closed c) eqn:Ho; [erewrite closeConn_closed by done; apply good_emit |].
  assert (open_in (the_index n t) id c) as Hopen by done.
  destruct (closeConn_open n id t c Hopen) as (Hix & Hother & Hh & Hs & Ha & Hd & Hn & Hg).
  set (t' := closeConn n id t) in *. intros [I1 I2 I3 I4 [I5 I6]].
  assert (forall a, state_key t' a = state_key t a) as Hk by (intros a; unfold state_key; by rewrite Hh).
  assert (forall n' id' c', ix_conns (the_index n' t') !! id' = Some c' ->
    exists c0, ix_conns (the_index n' t) !! id' = Some c0 /\ c_state c0 = c_state c') as Hconns.
  { intros n' id' c'. destruct (decide (n' = n)) as [-> | Hne]; [| rewrite Hother by done; eauto].
    rewrite Hix, closed_index_conns. destruct (decide (id' = id)) as [-> | Hid].
    - rewrite lookup_insert_eq. intros [= <-]. eauto.
    - rewrite lookup_insert_ne by done. eauto. }
  split; split.
  - intros n'. apply (index_exact_ext (state_key t)); [auto |].
    destruct (decide (n' = n)) as [-> | Hne]; [rewrite Hix; by apply closed_index_exact | by rewrite Hother].
  - rewrite Hg. destruct n; [| rewrite I2; f_equal; f_equal; symmetry; by apply (Hother TCP)].
    pose proof (closed_index_count (state_key t) (the_index TCP t) id c Hopen) as Hcount.
    rewrite <- Hix in Hcount. cbn [the_index] in Hcount. lia.
  - intros n' id' c' Hc'. destruct (Hconns _ _ _ Hc') as (c0 & Hc0 & <-). rewrite Hh. eauto.
  - intros key a. rewrite Hs, Hh. apply I4.
  - split.
    + intros n' id' [c' Hc']. rewrite Hn. destruct (Hconns _ _ _ Hc') as (c0 & Hc0 & _). eauto.
    + intros a. rewrite Hh, Hn. apply I6.
  - intros n' id' c'. destruct (decide (n' = n)) as [-> | Hne]; [| by rewrite Hother].
    rewrite Hix, closed_index_open. tauto.
  - intros a x Hx. exists x. rewrite Hh. split; [done | by repeat split].
  - intros a. by rewrite Hh.
  - by rewrite Hs.
  - done.
  - done.
Qed.

Lemma good_close_if n id bt : good (snd bt) (close_if n id bt).
Proof. unfold close_if. destruct (fst bt); [apply good_closeConn | reflexivity]. Qed.

Lemma good_closeConns n ids t : good t (closeConns n ids t).
Proof. apply good_fold. intros. apply good_closeConn. Qed.

Lemma good_closeAll tcp udp t : good t (closeAll tcp udp t).
Proof. etransitivity; apply good_closeConns. Qed.

(** After closing a list of connections none of them is open. *)
Lemma closeConn_not_open n id t c : ~ open_in (the_index n (closeConn n id t)) id c.
Proof.
  destruct (ix_conns (the_index n t) !! id) as [c0 |] eqn:Hc.
  - destruct (c_closed c0) eqn:Ho.
    + erewrite closeConn_closed by done.
      assert (the_index n (emit (CloseSocket n id) t) = the_index n t) as -> by (by destruct n).
      intros [? ?]. congruence.
    + destruct (closeConn_open n id t c0 ltac:(done)) as (-> & _). rewrite closed_index_open. tauto.
  - unfold closeConn. rewrite Hc. intros [? _]. congruence.
Qed.

Lemma closeConns_not_open n ids t id c :
  inv t -> id ∈ ids -> ~ open_in (the_index n (closeConns n ids t)) id c.
Proof.
  revert t. induction ids as [| i ids IH]; intros t Hi Hin; [set_solver |].
  cbn. fold (closeConns n ids (closeConn n i t)).
  destruct (good_closeConn n i t Hi) as [Hi' _].
  destruct (decide (id = i)) as [-> | Hne]; [| apply IH; [done | set_solver]].
  intros Ho. destruct (good_closeConns n ids _ Hi') as [_ Hs]. apply (sh_open _ _ Hs) in Ho. by apply closeConn_not_open in Ho.
Qed.

Lemma closeAll_not_open tcp udp t n id c :
  inv t -> id ∈ (match n with TCP => tcp | UDP => udp end) -> ~ open_in (the_index n (closeAll tcp udp t)) id c.
Proof.
  intros Hi Hin Ho. unfold closeAll in Ho. destruct (good_closeConns TCP tcp t Hi) as [Hi' _].
  destruct n; [| by apply closeConns_not_open in Ho].
  destruct (good_closeConns UDP udp _ Hi') as [_ Hs]. apply (sh_open _ _ Hs) in Ho. by apply closeConns_not_open in Ho.
Qed.

(** ** Snell parents and reaping *)

Lemma good_closeParent id t : good t (closeParent id t).
Proof.
  unfold closeParent. destruct (t_parents t !! id); [| reflexivity].
  etransitivity; [| apply good_emit]. destruct (p_closed p); [reflexivity | quiet].
Qed.

Lemma good_prune_one t key : good t (prune_one t key).
Proof.
  unfold prune_one. destruct (t_states t !! key) as [a |]; [| quiet].
  destruct (t_heap t !! a); [| reflexivity]. destruct (_ && _); [| reflexivity].
  apply good_quiet; try done; cbn; [apply delete_subseteq |]. intros a' c' Hc'. exists c'. split; [done | by repeat split].
Qed.

Lemma good_prune t : good t (pruneSnellCounters t).
Proof. apply good_fold. intros. apply good_prune_one. Qed.

Lemma good_parent_stale ev force p t : good t (snd (parent_stale ev force p t)).
Proof.
  unfold parent_stale. destruct (force || _); [reflexivity |].
  destruct (p_state p); [apply good_deny_identity | reflexivity].
Qed.

Lemma good_collect_stale ev force acc id : good (snd acc) (snd (collect_stale ev force acc id)).
Proof.
  destruct acc as [closing t]. unfold collect_stale. cbn [snd]. destruct (t_parents t !! id) as [p |]; [| reflexivity].
  pose proof (good_parent_stale ev force p t) as H. by destruct (parent_stale ev force p t).
Qed.

Lemma good_reapSnell ev force t : good t (snd (reapSnellParents ev force t)).
Proof.
  unfold reapSnellParents.
  pose proof (good_fold_acc (collect_stale ev force) (elements (t_snellParents t)) ([], t) (good_collect_stale ev force)) as H.
  destruct (fold_left _ _ _) as [closing t']. cbn [snd] in *.
  etransitivity; [exact H |]. etransitivity; [| apply good_prune]. apply good_fold. intros. apply good_closeParent.
Qed.

Lemma good_closeActive ev key t : good t (closeActive ev key t).
Proof. etransitivity; [apply good_closeAll | apply good_reapSnell]. Qed.

Lemma good_collect_status ev acc ka : good (snd acc) (snd (collect_status ev acc ka)).
Proof.
  destruct acc as [keys t]. unfold collect_status. cbn [snd].
  destruct (t_heap (refresh ev (snd ka) t) !! snd ka); apply good_refresh.
Qed.

(** The part of [ReapAuthorization] after the revoked connections. *)
Definition reap_rest (ev : Event) (t : tracker) : tracker :=
  let '(keys, t) := fold_left (collect_status ev) (map_to_list (t_states t)) ([], t) in
  snd (reapSnellParents ev false (fold_left (fun t key => closeActive ev key t) keys t)).

Lemma good_reap_rest ev t : good t (reap_rest ev t).
Proof.
  unfold reap_rest.
  pose proof (good_fold_acc (collect_status ev) (map_to_list (t_states t)) ([], t) (good_collect_status ev)) as H.
  destruct (fold_left _ _ _) as [keys t']. cbn [snd] in H. etransitivity; [exact H |].
  etransitivity; [| apply good_reapSnell]. apply good_fold. intros. apply good_closeActive.
Qed.

Lemma ReapAuthorization_eq ev t :
  snd (ReapAuthorization ev t) =
  reap_rest ev (closeAll (revoked_in t (ev_now ev) (t_tcp t)) (revoked_in t (ev_now ev) (t_udp t)) t).
Proof.
  unfold ReapAuthorization, revokedConnections, reap_rest. by destruct (fold_left (collect_status ev) _ _).
Qed.

Lemma good_Reap ev t : good t (snd (ReapAuthorization ev t)).
Proof. rewrite ReapAuthorization_eq. etransitivity; [apply good_closeAll | apply good_reap_rest]. Qed.

(** The authorization verdict of a connection is the same after a shrink. *)
Lemma revoked_kin t t' now s s' id :
  t_auth t' = t_auth t -> t_disk t' = t_disk t -> state_identity s' = state_identity s ->
  authorizationRevokedFor t' now s' id = authorizationRevokedFor t now s id.
Proof.
  intros Ha Hd Hi. unfold state_identity in Hi. injection Hi as H1 H2 H3.
  unfold authorizationRevokedFor, Allows. by rewrite Ha, Hd, H1, H2, H3.
Qed.

Lemma conn_revoked_shrink t t' now c :
  shrink t t' -> is_Some (t_heap t !! c_state c) -> conn_revoked t' now c = conn_revoked t now c.
Proof.
  intros Hs [x Hx]. destruct (sh_heap _ _ Hs _ _ Hx) as (x' & Hx' & _ & Hid & _).
  unfold conn_revoked. rewrite Hx, Hx'. apply revoked_kin; [apply Hs | apply Hs | done].
Qed.

Lemma revoked_in_complete t now n id c :
  inv t -> open_in (the_index n t) id c -> conn_revoked t now c = true -> id ∈ revoked_in t now (the_index n t).
Proof.
  intros Hi Ho Hr. unfold revoked_in. apply list_elem_of_In, filter_In. destruct Ho as [Hc Hcl].
  split; [| by rewrite Hc]. apply list_elem_of_In, elem_of_elements, elem_of_union_list.
  destruct (inv_index _ Hi n) as [H1 _]. specialize (proj2 (H1 (state_key t (c_state c)) id)) as Hin.
  specialize (Hin ltac:(by exists c)).
  destruct (ix_active (the_index n t) !! state_key t (c_state c)) as [X |] eqn:E; cbn in Hin; [| set_solver].
  exists X. split; [| done]. apply list_elem_of_fmap. exists (state_key t (c_state c), X). split; [done |].
  by apply elem_of_map_to_list.
Qed.

(** No open connection is revoked once [ReapAuthorization] returns. *)
Lemma reap_complete ev t n id c :
  inv t -> open_in (the_index n (snd (ReapAuthorization ev t))) id c ->
  conn_revoked (snd (ReapAuthorization ev t)) (ev_now ev) c = false.
Proof.
  intros Hi Ho. pose proof (good_Reap ev t Hi) as [Hi' Hs].
  pose proof (sh_open _ _ Hs _ _ _ Ho) as Ho0.
  assert (is_Some (t_heap t !! c_state c)) as Hst by (eapply inv_conns; [done | apply Ho0]).
  rewrite (conn_revoked_shrink t) by done.
  destruct (conn_revoked t (ev_now ev) c) eqn:Er; [| done]. exfalso.
  rewrite ReapAuthorization_eq in Ho.
  destruct (good_closeAll (revoked_in t (ev_now ev) (t_tcp t)) (revoked_in t (ev_now ev) (t_udp t)) t Hi) as [Hi2 _].
  destruct (good_reap_rest ev _ Hi2) as [_ Hs2]. apply (sh_open _ _ Hs2) in Ho.
  eapply (closeAll_not_open _ _ t); [exact Hi | | exact Ho].
  pose proof (revoked_in_complete t (ev_now ev) n id c Hi Ho0 Er) as Hin. by destruct n.
Qed.

(** ** Denials *)

Lemma inv_auth t s d : inv t -> inv (t<|t_auth := s|><|t_disk := d|>).
Proof. intros [I1 I2 I3 I4 I5]. by split. Qed.

Lemma good_closeByCredential cred t : good t (snd (closeByCredential cred t)).
Proof. unfold closeByCredential. destruct (_ =s ""); [reflexivity | apply good_closeAll]. Qed.

Lemma closeByCredential_closes cred t n id c :
  inv t -> cred <> ""%string -> open_in (the_index n (snd (closeByCredential cred t))) id c ->
  authorizationKey (c_identity c) <> cred.
Proof.
  intros Hi Hne Ho He. pose proof (good_closeByCredential cred t Hi) as [_ Hs].
  pose proof (sh_open _ _ Hs _ _ _ Ho) as Ho0. revert Ho. unfold closeByCredential.
  rewrite (proj2 (str_eqb_neq _ _) Hne). cbn [snd]. intros Ho.
  eapply (closeAll_not_open _ _ t); [exact Hi | | exact Ho].
  assert (id ∈ members (ix_byCredential (the_index n t)) cred) as Hin.
  { apply elem_of_elements. destruct (inv_index _ Hi n) as [_ H2]. apply H2. by exists c. }
  by destruct n.
Qed.

Definition close_keys (keys : list string) (acc : nat * tracker) : nat * tracker :=
  fold_left (fun '(n, t) key => let '(m, t) := closeByCredential key t in ((n + m)%nat, t)) keys acc.

Lemma good_close_keys keys acc : good (snd acc) (snd (close_keys keys acc)).
Proof.
  apply good_fold_acc. intros [m t] key. cbn. pose proof (good_closeByCredential key t) as H.
  by destruct (closeByCredential key t).
Qed.

Lemma close_keys_closes keys acc n id c :
  inv (snd acc) -> authorizationKey (c_identity c) ∈ keys -> authorizationKey (c_identity c) <> ""%string ->
  ~ open_in (the_index n (snd (close_keys keys acc))) id c.
Proof.
  revert acc. induction keys as [| k keys IH]; intros [m t] Hi Hin Hne; [set_solver |].
  cbn [close_keys fold_left snd] in *. pose proof (good_closeByCredential k t) as Hg.
  pose proof (closeByCredential_closes k t n id c) as Hc.
  destruct (closeByCredential k t) as [m' t'] eqn:E. cbn [snd] in *.
  fold (close_keys keys ((m + m')%nat, t')). destruct (Hg Hi) as [Hi' _].
  destruct (decide (authorizationKey (c_identity c) = k)) as [Hk | Hk].
  - intros Ho. pose proof (good_close_keys keys ((m + m')%nat, t') Hi') as [_ Hs].
    apply (sh_open _ _ Hs) in Ho. apply (Hc Hi); [congruence | done | done].
  - apply IH; [done | set_solver | done].
Qed.

Lemma auth_Deny_inv ev keys rev t : inv t -> inv (snd (auth_Deny ev keys rev t)).
Proof. intros Hi. unfold auth_Deny. destruct (store_Deny _ _ _ _ _) as [[[h e] s] d]. by apply inv_auth. Qed.

Lemma auth_Update_inv ev l t : inv t -> inv (snd (auth_Update ev l t)).
Proof.
  intros Hi. unfold auth_Update. destruct (store_UpdateWithResult _ _ _ _) as [[[[u h] e] s] d]. by apply inv_auth.
Qed.

Lemma DenyAuthorization_eq ev keys rev t :
  DenyAuthorization ev keys rev t =
  match auth_Deny ev keys rev t with
  | (Some e, t) => ((O, Some e), t)
  | (None, t) => ((fst (close_keys keys (O, t)), None), snd (close_keys keys (O, t)))
  end.
Proof.
  unfold DenyAuthorization. destruct (auth_Deny _ _ _ _) as [[e |] t']; [done |].
  unfold close_keys. by destruct (fold_left _ keys (O, t')).
Qed.

Lemma DenyAuthorization_inv ev keys rev t : inv t -> inv (snd (DenyAuthorization ev keys rev t)).
Proof.
  intros Hi. rewrite DenyAuthorization_eq. pose proof (auth_Deny_inv ev keys rev t Hi) as Hi'.
  destruct (auth_Deny ev keys rev t) as [[e |] t']; [done |]. cbn [snd] in *.
  by apply (good_close_keys keys (O, t')).
Qed.

(** ** Applying authorization *)

Lemma ApplyAuthorization_cases ev ev' lease deny t :
  inv t ->
  inv (snd (ApplyAuthorization ev ev' lease deny t)) /\
  (fst (ApplyAuthorization ev ev' lease deny t) = None ->
   exists t1, inv t1 /\ snd (ApplyAuthorization ev ev' lease deny t) = snd (ReapAuthorization ev' t1)).
Proof.
  intros Hi. unfold ApplyAuthorization.
  set (r := match lease with Some l => l_Revision l | None => 0 end).
  assert (inv (snd (if (0 <? List.length deny)%nat then auth_Deny ev deny r t else (None, t)))) as H1.
  { destruct (0 <? _)%nat; [by apply auth_Deny_inv | done]. }
  destruct (if (0 <? List.length deny)%nat then _ else _) as [[e |] t1]; [done |]. cbn [snd] in H1.
  pose proof (auth_Update_inv ev' lease t1 H1) as H2. clear r. destruct lease as [l |].
  - destruct (auth_Update ev' (Some l) t1) as [[e |] t2]; [done |]. cbn [snd fst] in *.
    split; [by apply good_Reap | eauto].
  - split; [by apply good_Reap | eauto].
Qed.

(** ** New connections *)

(** The connection [c] entered in the index of its kind. *)
Definition enter (n : net) (id : nat) (c : trackedConn) (t : tracker) : tracker :=
  let t := with_index n (fun ix => opened_index (state_key t) ix id c) t in
  match n with TCP => t<|t_activeTCP ::= fun x => x + 1|> | UDP => t end.

Lemma enter_inv n id c t :
  inv t -> (t_next t = S id)%nat -> ix_conns (the_index n t) !! id = None -> c_closed c = false ->
  is_Some (t_heap t !! c_state c) -> inv (enter n id c t).
Proof.
  intros [I1 I2 I3 I4 [I5 I6]] Hn Hf Ho Hh.
  assert (the_index n (enter n id c t) = opened_index (state_key t) (the_index n t) id c) as Hix by (by destruct n).
  assert (forall n', n' <> n -> the_index n' (enter n id c t) = the_index n' t) as Hother by (by destruct n; intros []).
  assert (t_heap (enter n id c t) = t_heap t /\ t_states (enter n id c t) = t_states t /\
    t_next (enter n id c t) = t_next t) as (Hheap & Hst & Hnx) by (by destruct n).
  assert (forall n' id' c', ix_conns (the_index n' (enter n id c t)) !! id' = Some c' ->
    (id' = id /\ c' = c) \/ ix_conns (the_index n' t) !! id' = Some c') as Hconns.
  { intros n' id' c'. destruct (decide (n' = n)) as [-> | Hne]; [| rewrite Hother by done; eauto].
    rewrite Hix, opened_index_conns. destruct (decide (id' = id)) as [-> | Hid].
    - rewrite lookup_insert_eq. intros [= <-]. eauto.
    - rewrite lookup_insert_ne by done. eauto. }
  split.
  - intros n'. apply (index_exact_ext (state_key t)); [intros; unfold state_key; by rewrite Hheap |].
    destruct (decide (n' = n)) as [-> | Hne]; [rewrite Hix; by apply opened_index_exact | by rewrite Hother].
  - destruct n; [| exact I2].
    cbn [the_index] in Hix. rewrite Hix, opened_index_count by done. unfold enter. cbn. lia.
  - intros n' id' c' Hc'. rewrite Hheap. destruct (Hconns _ _ _ Hc') as [[-> ->] | Hc0]; eauto.
  - intros key a. rewrite Hst, Hheap. apply I4.
  - split; intros.
    + destruct H as [c' Hc']. rewrite Hnx. destruct (Hconns _ _ _ Hc') as [[-> ->] | Hc0]; [lia |].
      apply (I5 n0). eauto.
    + rewrite Hnx. rewrite Hheap in H. auto.
Qed.

(** Registration enters the connection, then applies the verdict. *)
Lemma registerConn_enter ev n key id c t :
  key <> ""%string -> key = state_key t (c_state c) ->
  exists t1,
    (forall m, the_index m t1 = the_index m (enter n id c t)) /\
    t_heap t1 = t_heap t /\ t_states t1 = t_states t /\ t_next t1 = t_next t /\
    t_auth t1 = t_auth t /\ t_disk t1 = t_disk t /\ t_activeTCP t1 = t_activeTCP (enter n id c t) /\
    registerConn ev n key id c (with_index n (fun ix => ix<|ix_conns ::= <[id := c]>|>) t) =
      close_if n id (conn_deny ev c t1).
Proof.
  intros Hne ->. unfold registerConn. rewrite (proj2 (str_eqb_neq _ _) Hne).
  destruct n; eexists; (split_and!; [.. | reflexivity]; [by intros [] | done ..]).
Qed.

(** [inv] depends on these parts only. *)
Lemma inv_same t t' :
  (forall m, the_index m t' = the_index m t) -> t_heap t' = t_heap t -> t_states t' = t_states t ->
  t_next t' = t_next t -> t_activeTCP t' = t_activeTCP t -> inv t -> inv t'.
Proof.
  intros Hix Hh Hs Hn Hg [I1 I2 I3 I4 [I5 I6]].
  assert (forall a, state_key t' a = state_key t a) as Hk by (intros; unfold state_key; by rewrite Hh).
  split.
  - intros m. rewrite Hix. eapply index_exact_ext; [| apply I1]. auto.
  - rewrite Hg, I2. change (t_tcp t') with (the_index TCP t'). by rewrite Hix.
  - intros m id c. rewrite Hix, Hh. apply I3.
  - intros key a. rewrite Hs, Hh. apply I4.
  - split; [intros m id; rewrite Hix, Hn; apply I5 | intros a; rewrite Hh, Hn; apply I6].
Qed.

Lemma runtimeFor_registered t inbound user a :
  inv t -> runtimeFor t inbound user = Some a ->
  exists c, t_heap t !! a = Some c /\ rs_key (cell_state c) <> ""%string.
Proof.
  intros Hi. unfold runtimeFor, stateForKey.
  assert (forall key b, t_states t !! key = Some b -> exists c, t_heap t !! b = Some c /\ rs_key (cell_state c) <> ""%string) as Hs.
  { intros key b Hb. destruct (inv_states _ Hi _ _ Hb) as (Hne & c & Hc & <-). eauto. }
  destruct (if user =s "" then None else _) as [b |] eqn:E.
  - intros [= <-]. revert E. destruct (user =s ""); [done |]. destruct (_ =s ""); [done | eauto].
  - clear E. destruct (inbound =s ""); [done |]. destruct (_ =s ""); [done | eauto].
Qed.

(** The tracker right before the verdict of the last line of
    [RoutedConnection]. *)
Lemma RoutedConnection_cases ev n inbound user ak t r t' :
  inv t -> RoutedConnection ev n inbound user ak t = (r, t') ->
  (r = None /\ good t t') \/
  exists id c t1, r = Some id /\ inv t1 /\ is_Some (t_heap t1 !! c_state c) /\
    (forall c', open_in (the_index n t1) id c' -> c' = c) /\
    t' = close_if n id (conn_deny ev c t1).
Proof.
  intros Hi. unfold RoutedConnection. destruct (runtimeFor t inbound user) as [a |] eqn:Er;
    [| intros [= <- <-]; left; split; [done | reflexivity]].
  destruct (good_refresh ev a t Hi) as [Hi1 Hs1].
  destruct (runtimeFor_registered _ _ _ _ Hi Er) as (c0 & Hc0 & Hne).
  destruct (sh_heap _ _ Hs1 _ _ Hc0) as (c & Hc & Hkey & _). rewrite Hc.
  destruct (_ && _ && _); [intros [= <- <-]; left; split; [done | apply good_refresh] |].
  destruct (good_state_denied ev a (refresh ev a t) Hi1) as [Hi2 Hs2].
  destruct (state_denied ev a (refresh ev a t)) as [den t2]. cbn [snd] in *.
  destruct (sh_heap _ _ Hs2 _ _ Hc) as (c2 & Hc2 & Hkey2 & _).
  set (conn := mkConn a _ _ ak false). set (t3 := emit _ _).
  assert (inv t3 /\ ix_conns (the_index n t3) !! t_next t2 = None) as [Hi3 Hfresh].
  { destruct Hi2 as [I1 I2 I3 I4 [I5 I6]]. split.
    - split; try done. split; intros; cbn; [specialize (I5 n0 _ H) | specialize (I6 _ H)]; lia.
    - destruct (ix_conns (the_index n t3) !! t_next t2) eqn:E; [| done].
      specialize (I5 n (t_next t2) ltac:(by destruct n; eauto)). lia. }
  assert (rs_key (cell_state c) = state_key t3 (c_state conn)) as Hk.
  { unfold state_key. cbn. rewrite Hc2. congruence. }
  destruct (registerConn_enter ev n (rs_key (cell_state c)) (t_next t2) conn t3 ltac:(congruence) Hk)
    as (t4 & Hix & Hh & Hst & Hn & Ha & Hd & Hg & ->).
  assert (inv t4) as Hi4.
  { apply (inv_same (enter n (t_next t2) conn t3)); try done; try (by destruct n).
    by apply enter_inv; eauto. }
  pose proof (good_conn_deny ev conn t4 Hi4) as [Hi5 Hs5].
  pose proof (good_close_if n (t_next t2) (conn_deny ev conn t4) Hi5) as [Hi6 Hs6].
  intros [= <- <-]. right. exists (t_next t2), conn, (close_if n (t_next t2) (conn_deny ev conn t4)).
  split_and!; try done.
  - destruct (shrink_trans _ _ _ Hs5 Hs6) as [_ Hheap _ _ _ _].
    destruct (Hheap a c2) as (x & Hx & _); [by rewrite Hh |]. eauto.
  - intros c' Ho. apply (sh_open _ _ Hs6), (sh_open _ _ Hs5) in Ho. rewrite Hix in Ho.
    assert (open_in (opened_index (state_key t3) (the_index n t3) (t_next t2) conn) (t_next t2) c') as Ho'
      by (by destruct n).
    apply opened_index_open in Ho' as [[_ ->] | [Hx _]]; [done | | done | done]. congruence.
Qed.

End TrackerFacts.

(** ** Every operation keeps the invariant *)

Section Runs.
Context {A : AEAD} {CL : Codec Lease} {CD : Codec (gmap string deniedEntry)} {TZ : TimeZones}.
Context (sha256 : string -> bytes).

Lemma inv_new_state t t' a x key :
  inv t -> a = t_next t -> rs_key (cell_state x) = key -> key <> ""%string ->
  (forall n, the_index n t' = the_index n t) -> t_activeTCP t' = t_activeTCP t ->
  t_heap t' = <[a := x]> (t_heap t) -> t_states t' = <[key := a]> (t_states t) -> (a < t_next t')%nat -> inv t'.
Proof.
  intros [I1 I2 I3 I4 [I5 I6]] -> Hk Hne Hix Hg Hh Hs Hn.
  assert (forall b, is_Some (t_heap t !! b) -> b <> t_next t) as Hold by (intros b Hb ->; specialize (I6 _ Hb); lia).
  split.
  - intros n. rewrite Hix. eapply index_exact_ext; [| apply I1]. intros id c [Hc _].
    unfold state_key. rewrite Hh, lookup_insert_ne; [done |]. apply not_eq_sym, Hold. eauto.
  - rewrite Hg, I2. change (t_tcp t') with (the_index TCP t'). by rewrite Hix.
  - intros n id c. rewrite Hix, Hh. intros Hc. rewrite lookup_insert_is_Some. destruct (I3 _ _ _ Hc) as [y Hy].
    right. split; [| eauto]. apply not_eq_sym, Hold. eauto.
  - intros k b. rewrite Hs, Hh. intros [[<- <-] | [Hkk Hb]]%lookup_insert_Some.
    + split; [done |]. exists x. by rewrite lookup_insert_eq.
    + destruct (I4 _ _ Hb) as (Hkn & y & Hy & Hyk). split; [done |]. exists y.
      rewrite lookup_insert_ne; [done |]. apply not_eq_sym, Hold. eauto.
  - split.
    + intros n id. rewrite Hix. intros Hid. specialize (I5 _ _ Hid). lia.
    + intros b. rewrite Hh, lookup_insert_is_Some. intros [<- | [_ Hb]]; [lia |]. specialize (I6 _ Hb). lia.
Qed.

Lemma newRuntimeState_key key user inbound p ep : rs_key (newRuntimeState key user inbound p ep) = key.
Proof. unfold newRuntimeState, storePolicyLocked. by destruct (newRuntimeLimiters p). Qed.

(** A changed policy may rename the user, never the key. *)
Lemma inv_put_state a s c t :
  inv t -> t_heap t !! a = Some c -> rs_key s = rs_key (cell_state c) -> inv (put_state a s t).
Proof.
  intros [I1 I2 I3 I4 [I5 I6]] Hc Hk.
  assert (forall b, state_key (put_state a s t) b = state_key t b) as Hkey.
  { intros b. unfold state_key, put_state. cbn. destruct (decide (a = b)) as [<- | Hne].
    - rewrite lookup_alter_eq, Hc. exact Hk.
    - by rewrite lookup_alter_ne. }
  assert (forall b, is_Some (t_heap (put_state a s t) !! b) <-> is_Some (t_heap t !! b)) as Hdom.
  { intros b. cbn. destruct (decide (a = b)) as [<- | Hne].
    - rewrite lookup_alter_eq. apply fmap_is_Some.
    - by rewrite lookup_alter_ne. }
  split.
  - intros n. assert (the_index n (put_state a s t) = the_index n t) as -> by (by destruct n).
    eapply index_exact_ext; [| apply I1]. auto.
  - done.
  - intros n id x Hx. apply Hdom, (I3 n id). by destruct n.
  - intros key b Hb. destruct (I4 _ _ Hb) as (Hne & y & Hy & Hyk). split; [done |].
    destruct (proj2 (Hdom b)) as [z Hz]; [eauto |]. exists z. split; [done |].
    specialize (Hkey b). unfold state_key in Hkey. rewrite Hz, Hy in Hkey. congruence.
  - split; [intros n id Hid; apply (I5 n); by destruct n |]. intros b Hb. apply I6, Hdom, Hb.
Qed.

Lemma updatePolicy_key p ep s : rs_key (updatePolicy p ep s) = rs_key s.
Proof. unfold updatePolicy, storePolicyLocked. by destruct (newRuntimeLimiters p). Qed.

(** A state created at the next address. *)
Ltac new_state Hi :=
  eapply inv_new_state;
    [exact Hi | reflexivity | | | by intros [] | done | reflexivity | reflexivity | cbn; lia];
    [apply newRuntimeState_key | done].

Lemma inv_install_user ev t e : inv t -> inv (install_user ev t e).
Proof.
  intros Hi. unfold install_user. destruct (_ =s ""); [done |]. set (key := ("user:" +:+ _)%string).
  destruct (t_states t !! key) as [a |] eqn:Ek.
  - destruct (t_heap t !! a) as [c |] eqn:Ec; [| done]. by eapply inv_put_state; [.. | apply updatePolicy_key].
  - destruct (0 <? _); [destruct (shared_usage _ _) |];
      new_state Hi.
Qed.

Lemma inv_add_state ev key user inbound p acc :
  key <> ""%string -> inv (snd acc) -> inv (snd (add_state ev key user inbound p acc)).
Proof.
  destruct acc as [m t]. cbn [snd]. intros Hne Hi. unfold add_state, usage_for.
  destruct (UserID p <=? 0); [| destruct (m !! UserID p)]; cbn [snd];
    new_state Hi.
Qed.

Lemma inv_empty s d b : inv (empty_tracker s d b).
Proof.
  assert (forall K, index_exact K empty_index) as He.
  { assert (forall i c, ~ open_in empty_index i c) as Ho.
    { intros i c [Hc _]. cbn in Hc. by rewrite lookup_empty in Hc. }
    assert (forall (k : string) i, i ∉ default (∅ : gset nat) ((∅ : gmap string (gset nat)) !! k)) as Hn.
    { intros k i. rewrite lookup_empty. apply not_elem_of_empty. }
    intros K. split; intros k i; split.
    - intros Hin. by apply Hn in Hin.
    - intros (c & Hc & _). by apply Ho in Hc.
    - intros Hin. by apply Hn in Hin.
    - intros (c & Hc & _). by apply Ho in Hc. }
  split.
  - intros []; apply He.
  - done.
  - intros [] id c; cbn; by rewrite lookup_empty.
  - intros key a. cbn. by rewrite lookup_empty.
  - split; [intros [] id | intros a]; cbn; rewrite lookup_empty; by intros [? ?].
Qed.

Lemma inv_new ev boot users inbounds lease audit d : inv (newRateLimitTracker ev boot users inbounds lease audit d).
Proof.
  unfold newRateLimitTracker. destruct (store_UpdateWithResult _ _ _ _) as [[x s] d'].
  apply (fold_left_inv _ (fun acc => inv (snd acc))).
  - apply (fold_left_inv _ (fun acc => inv (snd acc))); [apply inv_empty |].
    intros acc up _ Ha. destruct (_ =s ""); [done |]. by apply inv_add_state.
  - intros acc ip _ Ha. destruct (_ =s ""); [done |]. by apply inv_add_state.
Qed.

Lemma good_apply_policy ev t ap c :
  t_heap t !! fst ap = Some c -> state_identity (cell_state c) =
    mkIdentity (AuthorizationKey (snd ap)) (CredentialEpoch (snd ap)) (UserID (snd ap)) ->
  good t (apply_policy ev t ap).
Proof.
  destruct ap as [a p]. cbn [fst snd]. intros Hc Hid. unfold apply_policy. rewrite Hc.
  set (t1 := put_state _ _ _).
  assert (good t t1) as Hg.
  { eapply good_put_state; [done | apply updatePolicy_key |]. rewrite Hid.
    unfold state_identity, updatePolicy. by rewrite storePolicy_policy. }
  set (id := match t_heap t1 !! a with Some _ => _ | None => _ end).
  pose proof (good_deny_identity ev a id true t1) as Hd.
  destruct (deny_identity ev a id true t1) as [d t2]. cbn [snd] in Hd.
  etransitivity; [exact Hg |]. etransitivity; [exact Hd |]. destruct d; [apply good_closeActive | reflexivity].
Qed.

(** The entries of [updates] carry the identity of their state. *)
Definition updates_ok (t : tracker) (m : gmap nat RuntimeUserLimit) : Prop :=
  forall a p, m !! a = Some p -> exists c, t_heap t !! a = Some c /\
    state_identity (cell_state c) = mkIdentity (AuthorizationKey p) (CredentialEpoch p) (UserID p).

Lemma policy_updates_ok t m kp : updates_ok t m -> updates_ok t (policy_updates t m kp).
Proof.
  destruct kp as [key p]. intros Hm. unfold policy_updates.
  assert (forall a m, updates_ok t m -> updates_ok t (match t_heap t !! a with
    | Some c => <[a := mergeRuntimePolicy (policy (config (cell_state c))) p]> m | None => m end)) as Hins.
  { intros a m' Hm'. destruct (t_heap t !! a) as [c |] eqn:E; [| done].
    intros b q [[<- <-] | [_ Hq]]%lookup_insert_Some; [| by apply Hm'].
    exists c. split; [done | reflexivity]. }
  assert (updates_ok t (match t_states t !! key with Some a => match t_heap t !! a with
    | Some c => <[a := mergeRuntimePolicy (policy (config (cell_state c))) p]> m | None => m end | None => m end)) as H1.
  { destruct (t_states t !! key); auto. }
  destruct (UserID p <=? 0); [done |].
  apply (fold_left_inv _ (updates_ok t)); [done |]. intros acc ka _ Ha. destruct (_ =? _); auto.
Qed.

Lemma good_UpdatePolicies ev policies t : good t (UpdatePolicies ev policies t).
Proof.
  unfold UpdatePolicies.
  assert (updates_ok t (fold_left (policy_updates t) policies ∅)) as Hu.
  { apply (fold_left_inv _ (updates_ok t)); [intros a p; by rewrite lookup_empty |].
    intros. by apply policy_updates_ok. }
  assert (forall ap, ap ∈ map_to_list (fold_left (policy_updates t) policies ∅) -> exists c,
    t_heap t !! fst ap = Some c /\ state_identity (cell_state c) =
      mkIdentity (AuthorizationKey (snd ap)) (CredentialEpoch (snd ap)) (UserID (snd ap))) as Hl.
  { intros [a p] Hap. apply elem_of_map_to_list in Hap. by apply Hu. }
  intros Hi. apply (fold_left_inv _ (fun t' => inv t' /\ shrink t t')); [split; [done | apply shrink_refl] |].
  intros t' ap Hap [Hi' Hs]. destruct (Hl ap Hap) as (c & Hc & Hid).
  destruct (sh_heap _ _ Hs _ _ Hc) as (c' & Hc' & _ & Hid' & _).
  destruct (good_apply_policy ev t' ap c' Hc' ltac:(congruence) Hi') as [Hi2 Hs2].
  split; [done | by eapply shrink_trans].
Qed.

Lemma good_ack_one t kc : good t (ack_one t kc).
Proof.
  destruct kc as [key cp]. unfold ack_one. destruct (t_states t !! key) as [a |]; [| reflexivity].
  destruct (t_heap t !! a) as [c |] eqn:E; [| reflexivity].
  pose proof (acknowledge_kin cp (cell_state c) (cell_usage_of t c)) as Hk.
  destruct (acknowledge _ _ _) as [s u]. etransitivity; [by eapply good_put_kin | apply good_put_usage].
Qed.

Lemma good_Acknowledge acks t : good t (AcknowledgeTraffic acks t).
Proof. etransitivity; [| apply good_prune]. apply good_fold. intros. apply good_ack_one. Qed.

Lemma good_Snapshot ev t : good t (snd (Snapshot ev t)).
Proof.
  apply (good_fold_acc (snapshot_one ev) (map_to_list (t_states t)) ([], t)).
  intros [out t'] ka. unfold snapshot_one. cbn [snd].
  destruct (t_heap t' !! snd ka) as [c |] eqn:E; [| reflexivity].
  pose proof (snapshot_kin (ev_now ev) (ev_epoch ev (snd ka)) (cell_state c)) as Hk.
  destruct (state_snapshot _ _ _) as [o s]. by eapply good_put_kin.
Qed.

Lemma good_publish scope entries t : good t (publishSnellUsers sha256 scope entries t).
Proof.
  unfold publishSnellUsers. etransitivity; [| apply good_fold; intros t' e; destruct (_ =s ""); [reflexivity | quiet]].
  quiet.
Qed.

Lemma good_CloseSnellInbound tag t : good t (CloseSnellInbound tag t).
Proof. apply good_fold. intros. apply good_closeParent. Qed.

Lemma good_Admit ev inbound user p t : good t (snd (Admit ev inbound user p t)).
Proof.
  unfold Admit. destruct (t_usersFailed t); [reflexivity |]. destruct (runtimeFor _ _ _) as [a |]; [| reflexivity].
  destruct (t_heap t !! a); [| reflexivity]. destruct (_ =s ""); [reflexivity |].
  pose proof (good_state_denied ev a t) as H1. destruct (state_denied ev a t) as [d t1]. cbn [snd] in H1.
  destruct d; [done |]. destruct p as [id |]; [| done].
  destruct (t_snellUsers t1 !! _), (t_parents t1 !! id), (t_heap t1 !! a); try done.
  destruct (_ || _); [done |].
  pose proof (good_state_denied ev a t1) as H2. destruct (state_denied ev a t1) as [d2 t2]. cbn [snd] in H2.
  etransitivity; [exact H1 |]. destruct d2; [done |].
  destruct (match p_state p with Some _ => _ | None => _ end); [done |].
  etransitivity; [exact H2 |]. quiet.
Qed.

Lemma good_current_limiter sel ev a t : good t (snd (current_limiter sel ev a t)).
Proof. apply good_refresh. Qed.

Lemma good_Read ev id c r t : good t (snd (conn_Read ev id c r t)).
Proof.
  unfold conn_Read. pose proof (good_conn_deny ev c t) as H1. destruct (conn_deny ev c t) as [d t1]. cbn [snd] in H1.
  etransitivity; [exact H1 |]. destruct d; [reflexivity |]. unfold current_limiter.
  destruct (tr_n r <=? 0); [apply good_refresh |]. cbn [snd].
  etransitivity; [apply good_refresh |]. etransitivity; [apply good_refresh |].
  etransitivity; [apply good_conn_addTraffic |]. etransitivity; [apply good_conn_deny | apply good_close_if].
Qed.

Lemma good_write_chunks ev id c rs total size t : good t (snd (write_chunks ev id c rs total size t)).
Proof.
  revert total size t. induction rs as [| r rs IH]; intros total size t; cbn [write_chunks];
    destruct (size <=? 0); try reflexivity.
  destruct (tr_waitErr r); [reflexivity |].
  assert (good t (if 0 <? tr_n r then conn_addTraffic ev id c 0 (tr_n r) t else t)) as H
    by (destruct (0 <? tr_n r); [apply good_conn_addTraffic | reflexivity]).
  destruct (tr_err r); [exact H |]. destruct (negb _); [exact H |]. etransitivity; [exact H | apply IH].
Qed.

Lemma good_Write ev id c size rs t : good t (snd (conn_Write ev id c size rs t)).
Proof.
  unfold conn_Write. pose proof (good_conn_deny ev c t) as H1. destruct (conn_deny ev c t) as [d t1]. cbn [snd] in H1.
  etransitivity; [exact H1 |]. destruct d; [reflexivity |].
  pose proof (good_current_limiter writeLimiter ev (c_state c) t1) as H2.
  destruct (current_limiter writeLimiter ev (c_state c) t1) as [lim t2]. cbn [snd] in H2.
  etransitivity; [exact H2 |]. destruct lim as [l |].
  - pose proof (good_write_chunks ev id c rs 0 size t2) as H3.
    destruct (write_chunks ev id c rs 0 size t2) as [[total [e |]] t3]; cbn [snd] in *; [done |].
    etransitivity; [exact H3 |]. etransitivity; [apply good_conn_deny | apply good_close_if].
  - destruct rs as [| r rs]; [reflexivity |]. destruct (tr_n r <=? 0); [reflexivity |]. cbn [snd].
    etransitivity; [apply good_conn_addTraffic |]. etransitivity; [apply good_conn_deny | apply good_close_if].
Qed.

Lemma good_count_close ev n id c up down t :
  good t (let t := conn_addTraffic ev id c up down t in close_if n id (conn_deny ev c t)).
Proof.
  cbv zeta. etransitivity; [apply good_conn_addTraffic |]. etransitivity; [apply good_conn_deny | apply good_close_if].
Qed.

(** Step over the verdict and the limiter every payload starts with. *)
Ltac enter_payload :=
  match goal with
  | |- context [conn_deny ?ev ?c ?t] =>
      etransitivity; [apply (good_conn_deny ev c t) |]; destruct (conn_deny ev c t) as [[] ?]; cbn [snd]; [reflexivity |]
  end.
Ltac enter_limiter :=
  match goal with
  | |- context [current_limiter ?sel ?ev ?a ?t] =>
      etransitivity; [apply (good_current_limiter sel ev a t) |]; destruct (current_limiter sel ev a t) as [? ?]; cbn [snd]
  end.

Lemma good_ReadBuffer ev id c r t : good t (snd (ReadBuffer ev id c r t)).
Proof.
  unfold ReadBuffer. enter_payload. destruct (tr_n r <=? 0); [reflexivity |]. enter_limiter.
  destruct (_ && _ && _); [reflexivity | apply good_count_close].
Qed.

Lemma good_buffer_chunks ev id c rs len t : good t (snd (buffer_chunks ev id c rs len t)).
Proof.
  revert len t. induction rs as [| r rs IH]; intros len t; cbn [buffer_chunks]; [reflexivity |].
  destruct (tr_waitErr r); [reflexivity |].
  assert (good t (if 0 <? tr_n r then conn_addTraffic ev id c 0 (tr_n r) t else t)) as H
    by (destruct (0 <? tr_n r); [apply good_conn_addTraffic | reflexivity]).
  destruct (rateLimitIOChunk <? len).
  - destruct (tr_err r); [exact H |]. destruct (negb _); [exact H |]. etransitivity; [exact H | apply IH].
  - etransitivity; [exact H |]. etransitivity; [apply good_conn_deny | apply good_close_if].
Qed.

Lemma good_WriteBuffer ev id c len rs t : good t (snd (WriteBuffer ev id c len rs t)).
Proof.
  unfold WriteBuffer. enter_payload. destruct (len =? 0); [reflexivity |]. enter_limiter.
  destruct o; [apply good_buffer_chunks |]. destruct rs as [| r rs]; [reflexivity |].
  destruct (tr_n r <=? 0); [reflexivity | apply good_count_close].
Qed.

Lemma good_countUpload ev id c n t : good t (countUpload ev id c n t).
Proof. unfold countUpload. destruct (n <=? 0); [reflexivity | apply good_count_close]. Qed.

Lemma good_countDownload ev id c n t : good t (countDownload ev id c n t).
Proof. unfold countDownload. destruct (n <=? 0); [reflexivity | apply good_count_close]. Qed.

Lemma good_ReadPacket ev id c r t : good t (snd (ReadPacket ev id c r t)).
Proof.
  unfold ReadPacket. enter_payload. destruct (tr_err r); [reflexivity |]. destruct (tr_n r <=? 0); [reflexivity |].
  enter_limiter. destruct (_ && _); [reflexivity | apply good_count_close].
Qed.

Lemma good_WritePacket ev id c size r t : good t (snd (WritePacket ev id c size r t)).
Proof.
  unfold WritePacket. enter_payload. destruct (0 <? size).
  - enter_limiter. destruct (_ && _); [reflexivity |]. destruct (tr_err r); [reflexivity | apply good_count_close].
  - cbn [andb bool_decide]. destruct (_ && _); [reflexivity |]. by destruct (tr_err r).
Qed.

(** ** Runs of the tracker *)

Inductive op :=
| OpRouted (n : net) (inbound user auditKey : string)
| OpRead (id : nat) (r : transfer)
| OpWrite (id : nat) (size : Z) (rs : list transfer)
| OpReadBuffer (id : nat) (r : transfer)
| OpWriteBuffer (id : nat) (len : Z) (rs : list transfer)
| OpCountUpload (id : nat) (bytes : Z)
| OpCountDownload (id : nat) (bytes : Z)
| OpReadPacket (id : nat) (r : transfer)
| OpWritePacket (id : nat) (size : Z) (r : transfer)
| OpClose (n : net) (id : nat)
| OpDenyAuth (keys : list string) (revision : Z)
| OpApply (ev' : Event) (lease : option Lease) (deny : list string)
| OpInitialize (path : string) (key : bytes) (boot : string) (lease : option Lease)
| OpReap
| OpPolicies (policies : list (string * RuntimeUserLimit))
| OpAcks (acks : list (string * TrafficCounterAcknowledgement))
| OpUsers (entries : list UserInstallEntry)
| OpPublish (scope : list string) (entries : list UserInstallEntry)
| OpReapSnell (force : bool)
| OpAdmit (inbound user : string) (parent : option nat)
| OpCloseSnell (tag : string)
| OpSnapshot.

(** A payload on a connection that exists. *)
Definition on_conn (n : net) (id : nat) (t : tracker) (f : trackedConn -> tracker) : tracker :=
  match ix_conns (the_index n t) !! id with Some c => f c | None => t end.

Definition step (t : tracker) (evo : Event * op) : tracker :=
  let '(ev, o) := evo in
  match o with
  | OpRouted n inbound user ak => snd (RoutedConnection ev n inbound user ak t)
  | OpRead id r => on_conn TCP id t (fun c => snd (conn_Read ev id c r t))
  | OpWrite id size rs => on_conn TCP id t (fun c => snd (conn_Write ev id c size rs t))
  | OpReadBuffer id r => on_conn TCP id t (fun c => snd (ReadBuffer ev id c r t))
  | OpWriteBuffer id len rs => on_conn TCP id t (fun c => snd (WriteBuffer ev id c len rs t))
  | OpCountUpload id n => on_conn TCP id t (fun c => countUpload ev id c n t)
  | OpCountDownload id n => on_conn TCP id t (fun c => countDownload ev id c n t)
  | OpReadPacket id r => on_conn UDP id t (fun c => snd (ReadPacket ev id c r t))
  | OpWritePacket id size r => on_conn UDP id t (fun c => snd (WritePacket ev id c size r t))
  | OpClose n id => closeConn n id t
  | OpDenyAuth keys rev => snd (DenyAuthorization ev keys rev t)
  | OpApply ev' lease deny => snd (ApplyAuthorization ev ev' lease deny t)
  | OpInitialize path key boot lease => snd (InitializeAuthorization ev path key boot lease t)
  | OpReap => snd (ReapAuthorization ev t)
  | OpPolicies ps => UpdatePolicies ev ps t
  | OpAcks acks => AcknowledgeTraffic acks t
  | OpUsers entries => ReplaceScopedUsers ev entries t
  | OpPublish scope entries => publishSnellUsers sha256 scope entries t
  | OpReapSnell force => snd (reapSnellParents ev force t)
  | OpAdmit inbound user p => snd (Admit ev inbound user p t)
  | OpCloseSnell tag => CloseSnellInbound tag t
  | OpSnapshot => snd (Snapshot ev t)
  end.

Definition run (t : tracker) (ops : list (Event * op)) : tracker := fold_left step ops t.

Lemma Initialize_inv ev path key boot lease t : inv t -> inv (snd (InitializeAuthorization ev path key boot lease t)).
Proof.
  intros Hi. unfold InitializeAuthorization. destruct (_ && _); [done |].
  destruct (store_UpdateWithResult _ _ _ _) as [[[[u h] [e |]] s] d]; [| by apply inv_auth].
  apply (inv_auth t (t_auth t) d) in Hi. by destruct t.
Qed.

Lemma Routed_inv ev n inbound user ak t : inv t -> inv (snd (RoutedConnection ev n inbound user ak t)).
Proof.
  intros Hi. destruct (RoutedConnection ev n inbound user ak t) as [r t'] eqn:E.
  destruct (RoutedConnection_cases _ _ _ _ _ _ _ _ Hi E) as [[_ Hg] | (id & c & t1 & _ & Hi1 & _ & _ & ->)];
    [exact (proj1 (Hg Hi)) |].
  exact (proj1 (good_close_if n id (conn_deny ev c t1) (proj1 (good_conn_deny ev c t1 Hi1)))).
Qed.

Lemma on_conn_inv n id t f : (forall c, good t (f c)) -> inv t -> inv (on_conn n id t f).
Proof. intros Hf Hi. unfold on_conn. destruct (_ !! id) as [c |]; [exact (proj1 (Hf c Hi)) | done]. Qed.

Lemma step_inv t evo : inv t -> inv (step t evo).
Proof.
  destruct evo as [ev o]. intros Hi. destruct o; cbn [step].
  - by apply Routed_inv.
  - apply on_conn_inv; [intros c; apply good_Read | done].
  - apply on_conn_inv; [intros c; apply good_Write | done].
  - apply on_conn_inv; [intros c; apply good_ReadBuffer | done].
  - apply on_conn_inv; [intros c; apply good_WriteBuffer | done].
  - apply on_conn_inv; [intros c; apply good_countUpload | done].
  - apply on_conn_inv; [intros c; apply good_countDownload | done].
  - apply on_conn_inv; [intros c; apply good_ReadPacket | done].
  - apply on_conn_inv; [intros c; apply good_WritePacket | done].
  - exact (proj1 (good_closeConn n id t Hi)).
  - by apply DenyAuthorization_inv.
  - exact (proj1 (ApplyAuthorization_cases ev ev' lease deny t Hi)).
  - by apply Initialize_inv.
  - exact (proj1 (good_Reap ev t Hi)).
  - exact (proj1 (good_UpdatePolicies ev policies t Hi)).
  - exact (proj1 (good_Acknowledge acks t Hi)).
  - apply (fold_left_inv _ inv); [done |]. intros. by apply inv_install_user.
  - exact (proj1 (good_publish scope entries t Hi)).
  - exact (proj1 (good_reapSnell ev force t Hi)).
  - exact (proj1 (good_Admit ev inbound user parent t Hi)).
  - exact (proj1 (good_CloseSnellInbound tag t Hi)).
  - exact (proj1 (good_Snapshot ev t Hi)).
Qed.

Lemma run_inv t ops : inv t -> inv (run t ops).
Proof. intros Hi. apply (fold_left_inv _ inv); [done |]. intros. by apply step_inv. Qed.

(** A tracker the kernel can reach. *)
Definition reachable (t : tracker) : Prop :=
  exists ev boot users inbounds lease audit d ops, t = run (newRateLimitTracker ev boot users inbounds lease audit d) ops.

Lemma reachable_inv t : reachable t -> inv t.
Proof. intros (ev & boot & users & inbounds & lease & audit & d & ops & ->). apply run_inv, inv_new. Qed.

End Runs.

(** ** What the tracker promises *)

Section Promises.
Context {A : AEAD} {CL : Codec Lease} {CD : Codec (gmap string deniedEntry)} {TZ : TimeZones}.
Context (sha256 : string -> bytes).

(** C7: whatever happens to the kernel, the indexes it closes connections by
    are exact: [active] lists under each key exactly the open connections of
    that state, [byCredential] lists under each authorization key exactly the
    open connections that authenticated with it, for TCP and UDP alike, and
    the TCP gauge the socket governor sees is the number of open TCP
    connections. *)
Theorem tracker_indexes_exact ev boot users inbounds lease audit d ops :
  let t := run sha256 (newRateLimitTracker ev boot users inbounds lease audit d) ops in
  (forall n k id, id ∈ default ∅ (ix_active (the_index n t) !! k) <->
     exists c, open_in (the_index n t) id c /\ state_key t (c_state c) = k) /\
  (forall n k id, id ∈ default ∅ (ix_byCredential (the_index n t) !! k) <->
     exists c, open_in (the_index n t) id c /\ authorizationKey (c_identity c) = k /\ k <> ""%string) /\
  t_activeTCP t = Z.of_nat (open_count (t_tcp t)).
Proof.
  intros t. assert (inv t) as Hi by (apply run_inv, inv_new).
  split_and!; [intros n; apply (inv_index _ Hi n) | intros n; apply (inv_index _ Hi n) | apply Hi].
Qed.

(** C6: the emergency path leaves no session behind: when [DenyAuthorization]
    succeeds, no open connection, TCP or UDP, authenticated with a denied
    key, whichever inbound user it is mapped to. *)
Theorem denial_closes_every_session t ev keys rev closed t' key n id c :
  reachable sha256 t -> DenyAuthorization ev keys rev t = ((closed, None), t') ->
  key ∈ keys -> key <> ""%string -> open_in (the_index n t') id c ->
  authorizationKey (c_identity c) <> key.
Proof.
  intros Hr Hd Hin Hne Ho <-. apply reachable_inv in Hr. rewrite DenyAuthorization_eq in Hd.
  pose proof (auth_Deny_inv ev keys rev t Hr) as Hi.
  destruct (auth_Deny ev keys rev t) as [[e |] t1]; [done |]. cbn [snd] in Hi. injection Hd as _ <-.
  by apply (close_keys_closes keys (O, t1) n id c).
Qed.

(** Reaping is complete: after [ReapAuthorization] no open connection has
    an identity the store refuses or that a newer credential superseded, and
    the store and the identities are those from before. *)
Theorem reaping_leaves_no_revoked_session t ev n id c :
  reachable sha256 t -> open_in (the_index n (snd (ReapAuthorization ev t))) id c ->
  conn_revoked (snd (ReapAuthorization ev t)) (ev_now ev) c = false /\
  conn_revoked t (ev_now ev) c = false /\ open_in (the_index n t) id c.
Proof.
  intros Hr Ho. apply reachable_inv in Hr. pose proof (reap_complete ev t n id c Hr Ho) as Hc.
  destruct (good_Reap ev t Hr) as [_ Hs]. pose proof (sh_open _ _ Hs _ _ _ Ho) as Ho0.
  split_and!; [done | | done]. rewrite <- Hc. symmetry. apply conn_revoked_shrink; [done |].
  eapply inv_conns; [done | apply Ho0].
Qed.

(** C1: an authorization update that succeeds is in force when it returns: no
    connection is open that the lease and watermark just installed refuse. *)
Theorem applied_authorization_is_enforced t ev ev' lease deny t' n id c :
  reachable sha256 t -> ApplyAuthorization ev ev' lease deny t = (None, t') ->
  open_in (the_index n t') id c -> conn_revoked t' (ev_now ev') c = false.
Proof.
  intros Hr Ha Ho. apply reachable_inv in Hr.
  destruct (ApplyAuthorization_cases ev ev' lease deny t Hr) as [_ Hc]. rewrite Ha in Hc. cbn [fst snd] in Hc.
  destruct (Hc eq_refl) as (t1 & Hi1 & ->). by eapply reap_complete.
Qed.

(** The quota verdict on a state whose policy is current. *)
Definition quota_verdict (admitted : bool) (s : runtimeState) (u : option usage) : bool :=
  let p := policy (config s) in
  let status := normalizeCredentialStatus (CredentialStatus p) in
  if status =s "active" then runtimeConfigDenied p (unacknowledged s u)
  else if status =s "reject_new" then negb admitted
  else true.

Lemma conn_deny_false ev c t t' :
  is_Some (t_heap t !! c_state c) -> conn_deny ev c t = (false, t') ->
  conn_revoked t' (ev_now ev) c = false /\
  exists x, t_heap t' !! c_state c = Some x /\
    quota_verdict (c_admitted c) (cell_state x) (cell_usage_of t' x) = false.
Proof.
  intros [x Hx]. unfold conn_deny, deny_identity, quota_denied. rewrite Hx.
  destruct (authorizationRevokedFor t (ev_now ev) (cell_state x) (c_identity c)) eqn:Er; [done |].
  unfold quotaDeniedFor. set (s := currentConfig _ _ _). 
  intros Hq. apply pair_eq in Hq as [Hv <-].
  assert (t_heap (put_state (c_state c) s t) !! c_state c = Some (x<|cell_state := s|>)) as Hx'.
  { cbn. by rewrite lookup_alter_eq, Hx. }
  split; [| by exists (x<|cell_state := s|>)].
  unfold conn_revoked. rewrite Hx'. rewrite <- Er. apply revoked_kin; try done. apply currentConfig_kin.
Qed.

(** C22: a connection [RoutedConnection] hands over open is authorized and
    within its quota at that instant: its identity is not revoked, and the
    quota verdict on its state, rolled over to the present, lets it pass. *)
Theorem routed_connection_is_admitted t ev n inbound user auditKey id t' c :
  reachable sha256 t -> RoutedConnection ev n inbound user auditKey t = (Some id, t') ->
  open_in (the_index n t') id c ->
  conn_revoked t' (ev_now ev) c = false /\
  exists x, t_heap t' !! c_state c = Some x /\
    quota_verdict (c_admitted c) (cell_state x) (cell_usage_of t' x) = false.
Proof.
  intros Hr Hrc Ho. apply reachable_inv in Hr.
  destruct (RoutedConnection_cases _ _ _ _ _ _ _ _ Hr Hrc) as [[? _] | (id' & c1 & t1 & [= <-] & Hi1 & Hst & Huniq & ->)];
    [done |].
  pose proof (good_conn_deny ev c1 t1 Hi1) as [Hi2 Hs2].
  destruct (conn_deny ev c1 t1) as [[|] t2] eqn:Ed; cbn [close_if fst snd] in Ho.
  - by apply closeConn_not_open in Ho.
  - assert (c = c1) as -> by (apply Huniq, (sh_open _ _ Hs2), Ho). by eapply conn_deny_false.
Qed.

End Promises.

(** ** Pruning and Snell parents *)

Section Snell.
Context {A : AEAD} {CL : Codec Lease} {CD : Codec (gmap string deniedEntry)} {TZ : TimeZones}.
Context (sha256 : string -> bytes).

(** What pruning may do to [t]: forget states that are idle and settled. *)
Definition pruned (t t' : tracker) : Prop :=
  t_heap t' = t_heap t /\ (forall n, the_index n t' = the_index n t) /\
  t_parents t' = t_parents t /\ t_snellParents t' = t_snellParents t /\ t_snellUsers t' = t_snellUsers t /\
  t_states t' ⊆ t_states t /\
  (forall key a, t_states t !! key = Some a -> t_states t' !! key = None ->
     exists c, t_heap t !! a = Some c /\ idle t key a = true /\ fully_acknowledged (cell_state c) = true).

Lemma idle_same t t' key a :
  (forall n, the_index n t' = the_index n t) -> t_parents t' = t_parents t -> t_snellParents t' = t_snellParents t ->
  idle t' key a = idle t key a.
Proof. intros Hix Hp Hs. unfold idle. pose proof (Hix TCP) as H1. pose proof (Hix UDP) as H2. cbn in *. by rewrite H1, H2, Hp, Hs. Qed.

Lemma prune_one_pruned t t' key : pruned t t' -> pruned t (prune_one t' key).
Proof.
  intros (H1 & H2 & H3 & H4 & H5 & H6 & H7). unfold prune_one.
  destruct (t_states t' !! key) as [a |] eqn:Ek.
  2:{ split_and!; try done; by intros []; apply H2. }
  destruct (t_heap t' !! a) as [c |] eqn:Ec; [| by split_and!].
  destruct (idle t' key a && fully_acknowledged (cell_state c)) eqn:Ei; [| by split_and!].
  apply andb_true_iff in Ei as [Ei Ea]. split_and!; try done.
  - cbn. etransitivity; [apply delete_subseteq | done].
  - cbn. intros k b Hb Hnone. destruct (decide (key = k)) as [<- | Hne].
    + assert (b = a) as -> by (eapply lookup_weaken in Ek; [| done]; congruence).
      exists c. rewrite <- H1, <- (idle_same t t') by done. done.
    + rewrite lookup_delete_ne in Hnone by done. eauto.
Qed.

Lemma prune_pruned t : pruned t (pruneSnellCounters t).
Proof.
  unfold pruneSnellCounters. apply (fold_left_inv _ (pruned t)); [| intros; by apply prune_one_pruned].
  split_and!; try done. intros key a H1 H2. congruence.
Qed.

Lemma ack_one_states t kc : t_states (ack_one t kc) = t_states t.
Proof.
  destruct kc as [key cp]. unfold ack_one. destruct (t_states t !! key) as [a |]; [| done].
  destruct (t_heap t !! a) as [c |]; [| done]. destruct (acknowledge _ _ _) as [s u].
  unfold put_usage. by destruct (cell_usage c), u.
Qed.

(** Acknowledging traffic never loses any: a state [AcknowledgeTraffic]
    forgets has every counted byte acknowledged, and no open connection
    still counts into it. *)
Theorem pruned_states_are_settled t acks key a :
  reachable sha256 t -> t_states t !! key = Some a -> t_states (AcknowledgeTraffic acks t) !! key = None ->
  (exists c, t_heap (AcknowledgeTraffic acks t) !! a = Some c /\
     upload (counters (config (cell_state c))) = acknowledgedUpload (counters (config (cell_state c))) /\
     download (counters (config (cell_state c))) = acknowledgedDownload (counters (config (cell_state c)))) /\
  (forall n id x, open_in (the_index n (AcknowledgeTraffic acks t)) id x ->
     state_key (AcknowledgeTraffic acks t) (c_state x) <> key).
Proof.
  intros Hr%reachable_inv Ha Hnone. unfold AcknowledgeTraffic in *. set (t1 := fold_left ack_one acks t) in *.
  assert (inv t1 /\ shrink t t1) as [Hi1 _] by (apply good_fold; [intros; apply good_ack_one | done]).
  assert (t_states t1 = t_states t) as Hst.
  { apply (fold_left_inv _ (fun t' => t_states t' = t_states t)); [done |]. intros. by rewrite ack_one_states. }
  destruct (prune_pruned t1) as (H1 & H2 & _ & _ & _ & _ & H7). rewrite H1.
  destruct (H7 key a) as (c & Hc & Hidle & Hack); [by rewrite Hst | done |].
  unfold fully_acknowledged in Hack. unfold idle in Hidle. zify_bool. split; [exists c; split_and!; done || lia |].
  intros n id x Ho Hk. unfold state_key in Hk. rewrite H1 in Hk. fold (state_key t1 (c_state x)) in Hk. rewrite H2 in Ho.
  assert (id ∈ default ∅ (ix_active (the_index n t1) !! key)) as Hin by (apply (inv_index _ Hi1 n); by exists x).
  destruct n; cbn in Hin; set_solver.
Qed.

(** Every indexed parent is live. *)
Definition parents_ok (t : tracker) : Prop :=
  forall id, id ∈ t_snellParents t -> exists p, t_parents t !! id = Some p /\ p_closed p = false.

Definition snell_same (t t' : tracker) : Prop :=
  t_parents t' = t_parents t /\ t_snellParents t' = t_snellParents t /\ t_snellUsers t' = t_snellUsers t.

Lemma deny_identity_snell ev a i adm t : snell_same t (snd (deny_identity ev a i adm t)).
Proof.
  unfold deny_identity, quota_denied. destruct (t_heap t !! a); [| done].
  destruct (authorizationRevokedFor _ _ _ _); [done |]. by destruct (quotaDeniedFor _ _ _ _ _).
Qed.

(** A parent whose credential is not the installed one. *)
Definition superseded (t : tracker) (p : parentConn) : bool :=
  match t_snellUsers t !! p_authScope p with
  | None => true
  | Some s => negb (bool_decide (sn_credential s = p_credential p))
  end.

Lemma collect_stale_spec ev t0 acc ids :
  snell_same t0 (snd acc) ->
  let acc' := fold_left (collect_stale ev false) ids acc in
  snell_same t0 (snd acc') /\ (forall id, id ∈ fst acc -> id ∈ fst acc') /\
  (forall id p, id ∈ ids -> t_parents t0 !! id = Some p -> superseded t0 p = true -> id ∈ fst acc').
Proof.
  revert acc. induction ids as [| i ids IH]; intros [l t] Hs; cbn [fold_left].
  { split_and!; [done | done | set_solver]. }
  destruct Hs as (E1 & E2 & E3). cbn [snd] in E1, E2, E3.
  unfold collect_stale at 2 4 6. rewrite E1. destruct (t_parents t0 !! i) as [p |] eqn:Ep.
  - assert (snell_same t0 (snd (parent_stale ev false p t)) /\ (superseded t0 p = true -> fst (parent_stale ev false p t) = true)) as [Hps Hpt].
    { unfold parent_stale, superseded. rewrite E3. cbn [orb].
      destruct (match t_snellUsers t0 !! p_authScope p with Some _ => _ | None => _ end); [done |]. split; [| done].
      destruct (p_state p) as [a |]; [| done].
      destruct (deny_identity_snell ev a (p_identity p) true t) as (? & ? & ?). split_and!; congruence. }
    destruct (parent_stale ev false p t) as [b t']. cbn [fst snd] in *.
    destruct (IH (if b then i :: l else l, t') Hps) as (R1 & R2 & R3). split_and!; [done | |].
    + intros id Hid. apply R2. cbn. destruct b; set_solver.
    + intros id q Hin Hq Hsup. destruct (decide (id = i)) as [-> | Hne]; [| eapply R3; set_solver].
      assert (q = p) as -> by congruence. apply R2. cbn. rewrite (Hpt Hsup). set_solver.
  - destruct (IH (l, t) ltac:(by split_and!)) as (R1 & R2 & R3). split_and!; [done | done |].
    intros id q Hin Hq Hsup. destruct (decide (id = i)) as [-> | Hne]; [congruence | eapply R3; set_solver].
Qed.

Lemma closeParents_spec ids t :
  let t' := fold_left (fun t id => closeParent id t) ids t in
  parents_ok t ->
  parents_ok t' /\ t_snellUsers t' = t_snellUsers t /\ t_snellParents t' ⊆ t_snellParents t /\
  (forall id, id ∈ t_snellParents t' -> id ∉ ids /\ t_parents t' !! id = t_parents t !! id).
Proof.
  revert t. induction ids as [| i ids IH]; intros t; cbn; intros Hok.
  { split_and!; try done. intros id Hid. split; [set_solver | done]. }
  assert (parents_ok (closeParent i t) /\ t_snellUsers (closeParent i t) = t_snellUsers t /\
    t_snellParents (closeParent i t) ⊆ t_snellParents t /\ (forall id, id ∈ t_snellParents (closeParent i t) ->
    id <> i /\ t_parents (closeParent i t) !! id = t_parents t !! id)) as (Q1 & Q2 & Q3 & Q4).
  { unfold closeParent. destruct (t_parents t !! i) as [p |] eqn:Ep.
    - destruct (p_closed p) eqn:Ec; cbn.
      + split_and!; try done. intros id Hid. split; [| done]. intros ->. destruct (Hok _ Hid) as (q & Hq & Hcl). congruence.
      + assert (forall id, id ∈ t_snellParents t ∖ {[i]} -> id <> i /\ <[i:=p<|p_closed := true|>]> (t_parents t) !! id = t_parents t !! id) as Hne.
        { intros id Hid. split; [set_solver |]. rewrite lookup_insert_ne; [done | set_solver]. }
        split_and!; try done; [| set_solver].
        intros id Hid. cbn in *. rewrite (proj2 (Hne id Hid)). apply Hok. set_solver.
    - split_and!; try done. intros id Hid. split; [| done]. intros ->. destruct (Hok _ Hid) as (q & Hq & _). congruence. }
  destruct (IH _ Q1) as (R1 & R2 & R3 & R4). split_and!; [done | congruence | set_solver |].
  intros id Hid. destruct (R4 _ Hid) as [Hn Hp]. destruct (Q4 id ltac:(set_solver)) as [Hi Hq]. split; [set_solver | congruence].
Qed.

(** Reaping Snell parents leaves only those that still match: every parent
    connection that stays indexed holds the credential the published table
    installs for its scope, so a rotated or removed PSK ends its reuse
    sessions. *)
Theorem reaped_parents_hold_installed_credential ev t id p :
  parents_ok t -> id ∈ t_snellParents (snd (reapSnellParents ev false t)) ->
  t_parents (snd (reapSnellParents ev false t)) !! id = Some p ->
  exists s, t_snellUsers (snd (reapSnellParents ev false t)) !! p_authScope p = Some s /\
    sn_credential s = p_credential p /\ p_closed p = false.
Proof.
  intros Hok. unfold reapSnellParents.
  destruct (collect_stale_spec ev t ([], t) (elements (t_snellParents t)) ltac:(done)) as ((S1 & S2 & S3) & _ & Hst).
  destruct (fold_left (collect_stale ev false) _ _) as [closing t1]. cbn [fst snd] in *.
  assert (parents_ok t1) as Hok1 by (unfold parents_ok; by rewrite S1, S2).
  destruct (closeParents_spec closing t1 Hok1) as (R1 & R2 & R3 & R4).
  set (t2 := fold_left _ closing t1) in *.
  destruct (prune_pruned t2) as (_ & _ & -> & -> & -> & _). intros Hin Hp.
  destruct (R4 _ Hin) as [Hni Heq]. rewrite Hp, S1 in Heq. rewrite R2, S3.
  assert (superseded t p = false) as Hsup.
  { destruct (superseded t p) eqn:E; [| done]. destruct Hni. eapply Hst; [| done | done].
    apply elem_of_elements. rewrite <- S2. set_solver. }
  unfold superseded in Hsup. destruct (t_snellUsers t !! p_authScope p) as [s |]; [| done]. zify_bool.
  exists s. split_and!; [done | done |]. destruct (R1 _ Hin) as (q & Hq & Hcl). congruence.
Qed.

End Snell.

(** ** Waiting and accounting *)

Section Accounting.
Context {A : AEAD} {CL : Codec Lease} {CD : Codec (gmap string deniedEntry)} {TZ : TimeZones}.

Lemma deny_state_snell ev a t : snell_same t (snd (state_denied ev a t)).
Proof. unfold state_denied. destruct (t_heap t !! a); [| done]. by destruct (authorizationRevokedFor _ _ _ _). Qed.

(** The reaper neither spins nor oversleeps: it waits between 10 ms and
    five seconds, and a key the installed lease admits now stays admitted
    until 10 ms before the end of the wait (for clocks after the zero time). *)
Theorem reaper_wait_bounds now t key u :
  time_zero <= now ->
  st_err (store_load (t_auth t) (t_disk t)) = None ->
  lease_Allows (st_lease (store_load (t_auth t) (t_disk t))) key now = true ->
  10 * Millisecond <= nextAuthorizationWait now t <= authorizationReaperMaxWait /\
  (now <= u < now + nextAuthorizationWait now t - 10 * Millisecond ->
   lease_Allows (st_lease (store_load (t_auth t) (t_disk t))) key u = true).
Proof.
  intros Hz He Hal. unfold nextAuthorizationWait, store_Snapshot. cbn [fst snd]. rewrite He.
  set (ol := st_lease (store_load (t_auth t) (t_disk t))) in *.
  pose proof (fun t => lease_NextExpiry_safe ol now key t Hal) as Hsafe.
  destruct ol as [l |] eqn:El; [| done].
  set (next := lease_NextExpiry (Some l) now) in *. specialize (Hsafe u) as [Hlt Hu].
  assert (next - now <= MaxLifetime) as Hmax.
  { apply lease_Allows_spec in Hal as (_ & i & x & raw & fin & Hw & Hn & _).
    pose proof (lease_window_bounds _ _ _ Hw). unfold next, lease_NextExpiry. rewrite Hw.
    destruct (next_grant_fold now x (l_Grants l)) as (Hx & Hx2 & _).
    unfold After. specialize (Hx2 ltac:(lia)). rewrite (proj2 (Z.ltb_lt _ _) Hx2). cbn [negb]. lia. }
  unfold MaxLifetime, Minute, Second in Hmax.
  assert (time_Sub next now = next - now) as Hsub.
  { unfold time_Sub, clamp, min_int64, max_int64. split_ifs; zify_bool; lia. }
  assert (add64 (time_Sub next now) (10 * Millisecond) = next - now + 10 * Millisecond) as Hadd.
  { rewrite Hsub. apply add64_small. unfold in_int64, min_int64, max_int64, Millisecond. lia. }
  unfold IsZero. destruct (Z.eqb_spec next time_zero); [lia |].
  rewrite Hadd. unfold authorizationReaperMaxWait, Millisecond, Second in *.
  split_ifs; zify_bool; (split; [lia |]; intros; apply Hu; lia).
Qed.

(** Downloaded bytes reported to the audit. *)
Fixpoint audited_down (l : list effect) : Z :=
  match l with
  | [] => 0
  | AuditPayload _ _ d :: l' => d + audited_down l'
  | _ :: l' => audited_down l'
  end.

Lemma refresh_log ev a t : t_log (refresh ev a t) = t_log t.
Proof. unfold refresh. by destruct (t_heap t !! a). Qed.

Lemma conn_deny_log ev c t : t_log (snd (conn_deny ev c t)) = t_log t.
Proof.
  unfold conn_deny, deny_identity, quota_denied. destruct (t_heap t !! _); [| done].
  destruct (authorizationRevokedFor _ _ _ _); [done |]. by destruct (quotaDeniedFor _ _ _ _ _).
Qed.

Lemma addTraffic_audited ev id c up down t :
  audited_down (t_log (conn_addTraffic ev id c up down t)) = down + audited_down (t_log t).
Proof.
  unfold conn_addTraffic. cbn [t_log emit upd audited_down]. f_equal.
  assert (forall a t, t_log (state_addTraffic ev a up down t) = t_log t) as Hs.
  { intros a t'. unfold state_addTraffic. destruct (t_heap t' !! a) as [x |]; [| done].
    destruct (addTraffic _ _ _ _ _ _) as [s u]. unfold put_usage. by destruct (cell_usage x), u. }
  unfold emit; cbn [t_log upd audited_down]; rewrite Hs. destruct (_ && _); [| done].
  destruct (t_heap (refresh ev (c_state c) t) !! c_state c); [| by rewrite refresh_log].
  destruct (_ && _ && _); cbn; by rewrite refresh_log.
Qed.

Lemma closeConn_audited n id t : audited_down (t_log (closeConn n id t)) = audited_down (t_log t).
Proof.
  unfold closeConn. destruct (ix_conns (the_index n t) !! id) as [c |]; [| done].
  destruct (c_closed c); [done |]. by destruct n.
Qed.

Lemma close_deny_audited ev n id c t :
  audited_down (t_log (close_if n id (conn_deny ev c t))) = audited_down (t_log t).
Proof.
  unfold close_if. destruct (fst _); rewrite ?closeConn_audited; by rewrite conn_deny_log.
Qed.

Definition answers_ok (rs : list transfer) : Prop := Forall (fun r => 0 <= tr_n r <= rateLimitIOChunk) rs.

Lemma write_chunks_audited ev id c rs total size t r t' :
  answers_ok rs -> write_chunks ev id c rs total size t = (r, t') ->
  audited_down (t_log t') + total = audited_down (t_log t) + fst r /\ total <= fst r.
Proof.
  intros Hok. revert total size t. induction Hok as [| a rs Ha Hok IH]; intros total size t; cbn [write_chunks].
  { destruct (size <=? 0); intros [= <- <-]; cbn; lia. }
  destruct (size <=? 0); [intros [= <- <-]; cbn; lia |].
  destruct (tr_waitErr a); [intros [= <- <-]; cbn; lia |].
  set (t1 := if 0 <? tr_n a then _ else t).
  assert (audited_down (t_log t1) = tr_n a + audited_down (t_log t)) as H1.
  { unfold t1. destruct (Z.ltb_spec 0 (tr_n a)); [by rewrite addTraffic_audited | lia]. }
  destruct (tr_err a); [intros [= <- <-]; cbn; lia |].
  destruct (negb _); [intros [= <- <-]; cbn; lia |].
  intros Hw. destruct (IH _ _ _ Hw). lia.
Qed.

(** Every byte a tracked connection writes is accounted once, however the
    write ends: the audit receives exactly the count [Write] returns, on the
    direct path and chunk by chunk under a rate limit, also when a chunk
    fails, is short or the limiter gives up. *)
Theorem written_bytes_are_accounted ev id c size rs t n err t' :
  answers_ok rs -> conn_Write ev id c size rs t = ((n, err), t') ->
  audited_down (t_log t') = audited_down (t_log t) + n /\ 0 <= n.
Proof.
  intros Hok. unfold conn_Write. pose proof (conn_deny_log ev c t) as Hd.
  destruct (conn_deny ev c t) as [d t1]. cbn [snd] in Hd.
  destruct d; [intros [= <- <- <-]; rewrite Hd; lia |].
  pose proof (refresh_log ev (c_state c) t1) as Hl. unfold current_limiter. set (t2 := refresh _ _ _) in *.
  destruct (match t_heap t2 !! c_state c with Some _ => _ | None => _ end) as [l |].
  - destruct (write_chunks ev id c rs 0 size t2) as [[total [e |]] t3] eqn:Ew;
      apply write_chunks_audited in Ew as [Hw Hge]; try done; cbn [fst] in *; intros Heq.
    + apply pair_eq in Heq as [[= <- <-] <-]. rewrite Hl, Hd in Hw. lia.
    + apply pair_eq in Heq as [[= <- <-] <-]. rewrite close_deny_audited. rewrite Hl, Hd in Hw. lia.
  - destruct Hok as [| r rs Hr Hok]; [intros [= <- <- <-]; rewrite Hl, Hd; lia |].
    destruct (Z.leb_spec (tr_n r) 0); intros Heq; apply pair_eq in Heq as [[= <- _] <-].
    + rewrite Hl, Hd. lia.
    + rewrite close_deny_audited, addTraffic_audited, Hl, Hd. lia.
Qed.

(** [waitBytes] always ends and never asks a limiter for more than its
    burst, which the limiter would refuse: the reservations are positive, at
    most the burst (one byte for a limiter without burst) and add up to the
    bytes of the payload. *)
Theorem wait_reserves_within_burst burst n :
  0 <= n ->
  fold_right Z.add 0 (waitBytes burst n) = n /\
  Forall (fun k => 0 < k <= Z.max 1 burst) (waitBytes burst n).
Proof.
  intros Hn. unfold waitBytes. set (b := if burst <=? 0 then 1 else burst).
  assert (1 <= b /\ b <= Z.max 1 burst) as [Hb Hmax] by (unfold b; split_ifs; zify_bool; lia).
  assert (n <= Z.of_nat (Z.to_nat n)) as Hf by lia. revert Hn Hf. generalize (Z.to_nat n). intros fuel.
  revert n. induction fuel as [| fuel IH]; intros n Hn Hf; cbn [wait_chunks].
  { split; [cbn; lia | constructor]. }
  destruct (Z.leb_spec n 0); [split; [cbn; lia | constructor] |]. cbv zeta.
  destruct (Z.ltb_spec b n); cbn [fold_right].
  - destruct (IH (n - b)) as [Hs Ha]; [lia | lia |]. split; [lia |]. constructor; [lia | done].
  - destruct (IH (n - n)) as [Hs Ha]; [lia | lia |]. split; [lia |]. constructor; [lia | done].
Qed.

Lemma wait_reserves_within_burst_witness : fold_right Z.add 0 (waitBytes 65536 150000) = 150000.
Proof. exact (proj1 (wait_reserves_within_burst 65536 150000 ltac:(lia))). Defined.

(** [Admit] binds a parent connection to the credential it presented: it
    succeeds only for an installed user whose state the store allows, and it
    records the installed credential and the identity of that state. *)
Theorem admitted_parent_is_bound ev inbound user id t t' :
  Admit ev inbound user (Some id) t = (true, t') ->
  t_usersFailed t = false /\
  exists a c s p, runtimeFor t inbound user = Some a /\ t_heap t !! a = Some c /\
    AuthorizationKey (policy (config (cell_state c))) <> ""%string /\
    Allows t (AuthorizationKey (policy (config (cell_state c)))) (ev_now ev) = true /\
    t_snellUsers t' !! snell_scope inbound user = Some s /\
    sn_authorizationKey s = AuthorizationKey (policy (config (cell_state c))) /\
    t_parents t' !! id = Some p /\ id ∈ t_snellParents t' /\
    p_authScope p = snell_scope inbound user /\ p_credential p = sn_credential s /\
    p_identity p = state_identity (cell_state c).
Proof.
  unfold Admit. destruct (t_usersFailed t); [done |]. destruct (runtimeFor t inbound user) as [a |]; [| done].
  destruct (t_heap t !! a) as [c |] eqn:Ec; [| done]. destruct (_ =s "") eqn:Ek; [done |].
  apply str_eqb_neq in Ek.
  unfold state_denied at 1. rewrite Ec.
  destruct (authorizationRevokedFor t (ev_now ev) (cell_state c) _) eqn:Er; [done |].
  set (s1 := currentConfig _ _ (cell_state c)). set (t1 := put_state a s1 t).
  destruct (runtimeConfigDenied _ _); [done |].
  assert (t_heap t1 !! a = Some (c<|cell_state := s1|>)) as Hc1 by (cbn; by rewrite lookup_alter_eq, Ec).
  pose proof (currentConfig_kin (ev_now ev) (ev_epoch ev a) (cell_state c)) as [_ Hkin]. fold s1 in Hkin.
  assert (Allows t (AuthorizationKey (policy (config (cell_state c)))) (ev_now ev) = true) as Hal.
  { unfold authorizationRevokedFor, state_identity in Er. cbn [authorizationKey] in Er.
    rewrite (proj2 (str_eqb_neq _ _) Ek) in Er. rewrite andb_false_r in Er. cbn [andb] in Er.
    destruct (Allows t _ _); [done | discriminate]. }
  rewrite Hc1. destruct (t_snellUsers t1 !! snell_scope inbound user) as [s |] eqn:Es; [| done].
  destruct (t_parents t1 !! id) as [p |] eqn:Ep; [| done]. cbn [cell_state upd].
  destruct (negb _ || p_closed p) eqn:E1; [done |]. apply orb_false_iff in E1 as [E1 _].
  apply negb_false_iff, str_eqb_eq in E1.
  pose proof (deny_state_snell ev a t1) as (_ & _ & Hu). destruct (state_denied ev a t1) as [d2 t2]. cbn [snd] in Hu.
  destruct d2; [done |]. destruct (match p_state p with Some _ => _ | None => _ end); [done |].
  intros Heq. apply pair_eq in Heq as [_ <-]. split; [done |].
  assert (AuthorizationKey (policy (config s1)) = AuthorizationKey (policy (config (cell_state c)))) as Hkey
    by (unfold state_identity in Hkin; congruence).
  exists a, c, s, (mkParent (Some a) (state_identity s1) false (snell_scope inbound user) (sn_credential s)).
  split_and!; try done; cbn; [congruence | congruence | apply lookup_insert_eq | set_solver].
Qed.

End Accounting.

(** ** Witnesses *)

Section Witnesses.
#[local] Existing Instance lease_codec.
#[local] Existing Instance denied_codec.
#[local] Existing Instance no_zones.

Definition plain_sha (s : string) : bytes := list_ascii_of_string s.
Definition at_sample : Event := mkEvent sample_env (fun _ => "ce"%string).
Definition user_limit (key : string) (uid : Z) : RuntimeUserLimit :=
  zero_limit<|AuthorizationKey := key|><|UserID := uid|><|Billable := true|><|SpeedLimitMbps := 8|>.

Definition two_user_lease : Lease :=
  sample_lease<|l_Grants := {["u" := "2024-01-01T00:04:00Z"; "v" := "2024-01-01T00:04:00Z"]}|>.

(** Users u and v, one TCP connection each. *)
Definition two_users : tracker :=
  newRateLimitTracker at_sample "b" [("u"%string, user_limit "u" 1); ("v"%string, user_limit "v" 2)] []
    (Some two_user_lease) false ∅.
Definition two_sessions : tracker :=
  run plain_sha two_users
    [(at_sample, OpRouted TCP "" "u" "a"); (at_sample, OpRouted TCP "" "v" "b")].

Lemma two_sessions_reachable : reachable plain_sha two_sessions.
Proof. do 8 eexists. reflexivity. Qed.

(** The connection of [v], the one each witness finds still open. *)
Definition session_v : trackedConn := mkConn 2 (mkIdentity "v" 0 2) true "b" false.

Lemma denial_closes_every_session_witness :
  exists t', DenyAuthorization at_sample ["u"%string] 7 two_sessions = ((1%nat, None), t') /\
    open_in (the_index TCP t') 5 session_v /\ authorizationKey (c_identity session_v) <> "u"%string.
Proof.
  destruct (DenyAuthorization at_sample ["u"%string] 7 two_sessions) as [r t'] eqn:E. exists t'.
  assert (r = (1%nat, None)) as -> by (apply (f_equal fst) in E; cbn [fst] in E; rewrite <- E; vm_compute; reflexivity).
  assert (open_in (the_index TCP t') 5 session_v) as Ho.
  { apply (f_equal snd) in E. cbn [snd] in E. rewrite <- E. split; vm_compute; reflexivity. }
  split_and!; [done | done |].
  apply (denial_closes_every_session plain_sha two_sessions at_sample ["u"%string] 7 1 t' "u" TCP 5 session_v
    two_sessions_reachable E); [by apply list_elem_of_singleton | done | done].
Defined.

Lemma reaping_leaves_no_revoked_session_witness :
  conn_revoked (snd (ReapAuthorization at_sample two_sessions)) (ev_now at_sample) session_v = false.
Proof.
  apply (reaping_leaves_no_revoked_session plain_sha two_sessions at_sample TCP 5 session_v two_sessions_reachable).
  split; vm_compute; reflexivity.
Defined.

Lemma applied_authorization_is_enforced_witness :
  exists t', ApplyAuthorization at_sample at_sample None ["u"%string] two_sessions = (None, t') /\
    conn_revoked t' (ev_now at_sample) session_v = false.
Proof.
  destruct (ApplyAuthorization at_sample at_sample None ["u"%string] two_sessions) as [r t'] eqn:E. exists t'.
  assert (r = None) as -> by (apply (f_equal fst) in E; cbn [fst] in E; rewrite <- E; vm_compute; reflexivity).
  split; [done |].
  apply (applied_authorization_is_enforced plain_sha two_sessions at_sample at_sample None ["u"%string] t' TCP 5
    session_v two_sessions_reachable E).
  apply (f_equal snd) in E. cbn [snd] in E. rewrite <- E. split; vm_compute; reflexivity.
Defined.

Lemma routed_connection_is_admitted_witness :
  exists id t', RoutedConnection at_sample UDP "" "v" "c" two_sessions = (Some id, t') /\
    conn_revoked t' (ev_now at_sample) (mkConn 2 (mkIdentity "v" 0 2) true "c" false) = false.
Proof.
  destruct (RoutedConnection at_sample UDP "" "v" "c" two_sessions) as [r t'] eqn:E.
  assert (r = Some 6%nat) as -> by (apply (f_equal fst) in E; cbn [fst] in E; rewrite <- E; vm_compute; reflexivity).
  exists 6%nat, t'. split; [done |].
  apply (routed_connection_is_admitted plain_sha two_sessions at_sample UDP "" "v" "c" 6 t'
    (mkConn 2 (mkIdentity "v" 0 2) true "c" false) two_sessions_reachable E).
  apply (f_equal snd) in E. cbn [snd] in E. rewrite <- E. split; vm_compute; reflexivity.
Defined.

(** A Snell user [w] that was installed, then removed. *)
Definition entry_w : UserInstallEntry :=
  mkEntry "s" "w" "psk" "u" 3 0 0 "" 0 "" zero_limit.
Definition with_w : tracker :=
  run plain_sha two_users [(at_sample, OpUsers [entry_w]); (at_sample, OpPublish ["s"%string] [entry_w])].
Definition without_w : tracker :=
  run plain_sha two_users
    [(at_sample, OpUsers [entry_w]); (at_sample, OpPublish ["s"%string] [entry_w]);
     (at_sample, OpPublish ["s"%string] [])].

Lemma pruned_states_are_settled_witness :
  t_states without_w !! "user:w"%string = Some 4%nat /\
  exists c, t_heap (AcknowledgeTraffic [] without_w) !! 4%nat = Some c /\
    upload (counters (config (cell_state c))) = acknowledgedUpload (counters (config (cell_state c))).
Proof.
  assert (t_states without_w !! "user:w"%string = Some 4%nat) as H1 by (vm_compute; reflexivity).
  assert (reachable plain_sha without_w) as Hr by (do 8 eexists; reflexivity).
  assert (t_states (AcknowledgeTraffic [] without_w) !! "user:w"%string = None) as H2 by (vm_compute; reflexivity).
  split; [done |].
  destruct (pruned_states_are_settled plain_sha without_w [] "user:w" 4 Hr H1 H2) as [(c & Hc & Hu & _) _].
  exact (ex_intro _ c (conj Hc Hu)).
Defined.

Definition parent_of_w : tracker := let '(id, t) := WrapParent with_w in snd (Admit at_sample "s" "w" (Some id) t).

Lemma reaped_parents_hold_installed_credential_witness :
  exists s, t_snellUsers (snd (reapSnellParents at_sample false parent_of_w)) !! snell_scope "s" "w" = Some s /\
    sn_credential s = plain_sha "psk".
Proof.
  assert (parents_ok parent_of_w) as Hok.
  { assert (t_snellParents parent_of_w = {[6%nat]}) as Hs by (vm_compute; reflexivity).
    intros id Hid. rewrite Hs in Hid. apply elem_of_singleton in Hid as ->. eexists. split; vm_compute; reflexivity. }
  assert (bool_decide (6%nat ∈ t_snellParents (snd (reapSnellParents at_sample false parent_of_w))) = true) as Hin
    by (vm_compute; reflexivity).
  apply bool_decide_eq_true in Hin.
  destruct (reaped_parents_hold_installed_credential at_sample parent_of_w 6
    (mkParent (Some 4%nat) (mkIdentity "u" 0 3) false (snell_scope "s" "w") (plain_sha "psk")) Hok Hin)
    as (s & Hs & Hc & _); [vm_compute; reflexivity |].
  exact (ex_intro _ s (conj Hs Hc)).
Defined.

Lemma admitted_parent_is_bound_witness :
  exists t' p, Admit at_sample "s" "w" (Some 6%nat) (snd (WrapParent with_w)) = (true, t') /\
    t_parents t' !! 6%nat = Some p.
Proof.
  destruct (Admit at_sample "s" "w" (Some 6%nat) (snd (WrapParent with_w))) as [b t'] eqn:E.
  assert (b = true) as -> by (apply (f_equal fst) in E; cbn [fst] in E; rewrite <- E; vm_compute; reflexivity).
  destruct (admitted_parent_is_bound at_sample "s" "w" 6 (snd (WrapParent with_w)) t' E)
    as (_ & a & c & s & p & _ & _ & _ & _ & _ & _ & Hp & _).
  exact (ex_intro _ t' (ex_intro _ p (conj eq_refl Hp))).
Defined.

Lemma reaper_wait_bounds_witness :
  10 * Millisecond <= nextAuthorizationWait sample_now two_users <= authorizationReaperMaxWait.
Proof.
  apply (reaper_wait_bounds sample_now two_users "u" sample_now); by_compute.
Defined.

Lemma written_bytes_are_accounted_witness :
  exists t', conn_Write at_sample 5 session_v 70000 [mkTransfer 65536 false false; mkTransfer 10 true false] two_sessions
      = ((65546, Some IOFailed), t') /\
    audited_down (t_log t') = audited_down (t_log two_sessions) + 65546.
Proof.
  destruct (conn_Write at_sample 5 session_v 70000 [mkTransfer 65536 false false; mkTransfer 10 true false] two_sessions)
    as [r t'] eqn:E. exists t'.
  assert (r = (65546, Some IOFailed)) as -> by (apply (f_equal fst) in E; cbn [fst] in E; rewrite <- E; vm_compute; reflexivity).
  split; [done |].
  apply (written_bytes_are_accounted at_sample 5 session_v 70000 [mkTransfer 65536 false false; mkTransfer 10 true false]
    two_sessions 65546 (Some IOFailed) t'); [| done].
  repeat constructor; cbn; unfold rateLimitIOChunk; lia.
Defined.

End Witnesses.
