(* ===== verification/RuntimeUsers.v ===== *)
(** * RuntimeUsers: user tables of the kernel that are replaced at run time

    Model of kernel/oboard-sb/internal/minibox/runtime_users.go: the requests
    that install users on inbounds, whole, as a delta or in chunks; the
    snapshot that was committed last; the durable file beside the
    configuration; and the restoration of the committed snapshot after a
    restart of the kernel.

    The inbounds and outbounds belong to sing-box: [Box] holds what the code
    asks of them (capabilities, outbound tags, user tables, user selectors).
    SHA-256 and the JSON encoding of entries, snapshots and the file are
    parameters with their laws. The code creates [RuntimeUsers] with an
    instance and a tracker, so that neither is optional here. Go maps are
    iterated in the order of [map_to_list]. *)

From S2P Require Import Prelude GoTime Stealth Files Json Authorization Window Quota Tracker TrackerInv.

Definition maxUserInstallEntries : nat := 8192.
Definition maxUserInstallChunks : Z := 64.
Definition maxUsersBytes : Z := Z.shiftl 32 20.

Inductive users_error :=
| ErrUserInstallIllegal | ErrUserInstallIncomplete | ErrUserInstallDigest | ErrUserInstallBase
| ErrUserInstallCapability | ErrText (e : string).

Record UserCredential := mkCredential {
  uc_UUID : string; uc_Password : string; uc_UserKey : string; uc_PSK : string; uc_Flow : string
}.

Record UserIdentity := mkUserIdentity {
  ui_UserID : Z; ui_InboundID : Z; ui_PathID : Z; ui_DeviceIDHash : string; ui_CredentialEpoch : Z;
  ui_CredentialStatus : string
}.

Definition no_credential : UserCredential := mkCredential "" "" "" "" "".
Definition no_identity : UserIdentity := mkUserIdentity 0 0 0 "" 0 "".

#[export] Instance UserCredential_eq_dec : EqDecision UserCredential.
Proof. solve_decision. Defined.
#[export] Instance UserIdentity_eq_dec : EqDecision UserIdentity.
Proof. solve_decision. Defined.
#[export] Instance RuntimeUserLimit_eq_dec : EqDecision RuntimeUserLimit.
Proof. solve_decision. Defined.

(** [UserInstallEntry] with all its fields; [tracker_entry] is what the
    tracker reads of it. *)
Record InstallEntry := mkInstallEntry {
  ie_InboundTag : string; ie_AuthUser : string; ie_Credential : UserCredential; ie_AuthorizationKey : string;
  ie_Identity : UserIdentity; ie_RouteOutbound : string; ie_Policy : RuntimeUserLimit
}.

#[export] Instance eta_InstallEntry : Eta InstallEntry := fun e =>
  mkInstallEntry (ie_InboundTag e) (ie_AuthUser e) (ie_Credential e) (ie_AuthorizationKey e) (ie_Identity e)
    (ie_RouteOutbound e) (ie_Policy e).

#[export] Instance InstallEntry_eq_dec : EqDecision InstallEntry.
Proof. solve_decision. Defined.

Definition tracker_entry (e : InstallEntry) : UserInstallEntry :=
  mkEntry (ie_InboundTag e) (ie_AuthUser e) (uc_PSK (ie_Credential e)) (ie_AuthorizationKey e)
    (ui_UserID (ie_Identity e)) (ui_InboundID (ie_Identity e)) (ui_PathID (ie_Identity e))
    (ui_DeviceIDHash (ie_Identity e)) (ui_CredentialEpoch (ie_Identity e))
    (ui_CredentialStatus (ie_Identity e)) (ie_Policy e).

Record UserInstallChunk := mkChunk { uk_Index : Z; uk_Total : Z; uk_SHA256 : string }.

(** A nil slice of entries and an empty one differ in their encoding. *)
Abbreviation entry_list := (option (list InstallEntry)) (only parsing).

Record UserInstallRequest := mkRequest {
  ur_Scope : list string; ur_UsersRevision : Z; ur_UsersDigest : string; ur_Mode : string; ur_BaseRevision : Z;
  ur_Chunk : option UserInstallChunk; ur_Entries : entry_list
}.

#[export] Instance eta_UserInstallRequest : Eta UserInstallRequest := fun q =>
  mkRequest (ur_Scope q) (ur_UsersRevision q) (ur_UsersDigest q) (ur_Mode q) (ur_BaseRevision q) (ur_Chunk q)
    (ur_Entries q).

Record UserSnapshot := mkSnapshot { us_Revision : Z; us_Digest : string; us_Scope : list string; us_Entries : list InstallEntry }.

#[export] Instance eta_UserSnapshot : Eta UserSnapshot := fun s =>
  mkSnapshot (us_Revision s) (us_Digest s) (us_Scope s) (us_Entries s).

Record chunkBuffer := mkChunks {
  cb_Revision : Z; cb_Digest : string; cb_Mode : string; cb_Base : Z; cb_Scope : list string; cb_Total : Z;
  cb_Parts : list bytes
}.

#[export] Instance eta_chunkBuffer : Eta chunkBuffer := fun b =>
  mkChunks (cb_Revision b) (cb_Digest b) (cb_Mode b) (cb_Base b) (cb_Scope b) (cb_Total b) (cb_Parts b).

Record persistedUsers := mkPersisted {
  pu_Current : option UserSnapshot; pu_Candidate : option UserSnapshot; pu_Commit : string; pu_Chunks : option chunkBuffer
}.

Definition no_state : persistedUsers := mkPersisted None None "" None.

(** A nil [json.RawMessage] is written as [null] and read back as the four
    bytes of it. *)
Definition null : bytes := list_ascii_of_string "null".
Definition raw_part (p : bytes) : bytes := match p with [] => null | _ => p end.
Definition null_parts (s : persistedUsers) : persistedUsers :=
  mkPersisted (pu_Current s) (pu_Candidate s) (pu_Commit s)
    (option_map (fun b => b<|cb_Parts ::= map raw_part|>) (pu_Chunks s)).

(** The encodings: [uj_count] is the length of an array decoded as
    [[]json.RawMessage], [uj_doc] the canonical document of a digest. *)
Class UsersJson := {
  uj_entries :: Codec entry_list;
  uj_file :: Codec persistedUsers;
  uj_count : bytes -> option nat;
  uj_doc : Z -> list string -> list InstallEntry -> bytes
}.

(** What [encoding/json] does with values that came from JSON. *)
Class UsersJsonLaws (J : UsersJson) := {
  uj_entries_law :: CodecLaws uj_entries;
  uj_nil : json_Marshal (None : entry_list) = Some null;
  uj_present : forall es b, json_Marshal (es : entry_list) = Some b -> b <> [];
  uj_count_law : forall es b, json_Marshal (es : entry_list) = Some b -> uj_count b = Some (List.length (default [] es));
  uj_file_law : forall s b, json_Marshal s = Some b -> json_Unmarshal b = Some (null_parts s)
}.

(** ** The instance *)

Record Spec := mkSpec {
  sp_Name : string; sp_UUID : string; sp_Password : string; sp_UserKey : string; sp_PSK : string; sp_Flow : string
}.

Definition CapabilityVLESS : string := "vless".
Definition CapabilityHysteria2 : string := "hysteria2".
Definition CapabilityShadowsocksMulti : string := "shadowsocks-multi".
Definition CapabilitySnellPSK : string := "snell-psk".

(** What the code reads of the sing-box instance, the tables of users it
    installed on inbounds and the routes it gave to user selectors. *)
Record Box := mkBox {
  bx_capability : gmap string string; bx_outbounds : gset string; bx_selectors : gset string;
  bx_validatePSK : string -> string -> option string;
  bx_tables : gmap string (list Spec); bx_routes : gmap string (gmap string string)
}.

#[export] Instance eta_Box : Eta Box := fun b =>
  mkBox (bx_capability b) (bx_outbounds b) (bx_selectors b) (bx_validatePSK b) (bx_tables b) (bx_routes b).

Definition inboundCapability (b : Box) (tag : string) : string := default "" (bx_capability b !! tag).
Definition userSelectorTag (inbound : string) : string := "userselector-" +:+ inbound.

Record RuntimeUsers := mkUsers {
  ru_path : string; ru_key : bytes; ru_bootID : string; ru_scope : gset string; ru_current : option UserSnapshot;
  ru_chunks : option chunkBuffer
}.

#[export] Instance eta_RuntimeUsers : Eta RuntimeUsers := fun r =>
  mkUsers (ru_path r) (ru_key r) (ru_bootID r) (ru_scope r) (ru_current r) (ru_chunks r).

Definition NewRuntimeUsers (path : string) (key : bytes) (bootID : string) (declared : list string) : RuntimeUsers :=
  mkUsers path key bootID (list_to_set (List.filter (fun tag => negb (tag =s "")) (map TrimSpace declared))) None None.

(** ** Requests *)

Definition uniqueSorted (values : list string) : list string :=
  sort_Strings (remove_dups (List.filter (fun v => negb (v =s "")) (map TrimSpace values))).

Definition containsString (values : list string) (want : string) : bool := existsb (fun v => v =s want) values.

Definition validateUserInstall (q : UserInstallRequest) : option users_error :=
  if (ur_UsersRevision q <=? 0) || (TrimSpace (ur_UsersDigest q) =s "") || (128 <? str_len (ur_UsersDigest q))
  then Some ErrUserInstallIllegal
  else if negb ((ur_Mode q =s "full") || (ur_Mode q =s "delta")) then Some ErrUserInstallIllegal
  else if (List.length (ur_Scope q) =? 0)%nat || (256 <? List.length (ur_Scope q))%nat then Some ErrUserInstallIllegal
  else if existsb (fun tag => TrimSpace tag =s "") (ur_Scope q) then Some ErrUserInstallIllegal
  else if match ur_Chunk q with
          | None => false
          | Some c => (uk_Total c <? 1) || (maxUserInstallChunks <? uk_Total c) || (uk_Index c <? 0) ||
                      (uk_Total c <=? uk_Index c) || (uk_SHA256 c =s "")
          end
  then Some ErrUserInstallIllegal
  else if (maxUserInstallEntries <? List.length (default [] (ur_Entries q)))%nat then Some ErrUserInstallIllegal
  else None.

Section Users.
Context {J : UsersJson} (sha_hex : bytes -> string).

(** *** Chunks *)

(** The bytes and entries of the parts other than [skip]; [None] when one of
    them does not decode. *)
Fixpoint other_parts (i skip : Z) (parts : list bytes) : option (Z * nat) :=
  match parts with
  | [] => Some (0, 0%nat)
  | part :: parts =>
      let rest := other_parts (i + 1) skip parts in
      if (i =? skip) || (List.length part =? 0)%nat then rest
      else match uj_count part, rest with
           | Some n, Some (size, count) => Some (Z.of_nat (List.length part) + size, (n + count)%nat)
           | _, _ => None
           end
  end.

(** The entries of all parts in order; [None] when one does not decode. *)
Fixpoint assemble (parts : list bytes) : option (list InstallEntry) :=
  match parts with
  | [] => Some []
  | part :: parts =>
      match json_Unmarshal part : option entry_list, assemble parts with
      | Some es, Some rest => Some (default [] es ++ rest)
      | _, _ => None
      end
  end.

Definition new_buffer (q : UserInstallRequest) (c : UserInstallChunk) : chunkBuffer :=
  mkChunks (ur_UsersRevision q) (ur_UsersDigest q) (ur_Mode q) (ur_BaseRevision q) (ur_Scope q) (uk_Total c)
    (replicate (Z.to_nat (uk_Total c)) []).

(** The buffer a chunk goes to: that of its revision, digest and total. *)
Definition buffer_for (q : UserInstallRequest) (c : UserInstallChunk) (chunks : option chunkBuffer) : chunkBuffer :=
  match chunks with
  | None => new_buffer q c
  | Some b => if negb (cb_Revision b =? ur_UsersRevision q) || negb (cb_Digest b =s ur_UsersDigest q) ||
                 negb (cb_Total b =? uk_Total c)
              then new_buffer q c else b
  end.

Definition same_install (b : chunkBuffer) (q : UserInstallRequest) : bool :=
  (cb_Mode b =s ur_Mode q) && (cb_Base b =? ur_BaseRevision q) &&
  bool_decide (uniqueSorted (cb_Scope b) = uniqueSorted (ur_Scope q)).

(** [acceptChunk]: the assembled entries once no part is missing. A request
    that is refused leaves the buffer it was looked up in. *)
Definition acceptChunk (q : UserInstallRequest) (c : UserInstallChunk) (chunks : option chunkBuffer)
  : result users_error (option (list InstallEntry)) * option chunkBuffer :=
  if (uk_Total c <? 1) || (maxUserInstallChunks <? uk_Total c) then (Err ErrUserInstallIllegal, chunks)
  else
    match json_Marshal (ur_Entries q) with
    | None => (Err (ErrText "json"), chunks)
    | Some payload =>
        if negb (sha_hex payload =s ToLower (uk_SHA256 c)) && negb (sha_hex payload =s uk_SHA256 c)
        then (Err ErrUserInstallDigest, chunks)
        else
          let b := buffer_for q c chunks in
          let index := Z.to_nat (uk_Index c) in
          if negb (same_install b q) then (Err ErrUserInstallIllegal, Some b)
          else
            let previous := default [] (cb_Parts b !! index) in
            if negb (List.length previous =? 0)%nat && negb (bool_decide (previous = payload))
            then (Err ErrUserInstallIllegal, Some b)
            else
              match other_parts 0 (uk_Index c) (cb_Parts b) with
              | None => (Err ErrUserInstallIllegal, Some b)
              | Some (size, count) =>
                  if (maxUsersBytes <? Z.of_nat (List.length payload) + size) ||
                     (maxUserInstallEntries <? List.length (default [] (ur_Entries q)) + count)%nat
                  then (Err ErrUserInstallIllegal, Some b)
                  else
                    let b := b<|cb_Parts ::= <[index := payload]>|> in
                    if existsb (fun part => (List.length part =? 0)%nat) (cb_Parts b) then (Ok None, Some b)
                    else
                      match assemble (cb_Parts b) with
                      | None => (Err ErrUserInstallIllegal, Some b)
                      | Some all =>
                          if (maxUserInstallEntries <? List.length all)%nat
                          then (Err ErrUserInstallIllegal, Some b)
                          else (Ok (Some all), Some b)
                      end
              end
    end.

(** *** Snapshots *)

Definition entry_key (e : InstallEntry) : string := snell_scope (ie_InboundTag e) (ie_AuthUser e).

Definition entry_le (a b : InstallEntry) : Prop :=
  (if ie_InboundTag a =s ie_InboundTag b then String.leb (ie_AuthUser a) (ie_AuthUser b)
   else String.leb (ie_InboundTag a) (ie_InboundTag b)) = true.
#[export] Instance entry_le_dec a b : Decision (entry_le a b).
Proof. unfold entry_le. apply _. Defined.

Definition sort_entries (l : list InstallEntry) : list InstallEntry := merge_sort entry_le l.

Definition UsersDigest (revision : Z) (scope : list string) (es : list InstallEntry) : string :=
  sha_hex (uj_doc revision (uniqueSorted scope) (sort_entries es)).

Definition UserSnapshotDigest (s : UserSnapshot) : string := UsersDigest (us_Revision s) (us_Scope s) (us_Entries s).

(** An entry without the counters the traffic lane owns. *)
Definition stable_entry (e : InstallEntry) : InstallEntry :=
  e<|ie_Policy ::= fun p => p<|UsedBaselineBytes := 0|><|LeaseBytes := 0|><|ResetLeaseBytes := 0|>|>.

Definition userSnapshotContentDigest (s : UserSnapshot) : string :=
  UsersDigest 0 (us_Scope s) (map stable_entry (us_Entries s)).

Definition deleted (e : InstallEntry) : bool := bool_decide (ie_Credential e = no_credential).

(** One entry of a request: trimmed, new, in scope, and either a user with a
    key or, in a delta, the bare name of a user to delete. *)
Definition entry_legal (mode : string) (scope : list string) (seen : gset string) (e : InstallEntry) : bool :=
  negb (ie_InboundTag e =s "") && negb (ie_AuthUser e =s "") && negb (bool_decide (entry_key e ∈ seen)) &&
  negb (negb (deleted e) && (TrimSpace (ie_AuthorizationKey e) =s "")) &&
  negb (deleted e && (negb (mode =s "delta") || negb (ie_AuthorizationKey e =s "") ||
          negb (bool_decide (ie_Identity e = no_identity)) || negb (bool_decide (ie_Policy e = zero_limit)) ||
          negb (ie_RouteOutbound e =s ""))) &&
  containsString scope (ie_InboundTag e).

Fixpoint clean_entries (mode : string) (scope : list string) (seen : gset string) (es : list InstallEntry)
  : option (list InstallEntry) :=
  match es with
  | [] => Some []
  | e :: es =>
      let e := e<|ie_InboundTag ::= TrimSpace|><|ie_AuthUser ::= TrimSpace|> in
      if entry_legal mode scope seen e then
        option_map (cons e) (clean_entries mode scope ({[entry_key e]} ∪ seen) es)
      else None
  end.

(** [mergeUserEntries]: the index by key and the order of first appearance. *)
Definition merge_delta (acc : gmap string InstallEntry * list string) (e : InstallEntry)
  : gmap string InstallEntry * list string :=
  let '(index, order) := acc in
  let key := entry_key e in
  let order := match index !! key with None => order ++ [key] | Some _ => order end in
  if deleted e && (ie_AuthorizationKey e =s "") then (delete key index, order) else (<[key := e]> index, order).

Fixpoint in_order (index : gmap string InstallEntry) (seen : gset string) (order : list string) : list InstallEntry :=
  match order with
  | [] => []
  | key :: order =>
      if bool_decide (key ∈ seen) then in_order index seen order
      else
        let rest := in_order index ({[key]} ∪ seen) order in
        match index !! key with Some e => e :: rest | None => rest end
  end.

Definition mergeUserEntries (base delta : list InstallEntry) : list InstallEntry :=
  let index := fold_left (fun m e => <[entry_key e := e]> m) base ∅ in
  let '(index, order) := fold_left merge_delta delta (index, map entry_key base) in
  in_order index ∅ order.

Definition buildSnapshot (current : option UserSnapshot) (q : UserInstallRequest) (es : list InstallEntry)
  : result users_error UserSnapshot :=
  let scope := uniqueSorted (ur_Scope q) in
  match clean_entries (ur_Mode q) scope ∅ es with
  | None => Err ErrUserInstallIllegal
  | Some cleaned =>
      let cleaned := sort_entries cleaned in
      let merged :=
        if ur_Mode q =s "delta" then
          match current with
          | Some cur => if us_Revision cur =? ur_BaseRevision q then Ok (mergeUserEntries (us_Entries cur) cleaned)
                        else Err ErrUserInstallBase
          | None => Err ErrUserInstallBase
          end
        else Ok cleaned in
      let? cleaned := merged in
      let digest := UsersDigest (ur_UsersRevision q) scope cleaned in
      if negb (digest =s ur_UsersDigest q) then Err ErrUserInstallDigest
      else Ok (mkSnapshot (ur_UsersRevision q) digest scope cleaned)
  end.

(** *** Validation against the instance *)

(** The sets a walk over the entries keeps: keys, names and, per Snell
    inbound, the keys installed on it. *)
Record walk := mkWalk { wk_seen : gset string; wk_names : gset string; wk_keys : gmap string (list string) }.

Definition snell_error (box : Box) (w : walk) (e : InstallEntry) : option users_error :=
  let c := ie_Credential e in
  let keys := default [] (wk_keys w !! ie_InboundTag e) in
  if (str_len (uc_PSK c) <? 8) || (255 <? str_len (uc_PSK c)) || negb (uc_UserKey c =s "") ||
     negb (uc_Password c =s "") || negb (uc_UUID c =s "") || negb (uc_Flow c =s "")
  then Some ErrUserInstallIllegal
  else match bx_validatePSK box (ie_InboundTag e) (uc_PSK c) with
       | Some err => Some (ErrText err)
       | None =>
           if (64 <? S (List.length keys))%nat then Some (ErrText "snell_credential_limit_exceeded")
           else if containsString keys (uc_PSK c) then Some (ErrText "snell_duplicate_psk")
           else None
       end.

(** A user name is bound to one identity as long as the tracker knows it. *)
Definition identity_clash (t : tracker) (e : InstallEntry) : bool :=
  match stateForKey t ("user:" +:+ ie_AuthUser e) with
  | None => false
  | Some a =>
      match t_heap t !! a with
      | None => false
      | Some c =>
          let p := policy (config (cell_state c)) in
          (0 <? UserID p) && (negb (UserID p =? ui_UserID (ie_Identity e)) ||
                              negb (InboundID p =? ui_InboundID (ie_Identity e)) ||
                              negb (PathID p =? ui_PathID (ie_Identity e)))
      end
  end.

Fixpoint validate_entries (box : Box) (t : tracker) (scope : list string) (w : walk) (es : list InstallEntry)
  : option users_error :=
  match es with
  | [] => None
  | e :: es =>
      if bool_decide (entry_key e ∈ wk_seen w) || negb (containsString scope (ie_InboundTag e)) ||
         (ie_AuthorizationKey e =s "")
      then Some ErrUserInstallIllegal
      else if negb (TrimSpace (ie_AuthUser e) =s ie_AuthUser e) || (ie_AuthUser e =s "") ||
              bool_decide (ie_AuthUser e ∈ wk_names w)
      then Some ErrUserInstallIllegal
      else if identity_clash t e then Some ErrUserInstallIllegal
      else if negb (bool_decide (ie_RouteOutbound e ∈ bx_outbounds box)) then Some ErrUserInstallIllegal
      else
        let snell := inboundCapability box (ie_InboundTag e) =s CapabilitySnellPSK in
        match (if snell then snell_error box w e else None) with
        | Some err => Some err
        | None =>
            validate_entries box t scope
              (mkWalk ({[entry_key e]} ∪ wk_seen w) ({[ie_AuthUser e]} ∪ wk_names w)
                 (if snell then <[ie_InboundTag e := uc_PSK (ie_Credential e) :: default [] (wk_keys w !! ie_InboundTag e)]> (wk_keys w)
                  else wk_keys w)) es
        end
  end.

Definition validateSnapshot (r : RuntimeUsers) (box : Box) (t : tracker) (s : UserSnapshot) : option users_error :=
  if negb (forallb (fun tag => bool_decide (tag ∈ ru_scope r) && negb (inboundCapability box tag =s "")) (us_Scope s))
  then Some ErrUserInstallCapability
  else validate_entries box t (us_Scope s) (mkWalk ∅ ∅ ∅) (us_Entries s).

(** *** Publication *)

Definition spec_of (e : InstallEntry) : Spec :=
  let c := ie_Credential e in mkSpec (ie_AuthUser e) (uc_UUID c) (uc_Password c) (uc_UserKey c) (uc_PSK c) (uc_Flow c).

Definition by_inbound (s : UserSnapshot) : gmap string (list InstallEntry) :=
  fold_left (fun m e => <[ie_InboundTag e := default [] (m !! ie_InboundTag e) ++ [e]]> m) (us_Entries s)
    (fold_left (fun m tag => <[tag := []]> m) (us_Scope s) ∅).

Definition routes_of (es : list InstallEntry) : gmap string string :=
  fold_left (fun m e => if ie_RouteOutbound e =s "" then m else <[ie_AuthUser e := ie_RouteOutbound e]> m) es ∅.

(** What the adapters answer: [pe_update] when an inbound refuses its table,
    with the table it is then left with, [pe_routes] when a selector does. *)
Record PublishEnv := mkPublish { pe_update : string -> option (string * list Spec); pe_routes : string -> option string }.

Definition publish_inbound (r : RuntimeUsers) (p : PublishEnv) (tag : string) (es : list InstallEntry) (box : Box)
  : option users_error * Box :=
  if (0 <? size (ru_scope r))%nat && negb (bool_decide (tag ∈ ru_scope r)) then (Some ErrUserInstallCapability, box)
  else if inboundCapability box tag =s "" then (Some ErrUserInstallCapability, box)
  else
    match pe_update p tag with
    | Some (err, table) => (Some (ErrText err), box<|bx_tables ::= <[tag := table]>|>)
    | None =>
        let box := box<|bx_tables ::= <[tag := map spec_of es]>|> in
        if bool_decide (userSelectorTag tag ∈ bx_selectors box) then
          match pe_routes p tag with
          | Some err => (Some (ErrText err), box)
          | None => (None, box<|bx_routes ::= <[tag := routes_of es]>|>)
          end
        else (None, box)
    end.

Fixpoint publish_inbounds (r : RuntimeUsers) (p : PublishEnv) (l : list (string * list InstallEntry)) (box : Box)
  : option users_error * Box :=
  match l with
  | [] => (None, box)
  | (tag, es) :: l =>
      match publish_inbound r p tag es box with
      | (Some err, box) => (Some err, box)
      | (None, box) => publish_inbounds r p l box
      end
  end.

Context {A : AEAD} {CL : Codec Lease} {CD : Codec (gmap string deniedEntry)} {TZ : TimeZones} (sha256 : string -> bytes).

Definition publishLocked (ev : Event) (p : PublishEnv) (r : RuntimeUsers) (s : UserSnapshot) (box : Box) (t : tracker)
  : option users_error * Box * tracker :=
  match publish_inbounds r p (map_to_list (by_inbound s)) box with
  | (Some err, box) => (Some err, box, t)
  | (None, box) =>
      let es := map tracker_entry (us_Entries s) in
      (None, box, publishSnellUsers sha256 (us_Scope s) es (ReplaceScopedUsers ev es t))
  end.

(** ** The durable file *)

(** The nonce of the envelope and the system calls of one write. The file is
    created with its mode, so that no change of mode can fail. *)
Record FileEnv := mkFile { fe_nonce : option bytes; fe_io : io }.

Definition without_chmod (o : io) : io :=
  mkIo (fun s => match s with SysChmod => None | _ => io_fail o s end) (io_part o).

Definition users_persist (e : FileEnv) (r : RuntimeUsers) (st : persistedUsers) (d : disk)
  : option users_error * disk :=
  if ru_path r =s "" then (None, d)
  else
    match json_Marshal st with
    | None => (Some (ErrText "json"), d)
    | Some data =>
        if maxUsersBytes <? Z.of_nat (List.length data) then (Some ErrUserInstallIllegal, d)
        else
          match (if (0 <? List.length (ru_key r))%nat then Encrypt (ru_key r) (fe_nonce e) data else Ok data) with
          | Err _ => (Some (ErrText "stealth"), d)
          | Ok data =>
              match writeAtomic (without_chmod (fe_io e)) (ru_path r +:+ ".tmp") (ru_path r) data d with
              | (Ok _, d) => (None, d)
              | (Err err, d) => (Some (ErrText err), d)
              end
          end
    end.

Definition users_load (r : RuntimeUsers) (d : disk) : result users_error persistedUsers :=
  if ru_path r =s "" then Ok no_state
  else
    match ReadFile d (ru_path r) with
    | Err NotExist => Ok no_state
    | Err (ReadFailed err) => Err (ErrText err)
    | Ok data =>
        if maxUsersBytes <? Z.of_nat (List.length data) then Err ErrUserInstallIllegal
        else
          match (if (0 <? List.length (ru_key r))%nat && IsEncrypted data then Decrypt (ru_key r) data else Ok data) with
          | Err _ => Err (ErrText "kernel users state is unreadable")
          | Ok data =>
              match json_Unmarshal data with
              | None => Err (ErrText "kernel-users.json is unreadable")
              | Some st => Ok st
              end
          end
    end.

(** ** Installation *)

Record Kernel := mkKernel { kn_users : RuntimeUsers; kn_disk : disk; kn_box : Box; kn_tracker : tracker }.

#[export] Instance eta_Kernel : Eta Kernel := fun k => mkKernel (kn_users k) (kn_disk k) (kn_box k) (kn_tracker k).

Record UsersStatus := mkStatus { st_UsersRevision : Z; st_UsersDigest : string; st_BootID : string; st_PerInbound : gmap string string }.

Definition statusLocked (k : Kernel) : UsersStatus :=
  let r := kn_users k in
  let scope := match ru_current r with Some s => us_Scope s | None => [] end in
  let caps := list_to_map (map (fun tag => (tag, inboundCapability (kn_box k) tag)) (scope ++ elements (ru_scope r))) in
  match ru_current r with
  | Some s => mkStatus (us_Revision s) (us_Digest s) (ru_bootID r) caps
  | None => mkStatus 0 "" (ru_bootID r) caps
  end.

Definition no_status : UsersStatus := mkStatus 0 "" "" ∅.

(** What one installation meets: the three writes it may make and the answers
    of the adapters. *)
Record InstallEnv := mkInstall {
  in_event : Event; in_chunks : FileEnv; in_candidate : FileEnv; in_current : FileEnv; in_publish : PublishEnv
}.

Definition persist_in (e : FileEnv) (st : persistedUsers) (k : Kernel) : option users_error * Kernel :=
  let '(err, d) := users_persist e (kn_users k) st (kn_disk k) in (err, k<|kn_disk := d|>).

Definition fail_users (ev : Event) (err : users_error) (k : Kernel) : option users_error * UsersStatus * Kernel :=
  (Some err, no_status, k<|kn_tracker ::= fun t => snd (reapSnellParents ev true (t<|t_usersFailed := true|>))|>).

(** The part of [Install] that commits a snapshot: candidate to disk,
    publication, commit to disk. *)
Definition commit_snapshot (e : InstallEnv) (s : UserSnapshot) (k : Kernel) : option users_error * UsersStatus * Kernel :=
  match validateSnapshot (kn_users k) (kn_box k) (kn_tracker k) s with
  | Some err => (Some err, no_status, k)
  | None =>
      match persist_in (in_candidate e) (mkPersisted (ru_current (kn_users k)) (Some s) "candidate" None) k with
      | (Some err, k) => (Some err, no_status, k)
      | (None, k) =>
          let '(err, box, t) := publishLocked (in_event e) (in_publish e) (kn_users k) s (kn_box k) (kn_tracker k) in
          let k := k<|kn_box := box|><|kn_tracker := t|> in
          match err with
          | Some err => fail_users (in_event e) err k
          | None =>
              match persist_in (in_current e) (mkPersisted (Some s) None "current" None) k with
              | (Some err, k) => fail_users (in_event e) err k
              | (None, k) =>
                  let k := k<|kn_tracker ::= fun t => snd (reapSnellParents (in_event e) false (t<|t_usersFailed := false|>))|>
                            <|kn_users ::= fun r => r<|ru_current := Some s|><|ru_chunks := None|>|> in
                  (None, statusLocked k, k)
              end
          end
      end
  end.

(** A snapshot at the revision in force: the same one again, or the same
    content with other counters. *)
Inductive same_revision := Repeated | Refreshed | Conflicting.

Definition at_revision (failed : bool) (mode : string) (cur s : UserSnapshot) : same_revision :=
  if (us_Digest s =s us_Digest cur) && negb failed then Repeated
  else if negb (mode =s "full") then Conflicting
  else if negb (userSnapshotContentDigest cur =s userSnapshotContentDigest s) then Conflicting
  else Refreshed.

Definition install_entries (e : InstallEnv) (q : UserInstallRequest) (es : list InstallEntry) (k : Kernel)
  : option users_error * UsersStatus * Kernel :=
  match buildSnapshot (ru_current (kn_users k)) q es with
  | Err err => (Some err, no_status, k)
  | Ok s =>
      match ru_current (kn_users k) with
      | None => commit_snapshot e s k
      | Some cur =>
          if us_Revision s <? us_Revision cur then (Some ErrUserInstallBase, no_status, k)
          else if us_Revision s =? us_Revision cur then
            match at_revision (t_usersFailed (kn_tracker k)) (ur_Mode q) cur s with
            | Repeated =>
                match validateSnapshot (kn_users k) (kn_box k) (kn_tracker k) s with
                | Some err => (Some err, no_status, k)
                | None => (None, statusLocked k, k)
                end
            | Conflicting => (Some ErrUserInstallDigest, no_status, k)
            | Refreshed => commit_snapshot e s k
            end
          else commit_snapshot e s k
      end
  end.

Definition Install (e : InstallEnv) (q : UserInstallRequest) (k : Kernel) : option users_error * UsersStatus * Kernel :=
  match validateUserInstall q with
  | Some err => (Some err, no_status, k)
  | None =>
      match ur_Chunk q with
      | None => install_entries e q (default [] (ur_Entries q)) k
      | Some c =>
          let '(res, chunks) := acceptChunk q c (ru_chunks (kn_users k)) in
          let k := k<|kn_users ::= fun r => r<|ru_chunks := chunks|>|> in
          match res with
          | Err err => (Some err, no_status, k)
          | Ok (Some all) => install_entries e q all k
          | Ok None =>
              match persist_in (in_chunks e) (mkPersisted (ru_current (kn_users k)) None "chunks" chunks) k with
              | (Some err, k) => (Some err, no_status, k)
              | (None, k) => (Some ErrUserInstallIncomplete, statusLocked k, k)
              end
          end
      end
  end.

(** ** Restoration *)

Fixpoint restore_parts (b : chunkBuffer) (i : Z) (parts : list bytes) (chunks : option chunkBuffer)
  : option users_error * option chunkBuffer :=
  match parts with
  | [] => (None, chunks)
  | part :: parts =>
      if (List.length part =? 0)%nat then restore_parts b (i + 1) parts chunks
      else
        match json_Unmarshal part : option entry_list with
        | None => (Some ErrUserInstallIllegal, chunks)
        | Some es =>
            match json_Marshal es with
            | None => (Some (ErrText "json"), chunks)
            | Some payload =>
                let c := mkChunk i (cb_Total b) (sha_hex payload) in
                let q := mkRequest (cb_Scope b) (cb_Revision b) (cb_Digest b) (cb_Mode b) (cb_Base b) (Some c) es in
                match validateUserInstall q with
                | Some err => (Some err, chunks)
                | None =>
                    match acceptChunk q c chunks with
                    | (Err err, chunks) => (Some err, chunks)
                    | (Ok _, chunks) => restore_parts b (i + 1) parts chunks
                    end
                end
            end
        end
  end.

Definition restore_chunks (st : persistedUsers) (chunks : option chunkBuffer) : option users_error * option chunkBuffer :=
  match pu_Chunks st with
  | None => (None, chunks)
  | Some b =>
      if match pu_Current st with None => true | Some cur => us_Revision cur <? cb_Revision b end then
        if (cb_Total b <? 1) || (maxUserInstallChunks <? cb_Total b) ||
           negb (Z.of_nat (List.length (cb_Parts b)) =? cb_Total b)
        then (Some ErrUserInstallIllegal, chunks)
        else restore_parts b 0 (cb_Parts b) chunks
      else (None, chunks)
  end.

(** Whether an entry still fits its inbound and its route. *)
Definition canRestoreUser (box : Box) (e : InstallEntry) : bool :=
  let c := ie_Credential e in
  let cap := inboundCapability box (ie_InboundTag e) in
  let none := fun s : string => s =s "" in
  bool_decide (ie_RouteOutbound e ∈ bx_outbounds box) &&
  (if cap =s CapabilitySnellPSK then
     negb (none (uc_PSK c)) && none (uc_Password c) && none (uc_UUID c) && none (uc_UserKey c) && none (uc_Flow c)
   else if cap =s CapabilityVLESS then
     negb (none (uc_UUID c)) && none (uc_Password c) && none (uc_PSK c) && none (uc_UserKey c)
   else if (cap =s CapabilityHysteria2) || (cap =s CapabilityShadowsocksMulti) then
     negb (none (uc_Password c)) && none (uc_UUID c) && none (uc_PSK c) && none (uc_UserKey c) && none (uc_Flow c)
   else false).

Definition restored_part (r : RuntimeUsers) (box : Box) (s : UserSnapshot) : UserSnapshot :=
  let scope := List.filter (fun tag => bool_decide (tag ∈ ru_scope r)) (us_Scope s) in
  s<|us_Scope := scope|>
   <|us_Entries ::= List.filter (fun e => containsString scope (ie_InboundTag e) && canRestoreUser box e)|>.

Record RestoreEnv := mkRestore { rv_event : Event; rv_publish : PublishEnv; rv_current : FileEnv }.

Definition restore_current (e : RestoreEnv) (st : persistedUsers) (s : UserSnapshot) (k : Kernel)
  : option users_error * Kernel :=
  if negb (UserSnapshotDigest s =s us_Digest s) then (Some ErrUserInstallDigest, k)
  else
    let restored := restored_part (kn_users k) (kn_box k) s in
    match validateSnapshot (kn_users k) (kn_box k) (kn_tracker k) restored with
    | Some err => (Some err, k)
    | None =>
        let '(err, box, t) := publishLocked (rv_event e) (rv_publish e) (kn_users k) restored (kn_box k) (kn_tracker k) in
        let k := k<|kn_box := box|><|kn_tracker := t|> in
        match err with
        | Some err => (Some err, k<|kn_tracker ::= fun t => t<|t_usersFailed := true|>|>)
        | None =>
            let k := k<|kn_users ::= fun r => r<|ru_current := Some s|>|>
                      <|kn_tracker ::= fun t => t<|t_usersFailed := false|>|> in
            if negb (pu_Commit st =s "current")
            then persist_in (rv_current e) (mkPersisted (Some s) None "current" None) k
            else (None, k)
        end
    end.

Definition Restore (e : RestoreEnv) (k : Kernel) : option users_error * Kernel :=
  match users_load (kn_users k) (kn_disk k) with
  | Err err => (Some err, k)
  | Ok st =>
      let '(err, chunks) := restore_chunks st (ru_chunks (kn_users k)) in
      let k := k<|kn_users ::= fun r => r<|ru_chunks := chunks|>|> in
      match err with
      | Some err => (Some err, k)
      | None =>
          match pu_Current st with
          | None => (None, match pu_Candidate st with
                           | Some _ => k<|kn_tracker ::= fun t => t<|t_usersFailed := true|>|>
                           | None => k
                           end)
          | Some s => restore_current e st s k
          end
      end
  end.

End Users.
