(* ===== verification/RuntimeUsersInv.v ===== *)
(** * RuntimeUsersInv: what the installation of users guarantees

    Theorems about RuntimeUsers.v. A delta is a map update; chunks in any
    order install what the whole request installs; the committed revision
    never goes back through installations that fail anywhere and restarts;
    unless the users are marked as failed every inbound in scope serves the
    users of the committed snapshot and no others; a failed publication
    closes the Snell sessions; and an installed revision keeps its content. *)

From S2P Require Import Prelude GoTime Stealth Files Json Authorization Window Quota Tracker TrackerInv RuntimeUsers.

(** ** Deltas *)

Definition keys (es : list InstallEntry) : list string := map entry_key es.
Definition table_of (es : list InstallEntry) : gmap string InstallEntry := list_to_map (map (fun e => (entry_key e, e)) es).
Definition removes (e : InstallEntry) : bool := deleted e && (ie_AuthorizationKey e =s "").

Lemma table_of_keys es : map fst (map (fun e => (entry_key e, e)) es) = keys es.
Proof. unfold keys. by rewrite map_map. Qed.

Lemma table_of_elem es e : NoDup (keys es) -> e ∈ es -> table_of es !! entry_key e = Some e.
Proof.
  intros Hnd He. apply elem_of_list_to_map_1.
  - change (NoDup (map fst (map (fun e => (entry_key e, e)) es))). by rewrite table_of_keys.
  - by apply (list_elem_of_fmap_2 (fun e => (entry_key e, e))).
Qed.

Lemma table_of_Some es k e : table_of es !! k = Some e -> e ∈ es /\ entry_key e = k.
Proof.
  intros H. apply elem_of_list_to_map_2, list_elem_of_fmap in H as (e' & [= -> ->] & H). done.
Qed.

Lemma table_of_None es k : table_of es !! k = None <-> k ∉ keys es.
Proof.
  unfold table_of. rewrite <- not_elem_of_list_to_map. change (fmap fst) with (map (A := string * InstallEntry) fst).
  by rewrite table_of_keys.
Qed.

(** The index [mergeUserEntries] builds of the base. *)
Lemma base_index es m :
  NoDup (keys es) -> fold_left (fun m e => <[entry_key e := e]> m) es m = table_of es ∪ m.
Proof.
  revert m. induction es as [| e es IH]; intros m Hnd; cbn [fold_left].
  - unfold table_of. cbn. by rewrite (left_id_L ∅ (∪)).
  - apply NoDup_cons in Hnd as [Hni Hnd]. rewrite IH by done.
    unfold table_of at 2. cbn [map list_to_map]. fold (table_of es).
    rewrite <- insert_union_r, insert_union_l; [done |]. by apply table_of_None.
Qed.

Definition updated (m : gmap string InstallEntry) (e : InstallEntry) : gmap string InstallEntry :=
  if removes e then delete (entry_key e) m else <[entry_key e := e]> m.

(** The state of the loop over the delta: the index is updated, keeps entries
    under their keys, and lists all its keys in the order. *)
Definition merging (acc : gmap string InstallEntry * list string) : Prop :=
  (forall k e, acc.1 !! k = Some e -> entry_key e = k /\ k ∈ acc.2).

Lemma merge_delta_fst acc e : (merge_delta acc e).1 = updated acc.1 e.
Proof. destruct acc as [m o]. unfold merge_delta, updated, removes. cbn. by destruct (_ && _). Qed.

Lemma merge_delta_order acc e k : k ∈ acc.2 -> k ∈ (merge_delta acc e).2.
Proof.
  destruct acc as [m o]. unfold merge_delta. cbn. intros H.
  destruct (m !! _), (_ && _); cbn; rewrite ?elem_of_app; auto.
Qed.

Lemma merge_delta_merging acc e : merging acc -> merging (merge_delta acc e).
Proof.
  intros Hm k e' H. rewrite merge_delta_fst in H. unfold updated in H.
  destruct (removes e).
  - apply lookup_delete_Some in H as [_ H]. destruct (Hm _ _ H). eauto using merge_delta_order.
  - apply lookup_insert_Some in H as [[<- ->] | [_ H]].
    + split; [done |]. destruct acc as [m o]. cbn in *. destruct (m !! entry_key e') eqn:E.
      * destruct (Hm _ _ E) as [_ Ho]. by destruct (_ && _).
      * destruct (_ && _); cbn; apply elem_of_app; right; by apply list_elem_of_singleton.
    + destruct (Hm _ _ H). eauto using merge_delta_order.
Qed.

Lemma in_order_elem index seen order e :
  (forall k e, index !! k = Some e -> entry_key e = k) ->
  e ∈ in_order index seen order <-> index !! entry_key e = Some e /\ entry_key e ∈ order /\ entry_key e ∉ seen.
Proof.
  intros Hk. revert seen. induction order as [| k order IH]; intros seen; cbn [in_order].
  - split; [inversion 1 | intros (_ & H & _); inversion H].
  - destruct (bool_decide_reflect (k ∈ seen)) as [Hs | Hs].
    + rewrite IH. set_solver.
    + destruct (index !! k) as [x |] eqn:E; cbv zeta; rewrite ?elem_of_cons, IH.
      * pose proof (Hk _ _ E) as <-. split; [intros [-> | H]; set_solver |]. intros (H1 & H2 & H3).
        destruct (decide (entry_key e = entry_key x)) as [He | Hne]; [left; congruence | set_solver].
      * split; [set_solver |]. intros (H1 & H2 & H3).
        assert (entry_key e <> k) by congruence. set_solver.
Qed.

Lemma in_order_nodup index seen order :
  (forall k e, index !! k = Some e -> entry_key e = k) -> NoDup (keys (in_order index seen order)).
Proof.
  intros Hk. revert seen. induction order as [| k order IH]; intros seen; cbn [in_order]; [constructor |].
  case_bool_decide as Hs; [apply IH |].
  destruct (index !! k) as [e |] eqn:E; cbv zeta; [| apply IH].
  cbn. apply NoDup_cons. split; [| apply IH].
  intros H. apply list_elem_of_fmap in H as (e' & He & H). apply in_order_elem in H as (_ & _ & H); [| done].
  rewrite <- He, (Hk _ _ E) in H. set_solver.
Qed.

(** A delta is a map update: what [mergeUserEntries] returns has one entry
    per key, the entry of the delta where the delta has one that does not
    delete, none where it deletes, and the entry of the base elsewhere. *)
Theorem delta_updates_the_table base delta :
  NoDup (keys base) ->
  table_of (mergeUserEntries base delta) = fold_left updated delta (table_of base) /\
  NoDup (keys (mergeUserEntries base delta)).
Proof.
  intros Hnd. unfold mergeUserEntries. rewrite base_index by done. rewrite (right_id_L ∅ (∪)).
  assert (merging (table_of base, keys base)) as Hm.
  { intros k e H. cbn in H. apply table_of_Some in H as [H <-]. split; [done |]. by apply list_elem_of_fmap_2. }
  change (map entry_key base) with (keys base).
  assert (forall acc, (fold_left merge_delta delta acc).1 = fold_left updated delta acc.1) as Hfst.
  { induction delta as [| e l IH]; intros acc; cbn [fold_left]; [done |]. by rewrite IH, merge_delta_fst. }
  assert (merging (fold_left merge_delta delta (table_of base, keys base))) as Hend.
  { apply fold_left_inv; [done |]. intros; by apply merge_delta_merging. }
  specialize (Hfst (table_of base, keys base)).
  destruct (fold_left merge_delta delta _) as [index order]. cbn [fst] in Hfst. subst index.
  set (index := fold_left updated delta (table_of base)) in *.
  assert (forall k e, index !! k = Some e -> entry_key e = k) as Hk by (intros k e H; by apply (Hend k e)).
  pose proof (in_order_nodup index ∅ order Hk) as Hn. split; [| done].
  apply map_eq. intros k. destruct (index !! k) as [e |] eqn:E.
  - pose proof (Hk _ _ E) as <-. apply table_of_elem; [done |]. apply in_order_elem; [done |].
    destruct (Hend _ _ E). set_solver.
  - destruct (table_of (in_order index ∅ order) !! k) as [e |] eqn:E2; [| done].
    apply table_of_Some in E2 as [H <-]. apply in_order_elem in H as (H & _); [| done]. congruence.
Qed.

(** ** Chunks *)

Definition flat (parts : list entry_list) : list InstallEntry := concat (map (default []) parts).
Definition weight (pay : list bytes) : Z := fold_right (fun b n => Z.of_nat (List.length b) + n) 0 pay.

Lemma weight_nonneg pay : 0 <= weight pay.
Proof. induction pay; unfold weight in *; cbn [fold_right]; lia. Qed.

Section Chunks.
Context {J : UsersJson} {JL : UsersJsonLaws J} (sha_hex : bytes -> string).

Abbreviation encoded := (Forall2 (fun (es : entry_list) b => json_Marshal es = Some b)).

(** The parts of a buffer that got the indices [got], from index [j] on. *)
Definition received (j : nat) (got : gset nat) (pay : list bytes) : list bytes :=
  imap (fun i b => if bool_decide ((j + i)%nat ∈ got) then b else []) pay.

Lemma received_cons j got b pay :
  received j got (b :: pay) = (if bool_decide (j ∈ got) then b else []) :: received (S j) got pay.
Proof.
  unfold received. rewrite imap_cons. f_equal; [by rewrite Nat.add_0_r |].
  apply imap_ext. intros i x _. cbn. by rewrite Nat.add_succ_r.
Qed.

Lemma received_none j pay : received j ∅ pay = replicate (List.length pay) [].
Proof.
  revert j. induction pay as [| b pay IH]; intros j; [done |]. rewrite received_cons, IH.
  by rewrite bool_decide_eq_false_2 by set_solver.
Qed.

Lemma received_insert got i b pay :
  pay !! i = Some b -> <[i := b]> (received 0 got pay) = received 0 ({[i]} ∪ got) pay.
Proof.
  intros Hi. apply list_eq. intros k. unfold received. rewrite list_lookup_imap.
  destruct (decide (k = i)) as [-> | Hne].
  - rewrite list_lookup_insert_eq; [rewrite Hi; cbn; by rewrite bool_decide_eq_true_2 by set_solver |].
    rewrite length_imap. by eapply lookup_lt_Some.
  - rewrite list_lookup_insert_ne by done. rewrite list_lookup_imap. destruct (pay !! k); cbn; [| done].
    f_equal. by rewrite (bool_decide_ext (k ∈ {[i]} ∪ got) (k ∈ got)) by set_solver.
Qed.

Lemma received_lookup got i b pay :
  pay !! i = Some b -> default [] (received 0 got pay !! i) = if bool_decide (i ∈ got) then b else [].
Proof. intros H. unfold received. rewrite list_lookup_imap, H. done. Qed.

(** Something is missing exactly if an index was not received. *)
Lemma received_missing j got parts pay :
  encoded parts pay ->
  existsb (fun part => (List.length part =? 0)%nat) (received j got pay) =
  negb (bool_decide (set_seq j (List.length pay) ⊆ got)).
Proof.
  intros H. revert j. induction H as [| es b parts pay Hb H IH]; intros j; cbn [List.length set_seq].
  - rewrite bool_decide_eq_true_2 by set_solver. done.
  - rewrite received_cons. cbn [existsb]. rewrite IH. apply uj_present in Hb.
    destruct (decide (j ∈ got)) as [Hj | Hj].
    + rewrite (bool_decide_eq_true_2 _ Hj). destruct b; [done |]. cbn [List.length Nat.eqb orb].
      f_equal. apply bool_decide_ext. set_solver.
    + rewrite (bool_decide_eq_false_2 _ Hj). cbn. rewrite bool_decide_eq_false_2; [done |]. set_solver.
Qed.

Lemma other_parts_fit got parts pay skip j :
  encoded parts pay ->
  exists size count, other_parts (Z.of_nat j) (Z.of_nat skip) (received j got pay) = Some (size, count) /\
    0 <= size /\
    size + (if bool_decide (j <= skip)%nat then Z.of_nat (List.length (default [] (pay !! (skip - j)%nat))) else 0) <= weight pay /\
    (count + (if bool_decide (j <= skip)%nat then List.length (default [] (default None (parts !! (skip - j)%nat))) else 0)
       <= List.length (flat parts))%nat.
Proof.
  intros H. revert j. induction H as [| es b parts pay Hb H IH]; intros j.
  - exists 0, 0%nat. rewrite !lookup_nil. cbn. split; [done |]. repeat case_bool_decide; lia.
  - rewrite received_cons. cbn [other_parts]. destruct (IH (S j)) as (size & count & E & Hs & Hw & Hc).
    replace (Z.of_nat j + 1) with (Z.of_nat (S j)) by lia. rewrite E.
    change (weight (b :: pay)) with (Z.of_nat (List.length b) + weight pay).
    unfold flat in *. cbn [map concat]. rewrite length_app.
    destruct (decide (j = skip)) as [-> | Hne].
    + exists size, count. rewrite Z.eqb_refl. cbn [orb].
      rewrite !(bool_decide_eq_true_2 (skip <= skip)%nat) by lia.
      rewrite !(bool_decide_eq_false_2 (S skip <= skip)%nat) in * by lia.
      rewrite Nat.sub_diag. cbn. split_and!; [done | lia | lia | lia].
    + assert (forall T (x : T) l, (j <= skip)%nat -> (x :: l) !! (skip - j)%nat = l !! (skip - S j)%nat) as Hl.
      { intros T x l Hle. replace (skip - j)%nat with (S (skip - S j)) by lia. done. }
      assert (bool_decide (S j <= skip)%nat = bool_decide (j <= skip)%nat) as Hb' by (apply bool_decide_ext; lia).
      rewrite Hb' in Hw, Hc. replace (Z.of_nat j =? Z.of_nat skip) with false by (symmetry; apply Z.eqb_neq; lia).
      cbn [orb].
      destruct (bool_decide_reflect (j ∈ got)) as [Hj | Hj].
      * pose proof (uj_present _ _ Hb) as Hne'. destruct (Nat.eqb_spec (List.length b) 0) as [Hz | _]; [by destruct b |].
        rewrite (uj_count_law _ _ Hb). eexists _, _. split; [reflexivity |].
        revert Hw Hc. destruct (bool_decide_reflect (j <= skip)%nat); intros Hw Hc; rewrite ?Hl by done; split_and!; lia.
      * cbn [List.length Nat.eqb]. exists size, count. split; [done |].
        revert Hw Hc. destruct (bool_decide_reflect (j <= skip)%nat); intros Hw Hc; rewrite ?Hl by done; split_and!; lia.
Qed.

Lemma assemble_all got j parts pay :
  encoded parts pay -> set_seq j (List.length pay) ⊆ got -> assemble (received j got pay) = Some (flat parts).
Proof.
  intros H. revert j. induction H as [| es b parts pay Hb H IH]; intros j Hg; [done |].
  cbn [List.length set_seq] in Hg. rewrite received_cons, bool_decide_eq_true_2 by set_solver. cbn [assemble].
  rewrite (json_roundtrip _ _ Hb), (IH (S j)) by set_solver. done.
Qed.

Context (q : UserInstallRequest) (parts : list entry_list) (pay : list bytes).
Context (Hpay : encoded parts pay) (Hsha : forall b, sha_hex b <> "") (Hlen : (1 <= List.length parts <= 64)%nat).
Context (Hbytes : weight pay <= maxUsersBytes).

Definition total : Z := Z.of_nat (List.length parts).
Definition chunk_of (i : nat) : UserInstallChunk := mkChunk (Z.of_nat i) total (sha_hex (default [] (pay !! i))).
Definition chunk_request (i : nat) : UserInstallRequest :=
  q<|ur_Chunk := Some (chunk_of i)|><|ur_Entries := default None (parts !! i)|>.
Definition whole_request : UserInstallRequest := q<|ur_Chunk := None|><|ur_Entries := Some (flat parts)|>.

Definition buffer_of (got : gset nat) : chunkBuffer :=
  mkChunks (ur_UsersRevision q) (ur_UsersDigest q) (ur_Mode q) (ur_BaseRevision q) (ur_Scope q) total
    (received 0 got pay).

(** No buffer, or one of another installation. *)
Definition foreign (chunks : option chunkBuffer) : Prop :=
  match chunks with
  | None => True
  | Some b => cb_Revision b <> ur_UsersRevision q \/ cb_Digest b <> ur_UsersDigest q \/ cb_Total b <> total
  end.

Definition holds (got : gset nat) (chunks : option chunkBuffer) : Prop :=
  chunks = Some (buffer_of got) \/ (got = ∅ /\ foreign chunks).

Lemma buffer_for_holds got i chunks :
  holds got chunks -> buffer_for (chunk_request i) (chunk_of i) chunks = buffer_of got.
Proof.
  assert (new_buffer (chunk_request i) (chunk_of i) = buffer_of ∅) as Hnew.
  { unfold new_buffer, buffer_of. cbn. unfold total. rewrite Nat2Z.id, received_none. f_equal. f_equal.
    by eapply Forall2_length. }
  intros [-> | [-> Hf]]; unfold buffer_for; cbn.
  - by rewrite !Z.eqb_refl, str_eqb_refl.
  - destruct chunks as [b |]; [| done]. cbn in Hf. rewrite Hnew.
    destruct (cb_Revision b =? ur_UsersRevision q) eqn:E1; [| done].
    destruct (cb_Digest b =s ur_UsersDigest q) eqn:E2; [| done].
    destruct (cb_Total b =? total) eqn:E3; [| done]. exfalso.
    apply Z.eqb_eq in E1, E3. apply str_eqb_eq in E2. by destruct Hf as [? | [? | ?]].
Qed.

(** One chunk: it is added, and the installation is complete once no index is
    missing. *)
Lemma acceptChunk_step got i chunks :
  (i < List.length parts)%nat -> (List.length (flat parts) <= maxUserInstallEntries)%nat -> holds got chunks ->
  acceptChunk sha_hex (chunk_request i) (chunk_of i) chunks =
    (Ok (if bool_decide (set_seq 0 (List.length parts) ⊆ {[i]} ∪ got) then Some (flat parts) else None),
     Some (buffer_of ({[i]} ∪ got))).
Proof.
  intros Hi Hcount Hh. unfold acceptChunk. rewrite (buffer_for_holds got) by done. cbn [uk_Total chunk_of].
  unfold total, maxUserInstallChunks. rewrite (proj2 (Z.ltb_ge _ _)), (proj2 (Z.ltb_ge _ _)) by lia. cbn [orb].
  destruct (lookup_lt_is_Some_2 parts i Hi) as [es He]. destruct (Forall2_lookup_l _ _ _ _ _ Hpay He) as (b & Hb & Hm).
  cbn [ur_Entries chunk_request upd]. rewrite He. cbn [default]. unfold chunk_of at 1 2. rewrite Hb. cbn [default uk_SHA256]. unfold id.
  rewrite Hm, str_eqb_refl, andb_false_r.
  assert (same_install (buffer_of got) (chunk_request i) = true) as ->.
  { unfold same_install. cbn. by rewrite str_eqb_refl, Z.eqb_refl, bool_decide_eq_true_2. }
  cbn [negb uk_Index chunk_of]. rewrite Nat2Z.id. cbn [cb_Parts buffer_of]. rewrite (received_lookup _ _ _ _ Hb).
  replace (negb _ && negb _) with false by (destruct (bool_decide (i ∈ got)); [by rewrite bool_decide_eq_true_2, andb_false_r | done]).
  destruct (other_parts_fit got parts pay i 0 Hpay) as (size & count & Ho & _ & Hw & Hc). change (Z.of_nat 0) with 0 in Ho. rewrite Ho.
  rewrite (bool_decide_eq_true_2 (0 <= i)%nat), Nat.sub_0_r in Hw, Hc by lia. rewrite Hb in Hw. rewrite He in Hc. cbn [default] in Hw, Hc. unfold id in Hw, Hc.
  rewrite (proj2 (Z.ltb_ge _ _)) by lia. rewrite (proj2 (Nat.ltb_ge _ _)) by lia. cbn [orb].
  assert ((buffer_of got)<|cb_Parts ::= <[i := b]>|> = buffer_of ({[i]} ∪ got)) as ->.
  { unfold buffer_of. by rewrite <- (received_insert _ _ _ _ Hb). }
  cbn [cb_Parts buffer_of]. rewrite (received_missing _ _ parts) by done.
  rewrite <- (Forall2_length _ _ _ Hpay).
  destruct (bool_decide_reflect (set_seq 0 (List.length parts) ⊆ {[i]} ∪ got)) as [Hall | Hall]; cbn [negb]; [| done].
  rewrite (assemble_all _ _ parts) by (rewrite <- ?(Forall2_length _ _ _ Hpay); done).
  by rewrite (proj2 (Nat.ltb_ge _ _)) by lia.
Qed.

End Chunks.

Lemma surjective_pairing_3 {X Y Z} (x : X * Y * Z) : x = (x.1.1, x.1.2, x.2).
Proof. by destruct x as [[] ?]. Qed.
(** ** Installations *)

Section Installs.
Context {J : UsersJson} {JL : UsersJsonLaws J} (sha_hex : bytes -> string).
Context {A : AEAD} {CL : Codec Lease} {CD : Codec (gmap string deniedEntry)} {TZ : TimeZones} (sha256 : string -> bytes).

Abbreviation users_install := (Install sha_hex sha256).
Abbreviation commit := (commit_snapshot sha256).

Definition with_chunks (c : option chunkBuffer) (k : Kernel) : Kernel := k<|kn_users ::= fun r => r<|ru_chunks := c|>|>.

(** Two answers that differ in the buffer of chunks only. *)
Definition alike (x y : option users_error * UsersStatus * Kernel) : Prop :=
  x.1 = y.1 /\ with_chunks None x.2 = with_chunks None y.2.

Lemma publish_inbounds_chunks c p l r box :
  publish_inbounds (r<|ru_chunks := c|>) p l box = publish_inbounds r p l box.
Proof.
  revert box. induction l as [| [tag es] l IH]; intros box; [done |]. cbn [publish_inbounds].
  change (publish_inbound (r<|ru_chunks := c|>) p tag es box) with (publish_inbound r p tag es box).
  destruct (publish_inbound r p tag es box) as [[err |] box']; [done | apply IH].
Qed.

Lemma publishLocked_chunks c ev p r s box t :
  publishLocked sha256 ev p (r<|ru_chunks := c|>) s box t = publishLocked sha256 ev p r s box t.
Proof. unfold publishLocked. by rewrite publish_inbounds_chunks. Qed.

Lemma persist_in_chunks e st c k :
  persist_in e st (with_chunks c k) = let '(err, k) := persist_in e st k in (err, with_chunks c k).
Proof.
  unfold persist_in. change (users_persist e (kn_users (with_chunks c k)) st (kn_disk (with_chunks c k)))
    with (users_persist e (kn_users k) st (kn_disk k)). by destruct (users_persist _ _ _ _).
Qed.

Lemma commit_chunks e s c k : alike (commit e s (with_chunks c k)) (commit e s k).
Proof.
  unfold commit_snapshot.
  change (validateSnapshot (kn_users (with_chunks c k)) (kn_box (with_chunks c k)) (kn_tracker (with_chunks c k)) s)
    with (validateSnapshot (kn_users k) (kn_box k) (kn_tracker k) s).
  destruct (validateSnapshot _ _ _ _); [done |]. rewrite persist_in_chunks.
  change (ru_current (kn_users (with_chunks c k))) with (ru_current (kn_users k)).
  destruct (persist_in _ _ k) as [[err |] k1]; [done |].
  change (publishLocked sha256 (in_event e) (in_publish e) (kn_users (with_chunks c k1)) s (kn_box (with_chunks c k1)) (kn_tracker (with_chunks c k1)))
    with (publishLocked sha256 (in_event e) (in_publish e) ((kn_users k1)<|ru_chunks := c|>) s (kn_box k1) (kn_tracker k1)).
  rewrite publishLocked_chunks.
  destruct (publishLocked _ _ _ _ _ _ _) as [[[err |] box] t]; [done |].
  change ((with_chunks c k1)<|kn_box := box|><|kn_tracker := t|>) with (with_chunks c (k1<|kn_box := box|><|kn_tracker := t|>)).
  rewrite persist_in_chunks. by destruct (persist_in _ _ _) as [[err |] k2].
Qed.

Lemma install_entries_chunks e q es c k :
  alike (install_entries sha_hex sha256 e q es (with_chunks c k)) (install_entries sha_hex sha256 e q es k).
Proof.
  unfold install_entries.
  change (ru_current (kn_users (with_chunks c k))) with (ru_current (kn_users k)).
  change (kn_tracker (with_chunks c k)) with (kn_tracker k).
  destruct (buildSnapshot _ _ _ _) as [s | err]; [| done].
  destruct (ru_current (kn_users k)) as [cur |]; [| apply commit_chunks].
  destruct (us_Revision s <? us_Revision cur); [done |].
  destruct (us_Revision s =? us_Revision cur); [| apply commit_chunks].
  destruct (at_revision _ _ _ _ _); [| apply commit_chunks | done].
  change (validateSnapshot (kn_users (with_chunks c k)) (kn_box (with_chunks c k)) (kn_tracker k) s)
    with (validateSnapshot (kn_users k) (kn_box k) (kn_tracker k) s).
  by destruct (validateSnapshot _ _ _ _).
Qed.

(** Deliveries of chunks of one request, each with its own surroundings. *)
Definition deliver_chunks (q : UserInstallRequest) (parts : list entry_list) (pay : list bytes) (ks : list (InstallEnv * nat)) (k : Kernel) : Kernel :=
  fold_left (fun k ei => (users_install ei.1 (chunk_request sha_hex q parts pay ei.2) k).2) ks k.

(** The three groups of tests of [validateUserInstall]. *)
Definition head_legal (q : UserInstallRequest) : bool :=
  negb ((ur_UsersRevision q <=? 0) || (TrimSpace (ur_UsersDigest q) =s "") || (128 <? str_len (ur_UsersDigest q)) ||
        negb ((ur_Mode q =s "full") || (ur_Mode q =s "delta")) ||
        ((List.length (ur_Scope q) =? 0)%nat || (256 <? List.length (ur_Scope q))%nat) ||
        existsb (fun tag => TrimSpace tag =s "") (ur_Scope q)).

Definition chunk_illegal (c : UserInstallChunk) : bool :=
  (uk_Total c <? 1) || (maxUserInstallChunks <? uk_Total c) || (uk_Index c <? 0) || (uk_Total c <=? uk_Index c) ||
  (uk_SHA256 c =s "").

Lemma if_none {T} (b : bool) (e : T) x : (if b then Some e else x) = None <-> b = false /\ x = None.
Proof. by destruct b; naive_solver. Qed.

Lemma validate_inv q :
  validateUserInstall q = None <->
  head_legal q = true /\ from_option chunk_illegal false (ur_Chunk q) = false /\
  (List.length (default [] (ur_Entries q)) <= maxUserInstallEntries)%nat.
Proof.
  unfold validateUserInstall, head_legal. rewrite !if_none, negb_true_iff, !orb_false_iff, negb_false_iff, !Nat.ltb_ge.
  change (match ur_Chunk q with None => _ | Some c => _ end) with (from_option chunk_illegal false (ur_Chunk q)).
  intuition done.
Qed.

Section Delivery.
Context (q : UserInstallRequest) (parts : list entry_list) (pay : list bytes).
Context (Hpay : Forall2 (fun (es : entry_list) b => json_Marshal es = Some b) parts pay).
Context (Hsha : forall b, sha_hex b <> "") (Hlen : (1 <= List.length parts <= 64)%nat).
Context (Hbytes : weight pay <= maxUsersBytes).
Context (Hvalid : validateUserInstall (whole_request q parts) = None).

Lemma part_length i : (List.length (default [] (default None (parts !! i))) <= List.length (flat parts))%nat.
Proof.
  destruct (other_parts_fit ∅ parts pay i 0 Hpay) as (size & count & _ & _ & _ & H).
  rewrite Nat.sub_0_r, bool_decide_eq_true_2 in H by lia. lia.
Qed.

Lemma whole_count : (List.length (flat parts) <= maxUserInstallEntries)%nat.
Proof. by apply validate_inv in Hvalid as (_ & _ & H). Qed.

Lemma chunk_valid i : (i < List.length parts)%nat -> validateUserInstall (chunk_request sha_hex q parts pay i) = None.
Proof.
  intros Hi. apply validate_inv in Hvalid as (Hhead & _ & Hcount). apply validate_inv. split_and!; [exact Hhead | |].
  - change (chunk_illegal (chunk_of sha_hex parts pay i) = false).
    unfold chunk_illegal. cbn [chunk_of uk_Total uk_Index uk_SHA256]. unfold total, maxUserInstallChunks. rewrite (proj2 (str_eqb_neq _ _) (Hsha _)). cbn [orb].
    rewrite !orb_false_iff, !Z.ltb_ge, Z.leb_gt. lia.
  - pose proof (part_length i). cbn [ur_Entries chunk_request whole_request upd default] in *. etransitivity; [apply H | exact Hcount].
Qed.

Abbreviation all_parts := (set_seq (C := gset nat) 0 (List.length parts)).

Lemma accept got i k :
  (i < List.length parts)%nat -> holds q parts pay got (ru_chunks (kn_users k)) ->
  acceptChunk sha_hex (chunk_request sha_hex q parts pay i) (chunk_of sha_hex parts pay i) (ru_chunks (kn_users k)) =
    (Ok (if bool_decide (all_parts ⊆ {[i]} ∪ got) then Some (flat parts) else None),
     Some (buffer_of q parts pay ({[i]} ∪ got))).
Proof. intros Hi Hh. apply acceptChunk_step; auto using whole_count. Qed.

(** A chunk that does not complete the request changes the buffer and the
    file, nothing else. *)
Lemma incomplete_chunk e i k got :
  (i < List.length parts)%nat -> ~ all_parts ⊆ {[i]} ∪ got -> holds q parts pay got (ru_chunks (kn_users k)) ->
  exists d, (users_install e (chunk_request sha_hex q parts pay i) k).2 =
    with_chunks (Some (buffer_of q parts pay ({[i]} ∪ got))) (k<|kn_disk := d|>).
Proof.
  intros Hi Hall Hh. unfold Install. rewrite chunk_valid by done.
  change (ur_Chunk (chunk_request sha_hex q parts pay i)) with (Some (chunk_of sha_hex parts pay i)). cbv iota beta.
  rewrite (accept got) by done. rewrite bool_decide_eq_false_2 by done. cbv iota beta zeta.
  unfold persist_in. destruct (users_persist _ _ _ _) as [[err |] d]; by exists d.
Qed.

Lemma deliver_incomplete ks k :
  Forall (fun ei => (ei.2 < List.length parts)%nat) ks -> foreign q parts (ru_chunks (kn_users k)) ->
  ~ all_parts ⊆ list_to_set (map snd ks) ->
  exists d c, deliver_chunks q parts pay ks k = with_chunks c (k<|kn_disk := d|>) /\ holds q parts pay (list_to_set (map snd ks)) c.
Proof.
  intros Hks Hf. induction ks as [| [e i] ks IH] using rev_ind; intros Hall.
  - exists (kn_disk k), (ru_chunks (kn_users k)). split; [by destruct k as [[] ? ? ?] | by right].
  - apply Forall_app in Hks as [Hks Hi]. apply Forall_cons in Hi as [Hi _].
    rewrite map_app, list_to_set_app_L in Hall |- *. cbn [map snd list_to_set] in Hall |- *.
    rewrite (right_id_L ∅ (∪)), (comm_L (∪)) in Hall |- *.
    destruct IH as (d & c & E & Hh); [done | set_solver |].
    unfold deliver_chunks in *. rewrite fold_left_app, E. cbn [fold_left fst snd].
    destruct (incomplete_chunk e i (with_chunks c (k<|kn_disk := d|>)) _ Hi Hall Hh) as (d' & ->).
    eexists d', _. split; [reflexivity | by left].
Qed.

(** C21: chunks install the whole: however the chunks of a request are ordered
    and repeated, and whatever writes fail in between, nothing but the buffer
    and the file changes until no chunk is missing; the chunk that completes
    the request is answered and carried out as the whole request would be. *)
Theorem chunks_install_the_whole ks e j k :
  Forall (fun ei => (ei.2 < List.length parts)%nat) ks -> (j < List.length parts)%nat ->
  foreign q parts (ru_chunks (kn_users k)) ->
  ~ all_parts ⊆ list_to_set (map snd ks) -> all_parts ⊆ {[j]} ∪ list_to_set (map snd ks) ->
  let k1 := deliver_chunks q parts pay ks k in
  kn_box k1 = kn_box k /\ kn_tracker k1 = kn_tracker k /\ ru_current (kn_users k1) = ru_current (kn_users k) /\
  alike (users_install e (chunk_request sha_hex q parts pay j) k1) (users_install e (whole_request q parts) k1).
Proof.
  intros Hks Hj Hf Hmiss Hall k1. destruct (deliver_incomplete ks k Hks Hf Hmiss) as (d & c & E & Hh).
  subst k1. rewrite E. split_and!; [done | done | done |]. set (k1 := with_chunks c (k<|kn_disk := d|>)).
  unfold Install. rewrite chunk_valid, Hvalid by done.
  change (ur_Chunk (chunk_request sha_hex q parts pay j)) with (Some (chunk_of sha_hex parts pay j)).
  change (ur_Chunk (whole_request q parts)) with (@None UserInstallChunk). cbv iota beta.
  rewrite (accept (list_to_set (map snd ks))) by done. rewrite bool_decide_eq_true_2 by done. cbv iota beta zeta.
  change (install_entries sha_hex sha256 e (chunk_request sha_hex q parts pay j) (flat parts)) with
    (install_entries sha_hex sha256 e (whole_request q parts) (flat parts)).
  apply install_entries_chunks.
Qed.

End Delivery.
(** *** Publication *)

Definition users_at (tag : string) (es : list InstallEntry) : list InstallEntry :=
  List.filter (fun e => ie_InboundTag e =s tag) es.

Lemma scope_inbounds tag l (m : gmap string (list InstallEntry)) :
  tag ∈ l \/ m !! tag = Some [] -> fold_left (fun m t => <[t := []]> m) l m !! tag = Some [].
Proof.
  revert m. induction l as [| t l IH]; intros m H; cbn [fold_left]; [destruct H as [H | H]; [inversion H | done] |].
  apply IH. destruct (decide (tag = t)) as [-> | Hne]; [right; apply lookup_insert_eq |].
  rewrite lookup_insert_ne by done. set_solver.
Qed.

Lemma entry_inbounds tag es l0 (m : gmap string (list InstallEntry)) :
  m !! tag = Some l0 ->
  fold_left (fun m e => <[ie_InboundTag e := default [] (m !! ie_InboundTag e) ++ [e]]> m) es m !! tag =
    Some (l0 ++ users_at tag es).
Proof.
  revert l0 m. induction es as [| e es IH]; intros l0 m Hm; cbn [fold_left users_at List.filter]; [by rewrite app_nil_r |].
  fold (users_at tag es). destruct (ie_InboundTag e =s tag) eqn:E.
  - apply str_eqb_eq in E. rewrite (IH (l0 ++ [e])); [by rewrite <- app_assoc |]. by rewrite E, lookup_insert_eq, Hm.
  - apply IH. rewrite lookup_insert_ne; [done |]. by apply str_eqb_neq.
Qed.

Lemma by_inbound_lookup s tag : tag ∈ us_Scope s -> by_inbound s !! tag = Some (users_at tag (us_Entries s)).
Proof. intros Hin. unfold by_inbound. rewrite (entry_inbounds _ _ []); [done |]. apply scope_inbounds. by left. Qed.

Lemma publish_inbounds_ok r p l box box' :
  NoDup (map fst l) -> publish_inbounds r p l box = (None, box') ->
  (forall tag es, (tag, es) ∈ l -> bx_tables box' !! tag = Some (map spec_of es)) /\
  (forall tag, tag ∉ map fst l -> bx_tables box' !! tag = bx_tables box !! tag).
Proof.
  revert box. induction l as [| [tag es] l IH]; intros box Hnd; cbn [publish_inbounds map fst].
  { intros [= ->]. split; [intros ? ? H; inversion H | done]. }
  cbn [map fst] in Hnd. apply NoDup_cons in Hnd as [Hni Hnd].
  destruct (publish_inbound r p tag es box) as [[err |] box1] eqn:E; [done |]. intros H.
  assert (bx_tables box1 = <[tag := map spec_of es]> (bx_tables box)) as Ht.
  { unfold publish_inbound in E. repeat case_match; try done; injection E as <-; reflexivity. }
  destruct (IH _ Hnd H) as [H1 H2]. split.
  - intros tag' es' [[= -> ->] | Hin]%elem_of_cons; [| by apply H1]. by rewrite H2, Ht, lookup_insert_eq.
  - intros tag' Hnin. rewrite H2 by set_solver. rewrite Ht, lookup_insert_ne by set_solver. done.
Qed.

(** A publication that succeeds gives every inbound in scope its users. *)
Lemma publishLocked_tables ev p r s box t box' t' :
  publishLocked sha256 ev p r s box t = (None, box', t') ->
  forall tag, tag ∈ us_Scope s -> bx_tables box' !! tag = Some (map spec_of (users_at tag (us_Entries s))).
Proof.
  unfold publishLocked. destruct (publish_inbounds _ _ _ _) as [[err |] b] eqn:E; [done |]. intros [= <- _] tag Hin.
  apply publish_inbounds_ok in E as [H _]; [| apply NoDup_fst_map_to_list].
  apply H, elem_of_map_to_list. by apply by_inbound_lookup.
Qed.

(** *** The mark of failed users *)

Lemma reap_failed ev force t : t_usersFailed (snd (reapSnellParents ev force t)) = t_usersFailed t.
Proof.
  unfold reapSnellParents.
  assert (forall ids acc, t_usersFailed (snd (fold_left (collect_stale ev force) ids acc)) = t_usersFailed (snd acc)) as H1.
  { intros ids acc. apply (fold_left_inv _ (fun a => t_usersFailed (snd a) = t_usersFailed (snd acc))); [done |].
    intros [l t1] id _ <-. unfold collect_stale, parent_stale, deny_identity, quota_denied. cbn [snd].
    repeat (case_match; try done); simplify_eq/=; repeat case_match; simplify_eq/=; done. }
  specialize (H1 (elements (t_snellParents t)) ([], t)).
  destruct (fold_left _ _ _) as [closing t1]. cbn [snd] in *. rewrite <- H1.
  unfold pruneSnellCounters. apply (fold_left_inv _ (fun t' => t_usersFailed t' = t_usersFailed t1)).
  - apply (fold_left_inv _ (fun t' => t_usersFailed t' = t_usersFailed t1)); [done |]. intros t2 id _ <-.
    unfold closeParent. repeat case_match; done.
  - intros t2 key _ <-. unfold prune_one. repeat case_match; done.
Qed.

(** *** The durable file *)

Context {AL : AEADLaws A}.

Definition whole_nonce (e : FileEnv) : Prop := match fe_nonce e with Some n => List.length n = nonceLen | None => True end.

(** The file of users, if there is one, is within the limit of the reader. *)
Definition file_fits (r : RuntimeUsers) (d : disk) : Prop :=
  forall b, d !! ru_path r = Some (Regular b) -> Z.of_nat (List.length b) <= maxUsersBytes.

Lemma users_load_path r d d' : d' !! ru_path r = d !! ru_path r -> users_load r d' = users_load r d.
Proof. intros H. unfold users_load, ReadFile. by rewrite H. Qed.

Lemma tmp_ne (path : string) : (path +:+ ".tmp")%string <> path.
Proof. intros H. apply (f_equal String.length) in H. rewrite string_length_app in H. cbn in H. lia. Qed.

(** Whatever fails, the file afterwards is the old one or loads as the new
    state; the latter when the write reports no error. *)
Lemma users_persist_load e r st d err d' :
  whole_nonce e -> ru_path r <> "" -> users_persist e r st d = (err, d') -> file_fits r d' ->
  users_load r d' = Ok (null_parts st) \/ (err <> None /\ d' !! ru_path r = d !! ru_path r).
Proof.
  intros Hn Hp. unfold users_persist. rewrite (proj2 (str_eqb_neq _ _) Hp).
  destruct (json_Marshal st) as [data |] eqn:Em; [| intros [= <- <-] _; by right].
  destruct (maxUsersBytes <? _); [intros [= <- <-] _; by right |].
  destruct (if (0 <? List.length (ru_key r))%nat then _ else _) as [data' |] eqn:Ee; [| intros [= <- <-] _; by right].
  pose proof (writeAtomic_spec (ru_path r +:+ ".tmp") (ru_path r) data' d (tmp_ne _) (without_chmod (fe_io e))) as (H1 & H2 & _).
  destruct (writeAtomic _ _ _ _ _) as [res d1]. cbn [fst snd] in *. intros Hw Hf.
  assert (d1 = d') as -> by (destruct res; congruence).
  assert (d' !! ru_path r = Some (Regular data') -> users_load r d' = Ok (null_parts st)) as Hnew.
  { intros Hd. unfold users_load, ReadFile. rewrite (proj2 (str_eqb_neq _ _) Hp), Hd.
    rewrite (proj2 (Z.ltb_ge _ _)) by (by apply Hf). apply uj_file_law in Em.
    destruct (0 <? List.length (ru_key r))%nat eqn:Ek; cbn [andb]; [| injection Ee as <-; by rewrite Em].
    unfold whole_nonce in Hn. destruct (fe_nonce e) as [n |] eqn:En.
    - destruct (Decrypt_Encrypt _ _ _ _ Hn Ee) as [-> ->]. by rewrite Em.
    - exfalso. unfold Encrypt in Ee. split_if_in Ee; [done |]. by destruct (gcm (ru_key r)). }
  destruct res as [[] | x]; [left; auto |]. destruct H2 as [H2 | H2]; [right | by left; auto].
  split; [by simplify_eq | done].
Qed.

(** *** Invariant of a kernel and its disk *)

Definition revision_of (s : option UserSnapshot) : Z := from_option us_Revision 0 s.

(** What a restart would restore. *)
Definition users_durable (k : Kernel) (x : option UserSnapshot) : Prop :=
  exists st, users_load (kn_users k) (kn_disk k) = Ok st /\ pu_Current st = x.

(** Every inbound in the committed scope serves users of the committed
    snapshot only. *)
Definition users_serves (k : Kernel) : Prop := forall s tag,
  ru_current (kn_users k) = Some s -> tag ∈ us_Scope s -> tag ∈ ru_scope (kn_users k) ->
  exists es, bx_tables (kn_box k) !! tag = Some (map spec_of es) /\ sublist es (users_at tag (us_Entries s)).

Record users_inv (k : Kernel) : Prop := {
  ui_path : ru_path (kn_users k) <> "";
  ui_durable : exists x, users_durable k x /\ revision_of (ru_current (kn_users k)) <= revision_of x /\
    (t_usersFailed (kn_tracker k) = false -> x = ru_current (kn_users k));
  ui_serves : t_usersFailed (kn_tracker k) = false -> users_serves k
}.

Definition users_fit (k : Kernel) : Prop := file_fits (kn_users k) (kn_disk k).

(** A write that commits to [c], or fails, where [c] is the snapshot in force. *)
Lemma persist_inv e st k err k' :
  whole_nonce e -> users_inv k -> persist_in e st k = (err, k') -> users_fit k' ->
  pu_Current st = ru_current (kn_users k) -> users_inv k'.
Proof.
  intros Hn [Hp (x & (st0 & Hl & Hx) & Hrev & Hd) Hs]. unfold persist_in.
  destruct (users_persist _ _ _ _) as [err' d] eqn:E. intros [= -> <-] Hf Hc.
  destruct (users_persist_load _ _ _ _ _ _ Hn Hp E Hf) as [Hl' | [_ Hsame]]; split; cbn; try done.
  - exists (ru_current (kn_users k)). split; [exists (null_parts st); by split | by split].
  - exists x. split; [| by split]. exists st0. split; [| done]. cbn. by rewrite (users_load_path _ _ _ Hsame).
Qed.

Lemma commit_inv e s k err status k' :
  whole_nonce (in_candidate e) -> whole_nonce (in_current e) -> users_inv k -> commit e s k = (err, status, k') -> users_fit k' ->
  revision_of (ru_current (kn_users k)) <= us_Revision s ->
  users_inv k' /\ (ru_current (kn_users k') = ru_current (kn_users k) \/ ru_current (kn_users k') = Some s) /\
  (err = None -> t_usersFailed (kn_tracker k') = false /\ ru_current (kn_users k') = Some s /\
     forall tag, tag ∈ us_Scope s -> bx_tables (kn_box k') !! tag = Some (map spec_of (users_at tag (us_Entries s)))).
Proof.
  intros Hn1 Hn2 Hi. unfold commit_snapshot.
  destruct (validateSnapshot _ _ _ _); [intros [= <- <- <-] _ _; split; [done | by split; [left |]] |].
  destruct (persist_in (in_candidate e) _ k) as [err1 k1] eqn:E1. pose proof E1 as E1'.
  unfold persist_in in E1. destruct (users_persist _ _ _ _) as [er1 d1] eqn:Ep1. injection E1 as -> <-.
  destruct err1 as [err1 |].
  { intros [= <- <- <-] Hf _. split; [by eapply (persist_inv _ _ _ _ _ Hn1 Hi E1' Hf) | by split; [left |]]. }
  change (kn_users (k<|kn_disk := d1|>)) with (kn_users k). change (kn_box (k<|kn_disk := d1|>)) with (kn_box k).
  change (kn_tracker (k<|kn_disk := d1|>)) with (kn_tracker k).
  destruct (publishLocked _ _ _ _ _ _ _) as [[err2 box] t] eqn:E2.
  destruct Hi as [Hp (x & Hx & Hrev & Hd) Hs].
  assert (forall d, file_fits (kn_users k) d -> d !! ru_path (kn_users k) = d1 !! ru_path (kn_users k) ->
    users_load (kn_users k) d = Ok (mkPersisted (ru_current (kn_users k)) (Some s) "candidate" None)) as Hcand.
  { intros d Hfd Hd'. rewrite (users_load_path _ _ _ Hd').
    destruct (users_persist_load _ _ _ _ _ _ Hn1 Hp Ep1) as [H | [H _]]; [| done | done].
    intros b Hb'. apply Hfd. congruence. }
  destruct err2 as [err2 |].
  { unfold fail_users. intros [= <- <- <-] Hf _. split; [| by split; [left |]].
    split; cbn; rewrite ?reap_failed; [done | | done].
    exists (ru_current (kn_users k)). split; [| done]. eexists. split; [by apply Hcand | done]. }
  destruct (persist_in (in_current e) _ _) as [err3 k3] eqn:E3. unfold persist_in in E3.
  destruct (users_persist (in_current e) _ _ _) as [er d3] eqn:E4. injection E3 as -> <-.
  destruct err3 as [err3 |].
  - unfold fail_users. intros [= <- <- <-] Hf Hle. split; [| by split; [left |]].
    split; cbn; rewrite ?reap_failed; [done | | done].
    destruct (users_persist_load _ _ _ _ _ _ Hn2 Hp E4 Hf) as [Hl | [_ Hsame]].
    + exists (Some s). split; [by eexists | done].
    + exists (ru_current (kn_users k)). split; [| done]. eexists. split; [by apply Hcand | done].
  - intros [= <- <- <-] Hf Hle.
    pose proof (publishLocked_tables _ _ _ _ _ _ _ _ E2) as Htab.
    destruct (users_persist_load _ _ _ _ _ _ Hn2 Hp E4 Hf) as [Hl | [? _]]; [| done].
    split; [| split; [by right |]; intros _; split; [by cbn; rewrite reap_failed | by split]].
    split; cbn; [done | |].
    + exists (Some s). split; [by eexists | done].
    + intros _ s' tag [= <-] Hin _. cbn. eexists. split; [by apply Htab | done].
Qed.

Lemma users_inv_chunks c k : users_inv k -> users_inv (with_chunks c k).
Proof. by intros [H1 H2 H3]. Qed.

Lemma buildSnapshot_head current q es s :
  buildSnapshot sha_hex current q es = Ok s -> us_Revision s = ur_UsersRevision q /\ us_Digest s = ur_UsersDigest q.
Proof.
  unfold buildSnapshot. destruct (clean_entries _ _ _ _) as [l |]; [| done].
  destruct (if ur_Mode q =s "delta" then _ else _) as [l' |]; [cbn [result_bind] | done].
  destruct (UsersDigest _ _ _ _ =s _) eqn:E; [| done]. apply str_eqb_eq in E. by intros [= <-].
Qed.

Definition env_ok (e : InstallEnv) : Prop :=
  whole_nonce (in_chunks e) /\ whole_nonce (in_candidate e) /\ whole_nonce (in_current e).

(** The snapshot [q] asks for is in force. *)
Definition users_in_force (q : UserInstallRequest) (k : Kernel) : Prop :=
  t_usersFailed (kn_tracker k) = false /\
  exists s, ru_current (kn_users k) = Some s /\ us_Revision s = ur_UsersRevision q /\ us_Digest s = ur_UsersDigest q.

Lemma install_entries_inv e q es k err status k' :
  env_ok e -> users_inv k -> 0 < ur_UsersRevision q ->
  install_entries sha_hex sha256 e q es k = (err, status, k') -> users_fit k' ->
  users_inv k' /\ revision_of (ru_current (kn_users k)) <= revision_of (ru_current (kn_users k')) /\
  (err = None -> users_in_force q k').
Proof.
  intros (_ & Hn1 & Hn2) Hi Hq. unfold install_entries.
  destruct (buildSnapshot _ _ _ _) as [s |] eqn:Eb; [| intros [= <- <- <-] _; by split_and!].
  apply buildSnapshot_head in Eb as [Er Ed].
  assert (revision_of (ru_current (kn_users k)) <= us_Revision s -> commit e s k = (err, status, k') -> users_fit k' ->
    users_inv k' /\ revision_of (ru_current (kn_users k)) <= revision_of (ru_current (kn_users k')) /\
    (err = None -> users_in_force q k')) as Hcommit.
  { intros Hle E Hf. destruct (commit_inv _ _ _ _ _ _ Hn1 Hn2 Hi E Hf Hle) as (H1 & H2 & H3). split_and!; [done | |].
    - by destruct H2 as [-> | ->].
    - intros He. destruct (H3 He) as (Hfa & Hc & _). split; [done |]. by exists s. }
  destruct (ru_current (kn_users k)) as [cur |] eqn:Ec; cbn [revision_of from_option] in Hcommit; [| apply Hcommit; lia].
  destruct (us_Revision s <? us_Revision cur) eqn:E1; [intros [= <- <- <-] _; by rewrite Ec |]. apply Z.ltb_ge in E1.
  destruct (us_Revision s =? us_Revision cur) eqn:E2; [| by apply Hcommit].
  unfold at_revision. destruct ((us_Digest s =s us_Digest cur) && negb (t_usersFailed (kn_tracker k))) eqn:E3.
  - apply andb_true_iff in E3 as [E3 E4]. apply str_eqb_eq in E3. apply negb_true_iff in E4. apply Z.eqb_eq in E2.
    destruct (validateSnapshot _ _ _ _); intros [= <- <- <-] _; rewrite Ec; split_and!; try done.
    intros _. split; [done |]. exists cur. split_and!; congruence.
  - destruct (negb (ur_Mode q =s "full")); [intros [= <- <- <-] _; by rewrite Ec |].
    destruct (negb (userSnapshotContentDigest _ _ =s _)); [intros [= <- <- <-] _; by rewrite Ec | by apply Hcommit].
Qed.

Lemma users_install_inv e q k err status k' :
  env_ok e -> users_inv k -> users_install e q k = (err, status, k') -> users_fit k' ->
  users_inv k' /\ revision_of (ru_current (kn_users k)) <= revision_of (ru_current (kn_users k')) /\
  (err = None -> users_in_force q k').
Proof.
  intros He Hi. unfold Install. destruct (validateUserInstall q) as [err0 |] eqn:Ev.
  { intros [= <- <- <-] _. by split_and!. }
  assert (0 < ur_UsersRevision q) as Hq.
  { apply validate_inv in Ev as (Hh & _). unfold head_legal in Hh. apply negb_true_iff in Hh.
    rewrite !orb_false_iff in Hh. destruct Hh as (((((H & _) & _) & _) & _) & _). by apply Z.leb_gt. }
  destruct (ur_Chunk q) as [c |]; [| by apply install_entries_inv].
  destruct (acceptChunk _ _ _ _) as [res chunks]. fold (with_chunks chunks k). pose proof (users_inv_chunks chunks k Hi) as Hi'.
  destruct res as [[all |] | err1].
  - intros E Hf. exact (install_entries_inv _ _ _ _ _ _ _ He Hi' Hq E Hf).
  - destruct (persist_in _ _ _) as [err1 k1] eqn:E. intros E2 Hf.
    assert (k1 = k') as -> by (destruct err1; congruence).
    split_and!; [by eapply (persist_inv _ _ _ _ _ (proj1 He) Hi' E Hf) | | by destruct err1; simplify_eq].
    unfold persist_in in E. destruct (users_persist _ _ _ _). by injection E as _ <-.
  - intros [= <- <- <-] _. by split_and!.
Qed.

(** *** Restarts *)

Lemma restored_serves tag scope box es :
  sublist (users_at tag (List.filter (fun e => containsString scope (ie_InboundTag e) && canRestoreUser box e) es)) (users_at tag es).
Proof.
  unfold users_at. induction es as [| e es IH]; cbn [List.filter]; [constructor |].
  destruct (_ && _); cbn [List.filter]; destruct (ie_InboundTag e =s tag); try done; by constructor.
Qed.

(** A process that comes up on the disk of another one. *)
Definition fresh (boot : string) (declared : list string) (box : Box) (t : tracker) (k : Kernel) : Kernel :=
  mkKernel (NewRuntimeUsers (ru_path (kn_users k)) (ru_key (kn_users k)) boot declared) (kn_disk k) box t.

Lemma restore_current_inv e st s k err k' :
  whole_nonce (rv_current e) -> ru_path (kn_users k) <> "" -> users_load (kn_users k) (kn_disk k) = Ok st ->
  pu_Current st = Some s -> restore_current sha_hex sha256 e st s k = (err, k') -> users_fit k' ->
  ru_path (kn_users k') <> "" /\ users_durable k' (Some s) /\ (err = None -> users_inv k' /\ ru_current (kn_users k') = Some s).
Proof.
  intros Hn Hp Hl Hs. unfold restore_current.
  assert (users_durable k (Some s)) as Hdur by (by exists st).
  destruct (UserSnapshotDigest _ _ =s _); [cbn [negb] | by intros [= <- <-]].
  destruct (validateSnapshot _ _ _ _); [by intros [= <- <-] |].
  destruct (publishLocked _ _ _ _ _ _ _) as [[err2 box] t] eqn:E2.
  destruct err2 as [err2 |]; [by intros [= <- <-] |].
  pose proof (publishLocked_tables _ _ _ _ _ _ _ _ E2) as Htab.
  set (k1 := k<|kn_box := box|><|kn_tracker := t|><|kn_users ::= fun r => r<|ru_current := Some s|>|>
              <|kn_tracker ::= fun t => t<|t_usersFailed := false|>|>).
  assert (users_inv k1) as Hi.
  { split; [done | by exists (Some s) |]. intros _ s' tag [= <-] Hin Hdecl. eexists. split; [apply Htab | apply restored_serves].
    cbn. apply list_elem_of_In, filter_In. split; [by apply list_elem_of_In | by apply bool_decide_eq_true_2]. }
  destruct (negb _).
  - intros E Hf. pose proof (persist_inv _ _ _ _ _ Hn Hi E Hf eq_refl) as Hi'.
    unfold persist_in in E. destruct (users_persist _ _ _ _) as [er d]. injection E as -> <-.
    destruct Hi' as [H1 (x & H2 & H3 & H4) H5]. rewrite (H4 eq_refl) in H2. split_and!; [done | done |].
    intros _. split; [| done]. split; [done | | done]. exists (Some s). split_and!; [done | done | done].
  - intros [= <- <-] _. by split_and!.
Qed.

Lemma Restore_inv e boot declared box t k err k' x :
  whole_nonce (rv_current e) -> ru_path (kn_users k) <> "" -> users_durable k x ->
  Restore sha_hex sha256 e (fresh boot declared box t k) = (err, k') -> users_fit k' ->
  ru_path (kn_users k') <> "" /\ users_durable k' x /\ (err = None -> users_inv k' /\ ru_current (kn_users k') = x).
Proof.
  intros Hn Hp (st & Hl & Hx). unfold Restore.
  change (users_load (kn_users (fresh boot declared box t k)) (kn_disk (fresh boot declared box t k)))
    with (users_load (kn_users k) (kn_disk k)). rewrite Hl.
  destruct (restore_chunks _ _ _) as [err1 chunks].
  set (k1 := (fresh boot declared box t k)<|kn_users ::= fun r => r<|ru_chunks := chunks|>|>).
  assert (users_durable k1 x) as Hdur by (by exists st).
  destruct err1 as [err1 |]; [intros [= <- <-] _; by split_and! |].
  destruct (pu_Current st) as [s |] eqn:Es; subst x.
  - intros E Hf. by apply (restore_current_inv e st s k1 err k' Hn Hp Hl Es E Hf).
  - assert (forall b, users_inv k1 /\ users_inv (k1<|kn_tracker ::= fun t => t<|t_usersFailed := b|>|>)) as Hi.
    { intros b. split; (split; [done | by exists None |]; intros _ s' tag [=]). }
    destruct (pu_Candidate st); intros [= <- <-] _; (split_and!; [done | done |]); intros _; split; try done; by apply (Hi true).
Qed.

(** Traces of a node: installations in a process that is up, and restarts,
    which the process survives if the restoration reports no error. *)
Inductive ustep : bool * Kernel -> bool * Kernel -> Prop :=
| u_install e q k err status k' :
    env_ok e -> users_install e q k = (err, status, k') -> users_fit k' -> ustep (true, k) (true, k')
| u_restart up e boot declared box t k err k' :
    whole_nonce (rv_current e) -> Restore sha_hex sha256 e (fresh boot declared box t k) = (err, k') -> users_fit k' ->
    ustep (up, k) (match err with None => true | Some _ => false end, k').

Definition standing (n : bool * Kernel) : Prop :=
  if n.1 then users_inv n.2 else ru_path (kn_users n.2) <> "" /\ exists x, users_durable n.2 x.

(** The revision a node stands at: that in force while the process is up, that
    on disk while it is down. *)
Definition level (n : bool * Kernel) : Z :=
  if n.1 then revision_of (ru_current (kn_users n.2))
  else match users_load (kn_users n.2) (kn_disk n.2) with Ok st => revision_of (pu_Current st) | Err _ => 0 end.

Lemma ustep_inv n n' : ustep n n' -> standing n -> standing n' /\ level n <= level n'.
Proof.
  intros [e q k err status k' He E Hf | up e boot declared box t k err k' Hn E Hf] Hs.
  - cbn in Hs. destruct (users_install_inv _ _ _ _ _ _ He Hs E Hf) as (H1 & H2 & _). by split.
  - assert (exists x, ru_path (kn_users k) <> "" /\ users_durable k x /\ level (up, k) <= revision_of x) as (x & Hp & Hd & Hle).
    { destruct up; cbn in Hs.
      - destruct Hs as [Hp (x & Hd & Hle & _) _]. by exists x.
      - destruct Hs as (Hp & x & (st & Hl & Hx)). exists x. split_and!; [done | by exists st |]. cbn. by rewrite Hl, Hx. }
    destruct (Restore_inv _ _ _ _ _ _ _ _ _ Hn Hp Hd E Hf) as (H1 & H2 & H3).
    destruct err as [err |].
    + split; [split; [done | by exists x] |]. destruct H2 as (st & Hl & <-). cbn. by rewrite Hl.
    + destruct (H3 eq_refl) as [H4 H5]. split; [done |]. unfold level at 2. cbn. by rewrite H5.
Qed.

(** C14: the users of a node never go back: through any sequence of
    installations that fail at any step and restarts that come up or do not,
    the revision in force only grows, also across a restart; and unless the
    users are marked as failed what is in force is what a restart restores
    and every inbound in its scope serves users of it only. *)
Theorem users_revision_never_goes_back n n' :
  rtc ustep n n' -> standing n ->
  level n <= level n' /\
  (n'.1 = true -> t_usersFailed (kn_tracker n'.2) = false -> users_durable n'.2 (ru_current (kn_users n'.2)) /\ users_serves n'.2).
Proof.
  intros Hrun Hs. assert (standing n' /\ level n <= level n') as [Hs' Hle].
  { induction Hrun as [n | n1 n2 n3 Hstep Hrun IH]; [done |].
    destruct (ustep_inv _ _ Hstep Hs) as [H1 H2]. destruct (IH H1) as [H3 H4]. split; [done | lia]. }
  split; [done |]. intros Hup Hok. unfold standing in Hs'. rewrite Hup in Hs'. destruct Hs' as [_ (x & Hx & _ & Heq) Hserve].
  split; [| by apply Hserve]. by rewrite <- (Heq Hok).
Qed.

(** An installation that is answered without an error is in force: the
    revision and digest it asked for are the committed ones, on disk too, and
    the inbounds in scope serve its users. *)
Theorem answered_install_is_in_force e q k err status k' :
  env_ok e -> users_inv k -> users_install e q k = (err, status, k') -> users_fit k' -> err = None ->
  users_in_force q k' /\ users_durable k' (ru_current (kn_users k')) /\ users_serves k'.
Proof.
  intros He Hi E Hf Hnone. destruct (users_install_inv _ _ _ _ _ _ He Hi E Hf) as ([_ (x & Hx & _ & Heq) Hs] & _ & H).
  destruct (H Hnone) as [Hok Hr]. split; [by split |]. rewrite <- (Heq Hok). auto.
Qed.

(** *** Snell sessions *)

Definition parents_same (t t' : tracker) : Prop := t_parents t' = t_parents t /\ t_snellParents t' = t_snellParents t.

Lemma replace_parents ev es t : parents_same t (ReplaceScopedUsers ev es t).
Proof.
  unfold ReplaceScopedUsers. apply (fold_left_inv _ (parents_same t)); [done |]. intros t1 e _ [H1 H2].
  unfold install_user. repeat case_match; simplify_eq/=; by split.
Qed.

Lemma publish_parents scope es t : parents_same t (publishSnellUsers sha256 scope es t).
Proof.
  unfold publishSnellUsers. apply (fold_left_inv _ (parents_same t)); [done |]. intros t1 e _ [H1 H2].
  by destruct (_ =s _).
Qed.

Lemma parents_ok_same t t' : parents_same t t' -> parents_ok t -> parents_ok t'.
Proof. intros [H1 H2] H id Hid. rewrite H1. apply H. by rewrite <- H2. Qed.

(** The published table has, in scope, the users of the snapshot only. *)
Lemma published_users scope es t key s :
  t_snellUsers (publishSnellUsers sha256 scope (map tracker_entry es) t) !! key = Some s -> in_scope scope key = true ->
  exists u, u ∈ es /\ key = entry_key u /\ sn_credential s = sha256 (uc_PSK (ie_Credential u)).
Proof.
  unfold publishSnellUsers. set (t0 := t<|t_snellRetired ::= _|><|t_snellUsers ::= _|>).
  set (P := fun t : tracker => forall s, t_snellUsers t !! key = Some s -> in_scope scope key = true ->
    exists u, u ∈ es /\ key = entry_key u /\ sn_credential s = sha256 (uc_PSK (ie_Credential u))).
  intros Hs Hin. revert s Hs Hin. change (P (fold_left (fun t e => if en_PSK e =s "" then t else
    t<|t_snellRetired ::= fun s => s ∖ {["user:" +:+ en_AuthUser e]}|>
     <|t_snellUsers ::= <[snell_scope (en_InboundTag e) (en_AuthUser e) := mkSnell (en_AuthorizationKey e) (sha256 (en_PSK e))]>|>)
    (map tracker_entry es) t0)).
  apply fold_left_inv.
  - intros s Hs Hin. unfold t0 in Hs. cbn in Hs. apply map_lookup_filter_Some in Hs as [_ Hs]. congruence.
  - intros t1 e He HP s. destruct (en_PSK e =s ""); [apply HP |]. cbn.
    intros Hs. apply lookup_insert_Some in Hs as [[Hk <-] | [_ Hs]]; [| by apply HP]. intros _.
    apply list_elem_of_fmap in He as (u & -> & Hu). by exists u.
Qed.

Lemma closing_all ev ids acc :
  (forall id, id ∈ ids -> is_Some (t_parents acc.2 !! id)) ->
  let acc' := fold_left (collect_stale ev true) ids acc in
  acc'.2 = acc.2 /\ forall id, id ∈ ids \/ id ∈ acc.1 -> id ∈ acc'.1.
Proof.
  revert acc. induction ids as [| i ids IH]; intros [l t] Hp; cbn [fold_left]; [cbn; split; [done | set_solver] |].
  destruct (Hp i ltac:(set_solver)) as [p Ep]. cbn [snd] in Ep, Hp.
  assert (collect_stale ev true (l, t) i = (i :: l, t)) as -> by (unfold collect_stale, parent_stale; by rewrite Ep).
  destruct (IH (i :: l, t)) as [H1 H2]; [cbn; set_solver |]. split; [done |]. intros id Hid. apply H2. set_solver.
Qed.

Lemma reap_everything ev t : parents_ok t -> t_snellParents (snd (reapSnellParents ev true t)) = ∅.
Proof.
  intros Hok. unfold reapSnellParents.
  destruct (closing_all ev (elements (t_snellParents t)) ([], t)) as [H1 H2].
  { intros id Hid. apply elem_of_elements, Hok in Hid as (p & Hp & _). by exists p. }
  destruct (fold_left _ _ _) as [closing t1]. cbn [fst snd] in *. subst t1.
  destruct (closeParents_spec closing t Hok) as (_ & _ & H3 & H4).
  destruct (prune_pruned (fold_left (fun t id => closeParent id t) closing t)) as (_ & _ & _ & -> & _).
  apply set_eq. intros id. split; [| set_solver]. intros Hid. destruct (H4 _ Hid) as [Hni _]. destruct Hni.
  apply H2. left. apply elem_of_elements. set_solver.
Qed.


(** A committed snapshot governs the Snell sessions: after a commit every
    session left open on an inbound in scope holds the PSK of the user of the
    snapshot it authenticated as, so that a rotated or removed PSK ends its
    sessions. *)
Theorem committed_users_govern_snell_sessions e s k status k' id p :
  parents_ok (kn_tracker k) -> commit e s k = (None, status, k') ->
  id ∈ t_snellParents (kn_tracker k') -> t_parents (kn_tracker k') !! id = Some p ->
  in_scope (us_Scope s) (p_authScope p) = true ->
  exists u, u ∈ us_Entries s /\ p_authScope p = entry_key u /\ p_credential p = sha256 (uc_PSK (ie_Credential u)) /\
    p_closed p = false.
Proof.
  intros Hok. unfold commit_snapshot. destruct (validateSnapshot _ _ _ _); [done |].
  unfold persist_in. destruct (users_persist (in_candidate e) _ _ _) as [[err1 |] d1]; [done |].
  cbn [kn_users kn_box kn_tracker]. destruct (publishLocked _ _ _ _ _ _ _) as [[err2 box] t] eqn:E2.
  destruct err2 as [err2 |]; [done |].
  destruct (users_persist (in_current e) _ _ _) as [[err3 |] d3]; [done |].
  intros [= _ <-]. cbn. unfold publishLocked in E2. destruct (publish_inbounds _ _ _ _) as [[? |] ?]; [done |].
  injection E2 as _ <-. set (t1 := ReplaceScopedUsers _ _ _). set (t2 := publishSnellUsers _ _ _ t1).
  assert (parents_ok (t2<|t_usersFailed := false|>)) as Hok2.
  { change (parents_ok t2). eapply parents_ok_same; [apply publish_parents |]. eapply parents_ok_same; [apply replace_parents | done]. }
  intros Hid Hp Hscope. destruct (reaped_parents_hold_installed_credential _ _ _ _ Hok2 Hid Hp) as (sn & Hsn & Hcred & Hcl).
  assert (t_snellUsers (snd (reapSnellParents (in_event e) false (t2<|t_usersFailed := false|>))) = t_snellUsers t2) as Hsame.
  { unfold reapSnellParents.
    destruct (collect_stale_spec (in_event e) (t2<|t_usersFailed := false|>) ([], t2<|t_usersFailed := false|>)
      (elements (t_snellParents (t2<|t_usersFailed := false|>))) ltac:(done)) as ((S1 & S2 & S3) & _).
    destruct (fold_left (collect_stale _ false) _ _) as [closing t3]. cbn [fst snd] in *.
    assert (parents_ok t3) as Hok3 by (unfold parents_ok; by rewrite S1, S2).
    destruct (closeParents_spec closing t3 Hok3) as (_ & R2 & _).
    destruct (prune_pruned (fold_left (fun t id => closeParent id t) closing t3)) as (_ & _ & _ & _ & -> & _). by rewrite R2, S3. }
  rewrite Hsame in Hsn. apply published_users in Hsn as (u & Hu & Hk & Hc); [| done].
  exists u. split_and!; congruence.
Qed.

(** *** The content of a revision *)

Definition content (s : UserSnapshot) : list string * list InstallEntry :=
  (uniqueSorted (us_Scope s), sort_entries (map stable_entry (us_Entries s))).

(** A revision keeps its content: an installation at the revision in force
    that is answered without an error leaves the same users, identities and
    policies; only the counters of the traffic lane may differ (for documents
    whose digests do not collide). *)
Theorem installed_revision_keeps_its_content e q k status k' cur :
  (forall s, sha_hex (uj_doc 0 (content s).1 (content s).2) = sha_hex (uj_doc 0 (content cur).1 (content cur).2) ->
     content s = content cur) ->
  users_install e q k = (None, status, k') -> ur_Chunk q = None ->
  ru_current (kn_users k) = Some cur -> us_Revision cur = ur_UsersRevision q ->
  exists s, ru_current (kn_users k') = Some s /\ content s = content cur.
Proof.
  intros Hinj E Hc Hcur Hrev. unfold Install in E. destruct (validateUserInstall q); [done |]. rewrite Hc in E.
  unfold install_entries in E. destruct (buildSnapshot _ _ _ _) as [s |] eqn:Eb; [| done].
  apply buildSnapshot_head in Eb as [Er _]. rewrite Hcur in E.
  rewrite Er, <- Hrev, Z.ltb_irrefl, Z.eqb_refl in E. unfold at_revision in E.
  destruct (_ && _).
  { destruct (validateSnapshot _ _ _ _); [done |]. injection E as _ <-. by exists cur. }
  destruct (negb (ur_Mode q =s "full")); [done |].
  destruct (userSnapshotContentDigest sha_hex cur =s userSnapshotContentDigest sha_hex s) eqn:Ed; [cbn [negb] in E | done].
  apply str_eqb_eq in Ed. exists s. split; [| by apply Hinj].
  revert E. unfold commit_snapshot. destruct (validateSnapshot _ _ _ _); [done |].
  destruct (persist_in (in_candidate e) _ _) as [[? |] k1]; [done |].
  destruct (publishLocked _ _ _ _ _ _ _) as [[[err2 |] box] t]; [done |].
  destruct (persist_in (in_current e) _ _) as [[? |] k2]; [done |]. by intros [= _ <-].
Qed.

End Installs.

(** ** A concrete kernel *)

Section Witness.
#[local] Existing Instance lease_codec.
#[local] Existing Instance denied_codec.
#[local] Existing Instance no_zones.

#[local] Instance snapshot_eq_dec : EqDecision UserSnapshot.
Proof. solve_decision. Defined.
#[local] Instance chunks_eq_dec : EqDecision chunkBuffer.
Proof. solve_decision. Defined.
#[local] Instance persisted_eq_dec : EqDecision persistedUsers.
Proof. solve_decision. Defined.

(** Two users of one VLESS inbound, installed in two chunks. *)
Definition user_on (name : string) (uid : Z) : InstallEntry :=
  mkInstallEntry "in" name (mkCredential ("uuid-" +:+ name) "" "" "" "") ("key-" +:+ name)
    (mkUserIdentity uid 1 1 "" 1 "active") "direct" zero_limit.
Definition ann : InstallEntry := user_on "ann" 1.
Definition bob : InstallEntry := user_on "bob" 2.

Definition checksum (b : bytes) : string :=
  "h" +:+ pretty (fold_left (fun h c => (h * 257 + Z.of_N (N_of_ascii c) + 1) mod 2305843009213693951) b 7).

Definition short_doc (r : Z) (scope : list string) (es : list InstallEntry) : bytes :=
  list_ascii_of_string (String.concat "," (pretty r :: scope ++ map ie_AuthUser es)).

Definition both_digest : string := checksum (short_doc 1 ["in"%string] [ann; bob]).
Definition both : UserInstallRequest := mkRequest ["in"%string] 1 both_digest "full" 0 None None.
Definition two_parts : list entry_list := [Some [ann]; Some [bob]].
Definition raw_ann : bytes := list_ascii_of_string "[ann]".
Definition raw_bob : bytes := list_ascii_of_string "[bob]".

Definition both_snapshot : UserSnapshot := mkSnapshot 1 both_digest ["in"%string] [ann; bob].
Definition half (parts : list bytes) : chunkBuffer := mkChunks 1 both_digest "full" 0 ["in"%string] 2 parts.

(** The values the example writes, with their encodings. *)
Definition entry_texts : list (entry_list * bytes) := [(None, null); (Some [ann], raw_ann); (Some [bob], raw_bob)].
Definition file_texts : list (persistedUsers * bytes) :=
  [(mkPersisted None None "chunks" (Some (half [raw_ann; []])), list_ascii_of_string "1");
   (mkPersisted None None "chunks" (Some (half [[]; raw_bob])), list_ascii_of_string "2");
   (mkPersisted None (Some both_snapshot) "candidate" None, list_ascii_of_string "3");
   (mkPersisted (Some both_snapshot) None "current" None, list_ascii_of_string "4")].

Definition text_of {T} `{EqDecision T} (l : list (T * bytes)) (x : T) : option bytes :=
  snd <$> List.find (fun p => bool_decide (fst p = x)) l.
Definition value_of {T} (l : list (T * bytes)) (b : bytes) : option T :=
  fst <$> List.find (fun p => bool_decide (snd p = b)) l.

Definition table_json (files : list (persistedUsers * bytes)) : UsersJson := {|
  uj_entries := {| json_Marshal es := text_of entry_texts es; json_Unmarshal b := value_of entry_texts b |};
  uj_file := {| json_Marshal s := text_of files s; json_Unmarshal b := null_parts <$> value_of files b |};
  uj_count b := (fun es => List.length (default [] es)) <$> value_of entry_texts b;
  uj_doc := short_doc
|}.

Lemma text_value {T} `{EqDecision T} (l : list (T * bytes)) x b :
  NoDup (map snd l) -> text_of l x = Some b -> value_of l b = Some x.
Proof.
  unfold text_of, value_of. induction l as [| [y c] l IH]; cbn [map List.find fst snd]; intros Hnd H; [done |].
  apply NoDup_cons in Hnd as [Hni Hnd]. case_bool_decide as E1.
  - injection H as <-. rewrite bool_decide_eq_true_2 by done. cbn. by subst.
  - rewrite bool_decide_eq_false_2; [by apply IH |]. intros ->. apply Hni.
    destruct (List.find _ l) as [p |] eqn:Ef; [| done]. injection H as <-. apply find_some in Ef as [Hin _].
    apply list_elem_of_In, in_map, Hin.
Qed.

Lemma table_laws files : NoDup (map snd files) -> UsersJsonLaws (table_json files).
Proof.
  intros Hnd. assert (forall es b, text_of entry_texts es = Some b -> value_of entry_texts b = Some es) as He.
  { intros es b. apply text_value. by apply (bool_decide_unpack _). }
  split.
  - exact He.
  - done.
  - intros es b H ->. by apply He in H.
  - intros es b H. change (uj_count b) with ((fun es : entry_list => List.length (default [] es)) <$> value_of entry_texts b).
    by rewrite (He _ _ H).
  - intros s b H. change (json_Unmarshal b) with (null_parts <$> value_of files b). by rewrite (text_value files s b).
Qed.

#[local] Instance toy_json : UsersJson := table_json file_texts.
#[local] Instance toy_laws : UsersJsonLaws toy_json.
Proof. apply table_laws. by apply (bool_decide_unpack _). Qed.

Definition box_w : Box := mkBox {["in"%string := "vless"%string]} {["direct"%string]} ∅ (fun _ _ => None) ∅ ∅.
Definition users_w : RuntimeUsers := NewRuntimeUsers "/var/lib/oboard/kernel-users.json" [] "boot-1" ["in"%string].
Definition kernel_w : Kernel := mkKernel users_w ∅ box_w two_users.
Definition file_w : FileEnv := mkFile None io_good.
Definition willing : PublishEnv := mkPublish (fun _ => None) (fun _ => None).
Definition env_w : InstallEnv := mkInstall at_sample file_w file_w file_w willing.
Definition restore_w : RestoreEnv := mkRestore at_sample willing file_w.

Abbreviation install_w := (Install checksum plain_sha).
Abbreviation chunk_w := (chunk_request checksum both two_parts [raw_ann; raw_bob]).

Lemma parts_encoded : Forall2 (fun (es : entry_list) b => json_Marshal es = Some b) two_parts [raw_ann; raw_bob].
Proof. repeat constructor. Qed.

Lemma chunks_install_the_whole_witness :
  (install_w env_w (chunk_w 0%nat) (deliver_chunks checksum plain_sha both two_parts [raw_ann; raw_bob] [(env_w, 1%nat)] kernel_w)).1.1 = None /\
  alike (install_w env_w (chunk_w 0%nat) (deliver_chunks checksum plain_sha both two_parts [raw_ann; raw_bob] [(env_w, 1%nat)] kernel_w))
    (install_w env_w (whole_request both two_parts) (deliver_chunks checksum plain_sha both two_parts [raw_ann; raw_bob] [(env_w, 1%nat)] kernel_w)).
Proof.
  split; [vm_compute; reflexivity |].
  apply (chunks_install_the_whole checksum plain_sha both two_parts [raw_ann; raw_bob] parts_encoded (fun _ => ltac:(discriminate))
    ltac:(cbn; lia) ltac:(vm_compute; discriminate) ltac:(vm_compute; reflexivity) [(env_w, 1%nat)] env_w 0%nat kernel_w).
  - repeat constructor.
  - cbn. lia.
  - exact I.
  - apply (bool_decide_unpack (~ _)). vm_compute. exact I.
  - apply (bool_decide_unpack _). vm_compute. exact I.
Defined.

(** The kernel before its first installation stands on an empty disk. *)
Lemma kernel_w_inv : users_inv kernel_w.
Proof.
  split; [done | | intros _ s tag [=]]. exists None. split; [by exists no_state | by split].
Qed.

Lemma env_w_ok : env_ok env_w.
Proof. by split. Qed.

Definition asked : UserInstallRequest := whole_request both two_parts.
Definition installed_w : Kernel := (install_w env_w asked kernel_w).2.
Definition restarted_w : option users_error * Kernel :=
  Restore checksum plain_sha restore_w (fresh "boot-2" ["in"%string] box_w two_users installed_w).

Lemma small_file k (b : bytes) :
  kn_disk k !! ru_path (kn_users k) = Some (Regular b) -> (List.length b <=? 64)%nat = true -> users_fit k.
Proof.
  intros H Hb b' Hb'. assert (b' = b) as -> by congruence. apply Nat.leb_le in Hb. change maxUsersBytes with 33554432. lia.
Qed.

Lemma users_revision_never_goes_back_witness :
  level (true, kernel_w) = 0 /\ level (true, restarted_w.2) = 1 /\ level (true, kernel_w) <= level (true, restarted_w.2).
Proof.
  split_and!; [reflexivity | vm_compute; reflexivity |].
  apply (users_revision_never_goes_back checksum plain_sha (true, kernel_w) (true, restarted_w.2)); [| exact kernel_w_inv].
  apply (rtc_l _ _ (true, installed_w)).
  { eapply (u_install _ _ env_w asked); [exact env_w_ok | apply surjective_pairing_3 |].
    apply (small_file _ (list_ascii_of_string "4")); vm_compute; reflexivity. }
  apply (rtc_l _ _ (true, restarted_w.2)); [| apply rtc_refl].
  apply (u_restart _ _ true restore_w "boot-2" ["in"%string] box_w two_users installed_w None).
  - exact I.
  - apply (pair_with restarted_w). vm_compute. reflexivity.
  - apply (small_file _ (list_ascii_of_string "4")); vm_compute; reflexivity.
Defined.

Lemma answered_install_is_in_force_witness : users_in_force asked installed_w /\ users_serves installed_w.
Proof.
  destruct (answered_install_is_in_force checksum plain_sha env_w asked kernel_w
    (install_w env_w asked kernel_w).1.1 (install_w env_w asked kernel_w).1.2 installed_w) as (H1 & _ & H3).
  - exact env_w_ok.
  - exact kernel_w_inv.
  - apply surjective_pairing_3.
  - apply (small_file _ (list_ascii_of_string "4")); vm_compute; reflexivity.
  - vm_compute. reflexivity.
  - by split.
Defined.

(** The inbound refuses its table. *)
Definition unwilling : InstallEnv :=
  mkInstall at_sample file_w file_w file_w (mkPublish (fun _ => Some ("refused"%string, [])) (fun _ => None)).
Definition refused_w : option users_error * UsersStatus * Kernel := commit_snapshot plain_sha unwilling both_snapshot kernel_w.


(** A restart spoils an installation in chunks: the missing parts are stored
    as [null], which counts as received after the restart. The missing chunk,
    which completes the installation without a restart, is then refused as a
    conflict, and the chunk that was already there completes a request whose
    digest does not match. *)
Theorem restart_spoils_pending_chunks :
  let k1 := (install_w env_w (chunk_w 0%nat) kernel_w).2 in
  let k2 := (Restore checksum plain_sha restore_w (fresh "boot-2" ["in"%string] box_w two_users k1)).2 in
  (install_w env_w (chunk_w 1%nat) k1).1.1 = None /\
  (install_w env_w (chunk_w 1%nat) k2).1.1 = Some ErrUserInstallIllegal /\
  (install_w env_w (chunk_w 0%nat) k2).1.1 = Some ErrUserInstallDigest.
Proof. vm_compute. repeat split. Qed.

End Witness.
