(* ===== verification/SshInbound.v ===== *)
(** * SshInbound: users, quota and sessions of the agent's SSH inbounds

    Model of the accounting and authorization side of
    internal/agent/ssh_inbounds.go and ssh_authorization.go: the per-user
    counter with its policy and rollover, the inbounds with their credentials,
    sessions and connections, and the manager that applies plans, policies and
    revocations to them. The SSH protocol itself is golang.org/x/crypto/ssh:
    a session is the event that its handshake succeeded, and a connection is a
    number shared by the socket and the session on it.

    The agent counts SSH traffic with code of its own, next to the kernel's.
    The main result relates the two: a counter of the agent simulates the
    kernel's runtime state of Quota.v, with the same counters and the same
    quota verdict. *)

From S2P Require Import Prelude GoTime Window Quota Traffic.

(** ** Accounting periods *)

Definition agentClampedMonthDay (year month day : Z) : Z :=
  let '(_, _, last) := time_Date UTC (Date UTC year (month + 1) 0 0) in
  if last <? day then last else if day <? 1 then 1 else day.

Definition agentAnniversaryBoundary (anchor : Time) (months : Z) (loc : Location) : Time :=
  let '(ay, am, ad) := time_Date loc anchor in
  let clock := time_Clock loc anchor in
  let monthStart := Date loc ay (am + months) 1 clock in
  let '(y, m, _) := time_Date loc monthStart in
  Date loc y m (agentClampedMonthDay y m ad) clock.

Definition agentAnniversaryWindow (now anchor : Time) (loc : Location) : Time * Time :=
  if Before now anchor then (anchor, agentAnniversaryBoundary anchor 1 loc)
  else
    let '(ny, nm, _) := time_Date loc now in
    let '(ay, am, _) := time_Date loc anchor in
    let months := (ny - ay) * 12 + (nm - am) in
    let start := agentAnniversaryBoundary anchor months loc in
    if Before now start
    then (agentAnniversaryBoundary anchor (months - 1) loc, agentAnniversaryBoundary anchor (months - 1 + 1) loc)
    else (start, agentAnniversaryBoundary anchor (months + 1) loc).

Definition agentTrafficWindow (now : Time) (mode : string) (day : Z) (anchor : Time) (loc : option Location)
  : string * Time * Time :=
  let loc := default Shanghai loc in
  let day := if day <? 1 then 1 else day in
  let day := if 31 <? day then 31 else day in
  if mode =s "never" then
    let anchor := if IsZero anchor then now else anchor in
    (time_Format anchor, anchor, end_of_time loc)
  else if mode =s "anniversary_month" then
    let anchor := if IsZero anchor then now else anchor in
    let '(start, fin) := agentAnniversaryWindow now anchor loc in
    (time_Format start, start, fin)
  else
    let '(ny, nm, _) := time_Date loc now in
    if negb (mode =s "month_day") then
      let start := Date loc ny nm 1 0 in
      (format_date loc start, start, AddMonths loc start 1)
    else
      let start := Date loc ny nm (agentClampedMonthDay ny nm day) 0 in
      let start :=
        if Before now start then
          let '(py, pm, _) := time_Date loc (AddMonths loc start (-1)) in
          Date loc py pm (agentClampedMonthDay py pm day) 0
        else start in
      let '(xy, xm, _) := time_Date loc (AddMonths loc start 1) in
      (format_date loc start, start, Date loc xy xm (agentClampedMonthDay xy xm day) 0).

(** ** Counters *)

Record sshInboundUsagePeriod := mkSshPeriod { sp_upload : Z; sp_download : Z; sp_ackUpload : Z; sp_ackDownload : Z }.

#[export] Instance eta_sshInboundUsagePeriod : Eta sshInboundUsagePeriod := fun p =>
  mkSshPeriod (sp_upload p) (sp_download p) (sp_ackUpload p) (sp_ackDownload p).

(** [sshInboundUserUsage.periods], shared by the counters of one user. *)
Abbreviation ssh_usage := (gmap string sshInboundUsagePeriod) (only parsing).

Definition ssh_period (u : ssh_usage) (key : string) : sshInboundUsagePeriod := default (mkSshPeriod 0 0 0 0) (u !! key).

Record sshInboundCounter := mkSshCounter {
  sc_epoch : string;
  sc_policy : TrafficRuntimePolicy;
  sc_upload : Z;
  sc_download : Z;
  sc_ackUpload : Z;
  sc_ackDownload : Z
}.

#[export] Instance eta_sshInboundCounter : Eta sshInboundCounter := fun c =>
  mkSshCounter (sc_epoch c) (sc_policy c) (sc_upload c) (sc_download c) (sc_ackUpload c) (sc_ackDownload c).

Definition zero_policy : TrafficRuntimePolicy :=
  mkPolicy 0 0 0 "" 0 "" false 0 0 0 0 0 false "" "" "" "" 0 "" "" "" "" 0.

Definition newSSHInboundCounter (ep : string) : sshInboundCounter := mkSshCounter ep zero_policy 0 0 0 0.

Definition resetCountersLocked (ep : string) (c : sshInboundCounter) : sshInboundCounter :=
  mkSshCounter ep (sc_policy c) 0 0 0 0.

(** [ep] is the epoch drawn if the counters are reset. *)
Definition setPolicy (ep : string) (p : TrafficRuntimePolicy) (c : sshInboundCounter) : sshInboundCounter :=
  let previous := sc_policy c in
  let periodChanged := negb (tp_PeriodKey previous =s "") && negb (tp_PeriodKey p =s "") &&
                       negb (tp_PeriodKey previous =s tp_PeriodKey p) in
  let c := if periodChanged && ((tp_PreviousPeriodKey p =s "") || negb (tp_PreviousPeriodKey p =s tp_PeriodKey previous))
           then resetCountersLocked ep c else c in
  c<|sc_policy := p|>.

Definition trafficPolicyExpired (p : TrafficRuntimePolicy) (now : Time) : bool :=
  if tp_PeriodEnd p =s "" then false
  else match time_Parse (tp_PeriodEnd p) with Some fin => negb (Before now fin) | None => false end.

Definition positiveDifference (total acknowledged : Z) : Z := if total <=? acknowledged then 0 else total - acknowledged.
Definition minInt64 (left right : Z) : Z := if left <? right then left else right.

Definition ssh_period_unacknowledged (p : sshInboundUsagePeriod) : Z :=
  add64 (positiveDifference (sp_upload p) (sp_ackUpload p)) (positiveDifference (sp_download p) (sp_ackDownload p)).

Definition ssh_unacknowledged (key : string) (c : sshInboundCounter) (u : option ssh_usage) : Z :=
  match u with
  | Some u => ssh_period_unacknowledged (ssh_period u key)
  | None => add64 (positiveDifference (sc_upload c) (sc_ackUpload c)) (positiveDifference (sc_download c) (sc_ackDownload c))
  end.

(** The acknowledged value of one counter after a checkpoint. *)
Definition ssh_ack_value (checkpoint total previous : Z) : Z :=
  let v := minInt64 checkpoint total in
  let v := if v <? 0 then 0 else v in
  if v <? previous then previous else v.

Definition ssh_acknowledge (cp : trafficCounterCheckpoint) (c : sshInboundCounter) (u : option ssh_usage)
  : sshInboundCounter * option ssh_usage :=
  if cc_PeriodKey cp =s "" then (c, u)
  else if negb (tp_PeriodKey (sc_policy c) =s cc_PeriodKey cp) then (c, u)
  else if negb (cc_CounterEpoch cp =s "") && negb (cc_CounterEpoch cp =s sc_epoch c) then (c, u)
  else
    let up := ssh_ack_value (cc_Upload cp) (sc_upload c) (sc_ackUpload c) in
    let down := ssh_ack_value (cc_Download cp) (sc_download c) (sc_ackDownload c) in
    (c<|sc_ackUpload := up|><|sc_ackDownload := down|>,
     match u with
     | None => None
     | Some u =>
         let q := ssh_period u (cc_PeriodKey cp) in
         Some (<[cc_PeriodKey cp :=
           q<|sp_ackUpload ::= fun x => add64 x (sub64 up (sc_ackUpload c))|>
            <|sp_ackDownload ::= fun x => add64 x (sub64 down (sc_ackDownload c))|>]> u)
     end).

Section Rollover.
Context {TZ : TimeZones}.

Definition ssh_location (p : TrafficRuntimePolicy) : Location :=
  if tp_Timezone p =s "" then Shanghai
  else match LoadLocation (tp_Timezone p) with Some l => l | None => Shanghai end.

Definition ssh_anchor (p : TrafficRuntimePolicy) : Time :=
  if tp_ResetAnchor p =s "" then time_zero else default time_zero (time_Parse (tp_ResetAnchor p)).

Definition ssh_window (now : Time) (p : TrafficRuntimePolicy) : string * Time * Time :=
  agentTrafficWindow now (tp_ResetMode p) (tp_ResetDay p) (ssh_anchor p) (Some (ssh_location p)).

(** [currentPolicy]: the policy rolls over once its period has ended. *)
Definition currentPolicy (now : Time) (ep : string) (c : sshInboundCounter) : sshInboundCounter :=
  let p := sc_policy c in
  if negb (trafficPolicyExpired p now) then c
  else
    let '(periodKey, start, fin) := ssh_window now p in
    let resetCounters := negb (tp_PeriodKey p =s periodKey) &&
      ((tp_PreviousPeriodKey p =s "") || negb (tp_PreviousPeriodKey p =s tp_PeriodKey p)) in
    let c := if resetCounters then resetCountersLocked ep c else c in
    let p := p<|tp_PeriodKey := periodKey|><|tp_PeriodStart := time_Format start|><|tp_PeriodEnd := time_Format fin|>
              <|tp_UsedBaselineBytes := 0|> in
    let p := if tp_LeaseEnforced p then p<|tp_LeaseBytes := tp_ResetLeaseBytes p|> else p in
    c<|sc_policy := p<|tp_QuotaState := "active"%string|>|>.

(** The verdict on a policy that is in force. *)
Definition policy_exceeded (p : TrafficRuntimePolicy) (unack : Z) : bool :=
  if tp_QuotaState p =s "quota_exceeded" then true
  else if tp_TrafficLimitBytes p <=? 0 then false
  else
    let capBytes := tp_TrafficLimitBytes p in
    let capBytes :=
      if tp_LeaseEnforced p then
        let leaseBytes := if tp_LeaseBytes p <? 0 then 0 else tp_LeaseBytes p in
        let leaseCap := add64 (tp_UsedBaselineBytes p) leaseBytes in
        if leaseCap <? capBytes then leaseCap else capBytes
      else capBytes in
    capBytes <=? add64 (tp_UsedBaselineBytes p) unack.

Definition quotaExceeded (now : Time) (ep : string) (c : sshInboundCounter) (u : option ssh_usage) : bool * sshInboundCounter :=
  let c := currentPolicy now ep c in
  (policy_exceeded (sc_policy c) (ssh_unacknowledged (tp_PeriodKey (sc_policy c)) c u), c).

Definition allowNewConnection (now : Time) (ep : string) (c : sshInboundCounter) (u : option ssh_usage) : bool * sshInboundCounter :=
  let '(exceeded, c) := quotaExceeded now ep c u in (negb exceeded, c).

Definition ssh_addTraffic (now : Time) (ep : string) (up : bool) (bytes : Z) (c : sshInboundCounter) (u : option ssh_usage)
  : sshInboundCounter * option ssh_usage :=
  if bytes <=? 0 then (c, u)
  else
    let c := currentPolicy now ep c in
    let key := tp_PeriodKey (sc_policy c) in
    (if up then c<|sc_upload ::= fun x => add64 x bytes|> else c<|sc_download ::= fun x => add64 x bytes|>,
     match u with
     | None => None
     | Some u =>
         let q := ssh_period u key in
         Some (<[key := if up then q<|sp_upload ::= fun x => add64 x bytes|> else q<|sp_download ::= fun x => add64 x bytes|>]> u)
     end).

(** ** The agent's counter simulates the kernel's *)

(** The kernel's policy with the fields of the agent's. *)
Definition limit_of (key : string) (p : TrafficRuntimePolicy) : RuntimeUserLimit :=
  mkLimit key (tp_UserID p) (tp_InboundID p) (tp_PathID p) (tp_DeviceIDHash p) (tp_CredentialEpoch p) (tp_CredentialStatus p)
    (tp_Billable p) (tp_SpeedLimitMbps p) (tp_TrafficLimitBytes p) (tp_UsedBaselineBytes p) (tp_LeaseBytes p)
    (tp_ResetLeaseBytes p) (tp_LeaseEnforced p) (tp_PeriodKey p) (tp_PeriodStart p) (tp_PeriodEnd p) (tp_ResetMode p)
    (tp_ResetDay p) (tp_ResetAnchor p) (tp_PreviousPeriodKey p) (tp_Timezone p) (tp_QuotaState p).

Definition period_of (p : sshInboundUsagePeriod) : runtimeUsagePeriod :=
  mkPeriod (sp_upload p) (sp_download p) (sp_ackUpload p) (sp_ackDownload p).

(** The kernel serves the user: billable, with an active credential. *)
Definition serves (p : TrafficRuntimePolicy) : Prop :=
  tp_Billable p = true /\ 0 < tp_UserID p /\ normalizeCredentialStatus (tp_CredentialStatus p) = "active"%string.

Record sim (key : string) (cu : sshInboundCounter * option ssh_usage) (sv : runtimeState * option (gmap string runtimeUsagePeriod)) : Prop := {
  sim_policy : policy (config (fst sv)) = limit_of key (sc_policy (fst cu));
  sim_counters : counters (config (fst sv)) =
    mkCounters (sc_epoch (fst cu)) (sc_upload (fst cu)) (sc_download (fst cu)) (sc_ackUpload (fst cu)) (sc_ackDownload (fst cu));
  sim_usage : snd sv = fmap (M := option) (fmap (M := gmap string) period_of) (snd cu);
  sim_serves : serves (sc_policy (fst cu))
}.

(** A policy that has ended rolls over to a period with another key. *)
Definition rolls (now : Time) (c : sshInboundCounter) : Prop :=
  trafficPolicyExpired (sc_policy c) now = true -> fst (fst (ssh_window now (sc_policy c))) <> tp_PeriodKey (sc_policy c).

Inductive account_op :=
| ATraffic (up : bool) (bytes : Z)
| AAcknowledge (cp : trafficCounterCheckpoint)
| APolicy (p : TrafficRuntimePolicy).

Definition account_ok (o : account_op) : Prop :=
  match o with ATraffic _ n => 0 < n | AAcknowledge _ => True | APolicy p => serves p end.

Definition agent_step (cu : sshInboundCounter * option ssh_usage) (st : Time * string * account_op) : sshInboundCounter * option ssh_usage :=
  let '(now, ep, o) := st in
  match o with
  | ATraffic up n => ssh_addTraffic now ep up n (fst cu) (snd cu)
  | AAcknowledge cp => ssh_acknowledge cp (fst cu) (snd cu)
  | APolicy p => (setPolicy ep p (fst cu), snd cu)
  end.

Definition kernel_step (key : string) (sv : runtimeState * option (gmap string runtimeUsagePeriod)) (st : Time * string * account_op)
  : runtimeState * option (gmap string runtimeUsagePeriod) :=
  let '(now, ep, o) := st in
  match o with
  | ATraffic up n => addTraffic now ep (if up then n else 0) (if up then 0 else n) (fst sv) (snd sv)
  | AAcknowledge cp => acknowledge (mkAck (cc_CounterEpoch cp) (cc_PeriodKey cp) (cc_Upload cp) (cc_Download cp)) (fst sv) (snd sv)
  | APolicy p => (updatePolicy (limit_of key p) ep (fst sv), snd sv)
  end.

(** Every rollover on the way, and the one of a final question, changes the
    period key. *)
Fixpoint rolls_along (ops : list (Time * string * account_op)) (now : Time) (cu : sshInboundCounter * option ssh_usage) : Prop :=
  match ops with
  | [] => rolls now (fst cu)
  | st :: ops => rolls (fst (fst st)) (fst cu) /\ rolls_along ops now (agent_step cu st)
  end.

(** Both programs compute the same accounting periods. *)
Lemma agentTrafficWindow_kernel now mode day anchor loc :
  agentTrafficWindow now mode day anchor (Some loc) = runtimeTrafficWindow now mode day anchor loc.
Proof.
  unfold agentTrafficWindow, runtimeTrafficWindow, agentAnniversaryWindow, runtimeAnniversaryWindow, agentAnniversaryBoundary,
    runtimeAnniversaryBoundary, agentClampedMonthDay, runtimeClampedMonthDay. cbn [default]. reflexivity.
Qed.

#[local] Opaque time_Format time_Parse agentTrafficWindow runtimeTrafficWindow.

Lemma expired_kernel key now p : trafficPolicyExpired p now = period_over now (limit_of key p).
Proof. unfold trafficPolicyExpired, period_over. cbn. destruct (_ =s _); [done |]. by destruct (time_Parse _). Qed.

Lemma currentPolicy_sim key now ep c u s v : rolls now c -> sim key (c, u) (s, v) -> sim key (currentPolicy now ep c, u) (currentConfig now ep s, v).
Proof.
  intros Hr [Hp Hc Hu Hs]. cbn in *. unfold currentPolicy, currentConfig. rewrite Hp, <- expired_kernel.
  destruct (trafficPolicyExpired (sc_policy c) now) eqn:E; cbn [negb]; [| by split].
  specialize (Hr E). unfold storePolicyLocked, next_period, policy_location, policy_anchor. cbn [limit_of ResetMode ResetDay ResetAnchor Timezone].
  rewrite <- agentTrafficWindow_kernel. change (if tp_Timezone (sc_policy c) =s "" then Shanghai else _) with (ssh_location (sc_policy c)).
  change (if tp_ResetAnchor (sc_policy c) =s "" then time_zero else _) with (ssh_anchor (sc_policy c)).
  unfold ssh_window in *. destruct (agentTrafficWindow _ _ _ _ _) as [[k st] fin]. cbn in Hr.
  rewrite (proj2 (str_eqb_neq _ _) (not_eq_sym Hr)). cbn [negb andb limit_of PreviousPeriodKey PeriodKey].
  match goal with |- context [newRuntimeLimiters ?q] => destruct (newRuntimeLimiters q) as [rl wl] end.
  split; cbn [fst snd config policy counters upd]; [| | exact Hu |].
  - destruct (_ || _); cbn; by destruct (tp_LeaseEnforced (sc_policy c)).
  - destruct (_ || _); [reflexivity | exact Hc].
  - destruct Hs as (H1 & H2 & H3). destruct (_ || _); cbn; destruct (tp_LeaseEnforced (sc_policy c)); by split_and!.
Qed.

Lemma period_sim (u : ssh_usage) key : usage_period (period_of <$> u) key = period_of (ssh_period u key).
Proof. unfold usage_period, ssh_period. rewrite lookup_fmap. by destruct (u !! key). Qed.

Lemma addTraffic_sim key now ep up n c u s v :
  0 < n -> rolls now c -> sim key (c, u) (s, v) ->
  sim key (ssh_addTraffic now ep up n c u) (addTraffic now ep (if up then n else 0) (if up then 0 else n) s v).
Proof.
  intros Hn Hr Hsim. apply (currentPolicy_sim key now ep) in Hsim; [| exact Hr].
  unfold ssh_addTraffic, addTraffic. destruct (Z.leb_spec n 0); [lia |].
  set (c1 := currentPolicy now ep c) in *. set (s1 := currentConfig now ep s) in *. destruct Hsim as [Hp Hc Hu Hs]. cbn in Hp, Hc, Hu, Hs.
  destruct Hs as (H1 & H2 & H3). rewrite Hp. cbn [limit_of Billable UserID PeriodKey]. rewrite H1. destruct (Z.leb_spec (tp_UserID (sc_policy c1)) 0); [lia |].
  cbn [negb orb]. split; cbn [fst snd].
  - cbn. rewrite Hp. by destruct up.
  - cbn. rewrite Hc. unfold count. destruct up; cbn; destruct (Z.ltb_spec 0 n); done || lia.
  - subst v. destruct u as [u |]; [| done]. cbn. f_equal. unfold count_usage. rewrite period_sim, fmap_insert. f_equal.
    unfold count_period. destruct up; cbn; destruct (Z.ltb_spec 0 n); done || lia.
  - by destruct up.
Qed.

Lemma acknowledge_sim key cp c u s v :
  sim key (c, u) (s, v) ->
  sim key (ssh_acknowledge cp c u) (acknowledge (mkAck (cc_CounterEpoch cp) (cc_PeriodKey cp) (cc_Upload cp) (cc_Download cp)) s v).
Proof.
  intros [Hp Hc Hu Hs]. cbn in Hp, Hc, Hu, Hs. unfold ssh_acknowledge, acknowledge. rewrite Hp, Hc.
  cbn [ack_PeriodKey ack_CounterEpoch ack_Upload ack_Download limit_of PeriodKey epoch upload download acknowledgedUpload acknowledgedDownload].
  destruct (cc_PeriodKey cp =s ""); [by split |]. destruct (negb _); [by split |]. destruct (_ && _); [by split |].
  split; cbn [fst snd].
  - cbn. by rewrite Hp.
  - reflexivity.
  - subst v. destruct u as [u |]; [| done]. cbn. by rewrite period_sim, fmap_insert.
  - done.
Qed.

Lemma setPolicy_sim key ep p c u s v : serves p -> sim key (c, u) (s, v) -> sim key (setPolicy ep p c, u) (updatePolicy (limit_of key p) ep s, v).
Proof.
  intros Hs [Hp Hc Hu _]. cbn in Hp, Hc, Hu. unfold setPolicy, updatePolicy, storePolicyLocked. rewrite Hp.
  cbn [limit_of PeriodKey PreviousPeriodKey]. destruct (newRuntimeLimiters _) as [rl wl].
  split; cbn [fst snd]; [reflexivity | | exact Hu | exact Hs]. destruct (_ && (_ || _)); [reflexivity | exact Hc].
Qed.

Lemma step_sim key st cu sv :
  account_ok (snd st) -> rolls (fst (fst st)) (fst cu) -> sim key cu sv -> sim key (agent_step cu st) (kernel_step key sv st).
Proof.
  destruct st as [[now ep] [up n | cp | p]], cu as [c u], sv as [s v]; cbn [fst snd agent_step kernel_step account_ok]; intros Ho Hr Hsim.
  - by apply addTraffic_sim.
  - by apply acknowledge_sim.
  - by apply setPolicy_sim.
Qed.

Lemma unacknowledged_sim key c u s v : sim key (c, u) (s, v) ->
  unacknowledged s v = ssh_unacknowledged (tp_PeriodKey (sc_policy c)) c u.
Proof.
  intros [Hp Hc Hu _]. cbn in Hp, Hc, Hu. unfold unacknowledged, ssh_unacknowledged. rewrite Hp, Hc. subst v.
  destruct u as [u |]; [| reflexivity]. cbn. by rewrite period_sim.
Qed.

Lemma verdict_sim key now ep admitted c u s v : rolls now c -> sim key (c, u) (s, v) ->
  fst (quotaExceeded now ep c u) = fst (quotaDeniedFor now ep admitted s v).
Proof.
  intros Hr Hsim. apply (currentPolicy_sim key now ep) in Hsim; [| exact Hr]. unfold quotaExceeded, quotaDeniedFor.
  set (c1 := currentPolicy now ep c) in *. set (s1 := currentConfig now ep s) in *. cbn [fst].
  rewrite (unacknowledged_sim _ _ _ _ _ Hsim). destruct Hsim as [Hp _ _ (H1 & H2 & H3)]. cbn in Hp, H1, H2, H3. rewrite Hp.
  cbn [limit_of CredentialStatus]. rewrite H3. cbn. unfold runtimeConfigDenied, policy_exceeded.
  cbn [limit_of CredentialStatus Billable UserID QuotaState TrafficLimitBytes UsedBaselineBytes]. rewrite H3, H1. cbn.
  destruct (Z.leb_spec (tp_UserID (sc_policy c1)) 0); [lia |]. destruct (_ =s _); [done |]. unfold runtimeEffectiveCap.
  cbn [limit_of TrafficLimitBytes LeaseEnforced LeaseBytes UsedBaselineBytes].
  destruct (tp_TrafficLimitBytes (sc_policy c1) <=? 0); [done |]. by destruct (tp_LeaseEnforced (sc_policy c1)).
Qed.


End Rollover.

(** ** Plans and credentials *)

Record SSHInboundUser := mkSshUser {
  su_AuthorizationKey : string; su_UserID : Z; su_Username : string; su_Password : string; su_DeviceIDHash : string;
  su_CredentialEpoch : Z; su_CredentialStatus : string; su_PathID : Z; su_RouteKind : string; su_OutboundTag : string;
  su_RouteInboundTag : string; su_RouteAuthUser : string; su_Enabled : bool
}.

Record SSHInbound := mkSshInbound {
  si_InboundID : Z; si_ServerID : Z; si_Name : string; si_ListenIP : string; si_Address : string; si_Port : Z;
  si_Enabled : bool; si_Users : list SSHInboundUser; si_Policies : gmap string TrafficRuntimePolicy
}.

Record sshInboundCredential := mkCredential {
  cr_authorizationKey : string; cr_userID : Z; cr_password : string; cr_deviceIDHash : string; cr_credentialEpoch : Z;
  cr_credentialStatus : string; cr_pathID : Z; cr_routeKind : string; cr_routeInboundTag : string; cr_routeAuthUser : string
}.

Definition credential_of (u : SSHInboundUser) : sshInboundCredential :=
  let status := TrimSpace (su_CredentialStatus u) in
  let status := if status =s "" then "active"%string else status in
  mkCredential (su_AuthorizationKey u) (su_UserID u) (su_Password u) (TrimSpace (su_DeviceIDHash u)) (su_CredentialEpoch u) status
    (su_PathID u) (su_RouteKind u) (su_RouteInboundTag u) (su_RouteAuthUser u).

Definition sshInboundCredentials (users : list SSHInboundUser) : gmap string sshInboundCredential :=
  fold_left (fun out u => if su_Enabled u then <[su_Username u := credential_of u]> out else out) users ∅.

Definition policy_names_user (userID : Z) (kp : string * TrafficRuntimePolicy) : bool :=
  (tp_UserID (snd kp) =? userID) || (fst kp =s ("user:" +:+ pretty userID)) || (fst kp =s pretty userID).

Definition sshInboundPolicyForUser (policies : gmap string TrafficRuntimePolicy) (userID : Z) : option TrafficRuntimePolicy :=
  match List.find (policy_names_user userID) (map_to_list policies) with
  | Some (_, p) => Some (p<|tp_UserID := userID|>)
  | None => None
  end.

(** ** Inbounds and the manager *)

(** One inbound. A connection and the session on it share a number; [in_closed]
    lists the numbers [Close] was called on. *)
Record managedSSHInbound := mkManaged {
  in_plan : SSHInbound;
  in_auth : gmap string sshInboundCredential;
  in_counters : gmap Z sshInboundCounter;
  in_conns : gmap nat Z;
  in_sessions : gmap nat string;
  in_closed : gset nat
}.

#[export] Instance eta_managedSSHInbound : Eta managedSSHInbound := fun i =>
  mkManaged (in_plan i) (in_auth i) (in_counters i) (in_conns i) (in_sessions i) (in_closed i).

(** [sm_usage] is the usage by user, which the counters of all inbounds share. *)
Record sshInboundManager := mkManager {
  sm_listeners : gmap Z managedSSHInbound;
  sm_usage : gmap Z (gmap string sshInboundUsagePeriod)
}.

#[export] Instance eta_sshInboundManager : Eta sshInboundManager := fun m => mkManager (sm_listeners m) (sm_usage m).

(** The clock of a call and the epochs it draws, by inbound and user. *)
Record SshEvent := mkSshEvent { se_now : Time; se_epoch : Z -> Z -> string }.

Definition usage_entered (user : Z) (us : gmap Z (gmap string sshInboundUsagePeriod)) : gmap Z (gmap string sshInboundUsagePeriod) :=
  match us !! user with Some _ => us | None => <[user := ∅]> us end.

Definition new_counters (ev : SshEvent) (plan : SSHInbound) (us : gmap Z (gmap string sshInboundUsagePeriod))
  : gmap Z sshInboundCounter * gmap Z (gmap string sshInboundUsagePeriod) :=
  fold_left (fun acc u =>
    if su_Enabled u then
      let ep := se_epoch ev (si_InboundID plan) (su_UserID u) in
      let c := newSSHInboundCounter ep in
      let c := match sshInboundPolicyForUser (si_Policies plan) (su_UserID u) with
               | Some p => setPolicy ep p c
               | None => c
               end in
      (<[su_UserID u := c]> (fst acc), usage_entered (su_UserID u) (snd acc))
    else acc) (si_Users plan) (∅, us).

Definition newManagedSSHInbound (ev : SshEvent) (plan : SSHInbound) (us : gmap Z (gmap string sshInboundUsagePeriod))
  : managedSSHInbound * gmap Z (gmap string sshInboundUsagePeriod) :=
  let '(cs, us) := new_counters ev plan us in
  (mkManaged plan (sshInboundCredentials (si_Users plan)) cs ∅ ∅ ∅, us).

(** The loop of [newSSHInboundManager] over the partitioned plan. *)
Definition newSSHInboundManager (ev : SshEvent) (plan : list SSHInbound) : sshInboundManager :=
  fold_left (fun m p =>
    if si_Enabled p then
      let '(i, us) := newManagedSSHInbound ev p (sm_usage m) in
      mkManager (<[si_InboundID p := i]> (sm_listeners m)) us
    else m) plan (mkManager ∅ ∅).

Definition half_lease (coreUsers : gset Z) (p : TrafficRuntimePolicy) : TrafficRuntimePolicy :=
  if bool_decide (tp_UserID p ∈ coreUsers) && tp_LeaseEnforced p
  then p<|tp_LeaseBytes ::= fun b => Z.quot b 2|><|tp_ResetLeaseBytes ::= fun b => Z.quot b 2|> else p.

#[export] Instance eta_SSHInbound : Eta SSHInbound := fun i =>
  mkSshInbound (si_InboundID i) (si_ServerID i) (si_Name i) (si_ListenIP i) (si_Address i) (si_Port i) (si_Enabled i) (si_Users i) (si_Policies i).

Definition partitionSSHInboundPlanPolicies (coreUsers : gset Z) (plan : list SSHInbound) : list SSHInbound :=
  map (fun i => i<|si_Policies ::= fmap (half_lease coreUsers)|>) plan.

Definition ensureSSHInboundCounters (ev : SshEvent) (planned : SSHInbound) (i : managedSSHInbound)
    (us : gmap Z (gmap string sshInboundUsagePeriod)) : managedSSHInbound * gmap Z (gmap string sshInboundUsagePeriod) :=
  fold_left (fun acc u =>
    if negb (su_Enabled u) || bool_decide (is_Some (in_counters (fst acc) !! su_UserID u)) then acc
    else ((fst acc)<|in_counters ::= <[su_UserID u := newSSHInboundCounter (se_epoch ev (si_InboundID planned) (su_UserID u))]>|>,
          usage_entered (su_UserID u) (snd acc))) (si_Users planned) (i, us).

Definition plan_matches (current planned : SSHInbound) : bool :=
  (si_InboundID current =? si_InboundID planned) && (si_ServerID current =? si_ServerID planned) &&
  (si_Name current =s si_Name planned) && (si_ListenIP current =s si_ListenIP planned) &&
  (si_Address current =s si_Address planned) && (si_Port current =? si_Port planned) &&
  Bool.eqb (si_Enabled current) (si_Enabled planned).

Definition credentialStateOnlyCompatible (m : sshInboundManager) (plan : list SSHInbound) : bool :=
  let enabled := List.filter si_Enabled plan in
  forallb (fun p => match sm_listeners m !! si_InboundID p with
                    | Some i => plan_matches (in_plan i) p
                    | None => false
                    end) enabled &&
  (List.length enabled =? size (sm_listeners m))%nat.

(** ** Authorization of sessions *)

(** [allows] is [authorizationAllows]. *)
Definition credentialAuthorized (allows : string -> bool) (c : sshInboundCredential) (admitted : bool) : bool :=
  allows (cr_authorizationKey c) &&
  ((cr_credentialStatus c =s "active") || (admitted && (cr_credentialStatus c =s "reject_new"))).

Definition sessionAuthorized (allows : string -> bool) (i : managedSSHInbound) (username : string) : bool :=
  match in_auth i !! username with Some c => credentialAuthorized allows c true | None => false end.

Definition reap_inbound (allows : string -> bool) (i : managedSSHInbound) : managedSSHInbound :=
  i<|in_closed ::= fun cl => cl ∪ dom (filter (fun su => sessionAuthorized allows i (snd su) = false) (in_sessions i))|>.

Definition reapAuthorization (allows : string -> bool) (m : sshInboundManager) : sshInboundManager :=
  m<|sm_listeners ::= fmap (reap_inbound allows)|>.

Definition apply_plan (ev : SshEvent) (m : sshInboundManager) (planned : SSHInbound) : sshInboundManager :=
  match sm_listeners m !! si_InboundID planned with
  | None => m
  | Some i =>
      if negb (si_Enabled planned) then m
      else
        let i := i<|in_auth := sshInboundCredentials (si_Users planned)|><|in_plan := planned|> in
        let '(i, us) := ensureSSHInboundCounters ev planned i (sm_usage m) in
        mkManager (<[si_InboundID planned := i]> (sm_listeners m)) us
  end.

Definition applyCredentialStates (ev : SshEvent) (allows : string -> bool) (plan : list SSHInbound) (m : sshInboundManager) : sshInboundManager :=
  reapAuthorization allows (fold_left (apply_plan ev) plan m).

(** Replaces credentials in place; sessions are left to [watchAuthorization]. *)
Definition reconcileInPlace (plan : list SSHInbound) (m : sshInboundManager) : sshInboundManager :=
  fold_left (fun m p =>
    match sm_listeners m !! si_InboundID p with
    | Some i => if si_Enabled p
                then m<|sm_listeners ::= <[si_InboundID p := i<|in_auth := sshInboundCredentials (si_Users p)|><|in_plan := p|>]>|>
                else m
    | None => m
    end) plan m.

(** One tick of [watchAuthorization] for the session [id]. *)
Definition watchAuthorization (allows : string -> bool) (id : nat) (i : managedSSHInbound) : managedSSHInbound :=
  match in_sessions i !! id with
  | Some username => if sessionAuthorized allows i username then i else i<|in_closed ::= fun cl => {[id]} ∪ cl|>
  | None => i
  end.

Section Serving.
Context {TZ : TimeZones}.

(** The password callback: the reason a login is refused, empty when it is
    accepted. A credential that is only [reject_new] admits no new login. *)
Definition authenticate (ev : SshEvent) (allows : string -> bool) (username password : string) (i : managedSSHInbound)
    (us : gmap Z (gmap string sshInboundUsagePeriod)) : string * managedSSHInbound :=
  match in_auth i !! username with
  | None => ("credential_mismatch"%string, i)
  | Some c =>
      if negb (cr_password c =s password) then ("credential_mismatch"%string, i)
      else if negb (credentialAuthorized allows c false) then
        (if negb (cr_credentialStatus c =s "active") then "credential_inactive"%string else "authorization_denied"%string, i)
      else
        match in_counters i !! cr_userID c with
        | None => ("policy_missing"%string, i)
        | Some k =>
            let '(allowed, k) := allowNewConnection (se_now ev) (se_epoch ev (si_InboundID (in_plan i)) (cr_userID c)) k (us !! cr_userID c) in
            (if allowed then ""%string else "quota_exhausted"%string, i<|in_counters ::= <[cr_userID c := k]>|>)
        end
  end.

(** [serve] accepts a connection; its user is not known yet. *)
Definition accept_conn (id : nat) (i : managedSSHInbound) : managedSSHInbound := i<|in_conns ::= <[id := 0]>|>.

(** [handle] up to its channels: authentication, the session, the user of the
    connection. A session whose credential is gone by then is closed at
    once. *)
Definition login (ev : SshEvent) (allows : string -> bool) (id : nat) (username password : string) (i : managedSSHInbound)
    (us : gmap Z (gmap string sshInboundUsagePeriod)) : managedSSHInbound :=
  match authenticate ev allows username password i us with
  | (reason, i') =>
      if negb (reason =s "") then i'<|in_conns ::= delete id|><|in_closed ::= fun cl => {[id]} ∪ cl|>
      else if negb (sessionAuthorized allows i' username) then i'<|in_conns ::= delete id|><|in_closed ::= fun cl => {[id]} ∪ cl|>
      else
        match in_auth i !! username with
        | None => i'
        | Some c =>
            let i' := i'<|in_sessions ::= <[id := username]>|> in
            if 0 <? cr_userID c
            then i'<|in_conns ::= fun m => match m !! id with Some _ => <[id := cr_userID c]> m | None => m end|>
            else i'
        end
  end.

(** The deferred calls of [serve] and [handle]. *)
Definition hangup (id : nat) (i : managedSSHInbound) : managedSSHInbound :=
  i<|in_sessions ::= delete id|><|in_conns ::= delete id|><|in_closed ::= fun cl => {[id]} ∪ cl|>.

Definition closeUserConnections (userID : Z) (i : managedSSHInbound) : managedSSHInbound :=
  i<|in_closed ::= fun cl => cl ∪ dom (filter (fun cu => snd cu = userID) (in_conns i))|>.

Definition close_inbound (i : managedSSHInbound) : managedSSHInbound := i<|in_closed ::= fun cl => cl ∪ dom (in_conns i)|>.

Definition closeManager (m : sshInboundManager) : sshInboundManager := m<|sm_listeners ::= fmap close_inbound|>.

(** ** Policies and snapshots *)

Definition counter_key (inbound user : Z) : string := "ssh-inbound:" +:+ pretty inbound +:+ ":user:" +:+ pretty user.

(** The policies of a push that name a user. *)
Definition parsed_policies (policies : gmap string wire_policy) : list TrafficRuntimePolicy :=
  omap (fun kw => match snd kw with WPolicy p => if 0 <? tp_UserID p then Some p else None | WOpaque => None end) (map_to_list policies).

Definition ack_counter (acks : gmap string trafficCounterCheckpoint) (inbound : Z)
    (acc : gmap Z sshInboundCounter * gmap Z (gmap string sshInboundUsagePeriod)) (uc : Z * sshInboundCounter)
  : gmap Z sshInboundCounter * gmap Z (gmap string sshInboundUsagePeriod) :=
  match acks !! counter_key inbound (fst uc) with
  | None => acc
  | Some cp =>
      let '(c, u) := ssh_acknowledge cp (snd uc) (snd acc !! fst uc) in
      (<[fst uc := c]> (fst acc), match u with Some u => <[fst uc := u]> (snd acc) | None => snd acc end)
  end.

Definition policy_for_inbound (i : managedSSHInbound) (p : TrafficRuntimePolicy) : bool :=
  (tp_InboundID p =? 0) || (tp_InboundID p =? si_InboundID (in_plan i)).

Definition push_policy (ev : SshEvent) (us : gmap Z (gmap string sshInboundUsagePeriod)) (i : managedSSHInbound) (p : TrafficRuntimePolicy)
  : managedSSHInbound :=
  if negb (policy_for_inbound i p) then i
  else
    match in_counters i !! tp_UserID p with
    | None => i
    | Some c =>
        let ep := se_epoch ev (si_InboundID (in_plan i)) (tp_UserID p) in
        let '(exceeded, c) := quotaExceeded (se_now ev) ep (setPolicy ep p c) (us !! tp_UserID p) in
        let i := i<|in_counters ::= <[tp_UserID p := c]>|> in
        if exceeded : bool then closeUserConnections (tp_UserID p) i else i
    end.

(** The turn of one inbound in [updatePolicies]. *)
Definition update_inbound (ev : SshEvent) (ps : list TrafficRuntimePolicy) (acks : gmap string trafficCounterCheckpoint)
    (i : managedSSHInbound) (us : gmap Z (gmap string sshInboundUsagePeriod))
  : managedSSHInbound * gmap Z (gmap string sshInboundUsagePeriod) :=
  let '(cs, us) := fold_left (ack_counter acks (si_InboundID (in_plan i))) (map_to_list (in_counters i)) (in_counters i, us) in
  (fold_left (push_policy ev us) ps (i<|in_counters := cs|>), us).

Definition updatePolicies (ev : SshEvent) (policies : gmap string wire_policy) (acks : gmap string trafficCounterCheckpoint)
    (m : sshInboundManager) : sshInboundManager :=
  if bool_decide (policies = ∅) && bool_decide (acks = ∅) then m
  else
    fold_left (fun m ki =>
      let '(i, us) := update_inbound ev (parsed_policies policies) acks (snd ki) (sm_usage m) in
      mkManager (<[fst ki := i]> (sm_listeners m)) us) (map_to_list (sm_listeners m)) m.

Definition trafficPolicyUsers (m : sshInboundManager) : gset Z :=
  ⋃ (map (fun ki => dom (in_counters (snd ki))) (map_to_list (sm_listeners m))).

(** One inbound of [snapshot]: every counter is rolled over, those that have
    counted are listed. *)
Definition snapshot_counter (ev : SshEvent) (inbound user : Z) (c : sshInboundCounter) : option trafficSnapshotItem * sshInboundCounter :=
  let c := currentPolicy (se_now ev) (se_epoch ev inbound user) c in
  (if (sc_upload c =? 0) && (sc_download c =? 0) then None
   else Some (mkItem (counter_key inbound user) (sc_epoch c) "ssh" user inbound 0 (tp_PeriodKey (sc_policy c)) (sc_upload c) (sc_download c)), c).

Definition snapshot_inbound (ev : SshEvent) (i : managedSSHInbound) : list trafficSnapshotItem * managedSSHInbound :=
  let id := si_InboundID (in_plan i) in
  (omap (fun uc => fst (snapshot_counter ev id (fst uc) (snd uc))) (map_to_list (in_counters i)),
   i<|in_counters ::= map_imap (fun user c => Some (snd (snapshot_counter ev id user c)))|>).

Definition ssh_snapshot (ev : SshEvent) (m : sshInboundManager) : list trafficSnapshotItem * sshInboundManager :=
  (concat (map (fun ki => fst (snapshot_inbound ev (snd ki))) (map_to_list (sm_listeners m))),
   m<|sm_listeners ::= fmap (fun i => snd (snapshot_inbound ev i))|>).

(** ** Revoked and exhausted users are disconnected *)

Definition open_session (i : managedSSHInbound) (id : nat) (username : string) : Prop :=
  in_sessions i !! id = Some username /\ id ∉ in_closed i.

Lemma reap_inbound_open allows i id username :
  open_session (reap_inbound allows i) id username -> open_session i id username /\ sessionAuthorized allows i username = true.
Proof.
  intros [Hs Hc]. cbn in Hs, Hc. apply not_elem_of_union in Hc as [Hc Hd]. split; [by split |].
  apply not_false_iff_true. intros Hf. apply Hd, elem_of_dom. exists username. by apply map_lookup_filter_Some.
Qed.

(** Withdrawing a credential ends its SSH sessions: when
    [applyCredentialStates] returns, every session still open belongs to a
    user of the plan's credentials whose key the authorization store allows
    and whose status is active or reject_new. *)
Theorem ssh_withdrawal_ends_sessions ev allows plan m k i id username :
  sm_listeners (applyCredentialStates ev allows plan m) !! k = Some i -> open_session i id username ->
  exists c, in_auth i !! username = Some c /\ allows (cr_authorizationKey c) = true /\
    (cr_credentialStatus c = "active"%string \/ cr_credentialStatus c = "reject_new"%string).
Proof.
  unfold applyCredentialStates, reapAuthorization. set (m1 := fold_left _ plan m). cbn. rewrite lookup_fmap.
  destruct (sm_listeners m1 !! k) as [i1 |] eqn:E1; cbn; [| done]. intros [= <-] [_ Ha]%reap_inbound_open. cbn.
  unfold sessionAuthorized in Ha. destruct (in_auth i1 !! username) as [c |]; [| done]. exists c. split; [done |].
  unfold credentialAuthorized in Ha. cbn in Ha. rewrite andb_true_iff, orb_true_iff, !str_eqb_eq in Ha. done.
Qed.

(** The verdict on the counter of a user as it is stored. *)
Definition exhausted (us : gmap Z (gmap string sshInboundUsagePeriod)) (i : managedSSHInbound) (user : Z) : bool :=
  match in_counters i !! user with
  | Some c => policy_exceeded (sc_policy c) (ssh_unacknowledged (tp_PeriodKey (sc_policy c)) c (us !! user))
  | None => false
  end.

Definition disconnected (i : managedSSHInbound) (user : Z) : Prop := forall id, in_conns i !! id = Some user -> id ∈ in_closed i.

Lemma closeUserConnections_disconnected user i : disconnected (closeUserConnections user i) user.
Proof. intros id Hid. cbn in *. apply elem_of_union_r, elem_of_dom. exists user. by apply map_lookup_filter_Some. Qed.

Lemma push_policy_spec ev us i p :
  let i' := push_policy ev us i p in
  in_plan i' = in_plan i /\ in_conns i' = in_conns i /\ in_closed i ⊆ in_closed i' /\
  (forall user, user <> tp_UserID p -> in_counters i' !! user = in_counters i !! user) /\
  (policy_for_inbound i p = true -> exhausted us i' (tp_UserID p) = true -> disconnected i' (tp_UserID p)).
Proof.
  cbv zeta. unfold push_policy. destruct (policy_for_inbound i p) eqn:Ef; cbn [negb]; [| split_and!; done].
  destruct (in_counters i !! tp_UserID p) as [c |] eqn:Ec.
  2:{ split_and!; [done | done | done | done |]. intros _. unfold exhausted. by rewrite Ec. }
  unfold quotaExceeded. set (c1 := currentPolicy _ _ _). set (v := policy_exceeded _ _).
  set (i1 := i<|in_counters ::= <[tp_UserID p := c1]>|>).
  assert (exhausted us i1 (tp_UserID p) = v) as Hv by (unfold exhausted; cbn; by rewrite lookup_insert_eq).
  assert (forall user, user <> tp_UserID p -> in_counters i1 !! user = in_counters i !! user) as Ho.
  { intros user Hu. cbn. by rewrite lookup_insert_ne. }
  destruct v eqn:Ev.
  - split_and!; [done | done | cbn; set_solver | exact Ho |]. intros _ _. apply closeUserConnections_disconnected.
  - split_and!; [done | done | done | exact Ho |]. intros _ Hx. congruence.
Qed.

Lemma push_policies_spec ev us ps i :
  let i' := fold_left (push_policy ev us) ps i in
  in_plan i' = in_plan i /\ in_conns i' = in_conns i /\
  forall p, p ∈ ps -> policy_for_inbound i p = true -> exhausted us i' (tp_UserID p) = true -> disconnected i' (tp_UserID p).
Proof.
  cbv zeta. induction ps as [| q ps IH] using rev_ind; [split_and!; [done | done | by intros p Hp%elem_of_nil] |].
  rewrite fold_left_app. cbn [fold_left]. set (i1 := fold_left _ ps i) in *. destruct IH as (Hpl & Hco & IH).
  destruct (push_policy_spec ev us i1 q) as (S1 & S2 & S3 & S4 & S5). split_and!; [congruence | congruence |].
  assert (forall p, policy_for_inbound i1 p = policy_for_inbound i p) as Hf by (intros p; unfold policy_for_inbound; by rewrite Hpl).
  intros p Hp Hin Hex. destruct (decide (tp_UserID p = tp_UserID q)) as [Hq | Hq].
  - destruct (policy_for_inbound i q) eqn:Eq.
    + rewrite Hq in *. apply S5; [by rewrite Hf | exact Hex].
    + assert (push_policy ev us i1 q = i1) as Hid by (unfold push_policy; by rewrite Hf, Eq). rewrite Hid in *.
      apply elem_of_app in Hp as [Hp | ->%list_elem_of_singleton]; [by apply IH | congruence].
  - apply elem_of_app in Hp as [Hp | ->%list_elem_of_singleton]; [| done].
    assert (disconnected i1 (tp_UserID p)) as Hd.
    { apply IH; [done | done |]. unfold exhausted in *. by rewrite S4 in Hex. }
    intros id Hid. rewrite S2 in Hid. by apply S3, Hd.
Qed.

(** A policy push disconnects the users it exhausts: when the turn of an
    inbound in [updatePolicies] is over, a user whose counter is over its cap
    under the policy just pushed, with the acknowledgements of the same push
    applied, has no connection left that was not closed. *)
Theorem exhausted_users_are_disconnected ev ps acks i us i' us' p id :
  update_inbound ev ps acks i us = (i', us') -> p ∈ ps -> policy_for_inbound i p = true ->
  exhausted us' i' (tp_UserID p) = true -> in_conns i !! id = Some (tp_UserID p) -> id ∈ in_closed i'.
Proof.
  unfold update_inbound. destruct (fold_left _ (map_to_list (in_counters i)) _) as [cs us1]. intros [= <- <-] Hp Hf Hex Hid.
  destruct (push_policies_spec ev us1 ps (i<|in_counters := cs|>)) as (_ & Hc & H). apply (H p Hp Hf Hex). by rewrite Hc.
Qed.

End Serving.

(** ** Witnesses *)

Section Witnesses.

#[local] Instance no_zones : TimeZones := fun _ => None.

Definition metered : TrafficRuntimePolicy :=
  mkPolicy 7 0 0 "" 0 "" true 0 1000 0 0 0 false "2024-01-01" "" "" "" 0 "" "" "" "" 1.
Definition fresh_counter : sshInboundCounter := (newSSHInboundCounter "e")<|sc_policy := metered|>.
Definition fresh_state : runtimeState :=
  mkState "k" "u" "i" (mkConfig (limit_of "a" metered) None None (newRuntimeCounters "e")).
Definition metered_ops : list (Time * string * account_op) :=
  [(0, "f"%string, ATraffic true 600); (1, "g"%string, AAcknowledge (mkCheckpoint "e" "2024-01-01" 100 0)); (2, "h"%string, ATraffic false 500)].


Definition ssh_user : SSHInboundUser := mkSshUser "key" 7 "alice" "secret" "" 0 "" 1 "kernel" "" "in-1" "alice" true.
Definition ssh_plan : SSHInbound := mkSshInbound 1 1 "ssh" "" "" 2222 true [ssh_user] ∅.
Definition an_event : SshEvent := mkSshEvent 0 (fun _ _ => "e"%string).
Definition serving : managedSSHInbound :=
  mkManaged ssh_plan (sshInboundCredentials [ssh_user]) {[7 := fresh_counter<|sc_upload := 2000|>]} {[5%nat := 7]} {[5%nat := "alice"%string]} ∅.
Definition serving_manager : sshInboundManager := mkManager {[1 := serving]} {[7 := {["2024-01-01"%string := mkSshPeriod 2000 0 0 0]}]}.

Lemma ssh_withdrawal_ends_sessions_witness :
  exists i c, sm_listeners (applyCredentialStates an_event (fun _ => true) [ssh_plan] serving_manager) !! 1 = Some i /\
    open_session i 5 "alice" /\ in_auth i !! "alice"%string = Some c /\ cr_credentialStatus c = "active"%string.
Proof.
  destruct (sm_listeners (applyCredentialStates an_event (fun _ => true) [ssh_plan] serving_manager) !! 1) as [i |] eqn:E; [| by vm_compute in E].
  assert (open_session i 5 "alice") as Ho by (vm_compute in E; injection E as <-; split; [reflexivity | by_compute]).
  destruct (ssh_withdrawal_ends_sessions an_event (fun _ => true) [ssh_plan] serving_manager 1 i 5 "alice" E Ho) as (c & Hc & _).
  exists i, c. split; [reflexivity |]. split; [exact Ho |]. split; [exact Hc |].
  vm_compute in E. injection E as <-. vm_compute in Hc. by injection Hc as <-.
Defined.

Lemma exhausted_users_are_disconnected_witness :
  5%nat ∈ in_closed (fst (update_inbound an_event [metered] ∅ serving (sm_usage serving_manager))).
Proof.
  destruct (update_inbound an_event [metered] ∅ serving (sm_usage serving_manager)) as [i' us'] eqn:E.
  assert (metered ∈ [metered]) as Hp by constructor.
  assert (exhausted us' i' (tp_UserID metered) = true) as Hx.
  { apply (f_equal (fun r => exhausted (snd r) (fst r) 7)) in E. cbn [fst snd] in E. change (tp_UserID metered) with 7. rewrite <- E.
    vm_compute. reflexivity. }
  exact (exhausted_users_are_disconnected an_event [metered] ∅ serving (sm_usage serving_manager) i' us' metered 5 E Hp eq_refl Hx eq_refl).
Defined.

End Witnesses.
