(* ===== verification/Udpgw.v ===== *)
(** * Udpgw: the BadVPN UDP gateway of the SSH inbounds

    Model of internal/agent/ssh_udpgw.go and of the destination filter of
    ssh_inbounds.go: the frames of the protocol, the table of associations
    with its bound and its eviction, and the loop that serves one SSH channel.

    The byte stream is a list of bytes; dialling, writing to a socket and the
    quota of the user have their outcome as an argument. A socket is a number;
    [gw_closed] lists the sockets that were closed. *)

From S2P Require Import Prelude GoTime Bytes Stealth Netip.

(** ** Frames *)

Definition badVPNUDPGatewayPort : Z := 7300.
Definition badVPNMaxFrameSize : Z := 65535.
Definition badVPNMaxAssociations : nat := 256.
Definition badVPNFlagKeepalive : Z := 1.
Definition badVPNFlagRebind : Z := 2.
Definition badVPNFlagIPv6 : Z := 8.

Definition has_flag (flags f : Z) : bool := negb (Z.land flags f =? 0).

Record badVPNFrame := mkFrame {
  bf_flags : Z; bf_connection : Z; bf_addr : Addr; bf_port : Z; bf_payload : bytes
}.

Definition isBadVPNUDPGatewayDestination (host : string) (port : Z) : bool :=
  let host := TrimSpace host in
  (port =? badVPNUDPGatewayPort) && ((host =s "127.0.0.1") || (host =s "::1")).

(** The frame in a packet whose size was read. *)
Definition parse_packet (packet : bytes) : result string badVPNFrame :=
  match packet with
  | f :: c0 :: c1 :: body =>
      let flags := byte_val f in
      let connection := le16 c0 c1 in
      if has_flag flags badVPNFlagKeepalive then Ok (mkFrame flags connection NoAddr 0 [])
      else
        let addressSize := if has_flag flags badVPNFlagIPv6 then 16%nat else 4%nat in
        if (List.length packet <? 3 + addressSize + 2)%nat then Err "BadVPN frame is missing its destination"%string
        else
          let address := be_val (take addressSize body) in
          let address := if has_flag flags badVPNFlagIPv6 then V6 address else V4 address in
          let port := be_val (take 2 (drop addressSize body)) in
          if port =? 0 then Err "BadVPN frame has an invalid destination port"%string
          else Ok (mkFrame flags connection (Unmap address) port (drop (addressSize + 2) body))
  | _ => Err "BadVPN frame size"%string
  end.

(** [readBadVPNFrame] with the bytes left in the stream. *)
Definition readBadVPNFrame (stream : bytes) : result string (badVPNFrame * bytes) :=
  match stream with
  | a :: b :: rest =>
      let size := le16 a b in
      if (size <? 3) || (badVPNMaxFrameSize <? size) then Err "invalid BadVPN frame size"%string
      else if Z.of_nat (List.length rest) <? size then Err "unexpected EOF"%string
      else
        match parse_packet (take (Z.to_nat size) rest) with
        | Ok f => Ok (f, drop (Z.to_nat size) rest)
        | Err e => Err e
        end
  | _ => Err "EOF"%string
  end.

Definition marshalBadVPNFrame (f : badVPNFrame) : result string bytes :=
  if negb (IsValid (bf_addr f)) || (bf_port f =? 0) then Err "BadVPN frame has an invalid destination"%string
  else
    let address := Unmap (bf_addr f) in
    let flags := Z.ldiff (bf_flags f) badVPNFlagIPv6 in
    let '(addressSize, flags) := if Is6 address then (16%nat, Z.lor flags badVPNFlagIPv6) else (4%nat, flags) in
    let payloadSize := 3 + Z.of_nat addressSize + 2 + Z.of_nat (List.length (bf_payload f)) in
    if badVPNMaxFrameSize <? payloadSize then Err "BadVPN frame payload is too large"%string
    else
      let value := match address with V4 x | V6 x => x | NoAddr => 0 end in
      Ok (le16_bytes payloadSize ++ [to_byte flags] ++ le16_bytes (bf_connection f) ++ be_bytes addressSize value ++
          be_bytes 2 (bf_port f) ++ bf_payload f).

(** The flags a frame has on the wire. *)
Definition wire_flags (f : badVPNFrame) : Z :=
  let flags := Z.ldiff (bf_flags f) badVPNFlagIPv6 in
  if Is6 (Unmap (bf_addr f)) then Z.lor flags badVPNFlagIPv6 else flags.

(** ** Destinations *)

Definition IsGlobalUnicast (a : Addr) : bool :=
  match a with
  | NoAddr => false
  | V4 x => negb (x =? 0) && negb (x =? 2 ^ 32 - 1) && negb (IsLoopback a) && negb (IsMulticast a) && negb (IsLinkLocalUnicast a)
  | V6 x => negb (x =? 0) && negb (IsLoopback a) && negb (IsMulticast a) && negb (IsLinkLocalUnicast a)
  end.

Definition IsLinkLocalMulticast (a : Addr) : bool :=
  match a with
  | V4 x => in_net 32 (224 * 65536) 24 x
  | V6 x => Z.land (Z.shiftr x 112) 65295 =? 65282
  | NoAddr => false
  end.

(** [Contains] for a masked prefix. *)
Definition Contains (p : Prefix) (a : Addr) : bool :=
  match pf_addr p, a with
  | V4 n, V4 x => Z.shiftr x (32 - pf_bits p) =? Z.shiftr n (32 - pf_bits p)
  | V6 n, V6 x => Z.shiftr x (128 - pf_bits p) =? Z.shiftr n (128 - pf_bits p)
  | _, _ => false
  end.

Definition v4 (a b c d : Z) : Addr := V4 (((a * 256 + b) * 256 + c) * 256 + d).
(** The address whose first two groups are [g] and [h]. *)
Definition v6 (g h : Z) : Addr := V6 (Z.shiftl g 112 + Z.shiftl h 96).

Definition blockedSSHDestinationPrefixes : list Prefix :=
  [mkPrefix (v4 0 0 0 0) 8; mkPrefix (v4 100 64 0 0) 10; mkPrefix (v4 192 0 0 0) 24; mkPrefix (v4 192 0 2 0) 24;
   mkPrefix (v4 192 88 99 0) 24; mkPrefix (v4 198 18 0 0) 15; mkPrefix (v4 198 51 100 0) 24; mkPrefix (v4 203 0 113 0) 24;
   mkPrefix (v4 240 0 0 0) 4; mkPrefix (v6 8193 2) 48; mkPrefix (v6 8193 16) 28; mkPrefix (v6 8193 3512) 32].

Definition isPermittedSSHDestination (address : Addr) : bool :=
  let a := Unmap address in
  if negb (IsValid a) || negb (IsGlobalUnicast a) || IsPrivate a || IsLoopback a || IsUnspecified a || IsLinkLocalUnicast a ||
     IsLinkLocalMulticast a || IsMulticast a then false
  else negb (existsb (fun p => Contains p a) blockedSSHDestinationPrefixes).

(** ** The gateway *)

Record badVPNAssociation := mkAssoc {
  as_id : nat; as_connection : Z; as_addr : Addr; as_port : Z; as_lastUsed : Time
}.

#[export] Instance badVPNAssociation_eq_dec : EqDecision badVPNAssociation.
Proof. solve_decision. Defined.

#[export] Instance eta_badVPNAssociation : Eta badVPNAssociation := fun a =>
  mkAssoc (as_id a) (as_connection a) (as_addr a) (as_port a) (as_lastUsed a).

(** [gw_up] and [gw_down] are the bytes handed to [addTraffic]. *)
Record badVPNGateway := mkGateway {
  gw_associations : gmap Z badVPNAssociation;
  gw_next : nat;
  gw_closed : gset nat;
  gw_up : Z;
  gw_down : Z
}.

#[export] Instance eta_badVPNGateway : Eta badVPNGateway := fun g =>
  mkGateway (gw_associations g) (gw_next g) (gw_closed g) (gw_up g) (gw_down g).

Definition close_assoc (a : badVPNAssociation) (g : badVPNGateway) : badVPNGateway :=
  g<|gw_closed ::= fun cl => {[as_id a]} ∪ cl|>.

Definition older (acc : option badVPNAssociation) (ka : Z * badVPNAssociation) : option badVPNAssociation :=
  match acc with
  | None => Some (snd ka)
  | Some o => if Before (as_lastUsed (snd ka)) (as_lastUsed o) then Some (snd ka) else acc
  end.

Definition oldestAssociationLocked (g : badVPNGateway) : option badVPNAssociation :=
  fold_left older (map_to_list (gw_associations g)) None.

(** The outcome of what one frame asks of its surroundings. *)
Record FrameEnv := mkFrameEnv {
  fe_now : Time;
  fe_allowTransfer : bool;
  fe_allowNew : bool;
  fe_dialled : bool;
  fe_written : Z;
  fe_writeFails : bool
}.

(** A full table loses its oldest association. *)
Definition make_room (g : badVPNGateway) : badVPNGateway :=
  if (badVPNMaxAssociations <=? size (gw_associations g))%nat then
    match oldestAssociationLocked g with
    | Some o => close_assoc o (g<|gw_associations ::= delete (as_connection o)|>)
    | None => g
    end
  else g.

(** The second half of [association]: a new socket enters the table. *)
Definition open_association (e : FrameEnv) (f : badVPNFrame) (g : badVPNGateway) : option badVPNAssociation * badVPNGateway :=
  if negb (fe_allowNew e) || negb (fe_dialled e) then (None, g)
  else
    let a := mkAssoc (gw_next g) (bf_connection f) (bf_addr f) (bf_port f) (fe_now e) in
    (Some a, (make_room g)<|gw_associations ::= <[bf_connection f := a]>|><|gw_next ::= S|>).

Definition association (e : FrameEnv) (f : badVPNFrame) (g : badVPNGateway) : option badVPNAssociation * badVPNGateway :=
  match gw_associations g !! bf_connection f with
  | Some a =>
      if negb (has_flag (bf_flags f) badVPNFlagRebind) && bool_decide (as_addr a = bf_addr f) && (as_port a =? bf_port f)
      then let a := a<|as_lastUsed := fe_now e|> in (Some a, g<|gw_associations ::= <[bf_connection f := a]>|>)
      else open_association e f (close_assoc a (g<|gw_associations ::= delete (bf_connection f)|>))
  | None => open_association e f g
  end.

Definition removeAssociation (a : badVPNAssociation) (g : badVPNGateway) : badVPNGateway :=
  let g := match gw_associations g !! as_connection a with
           | Some b => if (as_id b =? as_id a)%nat then g<|gw_associations ::= delete (as_connection a)|> else g
           | None => g
           end in
  close_assoc a g.

(** One turn of the loop of [serve] with the frame it read. *)
Definition serve_frame (e : FrameEnv) (f : badVPNFrame) (g : badVPNGateway) : badVPNGateway :=
  if has_flag (bf_flags f) badVPNFlagKeepalive then g
  else if negb (isPermittedSSHDestination (bf_addr f)) then g
  else
    match association e f g with
    | (None, g) => g
    | (Some a, g) =>
        let g := if 0 <? fe_written e then g<|gw_up ::= fun n => add64 n (fe_written e)|> else g in
        if fe_writeFails e || negb (fe_written e =? Z.of_nat (List.length (bf_payload f))) then removeAssociation a g else g
    end.

(** [serve]: frames are read until the quota, the stream or a frame ends the
    channel; each frame consumes bytes, so that [fuel] can be the length of the
    stream. *)
Fixpoint serve (fuel : nat) (envs : list FrameEnv) (stream : bytes) (g : badVPNGateway) : badVPNGateway :=
  match fuel, envs with
  | S fuel, e :: envs =>
      if negb (fe_allowTransfer e) then g
      else
        match readBadVPNFrame stream with
        | Err _ => g
        | Ok (f, rest) => serve fuel envs rest (serve_frame e f g)
        end
  | _, _ => g
  end.

(** [writeReply]: what goes to the stream; [ok] is the result of writing it. *)
Definition writeReply (allow ok : bool) (a : badVPNAssociation) (payload : bytes) (g : badVPNGateway) : result string bytes * badVPNGateway :=
  if negb allow then (Err "user traffic quota is exhausted"%string, g)
  else
    match marshalBadVPNFrame (mkFrame 0 (as_connection a) (as_addr a) (as_port a) payload) with
    | Err e => (Err e, g)
    | Ok packet =>
        if ok then (Ok packet, if 0 <? Z.of_nat (List.length payload)
                               then g<|gw_down ::= fun n => add64 n (Z.of_nat (List.length payload))|> else g)
        else (Err "write"%string, g)
    end.

Definition gateway_close (g : badVPNGateway) : badVPNGateway :=
  g<|gw_closed ::= fun cl => cl ∪ list_to_set (map (fun ka => as_id (snd ka)) (map_to_list (gw_associations g)))|><|gw_associations := ∅|>.

Definition new_gateway : badVPNGateway := mkGateway ∅ 0 ∅ 0 0.

(** ** Frames survive the wire *)

Definition frame_ok (f : badVPNFrame) : Prop :=
  0 <= bf_flags f < 256 /\ 0 <= bf_connection f < 65536 /\ 0 <= bf_port f < 65536 /\ addr_ok (bf_addr f).

Lemma Unmap_ok a : addr_ok a -> addr_ok (Unmap a).
Proof.
  destruct a as [| x | x]; cbn [Unmap]; [auto | auto |]. intros H. destruct (_ =? _); cbn [addr_ok] in *; [| exact H].
  apply Z.mod_pos_bound. lia.
Qed.

Lemma Unmap_idemp a : Unmap (Unmap a) = Unmap a.
Proof. destruct a as [| x | x]; cbn [Unmap]; [done | done |]. destruct (Z.shiftr x 32 =? 65535) eqn:E; cbn [Unmap]; [done | by rewrite E]. Qed.

Lemma Unmap_valid a : IsValid (Unmap a) = IsValid a.
Proof. destruct a as [| x | x]; cbn [Unmap]; [done | done |]. by destruct (_ =? _). Qed.

(** What the two flag operations do to a byte. *)
Lemma flags_of_byte z : 0 <= z < 256 ->
  let v4flags := Z.ldiff z badVPNFlagIPv6 in let v6flags := Z.lor v4flags badVPNFlagIPv6 in
  0 <= v4flags < 256 /\ 0 <= v6flags < 256 /\ has_flag v4flags badVPNFlagIPv6 = false /\ has_flag v6flags badVPNFlagIPv6 = true /\
  has_flag v4flags badVPNFlagKeepalive = has_flag z badVPNFlagKeepalive /\ has_flag v6flags badVPNFlagKeepalive = has_flag z badVPNFlagKeepalive.
Proof.
  intros Hz. pose (check := fun z => let v4flags := Z.ldiff z badVPNFlagIPv6 in let v6flags := Z.lor v4flags badVPNFlagIPv6 in
    (0 <=? v4flags) && (v4flags <? 256) && (0 <=? v6flags) && (v6flags <? 256) && negb (has_flag v4flags badVPNFlagIPv6) &&
    has_flag v6flags badVPNFlagIPv6 && Bool.eqb (has_flag v4flags badVPNFlagKeepalive) (has_flag z badVPNFlagKeepalive) &&
    Bool.eqb (has_flag v6flags badVPNFlagKeepalive) (has_flag z badVPNFlagKeepalive)).
  assert (check z = true) as H.
  { assert (forallb check (below 256) = true) as Hall by (vm_compute; reflexivity).
    rewrite forallb_forall in Hall. apply Hall, below_spec. lia. }
  unfold check in H. cbv zeta in H |- *. rewrite !andb_true_iff, negb_true_iff in H. rewrite !eqb_true_iff, !Z.leb_le, !Z.ltb_lt in H.
  destruct_and! H. split_and!; assumption.
Qed.

Lemma wire_flags_spec f : frame_ok f ->
  0 <= wire_flags f < 256 /\ has_flag (wire_flags f) badVPNFlagIPv6 = Is6 (Unmap (bf_addr f)) /\
  has_flag (wire_flags f) badVPNFlagKeepalive = has_flag (bf_flags f) badVPNFlagKeepalive.
Proof.
  intros (Hf & _). destruct (flags_of_byte (bf_flags f) Hf) as (H1 & H2 & H3 & H4 & H5 & H6). unfold wire_flags.
  by destruct (Is6 (Unmap (bf_addr f))).
Qed.

(** The body of a packet: address, port and payload. *)
Lemma parse_packet_built flags conn (addr : Addr) port payload n x :
  0 <= flags < 256 -> 0 <= conn < 65536 -> 0 < port < 65536 -> has_flag flags badVPNFlagKeepalive = false ->
  n = (if has_flag flags badVPNFlagIPv6 then 16%nat else 4%nat) -> addr = (if has_flag flags badVPNFlagIPv6 then V6 x else V4 x) ->
  0 <= x < 256 ^ Z.of_nat n ->
  parse_packet ([to_byte flags] ++ le16_bytes conn ++ be_bytes n x ++ be_bytes 2 port ++ payload) =
    Ok (mkFrame flags conn (Unmap addr) port payload).
Proof.
  intros Hf Hc Hp Hk Hn Ha Hx. unfold parse_packet, le16_bytes. cbn [app]. rewrite byte_val_to_byte, Z.mod_small by lia.
  rewrite Hk, <- Hn, le16_le16_bytes by lia.
  assert (take n (be_bytes n x ++ be_bytes 2 port ++ payload) = be_bytes n x) as ->.
  { rewrite take_app_le by (rewrite length_be_bytes; lia). apply take_ge. rewrite length_be_bytes. lia. }
  assert (drop n (be_bytes n x ++ be_bytes 2 port ++ payload) = be_bytes 2 port ++ payload) as Hd.
  { rewrite <- (length_be_bytes n x) at 1. apply drop_app_length. }
  rewrite Hd. assert (take 2 (be_bytes 2 port ++ payload) = be_bytes 2 port) as ->.
  { rewrite take_app_le by (rewrite length_be_bytes; lia). apply take_ge. rewrite length_be_bytes. lia. }
  rewrite (be_val_bytes 2 port), (be_val_bytes n x) by (done || (change (256 ^ Z.of_nat 2) with 65536; lia)).
  rewrite <- drop_drop, Hd. assert (drop 2 (be_bytes 2 port ++ payload) = payload) as ->.
  { rewrite <- (length_be_bytes 2 port) at 1. apply drop_app_length. }
  destruct (Nat.ltb_spec (List.length (to_byte flags :: to_byte conn :: to_byte (conn / 256) :: be_bytes n x ++ be_bytes 2 port ++ payload))
    (3 + n + 2)) as [Hl | _].
  { cbn [List.length] in Hl. rewrite !length_app, !length_be_bytes in Hl. lia. }
  destruct (Z.eqb_spec port 0); [lia |]. by rewrite <- Ha.
Qed.

(** Frames survive the wire: what [marshalBadVPNFrame] writes for a data
    frame, followed by anything, [readBadVPNFrame] reads back as the same
    connection, destination, port and payload, with the address family in the
    flags and an IPv4-mapped address as the IPv4 one, and leaves exactly the
    bytes that followed. *)
Theorem frames_round_trip f packet rest :
  frame_ok f -> has_flag (bf_flags f) badVPNFlagKeepalive = false -> marshalBadVPNFrame f = Ok packet ->
  readBadVPNFrame (packet ++ rest) =
    Ok (mkFrame (wire_flags f) (bf_connection f) (Unmap (bf_addr f)) (bf_port f) (bf_payload f), rest).
Proof.
  intros Hok Hk. pose proof (wire_flags_spec f Hok) as (W1 & W2 & W3). destruct Hok as (Hf & Hc & Hp & Ha). unfold marshalBadVPNFrame.
  destruct (negb (IsValid (bf_addr f)) || (bf_port f =? 0)) eqn:E; [done |]. apply orb_false_iff in E as [E1 E2]. zify_bool.
  apply Unmap_ok in Ha. rewrite <- Unmap_valid in E1. pose proof (Unmap_idemp (bf_addr f)) as Hi.
  remember (Unmap (bf_addr f)) as a eqn:Ea. unfold wire_flags in *. rewrite <- Ea in *.
  set (n := if Is6 a then 16%nat else 4%nat). set (x := match a with V4 x | V6 x => x | NoAddr => 0 end).
  set (flags := if Is6 a then Z.lor (Z.ldiff (bf_flags f) badVPNFlagIPv6) badVPNFlagIPv6 else Z.ldiff (bf_flags f) badVPNFlagIPv6) in *.
  assert ((if Is6 a then (16%nat, Z.lor (Z.ldiff (bf_flags f) badVPNFlagIPv6) badVPNFlagIPv6)
           else (4%nat, Z.ldiff (bf_flags f) badVPNFlagIPv6)) = (n, flags)) as -> by (unfold n, flags; by destruct (Is6 a)).
  destruct (Z.ltb_spec badVPNMaxFrameSize (3 + Z.of_nat n + 2 + Z.of_nat (List.length (bf_payload f)))) as [| Hsz]; [done |].
  unfold badVPNMaxFrameSize in Hsz. set (sz := 3 + Z.of_nat n + 2 + Z.of_nat (List.length (bf_payload f))) in *.
  assert (0 <= x < 256 ^ Z.of_nat n /\ a = (if Is6 a then V6 x else V4 x)) as [Hx Hax] by (unfold x, n; destruct a; [discriminate E1 | split; [exact Ha | reflexivity] | split; [exact Ha | reflexivity]]).
  set (body := [to_byte flags] ++ le16_bytes (bf_connection f) ++ be_bytes n x ++ be_bytes 2 (bf_port f) ++ bf_payload f).
  intros Hpk. assert (packet = le16_bytes sz ++ body) as -> by congruence. clear Hpk.
  assert (Z.of_nat (List.length body) = sz) as Hlen.
  { unfold body, sz, le16_bytes. rewrite !length_app, !length_be_bytes. cbn [List.length]. lia. }
  change ((le16_bytes sz ++ body) ++ rest) with (to_byte sz :: to_byte (sz / 256) :: (body ++ rest)). unfold readBadVPNFrame.
  rewrite le16_le16_bytes by lia. unfold badVPNMaxFrameSize. destruct (_ || _) eqn:Eb; [zify_bool; lia |].
  destruct (Z.ltb_spec (Z.of_nat (List.length (body ++ rest))) sz) as [Hl | _]; [rewrite length_app in Hl; lia |].
  assert (Z.to_nat sz = List.length body) as -> by lia. rewrite take_app_length, drop_app_length. unfold body.
  rewrite (parse_packet_built flags (bf_connection f) a (bf_port f) (bf_payload f) n x); [| lia | lia | lia | congruence | | | done].
  - by rewrite Hi.
  - unfold n. by rewrite W2.
  - by rewrite W2.
Qed.

(** The IPv4-mapped form of an address gets the same verdict as the address. *)
Lemma permitted_unmapped a : isPermittedSSHDestination (Unmap a) = isPermittedSSHDestination a.
Proof. unfold isPermittedSSHDestination. by rewrite Unmap_idemp. Qed.

(** ** The table of associations *)

(** The table holds open sockets to permitted destinations under their own
    connection, at most 256, and every socket ever dialled is in it or
    closed. *)
Record gateway_ok (g : badVPNGateway) : Prop := {
  ok_entry : forall k a, gw_associations g !! k = Some a ->
    as_connection a = k /\ (as_id a < gw_next g)%nat /\ as_id a ∉ gw_closed g /\ isPermittedSSHDestination (as_addr a) = true;
  ok_distinct : forall k k' a a', gw_associations g !! k = Some a -> gw_associations g !! k' = Some a' -> as_id a = as_id a' -> k = k';
  ok_size : (size (gw_associations g) <= badVPNMaxAssociations)%nat;
  ok_held : forall id, (id < gw_next g)%nat -> id ∈ gw_closed g \/ exists k a, gw_associations g !! k = Some a /\ as_id a = id;
  ok_closed : forall id, id ∈ gw_closed g -> (id < gw_next g)%nat
}.

Lemma new_gateway_ok : gateway_ok new_gateway.
Proof. split; cbn; [by intros k a ?%lookup_empty_Some | by intros k k' a a' ?%lookup_empty_Some | unfold badVPNMaxAssociations; by rewrite map_size_empty; lia | lia | set_solver]. Qed.

(** Taking an association out of the table and closing it. *)
Lemma drop_ok k a g : gateway_ok g -> gw_associations g !! k = Some a ->
  gateway_ok (close_assoc a (g<|gw_associations ::= delete k|>)) /\
  S (size (gw_associations (close_assoc a (g<|gw_associations ::= delete k|>)))) = size (gw_associations g).
Proof.
  intros [H1 H2 H3 H4 H5] Hk. destruct (H1 k a Hk) as (Hc & Hid & Hcl & Hp). split; [split; cbn |].
  - intros k' b [Hne Hb]%lookup_delete_Some. destruct (H1 k' b Hb) as (? & ? & Hbc & ?). split_and!; try done.
    apply not_elem_of_union. split; [| done]. intros He%elem_of_singleton. apply Hne. by apply (H2 k k' a b).
  - intros k1 k2 b b' [_ Hb]%lookup_delete_Some [_ Hb']%lookup_delete_Some. by apply H2.
  - pose proof (size_delete_le (gw_associations g) k). lia.
  - intros id Hlt. destruct (H4 id Hlt) as [Hx | (k' & b & Hb & Hbid)]; [left; set_solver |].
    destruct (decide (k' = k)) as [-> | Hne]; [left; rewrite Hk in Hb; injection Hb as <-; set_solver |].
    right. exists k', b. split; [by apply lookup_delete_Some | done].
  - intros id [He%elem_of_singleton | Hin]%elem_of_union; [by rewrite He | auto].
  - cbn. rewrite map_size_delete, Hk. assert (size (gw_associations g) <> 0%nat); [| lia].
    intros Hz%map_size_empty_inv. by rewrite Hz in Hk.
Qed.

Lemma oldest_in l acc o : fold_left older l acc = Some o -> acc = Some o \/ exists k, (k, o) ∈ l.
Proof.
  revert acc. induction l as [| [k a] l IH]; intros acc; cbn [fold_left]; [by left |].
  intros H. destruct (IH _ H) as [He | (k' & Hk')]; [| right; exists k'; by apply elem_of_cons; right].
  unfold older in He. destruct acc as [o' |]; cbn in He.
  - destruct (Before _ _); [| by left]. injection He as <-. right. exists k. apply elem_of_cons. by left.
  - injection He as <-. right. exists k. apply elem_of_cons. by left.
Qed.

Lemma oldestAssociation_in g o : oldestAssociationLocked g = Some o -> exists k, gw_associations g !! k = Some o.
Proof.
  intros H. destruct (oldest_in (map_to_list (gw_associations g)) None o) as [He | (k & Hk)]; [exact H | done |].
  exists k. by apply elem_of_map_to_list.
Qed.

Lemma oldestAssociation_some g : gw_associations g <> ∅ -> exists o, oldestAssociationLocked g = Some o.
Proof.
  intros Hne. unfold oldestAssociationLocked. destruct (map_to_list (gw_associations g)) as [| [k a] l] eqn:E.
  { by apply map_to_list_empty_iff in E. }
  cbn [fold_left older snd]. clear E. revert a. induction l as [| [k' b] l IH]; intros a; cbn [fold_left]; [eauto |].
  unfold older at 2. cbn [snd]. destruct (Before _ _); apply IH.
Qed.

Lemma make_room_ok g : gateway_ok g ->
  gateway_ok (make_room g) /\ (size (gw_associations (make_room g)) < badVPNMaxAssociations)%nat /\ gw_next (make_room g) = gw_next g /\
  (forall k, gw_associations g !! k = None -> gw_associations (make_room g) !! k = None).
Proof.
  intros Hg. unfold make_room. destruct (Nat.leb_spec badVPNMaxAssociations (size (gw_associations g))) as [Hfull | Hroom].
  2:{ by split_and!. }
  destruct (oldestAssociation_some g) as (o & Ho).
  { intros He. rewrite He, map_size_empty in Hfull. unfold badVPNMaxAssociations in Hfull. lia. }
  rewrite Ho. destruct (oldestAssociation_in g o Ho) as (k & Hk). destruct (ok_entry g Hg k o Hk) as (Hc & _). rewrite Hc.
  destruct (drop_ok k o g Hg Hk) as [Hd Hs]. pose proof (ok_size g Hg). split_and!; [done | lia | done |].
  intros k' Hn. cbn. by apply lookup_delete_None; right.
Qed.

Lemma open_association_ok e f g : gateway_ok g -> isPermittedSSHDestination (bf_addr f) = true -> gw_associations g !! bf_connection f = None ->
  gateway_ok (snd (open_association e f g)) /\
  (forall a, fst (open_association e f g) = Some a -> gw_associations (snd (open_association e f g)) !! as_connection a = Some a).
Proof.
  intros Hg Hp Hn. unfold open_association. destruct (negb _ || negb _); [by split |]. cbn [fst snd].
  destruct (make_room_ok g Hg) as ([H1 H2 H3 H4 H5] & Hs & Hnx & Hnone). specialize (Hnone _ Hn).
  set (g1 := make_room g) in *. set (a := mkAssoc _ _ _ _ _). split.
  2:{ intros b [= <-]. cbn. by rewrite lookup_insert_eq. }
  assert (as_id a = gw_next g1) as Hid by (by rewrite Hnx). split; cbn.
  - intros k b [[<- <-] | [Hne Hb]]%lookup_insert_Some.
    + split_and!; [done | lia | | done]. intros Hin. apply H5 in Hin. lia.
    + destruct (H1 k b Hb) as (? & ? & ? & ?). split_and!; [done | lia | done | done].
  - intros k k' b b' [[<- <-] | [Hne Hb]]%lookup_insert_Some [[<- <-] | [Hne' Hb']]%lookup_insert_Some He; [done | | | by apply (H2 k k' b b')].
    + destruct (H1 k' b' Hb') as (_ & ? & _). lia.
    + destruct (H1 k b Hb) as (_ & ? & _). lia.
  - pose proof (size_insert_le (gw_associations g1) (bf_connection f) a). lia.
  - intros id Hlt. destruct (decide (id = gw_next g1)) as [-> | Hne].
    + right. exists (bf_connection f), a. by rewrite lookup_insert_eq.
    + destruct (H4 id) as [Hin | (k & b & Hb & Hbid)]; [lia | by left |]. right. exists k, b. split; [| done].
      rewrite lookup_insert_ne; [done |]. intros <-. congruence.
  - intros id Hin. apply H5 in Hin. lia.
Qed.

(** A use only changes the time of an association. *)
Lemma touch_ok g k a now : gateway_ok g -> gw_associations g !! k = Some a ->
  gateway_ok (g<|gw_associations ::= <[k := a<|as_lastUsed := now|>]>|>).
Proof.
  intros [H1 H2 H3 H4 H5] Hk. destruct (H1 k a Hk) as (Hc & Hid & Hcl & Hp). split; cbn.
  - intros k' b [[<- <-] | [Hne Hb]]%lookup_insert_Some; [by split_and! | by apply H1].
  - intros k1 k2 b b' [[<- <-] | [Hne Hb]]%lookup_insert_Some [[<- <-] | [Hne' Hb']]%lookup_insert_Some He; [done | | | by apply (H2 k1 k2 b b')].
    + by apply (H2 k k2 a b').
    + by apply (H2 k1 k b a).
  - rewrite map_size_insert_Some by eauto. done.
  - intros id Hlt. destruct (H4 id Hlt) as [Hin | (k' & b & Hb & Hbid)]; [by left | right].
    destruct (decide (k' = k)) as [-> | Hne].
    + exists k, (a<|as_lastUsed := now|>). rewrite lookup_insert_eq. split; [done |]. cbn. rewrite Hk in Hb. by injection Hb as <-.
    + exists k', b. by rewrite lookup_insert_ne.
  - exact H5.
Qed.

Lemma association_ok e f g : gateway_ok g -> isPermittedSSHDestination (bf_addr f) = true ->
  gateway_ok (snd (association e f g)) /\
  (forall a, fst (association e f g) = Some a -> gw_associations (snd (association e f g)) !! as_connection a = Some a).
Proof.
  intros Hg Hp. unfold association. destruct (gw_associations g !! bf_connection f) as [a |] eqn:Ek; [| by apply open_association_ok].
  destruct (ok_entry g Hg _ _ Ek) as (Hc & _). destruct (negb _ && _ && _); cbn [fst snd].
  - split; [by apply touch_ok |]. intros b [= <-]. cbn. rewrite Hc. by rewrite lookup_insert_eq.
  - apply open_association_ok; [by apply drop_ok | done |]. cbn. by rewrite lookup_delete_eq.
Qed.

Lemma traffic_ok g up down : gateway_ok g -> gateway_ok (g<|gw_up := up|><|gw_down := down|>).
Proof. by intros [H1 H2 H3 H4 H5]. Qed.

Lemma removeAssociation_ok g a : gateway_ok g -> gw_associations g !! as_connection a = Some a -> gateway_ok (removeAssociation a g).
Proof. intros Hg Ha. unfold removeAssociation. rewrite Ha, Nat.eqb_refl. by apply drop_ok. Qed.

Lemma close_assoc_closed g a : as_id a ∈ gw_closed g -> close_assoc a g = g.
Proof.
  intros Hcl. unfold close_assoc. destruct g as [m n cl u d]. cbn in *.
  assert (({[as_id a]} : gset nat) ∪ cl = cl) as Hu by (by apply subseteq_union_1_L, singleton_subseteq_l).
  unfold upd. cbn. by rewrite Hu.
Qed.

(** A reply loop that ends after its association was replaced changes
    nothing. *)
Lemma removeAssociation_stale g a :
  as_id a ∈ gw_closed g -> (forall b, gw_associations g !! as_connection a = Some b -> as_id b <> as_id a) -> removeAssociation a g = g.
Proof.
  intros Hcl Hne. unfold removeAssociation. destruct (gw_associations g !! as_connection a) as [b |] eqn:E; [| by apply close_assoc_closed].
  rewrite (proj2 (Nat.eqb_neq _ _) (Hne b eq_refl)). by apply close_assoc_closed.
Qed.

Lemma serve_frame_ok e f g : gateway_ok g -> gateway_ok (serve_frame e f g).
Proof.
  intros Hg. unfold serve_frame. destruct (has_flag _ _); [done |]. destruct (isPermittedSSHDestination (bf_addr f)) eqn:Ep; cbn [negb]; [| done].
  pose proof (association_ok e f g Hg Ep) as [Ha Hin]. destruct (association e f g) as [[a |] g1]; cbn [fst snd] in *; [| done].
  specialize (Hin a eq_refl). set (g2 := if 0 <? fe_written e then _ else g1).
  assert (gateway_ok g2 /\ gw_associations g2 = gw_associations g1) as [H2 He].
  { unfold g2. destruct (0 <? fe_written e); [| done]. split; [| done].
    exact (traffic_ok g1 (add64 (gw_up g1) (fe_written e)) (gw_down g1) Ha). }
  destruct (_ || _); [| done]. apply removeAssociation_ok; [done | by rewrite He].
Qed.

Lemma serve_ok fuel envs stream g : gateway_ok g -> gateway_ok (serve fuel envs stream g).
Proof.
  revert envs stream g. induction fuel as [| fuel IH]; intros [| e envs] stream g Hg; cbn [serve]; try done.
  destruct (negb _); [done |]. destruct (readBadVPNFrame stream) as [[f rest] |]; [| done]. by apply IH, serve_frame_ok.
Qed.

(** The frames of the channel, interleaved with the turns of the reply loops
    ([readReplies]): a reply, the end of the loop of an association in the
    table, and the end of the loop of one that was evicted or rebound and whose
    socket is closed already. A frame is one step: the table is not locked
    while a socket is dialled, and what the loops do meanwhile is taken to
    happen before or after. *)
Inductive gateway_op :=
| GFrame (e : FrameEnv) (f : badVPNFrame)
| GReply (allow ok : bool) (k : Z) (payload : bytes)
| GGone (k : Z)
| GLate (a : badVPNAssociation).

Definition gateway_step (g : badVPNGateway) (o : gateway_op) : badVPNGateway :=
  match o with
  | GFrame e f => serve_frame e f g
  | GReply allow ok k payload => match gw_associations g !! k with Some a => snd (writeReply allow ok a payload g) | None => g end
  | GGone k => match gw_associations g !! k with Some a => removeAssociation a g | None => g end
  | GLate a => if bool_decide (as_id a ∈ gw_closed g) then removeAssociation a g else g
  end.

Lemma writeReply_ok allow ok a payload g : gateway_ok g -> gateway_ok (snd (writeReply allow ok a payload g)).
Proof.
  intros Hg. unfold writeReply. destruct (negb allow); [done |]. destruct (marshalBadVPNFrame _); [| done]. destruct ok; [| done].
  cbn [snd]. destruct (_ <? _); [| done].
  exact (traffic_ok g (gw_up g) (add64 (gw_down g) (Z.of_nat (List.length payload))) Hg).
Qed.

Lemma gateway_step_ok g o : gateway_ok g -> gateway_ok (gateway_step g o).
Proof.
  intros Hg. destruct o as [e f | allow ok k payload | k | a]; cbn [gateway_step]; [by apply serve_frame_ok | | |].
  - destruct (gw_associations g !! k); [by apply writeReply_ok | done].
  - destruct (gw_associations g !! k) as [a |] eqn:Ek; [| done]. apply removeAssociation_ok; [done |].
    by rewrite (proj1 (ok_entry g Hg _ _ Ek)).
  - case_bool_decide as Hcl; [| done]. rewrite removeAssociation_stale; [done | done |].
    intros b Hb He. destruct (ok_entry g Hg _ _ Hb) as (_ & _ & Hopen & _). by rewrite He in Hopen.
Qed.

(** C35: the UDP gateway of a session is bounded, confined and leaks no
    socket: whatever frames, replies and failures arrive in whatever order, at
    most 256 associations exist, each to a destination the filter permits, the
    sockets in the table are open, and after the channel is closed every socket
    that was ever dialled is closed. *)
Theorem gateway_is_confined ops :
  let g := fold_left gateway_step ops new_gateway in
  (size (gw_associations g) <= 256)%nat /\
  (forall k a, gw_associations g !! k = Some a -> as_id a ∉ gw_closed g /\ isPermittedSSHDestination (as_addr a) = true) /\
  (forall id, (id < gw_next g)%nat -> id ∈ gw_closed (gateway_close g)).
Proof.
  cbv zeta. assert (gateway_ok (fold_left gateway_step ops new_gateway)) as [H1 H2 H3 H4 H5].
  { apply (fold_left_inv _ gateway_ok); [apply new_gateway_ok |]. intros g o _. apply gateway_step_ok. }
  set (g := fold_left _ _ _) in *. split_and!; [exact H3 | |].
  - intros k a Hk. destruct (H1 k a Hk) as (_ & _ & ? & ?). done.
  - intros id Hlt. cbn. apply elem_of_union. destruct (H4 id Hlt) as [Hin | (k & a & Hk & <-)]; [by left | right].
    apply elem_of_list_to_set, list_elem_of_fmap. exists (k, a). split; [done | by apply elem_of_map_to_list].
Qed.

(** ** The loop ends with its stream *)

Lemma readBadVPNFrame_consumes stream f rest : readBadVPNFrame stream = Ok (f, rest) -> (List.length rest < List.length stream)%nat.
Proof.
  unfold readBadVPNFrame. destruct stream as [| a [| b stream]]; [done | done |]. destruct (_ || _); [done |]. destruct (_ <? _); [done |].
  destruct (parse_packet _); [| done]. intros [= _ <-]. cbn. rewrite length_drop. lia.
Qed.

(** More fuel than the stream has bytes changes nothing. *)
Theorem serve_ends_with_stream fuel envs stream g : (List.length stream < fuel)%nat -> serve fuel envs stream g = serve (S fuel) envs stream g.
Proof.
  revert envs stream g. induction fuel as [| fuel IH]; intros envs stream g Hlt; [lia |].
  destruct envs as [| e envs]; [done |]. change (serve (S (S fuel)) (e :: envs) stream g) with
    (if negb (fe_allowTransfer e) then g else match readBadVPNFrame stream with Err _ => g | Ok (f, rest) => serve (S fuel) envs rest (serve_frame e f g) end).
  cbn [serve]. destruct (negb _); [done |]. destruct (readBadVPNFrame stream) as [[f rest] |] eqn:E; [| done].
  apply readBadVPNFrame_consumes in E. apply IH. lia.
Qed.

(** ** Witnesses *)

Definition dns_frame : badVPNFrame := mkFrame 0 7 (v4 1 1 1 1) 53 (list_ascii_of_string "query").

Lemma frames_round_trip_witness :
  exists packet, marshalBadVPNFrame dns_frame = Ok packet /\
    readBadVPNFrame (packet ++ list_ascii_of_string "more") = Ok (dns_frame, list_ascii_of_string "more").
Proof.
  destruct (marshalBadVPNFrame dns_frame) as [packet | e] eqn:E; [| by vm_compute in E]. exists packet. split; [reflexivity |].
  assert (frame_ok dns_frame) as Hok by (unfold frame_ok, addr_ok; cbn; lia).
  exact (frames_round_trip dns_frame packet (list_ascii_of_string "more") Hok eq_refl E).
Defined.
