(* ===== verification/Agentlink.v ===== *)
(** * Agentlink: the binary transport of stealth agents

    Model of internal/agentlink (agentlink.go, session.go, client.go): the
    length-prefixed frames with their padding, and the session that multiplexes
    messages, requests and data over one connection.

    The connection is the list of bytes written to it and the list of bytes
    still to be read; the outcome of each write is an argument. TLS is the
    certificates the server presents and the verdict of the handshake. A
    channel is named by the number of the request it was made for. A request
    is three steps, so that the read loop and a shutdown can come between them:
    [request_register], [request_send] and the wake-up of its [select],
    [request_wake]. *)

From S2P Require Import Prelude GoTime Bytes Stealth Json.

(** ** Frames *)

Definition MaxMessageBytes : Z := Z.shiftl 16 20.
Definition maxFramePayload : Z := Z.shiftl 1 20.
Definition frameHeaderLen : Z := 6.
Definition MinPaddedFrameBytes : Z := 128.
Definition maxPadLen : Z := Z.shiftl 1 16 - 1.

Definition frameTypeMessage : Z := 1.
Definition frameTypeAuth : Z := 2.
Definition frameTypeAuthOK : Z := 3.
Definition frameTypeError : Z := 4.
Definition frameTypeRequest : Z := 5.
Definition frameTypeResponse : Z := 6.
Definition frameTypeData : Z := 7.
Definition frameTypePing : Z := 8.
Definition frameTypeGoAway : Z := 9.
Definition frameTypePong : Z := 10.

Definition ErrFrameTooLarge : string := "agentlink frame exceeds the payload limit".
Definition ErrMessageTooLarge : string := "agentlink message exceeds the reassembly limit".
Definition ErrClosed : string := "agentlink session closed".

Definition flagPayloadJSON : Z := 1.
Definition flagPad : Z := 2.

Record frame := mkLinkFrame { fr_type : Z; fr_flags : Z; fr_payload : bytes }.

#[export] Instance eta_frame : Eta frame := fun f => mkLinkFrame (fr_type f) (fr_flags f) (fr_payload f).

Definition len (b : bytes) : Z := Z.of_nat (List.length b).

(** The bytes of [writeFrame]. *)
Definition writeFrame (f : frame) : bytes :=
  [to_byte (fr_type f); to_byte (fr_flags f)] ++ be_bytes 4 (len (fr_payload f)) ++ fr_payload f.

(** [readFrame] with the bytes left in the stream. *)
Definition readFrame (stream : bytes) : result string (frame * bytes) :=
  if len stream <? frameHeaderLen then Err "EOF"%string
  else
    let header := take 6 stream in
    let rest := drop 6 stream in
    let length := be_val (drop 2 header) in
    if maxFramePayload <? length then Err ErrFrameTooLarge
    else if len rest <? length then Err "unexpected EOF"%string
    else
      match header with
      | t :: fl :: _ =>
          Ok (mkLinkFrame (byte_val t) (byte_val fl) (take (Z.to_nat length) rest), drop (Z.to_nat length) rest)
      | _ => Err "EOF"%string
      end.

Definition stripPadding (payload : bytes) : result string bytes :=
  if len payload <? 2 then Err "padded frame is too short"%string
  else
    let padLen := be_val (take 2 payload) in
    if len payload <? 2 + padLen then Err "padded frame declares more padding than payload"%string
    else Ok (drop (Z.to_nat (2 + padLen)) payload).

Definition buildPadding (payload : bytes) (padLen : Z) : result string bytes :=
  if (padLen <? 0) || (maxPadLen <? padLen) then Err ErrFrameTooLarge
  else if maxFramePayload <? 2 + padLen + len payload then Err ErrFrameTooLarge
  else Ok (be_bytes 2 padLen ++ repeat (byte_of 0) (Z.to_nat padLen) ++ payload).

(** The frame [writePadded] sends: short payloads are padded. *)
Definition padded_frame (f : frame) (payload : bytes) : result string frame :=
  if MinPaddedFrameBytes <=? len payload + frameHeaderLen then Ok (f<|fr_payload := payload|>)
  else
    let padLen := MinPaddedFrameBytes - frameHeaderLen - len payload in
    let? padded := buildPadding payload padLen in
    Ok (mkLinkFrame (fr_type f) (Z.lor (fr_flags f) flagPad) padded).

(** ** What the frames carry *)

Abbreviation envelope := (gmap string bytes) (only parsing).

Record RequestFrame := mkRequest { rq_ID : Z; rq_Path : string; rq_Body : bytes }.
Record ResponseFrame := mkResponse { rs_ID : Z; rs_Status : Z; rs_Body : bytes; rs_Error : string }.
Record DataHeader := mkDataHeader { dh_Stream : string; dh_Offset : Z }.
Record AuthRequest := mkAuth { au_AgentID : string; au_Token : string; au_EnrollmentToken : string }.

(** ** Sessions *)

(** A channel with room for one response. *)
Record chan := mkChan { ch_buf : option ResponseFrame; ch_closed : bool }.
Definition fresh_chan : chan := mkChan None false.

(** [ss_written] is what the connection took, [ss_messages] and [ss_data] what
    the handlers were given. *)
Record Session := mkSession {
  ss_certPin : string;
  ss_nextReqID : Z;
  ss_pending : gset Z;
  ss_chans : gmap Z chan;
  ss_acceptPayload : bytes;
  ss_dataHandler : bool;
  ss_closed : bool;
  ss_writeErr : option string;
  ss_written : bytes;
  ss_messages : list envelope;
  ss_data : list (DataHeader * bytes)
}.

#[export] Instance eta_Session : Eta Session := fun s =>
  mkSession (ss_certPin s) (ss_nextReqID s) (ss_pending s) (ss_chans s) (ss_acceptPayload s) (ss_dataHandler s) (ss_closed s)
    (ss_writeErr s) (ss_written s) (ss_messages s) (ss_data s).

Definition new_session (pin : string) (accept : bytes) : Session :=
  mkSession pin 0 ∅ ∅ accept false false None [] [] [].

Definition setWriteErr (err : string) (s : Session) : Session := s<|ss_writeErr := Some err|>.

(** [WriteFrame]; [werr] is the error of the connection, if it has one. *)
Definition WriteFrame (werr : option string) (f : frame) (s : Session) : result string unit * Session :=
  match ss_writeErr s with
  | Some e => (Err e, s)
  | None =>
      match werr with
      | Some e => (Err e, setWriteErr e s)
      | None => (Ok tt, s<|ss_written ::= fun w => w ++ writeFrame f|>)
      end
  end.

Definition writePadded (werr : option string) (f : frame) (payload : bytes) (s : Session) : result string unit * Session :=
  match padded_frame f payload with
  | Err e => (Err e, s)
  | Ok f => WriteFrame werr f s
  end.

Definition Ping (werr : option string) (s : Session) : result string unit * Session :=
  WriteFrame werr (mkLinkFrame frameTypePing 0 []) s.

Definition close_chan (c : chan) : chan := mkChan (ch_buf c) true.

(** Closing the channels of [ids]. *)
Definition close_chans (ids : gset Z) (chans : gmap Z chan) : gmap Z chan :=
  map_imap (fun id c => Some (if bool_decide (id ∈ ids) then close_chan c else c)) chans.

Definition shutdown (err : string) (s : Session) : Session :=
  if ss_closed s then s
  else
    (setWriteErr err s)<|ss_closed := true|><|ss_chans ::= close_chans (ss_pending s)|><|ss_pending := ∅|>.

Definition Close (s : Session) : Session := shutdown ErrClosed s.

(** [RunData] registers its handler until the session ends. *)
Definition RunData_start (s : Session) : result string unit * Session :=
  if ss_dataHandler s then (Err "agentlink data handler already active"%string, s) else (Ok tt, s<|ss_dataHandler := true|>).
Definition RunData_end (s : Session) : Session := s<|ss_dataHandler := false|>.

Section Codecs.
Context {CE : Codec envelope} {CQ : Codec RequestFrame} {CR : Codec ResponseFrame} {CD : Codec DataHeader} {CA : Codec AuthRequest}.

Definition WriteMessage (werr : option string) (e : envelope) (s : Session) : result string unit * Session :=
  match json_Marshal e with
  | None => (Err "json"%string, s)
  | Some payload =>
      if MaxMessageBytes <? len payload then (Err ErrMessageTooLarge, s)
      else writePadded werr (mkLinkFrame frameTypeMessage flagPayloadJSON []) payload s
  end.

(** ** Requests *)

(** The first step of [Request]: a number and a channel. *)
Definition request_register (s : Session) : Z * Session :=
  let id := add64 (ss_nextReqID s) 1 in
  (id, s<|ss_nextReqID := id|><|ss_pending ::= fun p => {[id]} ∪ p|><|ss_chans ::= <[id := fresh_chan]>|>).

Definition forget (id : Z) (s : Session) : Session := s<|ss_pending ::= fun p => p ∖ {[id]}|>.

(** The second step: the frame is written. [body] is the encoded body; [None]
    a body that does not encode. *)
Definition request_send (werr : option string) (id : Z) (path : string) (body : option bytes) (s : Session)
  : result string unit * Session :=
  match body with
  | None => (Err "json"%string, forget id s)
  | Some raw =>
      match json_Marshal (mkRequest id path raw) with
      | None => (Err "json"%string, s)
      | Some payload =>
          match writePadded werr (mkLinkFrame frameTypeRequest flagPayloadJSON []) payload s with
          | (Ok _, s) => (Ok tt, s)
          | (Err e, s) => (Err e, forget id s)
          end
      end
  end.

(** The cases of the [select] a request waits in. *)
Inductive wake := WContext | WResponse | WClosed.

Definition wake_ready (s : Session) (id : Z) (w : wake) : bool :=
  match w with
  | WContext => true
  | WResponse => match ss_chans s !! id with Some c => ch_closed c || bool_decide (is_Some (ch_buf c)) | None => false end
  | WClosed => ss_closed s
  end.

(** What the caller of [Request] gets: an error, a response with the error of
    decoding it, a nil response without error, or a nil dereference. *)
Inductive reply := RErr (e : string) | RResponse (r : ResponseFrame) (e : option string) | RNil | RPanic.

(** The third step; [out] says whether the caller wants the body, [decodes]
    whether it decodes. *)
Definition request_wake (out : bool) (decodes : bytes -> bool) (id : Z) (w : wake) (s : Session) : reply * Session :=
  match w with
  | WContext => (RErr "context"%string, forget id s)
  | WClosed => (RErr ErrClosed, s)
  | WResponse =>
      match ss_chans s !! id with
      | Some (mkChan (Some r) closed) =>
          (RResponse r (if out && negb (bool_decide (rs_Body r = [])) && negb (decodes (rs_Body r)) then Some "json"%string else None),
           s<|ss_chans ::= <[id := mkChan None closed]>|>)
      | _ => (if out then RPanic else RNil, s)
      end
  end.

(** ** The read loop *)

(** A turn of the loop goes on, returns, or does not come back from a channel. *)
Inductive turn := Next (s : Session) | Return (err : string) (s : Session) | Stuck.

(** [ch <- r] on a channel with one slot. *)
Definition chan_send (id : Z) (r : ResponseFrame) (s : Session) : turn :=
  match ss_chans s !! id with
  | Some (mkChan None false) => Next (s<|ss_chans ::= <[id := mkChan (Some r) false]>|>)
  | _ => Stuck
  end.

Definition frame_content (f : frame) : result string bytes :=
  if Z.land (fr_flags f) flagPad =? 0 then Ok (fr_payload f) else stripPadding (fr_payload f).

(** [deliverData]; [herr] is what the handler returns. *)
Definition deliverData (herr : option string) (f : frame) (s : Session) : option string * Session :=
  if negb (ss_dataHandler s) then (None, s)
  else
    let payload := fr_payload f in
    if len payload <? 2 then (None, s)
    else
      let headerLen := be_val (take 2 payload) in
      if len payload <? 2 + headerLen then (None, s)
      else
        match json_Unmarshal (take (Z.to_nat headerLen) (drop 2 payload)) with
        | None => (Some "json"%string, s)
        | Some header => (herr, s<|ss_data ::= fun l => l ++ [(header, drop (Z.to_nat (2 + headerLen)) payload)]|>)
        end.

Definition return_with (err : string) (s : Session) : turn := Return err (shutdown err s).

(** One turn of [Run] with the frame it read. *)
Definition run_frame (werr herr : option string) (f : frame) (s : Session) : turn :=
  if fr_type f =? frameTypePing then
    match WriteFrame werr (mkLinkFrame frameTypePong 0 []) s with
    | (Ok _, s) => Next s
    | (Err e, s) => return_with e s
    end
  else if fr_type f =? frameTypePong then Next s
  else if fr_type f =? frameTypeGoAway then Return ErrClosed (shutdown "server sent goaway"%string s)
  else if fr_type f =? frameTypeMessage then
    match frame_content f with
    | Err e => return_with e s
    | Ok payload =>
        match json_Unmarshal payload with
        | None => return_with "json"%string s
        | Some e => Next (s<|ss_messages ::= fun l => l ++ [e]|>)
        end
    end
  else if fr_type f =? frameTypeResponse then
    match frame_content f with
    | Err e => return_with e s
    | Ok payload =>
        match json_Unmarshal payload with
        | None => Next s
        | Some r => if bool_decide (rs_ID r ∈ ss_pending s) then chan_send (rs_ID r) r (forget (rs_ID r) s) else Next s
        end
    end
  else if fr_type f =? frameTypeData then
    match deliverData herr f s with
    | (None, s) => Next s
    | (Some e, s) => return_with e s
    end
  else Next s.

(** [Run] on a stream; [werr] and [herr] give the outcomes of the turns. A frame
    has at least its header, so that the length of the stream is enough
    [fuel]. *)
Fixpoint Run (fuel : nat) (werr herr : nat -> option string) (stream : bytes) (s : Session) : turn :=
  match fuel with
  | O => Next s
  | S fuel' =>
      match readFrame stream with
      | Err e => return_with e s
      | Ok (f, rest) =>
          match run_frame (werr fuel') (herr fuel') f s with
          | Next s => Run fuel' werr herr rest s
          | t => t
          end
      end
  end.

(** ** Dialling *)

Record ClientConfig := mkClientConfig {
  cc_Address : string; cc_CertSHA256 : string; cc_AgentID : string; cc_Token : string;
  cc_EnrollmentToken : string; cc_ServerCertOverride : string
}.

(** The server: the certificates of the handshake, whether their chain verifies
    against the given certificate, whether the handshake succeeds otherwise, the
    result of writing the first frame, and the bytes it answers. *)
Record Server := mkServer {
  sv_certs : list bytes; sv_chain : string -> bool; sv_handshake : bool; sv_writeErr : option string; sv_answer : bytes
}.

Definition verify_pin (sha256hex : bytes -> string) (expected : string) (certs : list bytes) : result string unit :=
  match certs with
  | [] => Err "server presented no certificate"%string
  | c :: _ => if sha256hex c =s expected then Ok tt else Err "server certificate pin mismatch"%string
  end.

Definition Dial (sha256hex : bytes -> string) (validPEM : string -> bool) (cfg : ClientConfig) (sv : Server)
  : result string Session :=
  let? _ :=
    (if negb (cc_CertSHA256 cfg =s "") then verify_pin sha256hex (cc_CertSHA256 cfg) (sv_certs sv)
     else if negb (cc_ServerCertOverride cfg =s "") then
       if negb (validPEM (cc_ServerCertOverride cfg)) then Err "agentlink server certificate override is not valid PEM"%string
       else if sv_chain sv (cc_ServerCertOverride cfg) then Ok tt else Err "x509"%string
     else Err "agentlink requires a certificate pin"%string) in
  if negb (sv_handshake sv) then Err "handshake"%string
  else
    let pin := if cc_CertSHA256 cfg =s "" then match sv_certs sv with c :: _ => sha256hex c | [] => ""%string end
               else cc_CertSHA256 cfg in
    match json_Marshal (mkAuth (cc_AgentID cfg) (cc_Token cfg) (cc_EnrollmentToken cfg)), sv_writeErr sv with
    | None, _ => Err "json"%string
    | Some _, Some e => Err e
    | Some payload, None =>
        let? answer := readFrame (sv_answer sv) in
        let accept := fst answer in
        if fr_type accept =? frameTypeError then Err "agentlink auth rejected"%string
        else if negb (fr_type accept =? frameTypeAuthOK) then Err "agentlink unexpected frame after auth"%string
        else Ok ((new_session pin (fr_payload accept))<|ss_written := writeFrame (mkLinkFrame frameTypeAuth flagPayloadJSON payload)|>)
    end.

End Codecs.

(** ** Frames survive the wire *)

(** Arithmetic with the limits of the protocol. *)
Ltac link_arith :=
  unfold MaxMessageBytes, maxFramePayload, frameHeaderLen, MinPaddedFrameBytes, maxPadLen in *;
  change (Z.shiftl 1 20) with 1048576 in *; change (Z.shiftl 16 20) with 16777216 in *; change (Z.shiftl 1 16) with 65536 in *;
  change (256 ^ Z.of_nat 4) with 4294967296 in *; change (256 ^ Z.of_nat 2) with 65536 in *; lia.

Definition frame_wf (f : frame) : Prop :=
  0 <= fr_type f < 256 /\ 0 <= fr_flags f < 256 /\ len (fr_payload f) <= maxFramePayload.

Lemma be_bytes_4 z : exists a b c d, be_bytes 4 z = [a; b; c; d].
Proof.
  pose proof (length_be_bytes 4 z) as H. destruct (be_bytes 4 z) as [| a [| b [| c [| d [| ]]]]]; try discriminate. eauto.
Qed.

Lemma be_bytes_2 z : exists a b, be_bytes 2 z = [a; b].
Proof. pose proof (length_be_bytes 2 z) as H. destruct (be_bytes 2 z) as [| a [| b [| ]]]; try discriminate. eauto. Qed.

Lemma len_app a b : len (a ++ b) = len a + len b.
Proof. unfold len. rewrite length_app. lia. Qed.

Lemma len_nonneg b : 0 <= len b.
Proof. unfold len. lia. Qed.

Lemma writeFrame_len f : len (writeFrame f) = frameHeaderLen + len (fr_payload f).
Proof. unfold writeFrame. unfold len, frameHeaderLen. rewrite !length_app, length_be_bytes. cbn [List.length]. lia. Qed.

Lemma readFrame_writeFrame f rest : frame_wf f -> readFrame (writeFrame f ++ rest) = Ok (f, rest).
Proof.
  intros (Ht & Hf & Hl). unfold readFrame. rewrite len_app, writeFrame_len.
  pose proof (len_nonneg (fr_payload f)). pose proof (len_nonneg rest).
  rewrite (proj2 (Z.ltb_ge _ _)) by link_arith.
  assert (be_val (be_bytes 4 (len (fr_payload f))) = len (fr_payload f)) as Hv.
  { apply be_val_bytes. link_arith. }
  unfold writeFrame. destruct (be_bytes_4 (len (fr_payload f))) as (a & b & c & d & E). rewrite E in Hv |- *. cbn [app take drop].
  cbv zeta. cbn [drop]. rewrite take_0, drop_0, Hv, len_app, (proj2 (Z.ltb_ge _ _)) by lia. rewrite (proj2 (Z.ltb_ge _ _)) by lia.
  rewrite !byte_val_to_byte, !Z.mod_small by lia.
  rewrite take_app_length', drop_app_length' by (unfold len; lia). by destruct f.
Qed.

Lemma stripPadding_buildPadding payload n padded : buildPadding payload n = Ok padded ->
  stripPadding padded = Ok payload /\ len padded = 2 + n + len payload.
Proof.
  unfold buildPadding. destruct (_ || _) eqn:E1; [done |]. destruct (maxFramePayload <? _) eqn:E2; [done |]. zify_bool.
  intros Hok. assert (padded = be_bytes 2 n ++ repeat (byte_of 0) (Z.to_nat n) ++ payload) as -> by congruence.
  assert (be_val (be_bytes 2 n) = n) as Hv by (apply be_val_bytes; link_arith).
  assert (len (be_bytes 2 n ++ repeat (byte_of 0) (Z.to_nat n) ++ payload) = 2 + n + len payload) as Hlen.
  { unfold len. rewrite !length_app, length_be_bytes, repeat_length. lia. }
  split; [| exact Hlen]. unfold stripPadding. pose proof (len_nonneg payload). rewrite Hlen, (proj2 (Z.ltb_ge _ _)) by lia.
  rewrite take_app_length' by (by rewrite length_be_bytes). rewrite Hv. cbv zeta. rewrite (proj2 (Z.ltb_ge _ _)) by lia.
  f_equal. rewrite app_assoc. apply drop_app_length'. rewrite length_app, length_be_bytes, repeat_length. lia.
Qed.

(** What the peer sees of a padded frame: its content, and a size that does not
    tell short payloads apart. *)
Lemma padded_frame_spec f payload : 0 <= fr_type f < 256 -> fr_flags f = flagPayloadJSON -> len payload <= maxFramePayload ->
  exists g, padded_frame f payload = Ok g /\ frame_wf g /\ fr_type g = fr_type f /\ frame_content g = Ok payload /\
    MinPaddedFrameBytes <= len (writeFrame g) /\ (len payload + frameHeaderLen < MinPaddedFrameBytes -> len (writeFrame g) = 130).
Proof.
  intros Ht Hf Hl. unfold padded_frame. destruct (MinPaddedFrameBytes <=? len payload + frameHeaderLen) eqn:E; zify_bool.
  - exists (mkLinkFrame (fr_type f) (fr_flags f) payload). split; [done |]. rewrite writeFrame_len. cbn [fr_payload fr_type].
    split_and!; [| done | | link_arith | link_arith].
    + unfold frame_wf. cbn [fr_payload fr_type fr_flags]. rewrite Hf. unfold flagPayloadJSON. lia.
    + unfold frame_content. cbn [fr_payload fr_flags]. by rewrite Hf.
  - pose proof (len_nonneg payload) as Hp. destruct (buildPadding payload _) as [padded |] eqn:Eb.
    2:{ exfalso. unfold buildPadding in Eb. rewrite !(proj2 (Z.ltb_ge _ _)) in Eb by link_arith. done. }
    apply stripPadding_buildPadding in Eb as [Hs Hlen]. cbn [result_bind]. eexists. split; [done |].
    rewrite writeFrame_len. cbn [fr_payload fr_type]. split_and!; [| done | | link_arith | link_arith].
    + unfold frame_wf. cbn [fr_payload fr_type fr_flags]. rewrite Hf. change (Z.lor flagPayloadJSON flagPad) with 3. link_arith.
    + unfold frame_content. cbn [fr_payload fr_flags]. rewrite Hf. exact Hs.
Qed.

Section Messages.
Context {CE : Codec envelope} {CQ : Codec RequestFrame} {CR : Codec ResponseFrame} {CD : Codec DataHeader}.
Context {LE : CodecLaws CE}.

Definition write_messages (es : list envelope) (s : Session) : Session := fold_left (fun s e => snd (WriteMessage None e s)) es s.

Definition fits (e : envelope) : Prop := exists b, json_Marshal e = Some b /\ len b <= maxFramePayload.

(** One message on the wire. *)
Lemma WriteMessage_spec e s : fits e -> ss_writeErr s = None ->
  exists wire, WriteMessage None e s = (Ok tt, s<|ss_written ::= fun w => w ++ wire|>) /\ MinPaddedFrameBytes <= len wire /\
    forall rest werr herr fuel peer,
      Run (S fuel) werr herr (wire ++ rest) peer = Run fuel werr herr rest (peer<|ss_messages ::= fun l => l ++ [e]|>).
Proof.
  intros (b & Hb & Hl) He. destruct (padded_frame_spec (mkLinkFrame frameTypeMessage flagPayloadJSON []) b) as (g & Hg & Hwf & Ht & Hc & Hm & _);
    [done | done | done |]. exists (writeFrame g). split_and!; [| done |].
  - unfold WriteMessage. rewrite Hb, (proj2 (Z.ltb_ge _ _)) by (link_arith).
    unfold writePadded, WriteFrame. by rewrite Hg, He.
  - intros rest werr herr fuel peer. cbn [Run]. rewrite readFrame_writeFrame by done. unfold run_frame. rewrite Ht. cbn [fr_type].
    change (frameTypeMessage =? frameTypePing) with false. change (frameTypeMessage =? frameTypePong) with false.
    change (frameTypeMessage =? frameTypeGoAway) with false. change (frameTypeMessage =? frameTypeMessage) with true. cbv iota.
    rewrite Hc. by rewrite (json_roundtrip e b Hb).
Qed.

Lemma write_messages_spec es s : Forall fits es -> ss_writeErr s = None ->
  exists wire, write_messages es s = s<|ss_written ::= fun w => w ++ wire|> /\
    MinPaddedFrameBytes * Z.of_nat (List.length es) <= len wire /\
    forall rest werr herr fuel peer,
      Run (List.length es + fuel) werr herr (wire ++ rest) peer = Run fuel werr herr rest (peer<|ss_messages ::= fun l => l ++ es|>).
Proof.
  intros Hes. revert s. induction Hes as [| e es He _ IH]; intros s Hs.
  - exists []. split_and!; [destruct s; unfold upd; cbn; by rewrite app_nil_r | done |].
    intros rest werr herr fuel peer. cbn [List.length app Nat.add]. f_equal. destruct peer. unfold upd. cbn. by rewrite app_nil_r.
  - destruct (WriteMessage_spec e s He Hs) as (w & Hw & Hl & Hr). destruct (IH (s<|ss_written ::= fun x => x ++ w|>)) as (w' & Hw' & Hl' & Hr'); [done |].
    exists (w ++ w'). split_and!.
    + unfold write_messages in *. cbn [fold_left]. rewrite Hw. cbn [snd]. rewrite Hw'. unfold upd. cbn. by rewrite app_assoc.
    + rewrite len_app. cbn [List.length]. lia.
    + intros rest werr herr fuel peer. cbn [List.length Nat.add]. rewrite <- app_assoc, Hr, Hr'. f_equal. unfold upd. cbn. by rewrite <- app_assoc.
Qed.

(** A link is a queue of messages: whatever messages a session writes, as
    long as each fits a frame, the read loop of the peer hands over exactly
    these, in order, whatever its state; it returns only at the end of the
    stream, and every message takes at least 128 bytes on the wire. *)
Theorem written_messages_are_delivered es s peer werr herr fuel :
  Forall fits es -> ss_writeErr s = None -> (List.length es < fuel)%nat ->
  exists wire, ss_written (write_messages es s) = ss_written s ++ wire /\ 128 * Z.of_nat (List.length es) <= len wire /\
    Run fuel werr herr wire peer = Return "EOF" (shutdown "EOF" (peer<|ss_messages ::= fun l => l ++ es|>)).
Proof.
  intros Hes Hs Hf. destruct (write_messages_spec es s Hes Hs) as (wire & Hw & Hl & Hr). exists wire. rewrite Hw. split_and!; [done | done |].
  replace fuel with (List.length es + S (fuel - List.length es - 1))%nat by lia. rewrite <- (app_nil_r wire). by rewrite Hr.
Qed.

(** A message above the limit of a frame is written without an error although it
    is within the limit of a message, and the peer ends the session on it. *)
Theorem large_message_breaks_link e b s peer werr herr fuel :
  json_Marshal e = Some b -> maxFramePayload < len b <= MaxMessageBytes -> ss_writeErr s = None ->
  exists wire, WriteMessage None e s = (Ok tt, s<|ss_written ::= fun w => w ++ wire|>) /\
    Run (S fuel) werr herr wire peer = Return ErrFrameTooLarge (shutdown ErrFrameTooLarge peer).
Proof.
  intros Hb Hl Hs. exists (writeFrame (mkLinkFrame frameTypeMessage flagPayloadJSON b)).
  assert (MinPaddedFrameBytes <=? len b + frameHeaderLen = true) as Hm.
  { apply Z.leb_le. link_arith. }
  split.
  - unfold WriteMessage. rewrite Hb, (proj2 (Z.ltb_ge _ _)) by lia. unfold writePadded, padded_frame, WriteFrame. by rewrite Hm, Hs.
  - cbn [Run]. unfold readFrame. rewrite writeFrame_len. cbn [fr_payload]. rewrite (proj2 (Z.ltb_ge _ _)) by (pose proof (len_nonneg b); link_arith).
    unfold writeFrame. cbn [fr_payload fr_type fr_flags]. assert (be_val (be_bytes 4 (len b)) = len b) as Hv.
    { apply be_val_bytes. pose proof (len_nonneg b). link_arith. }
    destruct (be_bytes_4 (len b)) as (x & y & z & t & E). rewrite E in Hv |- *. cbn [app take drop]. cbv zeta. cbn [drop].
    rewrite take_0, Hv, (proj2 (Z.ltb_lt _ _)) by lia. reflexivity.
Qed.

End Messages.

(** ** Responses reach their request *)

Section Requests.
Context {CE : Codec envelope} {CQ : Codec RequestFrame} {CR : Codec ResponseFrame} {CD : Codec DataHeader}.

(** What callers, the read loop and the owner of a session do, in any order. *)
Inductive link_op :=
| LRegister
| LSend (werr : option string) (id : Z) (path : string) (body : option bytes)
| LWake (out : bool) (decodes : bytes -> bool) (id : Z) (w : wake)
| LFrame (werr herr : option string) (f : frame)
| LMessage (werr : option string) (e : envelope)
| LPing (werr : option string)
| LShutdown (err : string)
| LData (start : bool).

(** [None] is a read loop that does not come back from a channel. *)
Definition link_step (s : Session) (o : link_op) : option Session :=
  match o with
  | LRegister => Some (snd (request_register s))
  | LSend werr id path body => Some (snd (request_send werr id path body s))
  | LWake out decodes id w => Some (if wake_ready s id w then snd (request_wake out decodes id w s) else s)
  | LFrame werr herr f => match run_frame werr herr f s with Next s | Return _ s => Some s | Stuck => None end
  | LMessage werr e => Some (snd (WriteMessage werr e s))
  | LPing werr => Some (snd (Ping werr s))
  | LShutdown err => Some (shutdown err s)
  | LData true => Some (snd (RunData_start s))
  | LData false => Some (RunData_end s)
  end.

Fixpoint run_link (s : Session) (ops : list link_op) : option Session :=
  match ops with [] => Some s | o :: ops => match link_step s o with Some s => run_link s ops | None => None end end.

(** The invariant: a pending request has an empty open channel, a buffered
    response is the one asked for, channels are closed by a shutdown only. *)
Record core_ok (bound next : Z) (pending : gset Z) (chans : gmap Z chan) (closed : bool) : Prop := {
  co_next : 0 <= next <= bound;
  co_pending : forall id, id ∈ pending -> chans !! id = Some fresh_chan;
  co_chan : forall id c, chans !! id = Some c ->
    id <= next /\ (forall r, ch_buf c = Some r -> rs_ID r = id) /\ (ch_closed c = true -> closed = true)
}.

Definition link_ok (bound : Z) (s : Session) : Prop :=
  core_ok bound (ss_nextReqID s) (ss_pending s) (ss_chans s) (ss_closed s).

Lemma link_ok_more bound bound' s : bound <= bound' -> link_ok bound s -> link_ok bound' s.
Proof. intros Hle [[]]. split; [lia | done | done]. Qed.

Lemma forget_ok bound id s : link_ok bound s -> link_ok bound (forget id s).
Proof. intros [H1 H2 H3]. split; cbn; [done | | done]. intros i Hi. apply H2. set_solver. Qed.

Lemma WriteFrame_ok bound werr f s : link_ok bound s -> link_ok bound (snd (WriteFrame werr f s)).
Proof. intros H. unfold WriteFrame. destruct (ss_writeErr s); [done |]. by destruct werr. Qed.

Lemma writePadded_ok bound werr f payload s : link_ok bound s -> link_ok bound (snd (writePadded werr f payload s)).
Proof. intros H. unfold writePadded. destruct (padded_frame f payload); [by apply WriteFrame_ok | done]. Qed.

Lemma shutdown_ok bound err s : link_ok bound s -> link_ok bound (shutdown err s).
Proof.
  intros H. unfold shutdown. destruct (ss_closed s) eqn:E; [done |]. destruct H as [H1 H2 H3]. split; cbn; [done | set_solver |].
  intros id c. unfold close_chans. rewrite map_lookup_imap. destruct (ss_chans s !! id) as [d |] eqn:Ed; cbn; [| done].
  destruct (H3 id d Ed) as (Hid & Hbuf & _). intros [= <-]. case_bool_decide; cbn; done.
Qed.

Lemma request_register_ok bound s : bound < max_int64 -> link_ok bound s -> link_ok (bound + 1) (snd (request_register s)).
Proof.
  intros Hb [H1 H2 H3]. unfold request_register. cbn [snd].
  assert (add64 (ss_nextReqID s) 1 = ss_nextReqID s + 1) as ->.
  { apply wrap64_id. unfold in_int64, min_int64 in *. lia. }
  assert (ss_chans s !! (ss_nextReqID s + 1) = None) as Hnew.
  { destruct (ss_chans s !! _) as [c |] eqn:E; [| done]. destruct (H3 _ _ E). lia. }
  split; cbn; [lia | |].
  - intros id [->%elem_of_singleton | Hid]%elem_of_union; [by rewrite lookup_insert_eq |].
    rewrite lookup_insert_ne; [by apply H2 |]. intros <-. by rewrite H2 in Hnew.
  - intros id c [[<- <-] | [Hne Hc]]%lookup_insert_Some; [cbn; split_and!; [lia | done | done] |].
    destruct (H3 id c Hc) as (? & ? & ?). split_and!; [lia | done | done].
Qed.

Lemma request_wake_ok bound out decodes id w s : link_ok bound s -> link_ok bound (snd (request_wake out decodes id w s)).
Proof.
  intros H. destruct w; cbn [request_wake snd]; [by apply forget_ok | | done].
  destruct (ss_chans s !! id) as [[[r |] closed] |] eqn:E; [| done | done]. destruct H as [H1 H2 H3].
  destruct (H3 id _ E) as (Hid & _ & Hcl). split; cbn; [done | |].
  - intros i Hi. rewrite lookup_insert_ne; [by apply H2 |]. intros <-. rewrite (H2 _ Hi) in E. done.
  - intros i c [[<- <-] | [Hne Hc]]%lookup_insert_Some; [by split_and! | by apply H3].
Qed.

(** A response finds the channel of its request empty and open. *)
Lemma response_delivered bound r s : link_ok bound s -> rs_ID r ∈ ss_pending s ->
  chan_send (rs_ID r) r (forget (rs_ID r) s) = Next ((forget (rs_ID r) s)<|ss_chans ::= <[rs_ID r := mkChan (Some r) false]>|>) /\
  link_ok bound ((forget (rs_ID r) s)<|ss_chans ::= <[rs_ID r := mkChan (Some r) false]>|>).
Proof.
  intros [H1 H2 H3] Hp. pose proof (H2 _ Hp) as Hc. split; [unfold chan_send; cbn; by rewrite Hc |].
  destruct (H3 _ _ Hc) as (Hid & _ & _). split; cbn; [done | |].
  - intros i [Hi Hne]%elem_of_difference. rewrite lookup_insert_ne by set_solver. by apply H2.
  - intros i c [[<- <-] | [Hne Hd]]%lookup_insert_Some; [cbn | by apply H3]. split_and!; [done | by intros ? [= <-] | done].
Qed.

(** A turn that comes back, in a good state. *)
Definition turn_ok (bound : Z) (t : turn) : Prop :=
  match t with Next s | Return _ s => link_ok bound s | Stuck => False end.

Lemma run_frame_ok bound werr herr f s : link_ok bound s -> turn_ok bound (run_frame werr herr f s).
Proof.
  intros H. pose proof (fun err => shutdown_ok bound err s H) as Hsh. unfold run_frame, return_with.
  destruct (fr_type f =? frameTypePing).
  { pose proof (WriteFrame_ok bound werr (mkLinkFrame frameTypePong 0 []) s H) as Hw.
    destruct (WriteFrame _ _ _) as [[u | e] s1]; cbn [snd turn_ok] in *; [done | by apply shutdown_ok]. }
  destruct (fr_type f =? frameTypePong); [done |]. destruct (fr_type f =? frameTypeGoAway); [apply Hsh |].
  destruct (fr_type f =? frameTypeMessage).
  { destruct (frame_content f); [| apply Hsh]. destruct (json_Unmarshal _); [done | apply Hsh]. }
  destruct (fr_type f =? frameTypeResponse).
  { destruct (frame_content f) as [p |]; [| apply Hsh]. destruct (json_Unmarshal p) as [r |]; [| done].
    case_bool_decide as Hp; [| done]. by destruct (response_delivered bound r s H Hp) as [-> Hok]. }
  destruct (fr_type f =? frameTypeData); [| done].
  assert (link_ok bound (snd (deliverData herr f s))) as Hd.
  { unfold deliverData. destruct (negb _); [done |]. destruct (_ <? _); [done |]. destruct (_ <? _); [done |].
    by destruct (json_Unmarshal _). }
  destruct (deliverData herr f s) as [[e |] s1]; cbn [snd turn_ok] in *; [by apply shutdown_ok | done].
Qed.

Lemma link_step_ok bound s o : 0 <= bound < max_int64 -> link_ok bound s -> exists s', link_step s o = Some s' /\ link_ok (bound + 1) s'.
Proof.
  intros Hb H. assert (forall s', link_ok bound s' -> link_ok (bound + 1) s') as Hmore by (intros s'; apply link_ok_more; lia).
  destruct o as [| werr id path body | out decodes id w | werr herr f | werr e | werr | err | [|]]; cbn [link_step];
    try (eexists; split; [reflexivity |]).
  - apply request_register_ok; [lia | done].
  - apply Hmore. unfold request_send. destruct body as [raw |]; [| by apply forget_ok]. destruct (json_Marshal _) as [payload |]; [| done].
    pose proof (writePadded_ok bound werr (mkLinkFrame frameTypeRequest flagPayloadJSON []) payload s H) as Hw.
    destruct (writePadded _ _ _ _) as [[u | e] s1]; cbn [snd] in *; [done | by apply forget_ok].
  - apply Hmore. destruct (wake_ready s id w); [by apply request_wake_ok | done].
  - pose proof (run_frame_ok bound werr herr f s H) as Hf. destruct (run_frame werr herr f s); cbn [turn_ok] in Hf; [eauto | eauto | done].
  - apply Hmore. unfold WriteMessage. destruct (json_Marshal e); [| done]. destruct (_ <? _); [done | by apply writePadded_ok].
  - apply Hmore. by apply WriteFrame_ok.
  - apply Hmore. by apply shutdown_ok.
  - apply Hmore. unfold RunData_start. by destruct (ss_dataHandler s).
  - apply Hmore. done.
Qed.

Lemma run_link_ok bound ops s : 0 <= bound -> bound + Z.of_nat (List.length ops) <= max_int64 -> link_ok bound s ->
  exists s', run_link s ops = Some s' /\ link_ok (bound + Z.of_nat (List.length ops)) s'.
Proof.
  revert bound s. induction ops as [| o ops IH]; intros bound s H0 Hb Hs; cbn [run_link List.length] in *.
  - exists s. by rewrite Z.add_0_r.
  - destruct (link_step_ok bound s o) as (s1 & -> & H1); [lia | done |]. destruct (IH (bound + 1) s1) as (s' & -> & H'); [lia | lia | done |].
    exists s'. split; [done |]. eapply link_ok_more; [| exact H']. lia.
Qed.

Lemma new_session_ok pin accept : link_ok 0 (new_session pin accept).
Proof. split; cbn; [lia | set_solver | intros id c; by rewrite lookup_empty]. Qed.

(** C37: however requests, cancellations, frames of the peer and shutdowns
    interleave, the read loop never blocks or panics on a channel, a request that
    wakes up with a response has the response with its own number, the response
    to a pending request reaches it, and a nil response needs a session that was
    shut down. *)
Theorem responses_reach_their_request pin accept ops :
  Z.of_nat (List.length ops) <= max_int64 ->
  exists s, run_link (new_session pin accept) ops = Some s /\
    (forall out decodes id w r e, fst (request_wake out decodes id w s) = RResponse r e -> rs_ID r = id) /\
    (forall werr herr f p r out decodes, fr_type f = frameTypeResponse -> frame_content f = Ok p -> json_Unmarshal p = Some r ->
      rs_ID r ∈ ss_pending s -> exists s' e, run_frame werr herr f s = Next s' /\ wake_ready s' (rs_ID r) WResponse = true /\
        fst (request_wake out decodes (rs_ID r) WResponse s') = RResponse r e) /\
    (forall out decodes id w, wake_ready s id w = true -> fst (request_wake out decodes id w s) ∈ [RNil; RPanic] -> ss_closed s = true).
Proof.
  intros Hb. destruct (run_link_ok 0 ops (new_session pin accept)) as (s & Hr & Hok); [lia | lia | apply new_session_ok |].
  exists s. pose proof Hok as [H1 H2 H3]. split_and!; [done | | |].
  - intros out decodes id w r e. destruct w; cbn [request_wake]; [done | | done].
    destruct (ss_chans s !! id) as [[[r' |] cl] |] eqn:E; cbn [fst]; [| by destruct out | by destruct out].
    intros [= <- _]. by apply (H3 id _ E).
  - intros werr herr f p r out decodes Ht Hc Hj Hp. destruct (response_delivered _ r s Hok Hp) as [Hs _].
    eexists _, _. split; [| split]; [unfold run_frame; rewrite Ht; cbn [Z.eqb]; cbv iota beta; rewrite Hc, Hj; by rewrite bool_decide_true by done; exact Hs | |].
    + cbn. by rewrite lookup_insert_eq.
    + cbn. by rewrite lookup_insert_eq.
  - intros out decodes id w Hw Hin. destruct w; cbn [request_wake] in Hin; [set_solver | | set_solver]. cbn [wake_ready] in Hw.
    destruct (ss_chans s !! id) as [[[r |] cl] |] eqn:E; [set_solver | | done]. cbn in Hw. rewrite orb_false_r in Hw.
    by apply (H3 id _ E).
Qed.

(** A shutdown closes the channels of the waiting requests, so that the
    [select] of a request can pick its channel and get a nil response:
    [Request] dereferences it when the caller wants the body, and otherwise
    returns nil without an error. *)
Lemma shutdown_hands_out_nil pin accept ops s id err out decodes :
  Z.of_nat (List.length ops) <= max_int64 -> run_link (new_session pin accept) ops = Some s ->
  id ∈ ss_pending s -> ss_closed s = false ->
  wake_ready (shutdown err s) id WResponse = true /\
  fst (request_wake out decodes id WResponse (shutdown err s)) = if out then RPanic else RNil.
Proof.
  intros Hb Hr Hp Hc. destruct (run_link_ok 0 ops (new_session pin accept)) as (s' & Hr' & [H1 H2 H3]); [lia | lia | apply new_session_ok |].
  rewrite Hr in Hr'. injection Hr' as <-. unfold shutdown. rewrite Hc. cbn.
  unfold close_chans. rewrite map_lookup_imap, (H2 id Hp). cbn. by rewrite bool_decide_true by done.
Qed.

End Requests.

(** ** Dialling *)

(** A session that was dialled talks to the certificate that was asked for:
    with a pin its hash is the pin, and without a pin or a certificate there is
    no session. *)
Theorem dialled_session_is_pinned {CA : Codec AuthRequest} sha256hex validPEM cfg sv s :
  Dial sha256hex validPEM cfg sv = Ok s ->
  (cc_CertSHA256 cfg <> ""%string ->
    ss_certPin s = cc_CertSHA256 cfg /\ exists c rest, sv_certs sv = c :: rest /\ sha256hex c = cc_CertSHA256 cfg) /\
  (cc_CertSHA256 cfg = ""%string -> cc_ServerCertOverride cfg <> ""%string /\ sv_chain sv (cc_ServerCertOverride cfg) = true) /\
  link_ok 0 s.
Proof.
  unfold Dial. set (check := if negb (cc_CertSHA256 cfg =s "") then _ else _). destruct check as [u |] eqn:Ec; [| done].
  cbn [result_bind]. destruct (negb (sv_handshake sv)); [done |]. destruct (json_Marshal _) as [payload |]; [| done].
  destruct (sv_writeErr sv); [done |]. destruct (readFrame (sv_answer sv)) as [[accept rest] |]; [| done]. cbn [result_bind fst].
  destruct (_ =? _); [done |]. destruct (negb (_ =? _)); [done |]. intros [= <-]. subst check.
  split_and!; [| | split; cbn; [lia | set_solver | intros id c; by rewrite lookup_empty]].
  - intros Hne. apply str_eqb_neq in Hne. rewrite Hne in Ec. cbn in Ec. split; [cbn; by rewrite Hne |]. unfold verify_pin in Ec.
    destruct (sv_certs sv) as [| c rest']; [done |]. destruct (_ =s _) eqn:Eh; [| done]. apply str_eqb_eq in Eh. eauto.
  - intros He. rewrite He in Ec. cbn [negb str_eqb String.eqb] in Ec. rewrite str_eqb_refl in Ec. cbn [negb] in Ec.
    destruct (cc_ServerCertOverride cfg =s "") eqn:Eo; cbn [negb] in Ec; [done |]. apply str_eqb_neq in Eo. split; [done |].
    destruct (negb _); [done |]. by destruct (sv_chain sv _).
Qed.

(** ** Witnesses *)

Section Witnesses.

#[local] Instance envelope_codec : Codec envelope := countable_codec.
#[local] Instance envelope_laws : CodecLaws envelope_codec := countable_codec_laws.
(** The responses of a server that answers request 1. *)
#[local] Instance response_codec : Codec ResponseFrame :=
  {| json_Marshal r := Some (rs_Body r); json_Unmarshal b := Some (mkResponse 1 200 b "") |}.
#[local] Instance request_codec : Codec RequestFrame :=
  {| json_Marshal r := Some (rq_Body r); json_Unmarshal b := None |}.
#[local] Instance header_codec : Codec DataHeader := {| json_Marshal _ := None; json_Unmarshal _ := None |}.

Definition hello : envelope := {["type"%string := list_ascii_of_string "hi"]}.

Lemma written_messages_are_delivered_witness :
  exists wire, ss_written (write_messages [hello; ∅] (new_session "" [])) = wire /\ 256 <= len wire /\
    Run 3 (fun _ => None) (fun _ => None) wire (new_session "" []) =
      Return "EOF" (shutdown "EOF" ((new_session "" [])<|ss_messages := [hello; ∅]|>)).
Proof.
  assert (Forall fits [hello; ∅]) as Hf.
  { repeat constructor; eexists; (split; [reflexivity |]); vm_compute; done. }
  destruct (written_messages_are_delivered [hello; ∅] (new_session "" []) (new_session "" []) (fun _ => None) (fun _ => None) 3 Hf eq_refl
    ltac:(cbn; lia)) as (wire & Hw & Hl & Hr). exists wire. split; [exact Hw | split; [exact Hl | exact Hr]].
Defined.

Lemma responses_reach_their_request_witness :
  exists s, run_link (new_session "" []) [LRegister; LSend None 1 "/traffic" (Some [])] = Some s /\ 1 ∈ ss_pending s.
Proof.
  destruct (responses_reach_their_request "" [] [LRegister; LSend None 1 "/traffic" (Some [])] ltac:(vm_compute; done)) as (s & Hr & _).
  exists s. split; [exact Hr |]. vm_compute in Hr. injection Hr as <-. vm_compute. done.
Defined.

Definition big_body : bytes := repeat "x"%char (Z.to_nat 1048577).
Definition big_codec : Codec envelope := {| json_Marshal _ := Some big_body; json_Unmarshal _ := None |}.

Lemma large_message_breaks_link_witness :
  exists wire, @WriteMessage big_codec None hello (new_session "" []) =
      (Ok tt, (new_session "" [])<|ss_written ::= fun w => w ++ wire|>) /\
    @Run big_codec _ _ 1 (fun _ => None) (fun _ => None) wire (new_session "" []) =
      Return ErrFrameTooLarge (shutdown ErrFrameTooLarge (new_session "" [])).
Proof.
  assert (maxFramePayload < len big_body <= MaxMessageBytes) as Hl.
  { unfold len, big_body. rewrite repeat_length, Z2Nat.id by lia. link_arith. }
  exact (large_message_breaks_link (CE := big_codec) hello big_body (new_session "" []) (new_session "" []) (fun _ => None) (fun _ => None) 0
    eq_refl Hl eq_refl).
Defined.

End Witnesses.
