(* ===== verification/ControllerLink.v ===== *)
(** * ControllerLink: pacing the calls to the Controller

    Model of internal/agent/controller_auth_backoff.go, reconnect.go and
    controller_link.go, of the reconnect loop of [Runner.Run] and of the
    callbacks [controllerJSON] (agent.go) and [controllerJSONOverTransport]
    (agentlink_transport.go) as far as they use the pause.

    Random numbers and the clock are arguments. [http.ParseTime] is a function of
    the section. Delays are int64 nanoseconds. The redacted detail of the link
    diagnostics and what is logged are left out. *)

From S2P Require Import Prelude GoTime Bytes Stealth Json Agentlink.

(** ** Text *)

(** The digits of [strconv.Atoi]. *)
Fixpoint decimal (acc : Z) (l : list ascii) : option Z :=
  match l with
  | [] => Some acc
  | c :: l => match digit c with Some d => decimal (10 * acc + d) l | None => None end
  end.

Definition Atoi (s : string) : option Z :=
  let unsigned l := match l with [] => None | _ => decimal 0 l end in
  let value :=
    match list_ascii_of_string s with
    | "-"%char :: l => Z.opp <$> unsigned l
    | "+"%char :: l => unsigned l
    | l => unsigned l
    end in
  match value with Some z => if (min_int64 <=? z) && (z <=? max_int64) then Some z else None | None => None end.

(** [rand.Int63n n]: some number below [n], given by a raw one. *)
Definition Int63n (raw n : Z) : Z := raw mod n.

(** ** The pause of the callbacks *)

Definition controllerAuthBackoffBase : Z := 30 * Second.
Definition controllerAuthBackoffCap : Z := 5 * Minute.
Definition controllerAuthLogWindow : Z := 2 * Minute.
Definition controllerThrottleDefault : Z := 30 * Second.
Definition controllerThrottleJitterMax : Z := 5 * Second.
Definition controllerThrottleMaxDefer : Z := 5 * Minute.

Record controllerAuthBackoff := mkBackoff {
  ab_until : Time;
  ab_class : string;
  ab_authStep : Z;
  ab_restricted : bool;
  ab_suppressed : Z;
  ab_lastLogAt : Time
}.

#[export] Instance eta_controllerAuthBackoff : Eta controllerAuthBackoff := fun b =>
  mkBackoff (ab_until b) (ab_class b) (ab_authStep b) (ab_restricted b) (ab_suppressed b) (ab_lastLogAt b).

Definition no_backoff : controllerAuthBackoff := mkBackoff time_zero "" 0 false 0 time_zero.

Definition remaining (now : Time) (b : controllerAuthBackoff) : Z :=
  if IsZero (ab_until b) || negb (Before now (ab_until b)) then 0 else time_Sub (ab_until b) now.

Definition controllerBackoffClass (status : Z) : string :=
  if (status =? 401) || (status =? 403) then "auth"
  else if (status =? 429) || (status =? 503) then "throttle"
  else "".

Definition isControllerAuthRejection (status : Z) : bool := negb (controllerBackoffClass status =s "").

(** The exponential delay before the jitter: the product of powers of two is
    exact in a float64 below the cap. *)
Definition auth_base (authStep : Z) : Z :=
  let exp := controllerAuthBackoffBase * 2 ^ authStep in
  if controllerAuthBackoffCap <? exp then controllerAuthBackoffCap else exp.

Definition jitter_span (base : Z) : Z := let span := base / 5 in if span <? Second then Second else span.

Section Header.
Context (ParseTime : string -> option Time).

(** [header] is the Retry-After header, if there are headers; [now] the clock
    [time.Until] reads. *)
Definition parseRetryAfter (now : Time) (header : option string) (fallback : Z) : Z :=
  match header with
  | None => fallback
  | Some value =>
      let raw := TrimSpace value in
      if raw =s "" then fallback
      else
        match Atoi raw with
        | Some seconds => if seconds <? 0 then fallback else mul64 seconds Second
        | None =>
            match ParseTime raw with
            | Some when => let delay := time_Sub when now in if 0 <? delay then delay else fallback
            | None => fallback
            end
        end
  end.

(** [rand] is the raw number behind [rand.Int63n]. *)
Definition controllerBackoffDelay (now : Time) (class : string) (header : option string) (authStep rand : Z) : Z :=
  if class =s "auth" then
    let base := auth_base authStep in
    base - jitter_span base / 2 + Int63n rand (jitter_span base + 1)
  else if class =s "throttle" then
    let delay := parseRetryAfter now header controllerThrottleDefault in
    let delay := if controllerThrottleMaxDefer <? delay then controllerThrottleMaxDefer else delay in
    let delay := if delay <? Second then Second else delay in
    delay + Int63n rand (controllerThrottleJitterMax + 1)
  else controllerThrottleDefault.

Definition armWithResponse (now : Time) (status : Z) (header : option string) (rand : Z) (b : controllerAuthBackoff) : controllerAuthBackoff :=
  let class := controllerBackoffClass status in
  if class =s "" then b
  else
    let authStep := if class =s "auth" then ab_authStep b else 0 in
    let until := now + controllerBackoffDelay now class header authStep rand in
    let first := negb (ab_restricted b) in
    let b := if class =s "auth" then b<|ab_authStep ::= Z.add 1|> else b in
    let b := if After until (ab_until b) then b<|ab_until := until|> else b in
    let b := b<|ab_class := class|><|ab_restricted := true|> in
    if first then b<|ab_lastLogAt := now|><|ab_suppressed := 0|>
    else
      let b := b<|ab_suppressed ::= Z.add 1|> in
      if controllerAuthLogWindow <=? time_Sub now (ab_lastLogAt b) then b<|ab_lastLogAt := now|><|ab_suppressed := 0|> else b.

Definition armWithStatus (now : Time) (status rand : Z) (b : controllerAuthBackoff) : controllerAuthBackoff :=
  armWithResponse now status None rand b.

Definition backoff_clear (b : controllerAuthBackoff) : controllerAuthBackoff :=
  mkBackoff time_zero "" 0 false 0 time_zero.

(** ** Callbacks *)

(** The result of a callback: paused, failed before an answer, answered with a
    status, or a nil dereference. *)
Inductive callback := CPaused | CFailed (e : string) | CStatus (code : Z) | CPanic.

(** An HTTP exchange: an error, or a status with its Retry-After header. *)
Inductive http_exchange := XError (e : string) | XAnswer (code : Z) (header : option string).

(** [controllerJSON] over HTTP, with authentication. *)
Definition controllerJSON (now : Time) (x : http_exchange) (rand : Z) (b : controllerAuthBackoff) : callback * controllerAuthBackoff :=
  if 0 <? remaining now b then (CPaused, b)
  else
    match x with
    | XError e => (CFailed e, b)
    | XAnswer code header =>
        (CStatus code,
         if isControllerAuthRejection code then armWithResponse now code header rand b
         else if code <? 300 then backoff_clear b else b)
    end.

(** The same over the binary transport, given what [Session.Request] returned. *)
Definition controllerJSONOverTransport (now : Time) (r : reply) (rand : Z) (b : controllerAuthBackoff) : callback * controllerAuthBackoff :=
  if 0 <? remaining now b then (CPaused, b)
  else
    match r with
    | RErr e => (CFailed e, b)
    | RNil | RPanic => (CPanic, b)
    | RResponse _ (Some e) => (CFailed e, b)
    | RResponse resp None =>
        let code := rs_Status resp in
        (CStatus code,
         if (code =? 401) || (code =? 403) then armWithStatus now code rand b
         else if code <? 300 then backoff_clear b else b)
    end.

(** ** Reconnecting *)

Definition reconnectAuthMin : Z := 2 * Minute.
Definition reconnectAuthMax : Z := 5 * Minute.

(** [sum] are the first two bytes of the digest of agent and Controller. *)
Definition reconnectSpreadDelay (sum : bytes) : Z := (be_val (take 2 sum) mod 5000) * Millisecond.

(** The largest delay after [failures] failures. *)
Definition failure_max (failures : Z) : Z :=
  let failures := if failures <? 0 then 0 else failures in
  if 6 <=? failures then 60 * Second
  else if 0 <? failures then
    let max := Z.shiftl Second failures in if 60 * Second <? max then 60 * Second else max
  else Second.

Definition reconnectFailureDelay (failures rand : Z) : Z := Int63n rand (failure_max failures + 1).

Definition reconnectDelay (sum : bytes) (failures : Z) (firstAfterDrop authFailure : bool) (rand : Z) : Z :=
  if authFailure then reconnectAuthMin + Int63n rand (reconnectAuthMax - reconnectAuthMin + 1)
  else if firstAfterDrop then reconnectSpreadDelay sum
  else reconnectFailureDelay failures rand.

(** The errors of the link with their text. *)
Inductive link_error :=
| EHandshake (code : Z) (status : string)
| ECloseFrame (code : Z) (text : string)
| EBadHandshake
| ENet (text : string)
| EText (text : string).

Definition error_text (e : link_error) : string :=
  match e with
  | EHandshake _ status =>
      if TrimSpace status =s "" then "controller rejected websocket handshake"
      else ("controller rejected websocket handshake: " +:+ status)%string
  | EBadHandshake => "websocket: bad handshake"
  | ECloseFrame _ t | ENet t | EText t => t
  end.

Definition websocketDialStatus (e : link_error) : Z :=
  let msg := error_text e in
  if str_Contains msg "401" then 401 else if str_Contains msg "403" then 403 else 0.

Definition isAuthReconnectError (e : option link_error) : bool :=
  match e with
  | None => false
  | Some e =>
      let status := websocketDialStatus e in
      if (status =? 401) || (status =? 403) then true
      else existsb (str_Contains (ToLower (error_text e))) ["401"; "403"; "unauthorized"; "forbidden"; "identity"]%string
  end.

(** Class, status and close code. *)
Definition classifyControllerLinkError (e : option link_error) : string * Z * Z :=
  match e with
  | None => ("local_shutdown"%string, 0, 0)
  | Some (EHandshake code _) => ("handshake_rejected"%string, code, 0)
  | Some (ECloseFrame code _) => (if (code =? 1006) || (code =? 1005) then "abnormal_closure"%string else "closed"%string, 0, code)
  | Some EBadHandshake => ("handshake_rejected"%string, 0, 0)
  | Some (ENet _) => ("dial_failed"%string, 0, 0)
  | Some (EText _) => ("read_write_failed"%string, 0, 0)
  end.

Record controllerLinkDiagnostics := mkLink {
  ld_ConnectedAt : Time;
  ld_LastConnectedAt : Time;
  ld_LastDisconnectAt : Time;
  ld_DisconnectClass : string;
  ld_HandshakeHTTPStatus : Z;
  ld_WebSocketCloseCode : Z;
  ld_ReconnectCount : Z;
  ld_ConsecutiveFailures : Z;
  ld_LastConnectedDurationMS : Z;
  ld_UpdatedAt : Time
}.

#[export] Instance eta_controllerLinkDiagnostics : Eta controllerLinkDiagnostics := fun d =>
  mkLink (ld_ConnectedAt d) (ld_LastConnectedAt d) (ld_LastDisconnectAt d) (ld_DisconnectClass d) (ld_HandshakeHTTPStatus d)
    (ld_WebSocketCloseCode d) (ld_ReconnectCount d) (ld_ConsecutiveFailures d) (ld_LastConnectedDurationMS d) (ld_UpdatedAt d).

Definition recordControllerLinkConnected (at_ : Time) (d : controllerLinkDiagnostics) : controllerLinkDiagnostics :=
  d<|ld_ConnectedAt := at_|><|ld_LastConnectedAt := at_|><|ld_ReconnectCount ::= Z.add 1|><|ld_ConsecutiveFailures := 0|><|ld_UpdatedAt := at_|>.

Definition recordControllerLinkClosed (at_ : Time) (lived : Z) (e : option link_error) (d : controllerLinkDiagnostics) : controllerLinkDiagnostics :=
  let '(class, status, code) := classifyControllerLinkError e in
  let d := d<|ld_LastDisconnectAt := at_|><|ld_DisconnectClass := class|><|ld_HandshakeHTTPStatus := status|><|ld_WebSocketCloseCode := code|> in
  let d := if IsZero (ld_ConnectedAt d) then d
           else d<|ld_LastConnectedDurationMS := Z.quot lived Millisecond|><|ld_ConnectedAt := time_zero|> in
  let d := match e with Some _ => d<|ld_ConsecutiveFailures ::= Z.add 1|> | None => d end in
  d<|ld_UpdatedAt := at_|>.

(** The reconnect loop: the counters of [Run] with what it shares. *)
Record reconnect := mkReconnect {
  rc_failures : Z;
  rc_firstAfterDrop : bool;
  rc_auth : controllerAuthBackoff;
  rc_link : controllerLinkDiagnostics
}.

(** One turn after [connect] returned: the delay before the next attempt.
    [rand1] and [rand2] are the raw random numbers of the pause and the delay. *)
Definition reconnect_turn (now : Time) (lived : Z) (e : option link_error) (sum : bytes) (rand1 rand2 : Z) (r : reconnect) : Z * reconnect :=
  let authFailure := isAuthReconnectError e in
  let '(_, status, _) := classifyControllerLinkError e in
  let auth := if authFailure then armWithStatus now status rand1 (rc_auth r)
              else if 60 * Second <=? lived then backoff_clear (rc_auth r) else rc_auth r in
  let link := recordControllerLinkClosed now lived e (rc_link r) in
  let '(failures, firstAfterDrop) :=
    if 60 * Second <=? lived then (0, true)
    else if negb authFailure then (rc_failures r + 1, rc_firstAfterDrop r) else (rc_failures r, rc_firstAfterDrop r) in
  (reconnectDelay sum (Z.max 0 (failures - 1)) firstAfterDrop authFailure rand2, mkReconnect failures false auth link).


(** ** Delays are bounded *)

Lemma Int63n_range raw n : 0 < n -> 0 <= Int63n raw n < n.
Proof. intros H. apply Z.mod_pos_bound. exact H. Qed.

Lemma auth_base_range k : 0 <= k -> controllerAuthBackoffBase <= auth_base k <= controllerAuthBackoffCap /\
  (k <= 3 -> auth_base k = controllerAuthBackoffBase * 2 ^ k).
Proof.
  intros Hk. unfold auth_base. pose proof (Z.pow_pos_nonneg 2 k ltac:(lia) Hk). cbv zeta.
  unfold controllerAuthBackoffBase, controllerAuthBackoffCap, Minute, Second.
  destruct (Z.ltb_spec (5 * (60 * 1000000000)) (30 * 1000000000 * 2 ^ k)) as [Hlt | Hge]; [| lia].
  split; [lia |]. intros H3. pose proof (Z.pow_le_mono_r 2 k 3 ltac:(lia) H3). lia.
Qed.

(** The pause after a rejection: within ten percent of the exponential delay. *)
Lemma auth_delay_range now header k rand : 0 <= k ->
  let d := controllerBackoffDelay now "auth" header k rand in
  9 * auth_base k <= 10 * d /\ 10 * d <= 11 * auth_base k + 10 /\ 27 * Second <= d <= 330 * Second.
Proof.
  intros Hk. unfold controllerBackoffDelay. rewrite str_eqb_refl. cbv zeta. destruct (auth_base_range k Hk) as [Hb _].
  set (b := auth_base k) in *. unfold jitter_span. cbv zeta. unfold controllerAuthBackoffBase, controllerAuthBackoffCap, Minute, Second in *.
  rewrite (proj2 (Z.ltb_ge _ _)) by (apply Z.div_le_lower_bound; lia).
  pose proof (Int63n_range rand (b / 5 + 1)) as Hr. pose proof (Z.div_pos b 5 ltac:(lia) ltac:(lia)).
  pose proof (Z.mul_div_le b 5 ltac:(lia)). pose proof (Z.mod_pos_bound b 5 ltac:(lia)). pose proof (Z.div_mod b 5 ltac:(lia)).
  pose proof (Z.div_mod (b / 5) 2 ltac:(lia)). pose proof (Z.mod_pos_bound (b / 5) 2 ltac:(lia)). lia.
Qed.

Lemma throttle_delay_range now header k rand :
  Second <= controllerBackoffDelay now "throttle" header k rand <= controllerThrottleMaxDefer + controllerThrottleJitterMax.
Proof.
  unfold controllerBackoffDelay. change ("throttle" =s "auth") with false. rewrite str_eqb_refl. cbv zeta iota.
  set (d := parseRetryAfter _ _ _). unfold controllerThrottleMaxDefer, controllerThrottleJitterMax, Minute, Second.
  pose proof (Int63n_range rand (5 * 1000000000 + 1) ltac:(lia)).
  destruct (Z.ltb_spec (5 * (60 * 1000000000)) d); [destruct (Z.ltb_spec (5 * (60 * 1000000000)) 1000000000) | destruct (Z.ltb_spec d 1000000000)]; lia.
Qed.

(** ** Pauses *)

(** What happens to the pause, with the time it happens at. *)
Inductive pause_op :=
| PArm (status : Z) (header : option string) (rand : Z)
| PClear.

Definition pause_step (b : controllerAuthBackoff) (o : Time * pause_op) : controllerAuthBackoff :=
  match snd o with
  | PArm status header rand => armWithResponse (fst o) status header rand b
  | PClear => backoff_clear b
  end.

(** The longest pause. *)
Definition max_pause : Z := 330 * Second.

Definition pause_ok (T : Time) (b : controllerAuthBackoff) : Prop := ab_until b <= T + max_pause /\ 0 <= ab_authStep b.

Lemma armWithResponse_until now status header rand b : 0 <= ab_authStep b ->
  let b' := armWithResponse now status header rand b in
  let class := controllerBackoffClass status in
  if class =s "" then b' = b
  else ab_until b' = Z.max (ab_until b) (now + controllerBackoffDelay now class header (if class =s "auth" then ab_authStep b else 0) rand) /\
       ab_authStep b' = (if class =s "auth" then 1 + ab_authStep b else ab_authStep b) /\ ab_class b' = class.
Proof.
  intros H0. cbv zeta. unfold armWithResponse. destruct (controllerBackoffClass status =s "") eqn:Ec; [done |]. cbv zeta.
  set (class := controllerBackoffClass status) in *. set (u := now + _).
  set (b1 := if class =s "auth" then b<|ab_authStep ::= Z.add 1|> else b).
  assert (ab_until b1 = ab_until b /\ ab_restricted b1 = ab_restricted b /\
    ab_authStep b1 = if class =s "auth" then 1 + ab_authStep b else ab_authStep b) as (H1 & H2 & H3) by (unfold b1; by destruct (class =s "auth")).
  clearbody b1. set (b2 := if After u (ab_until b1) then b1<|ab_until := u|> else b1).
  assert (ab_until b2 = Z.max (ab_until b) u /\ ab_authStep b2 = ab_authStep b1) as [H4 H5].
  { unfold b2, After. rewrite H1. destruct (Z.ltb_spec (ab_until b) u); cbn; [split; [lia | done] | rewrite H1; split; [lia | done]]. }
  clearbody b2 u. rewrite <- H4, <- H3, <- H5. destruct (negb _); [done |]. by destruct (controllerAuthLogWindow <=? _).
Qed.

Lemma backoff_class_cases status : controllerBackoffClass status =s "" = false ->
  controllerBackoffClass status = "auth"%string \/ controllerBackoffClass status = "throttle"%string.
Proof. unfold controllerBackoffClass. destruct (_ || _); [auto |]. destruct (_ || _); [auto |]. by rewrite str_eqb_refl. Qed.

Lemma backoff_delay_max now class header k rand : 0 <= k -> class = "auth"%string \/ class = "throttle"%string ->
  0 <= controllerBackoffDelay now class header k rand <= max_pause.
Proof.
  intros Hk [-> | ->].
  - destruct (auth_delay_range now header k rand Hk) as (_ & _ & H). unfold max_pause, Second in *. lia.
  - pose proof (throttle_delay_range now header k rand) as H. unfold controllerThrottleMaxDefer, controllerThrottleJitterMax, max_pause, Minute, Second in *. lia.
Qed.

Lemma pause_step_ok T now b o : 0 <= T <= now -> pause_ok T b -> pause_ok now (pause_step b (now, o)).
Proof.
  intros Ht [Hu Hs]. destruct o as [status header rand |]; cbn [pause_step fst snd].
  2:{ split; cbn; [unfold max_pause, time_zero, Second; lia | lia]. }
  pose proof (armWithResponse_until now status header rand b Hs) as H. cbv zeta in H.
  destruct (controllerBackoffClass status =s "") eqn:Ec; [rewrite H; split; lia |].
  destruct H as (H1 & H2 & _). pose proof (backoff_class_cases status Ec) as Hc. unfold pause_ok. rewrite H1, H2.
  assert (0 <= if controllerBackoffClass status =s "auth" then ab_authStep b else 0) as Hk by (destruct (controllerBackoffClass status =s "auth"); lia).
  pose proof (backoff_delay_max now (controllerBackoffClass status) header _ rand Hk Hc) as Hd.
  split; [lia | destruct (controllerBackoffClass status =s "auth"); lia].
Qed.

(** Times that do not run backwards. *)
Fixpoint in_order (T : Time) (ops : list (Time * pause_op)) : Prop :=
  match ops with [] => True | (now, _) :: ops => T <= now /\ in_order now ops end.

Definition last_time (T : Time) (ops : list (Time * pause_op)) : Time := List.last (map fst ops) T.

Lemma last_time_cons T now o ops : last_time T ((now, o) :: ops) = last_time now ops.
Proof.
  unfold last_time. cbn [map fst]. generalize now T. clear. induction (map fst ops) as [| x l IH]; intros now T; [done |].
  cbn [List.last]. destruct l as [| y l]; [done |]. apply (IH now T).
Qed.

Lemma pauses_ok T ops b : 0 <= T -> in_order T ops -> pause_ok T b ->
  pause_ok (last_time T ops) (fold_left pause_step ops b) /\ T <= last_time T ops.
Proof.
  revert T b. induction ops as [| [now o] ops IH]; intros T b H0 Ho Hb; [by split |]. destruct Ho as [Hle Ho].
  rewrite last_time_cons. cbn [fold_left]. destruct (IH now (pause_step b (now, o))) as [H1 H2]; [lia | done | by apply (pause_step_ok T) |].
  split; [done | lia].
Qed.

(** A rejected identity goes quiet, and not for too long: whatever happened
    before, a 401 or 403 that follows k others pauses the callbacks for at least
    nine tenths of min(30 s * 2^k, 5 min); in the next 27 seconds no callback is
    sent; no sequence of answers ever pauses them for more than 330 seconds; and
    an accepted callback ends the pause. *)
Theorem rejection_pauses_callbacks ops now status header rand :
  in_order 0 ops -> last_time 0 ops <= now -> status = 401 \/ status = 403 ->
  let b := fold_left pause_step ops no_backoff in
  let b' := armWithResponse now status header rand b in
  9 * auth_base (ab_authStep b) <= 10 * remaining now b' /\ remaining now b' <= max_pause /\
  (forall later x r, now <= later < now + 27 * Second -> controllerJSON later x r b' = (CPaused, b')) /\
  (forall later, remaining later (backoff_clear b') = 0).
Proof.
  intros Ho Hl Hs. cbv zeta. set (b := fold_left pause_step ops no_backoff). set (b' := armWithResponse now status header rand b).
  destruct (pauses_ok 0 ops no_backoff) as [Hb HT]; [lia | done | split; cbn; unfold time_zero, max_pause, Second; lia |]. fold b in Hb.
  assert (controllerBackoffClass status = "auth"%string) as Hc by (by destruct Hs as [-> | ->]).
  pose proof (armWithResponse_until now status header rand b (proj2 Hb)) as Hu. cbv zeta in Hu. rewrite Hc in Hu. rewrite str_eqb_refl in Hu.
  change ("auth" =s "") with false in Hu. cbv iota in Hu. destruct Hu as (Hu & _ & _). fold b' in Hu.
  destruct (auth_delay_range now header (ab_authStep b) rand (proj2 Hb)) as (Hd1 & Hd2 & Hd3). set (d := controllerBackoffDelay _ _ _ _ _) in *.
  assert (now + 27 * Second <= ab_until b' <= now + max_pause) as Hr.
  { rewrite Hu. destruct Hb as [Hb _]. unfold max_pause, Second in *. lia. }
  assert (forall later, now <= later < now + 27 * Second -> remaining later b' = ab_until b' - later) as Hrem.
  { intros later Hlater. unfold remaining, IsZero, Before. rewrite (proj2 (Z.eqb_neq _ _)) by (unfold time_zero, max_pause, Second in *; lia).
    rewrite (proj2 (Z.ltb_lt _ _)) by lia. cbn [orb negb]. unfold time_Sub. apply clamp_id. unfold min_int64, max_int64, max_pause, Second in *. lia. }
  split_and!.
  - rewrite Hrem by (unfold Second; lia). rewrite Hu. lia.
  - rewrite Hrem by (unfold Second; lia). lia.
  - intros later x r Hlater. unfold controllerJSON. rewrite Hrem, (proj2 (Z.ltb_lt _ _)) by lia. done.
  - done.
Qed.

(** ** Reconnecting *)

Lemma failure_max_range n : Second <= failure_max n <= 60 * Second.
Proof.
  unfold failure_max. cbv zeta. set (k := if n <? 0 then 0 else n). assert (0 <= k) as Hk by (unfold k; destruct (Z.ltb_spec n 0); lia).
  destruct (Z.leb_spec 6 k); [unfold Second; lia |]. destruct (Z.ltb_spec 0 k); [| unfold Second; lia].
  enum k 6%nat as Hc. destruct Hc as [Hc | [Hc | [Hc | [Hc | [Hc | [Hc | []]]]]]]; rewrite <- Hc; vm_compute; split; discriminate.
Qed.

Lemma reconnect_turn_bounds now lived e sum rand1 rand2 r :
  let d := fst (reconnect_turn now lived e sum rand1 rand2 r) in
  0 <= d <= 5 * Minute /\ (isAuthReconnectError e = true -> 2 * Minute <= d) /\ (isAuthReconnectError e = false -> d <= 60 * Second).
Proof.
  cbv zeta. unfold reconnect_turn. destruct (classifyControllerLinkError e) as [[class status] code].
  match goal with |- context [if 60 * Second <=? lived then (0, true) else ?x] => destruct (if 60 * Second <=? lived then (0, true) else x) as [failures first] end.
  cbn [fst]. unfold reconnectDelay. destruct (isAuthReconnectError e).
  - pose proof (Int63n_range rand2 (reconnectAuthMax - reconnectAuthMin + 1)) as H. unfold reconnectAuthMax, reconnectAuthMin, Minute, Second in *.
    split_and!; (discriminate || lia).
  - destruct first.
    + unfold reconnectSpreadDelay. pose proof (Z.mod_pos_bound (be_val (take 2 sum)) 5000 ltac:(lia)). unfold Millisecond, Minute, Second.
      split_and!; (discriminate || lia).
    + unfold reconnectFailureDelay. pose proof (failure_max_range (Z.max 0 (failures - 1))) as Hm.
      pose proof (Int63n_range rand2 (failure_max (Z.max 0 (failures - 1)) + 1)) as H. unfold Minute, Second in *. split_and!; (discriminate || lia).
Qed.

(** The agent always comes back: whatever ended the link and however often,
    the next attempt follows within five minutes, within sixty seconds unless the
    identity was refused, and a refused identity waits at least two minutes. *)
Theorem reconnect_delay_is_bounded now lived e sum rand1 rand2 r :
  let d := fst (reconnect_turn now lived e sum rand1 rand2 r) in
  0 <= d <= 5 * Minute /\ (isAuthReconnectError e = true -> 2 * Minute <= d) /\ (isAuthReconnectError e = false -> d <= 60 * Second).
Proof. apply reconnect_turn_bounds. Qed.

(** ** Where the code departs from its intent *)

(** A Retry-After whose nanoseconds do not fit 64 bits wraps around: asked to
    wait for 292 years the agent waits for one second and the jitter. *)
Theorem huge_retry_after_is_ignored now k rand :
  controllerBackoffDelay now "throttle" (Some "9223372037"%string) k rand <= 6 * Second.
Proof.
  unfold controllerBackoffDelay. change ("throttle" =s "auth") with false. rewrite str_eqb_refl. cbv iota.
  assert (parseRetryAfter now (Some "9223372037"%string) controllerThrottleDefault = -9223372036709551616) as -> by (vm_compute; reflexivity).
  cbv zeta. pose proof (Int63n_range rand (controllerThrottleJitterMax + 1)) as H. unfold controllerThrottleMaxDefer, controllerThrottleJitterMax, Minute, Second in *.
  change (5 * (60 * 1000000000) <? -9223372036709551616) with false. cbv iota. change (-9223372036709551616 <? 1000000000) with true. cbv iota. lia.
Qed.

(** An error is taken for a refused identity when its text has the digits
    401 or 403 anywhere: a Controller that is down on port 4013 is retried after
    two minutes at the earliest, where a network failure means a second. *)
Theorem refused_port_looks_like_rejection now lived sum rand1 rand2 r :
  2 * Minute <= fst (reconnect_turn now lived (Some (ENet "dial tcp 203.0.113.7:4013: connect: connection refused")) sum rand1 rand2 r).
Proof.
  exact (proj1 (proj2 (reconnect_turn_bounds now lived (Some (ENet "dial tcp 203.0.113.7:4013: connect: connection refused")) sum rand1 rand2 r)) eq_refl).
Qed.

End Header.

(** In stealth mode the end of a link can crash the agent: a callback that
    waits for its response when the session is shut down may be handed a nil
    response without an error, which it dereferences. *)
Theorem closed_link_can_crash_callback {CE : Codec (gmap string bytes)} {CQ : Codec RequestFrame} {CR : Codec ResponseFrame} {CD : Codec DataHeader}
  ParseTime pin accept ops s id err decodes now rand :
  Z.of_nat (List.length ops) <= max_int64 -> run_link (new_session pin accept) ops = Some s -> id ∈ ss_pending s -> ss_closed s = false ->
  let s' := shutdown err s in
  wake_ready s' id WResponse = true /\
  controllerJSONOverTransport ParseTime now (fst (request_wake false decodes id WResponse s')) rand no_backoff = (CPanic, no_backoff).
Proof.
  intros Hl Hr Hp Hc. cbv zeta. destruct (shutdown_hands_out_nil pin accept ops s id err false decodes Hl Hr Hp Hc) as [Hw He].
  split; [exact Hw |]. rewrite He. unfold controllerJSONOverTransport. by rewrite (proj2 (Z.ltb_ge 0 _)) by (vm_compute; discriminate).
Qed.

(** ** Witnesses *)

Lemma rejection_pauses_callbacks_witness :
  let b := fold_left (pause_step (fun _ => None)) [(10 * Second, PArm 401 None 0)] no_backoff in
  remaining (60 * Second) (armWithResponse (fun _ => None) (60 * Second) 403 None 5 b) <= max_pause /\ auth_base (ab_authStep b) = 60 * Second.
Proof.
  split; [| vm_compute; reflexivity].
  exact (proj1 (proj2 (rejection_pauses_callbacks (fun _ => None) [(10 * Second, PArm 401 None 0)] (60 * Second) 403 None 5
    ltac:(vm_compute; repeat split; discriminate) ltac:(vm_compute; discriminate) (or_intror eq_refl)))).
Defined.

Section Witnesses.

#[local] Instance no_codec A : Codec A := {| json_Marshal _ := Some []; json_Unmarshal _ := None |}.

Lemma closed_link_can_crash_callback_witness :
  exists s, run_link (new_session "" []) [LRegister; LSend None 1 "/traffic" (Some [])] = Some s /\
    controllerJSONOverTransport (fun _ => None) 0 (fst (request_wake false (fun _ => true) 1 WResponse (shutdown "reset" s))) 0 no_backoff =
      (CPanic, no_backoff).
Proof.
  destruct (run_link (new_session "" []) [LRegister; LSend None 1 "/traffic" (Some [])]) as [s |] eqn:E; [| by vm_compute in E].
  exists s. split; [reflexivity |]. assert (1 ∈ ss_pending s) as Hp by (vm_compute in E; injection E as <-; vm_compute; done).
  assert (ss_closed s = false) as Hc by (vm_compute in E; injection E as <-; done).
  exact (proj2 (closed_link_can_crash_callback (fun _ => None) "" [] [LRegister; LSend None 1 "/traffic" (Some [])] s 1 "reset" (fun _ => true) 0 0
    ltac:(vm_compute; discriminate) E Hp Hc)).
Defined.

End Witnesses.
