(* ===== verification/OperationalConfig.v ===== *)
(** * OperationalConfig: the identity of a kernel configuration

    Model of the normalisation behind the operational digest:
    [normalizeOperationalCoreConfig] of internal/agent/core_runtime.go,
    [NormalizeOperationalConfig] of
    kernel/oboard-sb/internal/minibox/operational_digest.go, which is the same
    code, and [RetainInstalledKeys] of internal/authorization/identity.go.

    A decoded configuration is a tree of JSON values, its objects finite maps;
    the code edits the tree in place, the model returns the edited tree. Text
    is decoded and encoded by [encoding/json], whose two functions are
    arguments. *)

From S2P Require Import Prelude Stealth.

(** ** JSON values *)

(** Numbers keep their text ([UseNumber]). *)
Inductive json :=
| JNull
| JBool (b : bool)
| JNum (n : string)
| JStr (s : string)
| JArr (l : list json)
| JObj (m : gmap string json).

Abbreviation obj := (gmap string json) (only parsing).

(** Type assertions of Go: [v.(map[string]any)] and the like. *)
Definition as_obj (j : option json) : option obj := match j with Some (JObj m) => Some m | _ => None end.
Definition as_arr (j : option json) : option (list json) := match j with Some (JArr l) => Some l | _ => None end.
(** [s, _ := v.(string)]. *)
Definition as_str (j : option json) : string := match j with Some (JStr s) => s | _ => ""%string end.

(** The obj_members of an object, none for another value: reading a nil map. *)
Definition obj_members (j : option json) : obj := default ∅ (as_obj j).

(** ** Runtime users *)

Definition runtimeOnlyCoreMetadataKeys : list string := ["connection_audit"; "authorization"]%string.

(** The inbounds whose users are pushed at run time. *)
Definition runtime_tags (metadata : obj) : gset string :=
  match as_obj (metadata !! "runtime_users"%string) with
  | None => ∅
  | Some declared =>
      list_to_set (filter (fun tag => tag <> ""%string)
        (map (fun raw => as_str (Some raw)) (default [] (as_arr (declared !! "inbounds"%string)))))
  end.

Definition tag_of (m : obj) : string := as_str (m !! "tag"%string).

Definition strip_inbound (tags : gset string) (raw : json) : json :=
  match raw with
  | JObj m => if bool_decide (tag_of m ∈ tags) then JObj (delete "users"%string m) else raw
  | _ => raw
  end.

(** The named users of an inbound. *)
Definition user_names (m : obj) : list string :=
  filter (fun name => name <> ""%string)
    (map (fun raw => as_str (obj_members (Some raw) !! "name"%string)) (default [] (as_arr (m !! "users"%string)))).

Definition inbound_names (tags : gset string) (raw : json) : list string :=
  match raw with
  | JObj m => if bool_decide (tag_of m ∈ tags) then user_names m else []
  | _ => []
  end.

Definition strip_outbound (tags : gset string) (raw : json) : json :=
  match raw with
  | JObj m =>
      if negb (as_str (m !! "type"%string) =s "user-selector") then raw
      else if existsb (fun t => tag_of m =s ("userselector-" +:+ t)) (elements tags) then JObj (delete "users"%string m)
      else raw
  | _ => raw
  end.

(** The elements of an array member are edited in place. *)
Definition edit_array (key : string) (f : json -> json) (m : obj) : obj :=
  match as_arr (m !! key) with Some l => <[key := JArr (map f l)]> m | None => m end.

(** The limits without the users in [names]; without names all users go. *)
Definition strip_limits (names : gset string) (limits : obj) : obj :=
  match as_obj (limits !! "users"%string) with
  | None => limits
  | Some users =>
      if bool_decide (names = ∅) then delete "users"%string limits
      else
        let users := filter (fun p => p.1 ∉ names) users in
        if (size users =? 0)%nat then delete "users"%string limits else <["users"%string := JObj users]> limits
  end.

Definition runtime_names (tags : gset string) (root : obj) : gset string :=
  list_to_set (concat (map (inbound_names tags) (default [] (as_arr (root !! "inbounds"%string))))).

Definition stripRuntimeUserFields (root metadata : obj) : obj * obj :=
  let tags := runtime_tags metadata in
  if bool_decide (tags = ∅) then (root, metadata)
  else
    let names := runtime_names tags root in
    let root := edit_array "inbounds" (strip_inbound tags) root in
    let metadata :=
      match as_obj (metadata !! "rate_limits"%string) with
      | Some limits => <["rate_limits"%string := JObj (strip_limits names limits)]> metadata
      | None => metadata
      end in
    (edit_array "outbounds" (strip_outbound tags) root, metadata).

(** ** Installed credentials *)

Definition retained_fields : list string :=
  ["user_id"; "inbound_id"; "path_id"; "device_id_hash"; "credential_epoch"; "credential_status"]%string.

Definition installedIdentity (entry : obj) (key : string) : obj :=
  fold_left (fun out field => match entry !! field with Some v => <[field := v]> out | None => out end)
    retained_fields {["authorization_key"%string := JStr key]}.

(** What is kept of one entry: nothing without a key. *)
Definition installed_entry (raw : json) : option json :=
  let entry := obj_members (Some raw) in
  let key := as_str (entry !! "authorization_key"%string) in
  if key =s "" then None else Some (JObj (installedIdentity entry key)).

Definition installed_group (limits : obj) (group : string) : obj :=
  omap installed_entry (obj_members (limits !! group)).

Definition RetainInstalledKeys (metadata : obj) : obj :=
  let limits := obj_members (metadata !! "rate_limits"%string) in
  let installed :=
    fold_left (fun out group => let keys := installed_group limits group in
                 if (0 <? size keys)%nat then <[group := JObj keys]> out else out)
      ["users"; "inbounds"]%string ∅ in
  let metadata := delete "rate_limits"%string metadata in
  if (0 <? size installed)%nat then <["rate_limits"%string := JObj installed]> metadata else metadata.

(** ** Normal forms *)

Definition normalize (object : obj) : obj :=
  match as_obj (object !! "_oboard"%string) with
  | None => object
  | Some metadata =>
      let '(object, metadata) := stripRuntimeUserFields object metadata in
      let metadata := RetainInstalledKeys metadata in
      let metadata := fold_left (fun m key => delete key m) runtimeOnlyCoreMetadataKeys metadata in
      if (size metadata =? 0)%nat then delete "_oboard"%string object else <["_oboard"%string := JObj metadata]> object
  end.

Section Digest.
(** [encoding/json]: one value and the bytes after it; the text of a value. *)
Context (Decode : bytes -> option (json * bytes)) (Marshal : json -> bytes).
Context (sha256hex : bytes -> string).
(** [decoder.Token] finds the end of the input. *)
Context (at_end : bytes -> bool).

Definition normalizeOperationalCoreConfig (raw : bytes) : result string bytes :=
  if TrimSpace (string_of_list_ascii raw) =s "" then Err "core configuration is empty"%string
  else
    match Decode raw with
    | None => Err "json"%string
    | Some (root, rest) =>
        if negb (at_end rest) then Err "core configuration has trailing content"%string
        else
          match root with
          | JObj object => Ok (Marshal (JObj (normalize object)))
          | _ => Err "core configuration root must be a JSON object"%string
          end
    end.

Definition operationalCoreConfigDigest (raw : bytes) : result string string :=
  let? normalized := normalizeOperationalCoreConfig raw in Ok (sha256hex normalized).

(** Two configurations that differ in runtime-only metadata only. *)
Definition coreRuntimeMetadataOnlyChange (previous next : bytes) : result string bool :=
  match previous, next with
  | [], _ | _, [] => Ok false
  | _, _ =>
      let? p := normalizeOperationalCoreConfig previous in
      let? n := normalizeOperationalCoreConfig next in
      if negb (bool_decide (p = n)) then Ok false
      else Ok (negb (TrimSpace (string_of_list_ascii previous) =s TrimSpace (string_of_list_ascii next)))
  end.

End Digest.

(** ** What a normal form retains *)

Lemma members_obj (m : obj) : obj_members (Some (JObj m)) = m.
Proof. done. Qed.

Lemma as_obj_Some j m : as_obj j = Some m -> j = Some (JObj m).
Proof. destruct j as [[] |]; cbn; congruence. Qed.

Lemma size_pos_ne (m : obj) : (0 <? size m)%nat = bool_decide (m <> ∅).
Proof.
  case_bool_decide as H.
  - apply Nat.ltb_lt. destruct (decide (size m = 0%nat)) as [E | E]; [| lia]. by apply map_size_empty_iff in E.
  - apply Nat.ltb_ge. assert (m = ∅) as -> by (by destruct (decide (m = ∅))). by rewrite map_size_empty.
Qed.

Definition metadata_of (c : obj) : obj := obj_members (c !! "_oboard"%string).
Definition limits_of (c : obj) : obj := obj_members (metadata_of c !! "rate_limits"%string).

(** The credentials a configuration binds, by group and name. *)
Definition bindings (c : obj) (group : string) : obj := installed_group (limits_of c) group.

Definition groups : list string := ["users"; "inbounds"]%string.

Lemma retained_group metadata group : group ∈ groups ->
  obj_members (obj_members (RetainInstalledKeys metadata !! "rate_limits"%string) !! group) =
  installed_group (obj_members (metadata !! "rate_limits"%string)) group.
Proof.
  intros Hg. unfold RetainInstalledKeys. cbn [fold_left]. cbv zeta. set (limits := obj_members (metadata !! _)).
  set (U := installed_group limits "users"). set (I := installed_group limits "inbounds"). rewrite !size_pos_ne.
  assert (group = "users" \/ group = "inbounds")%string as Hcase by set_solver.
  assert (installed_group limits group = if group =s "users" then U else I) as -> by (destruct Hcase as [-> | ->]; done).
  destruct (decide (U = ∅)) as [-> | HU], (decide (I = ∅)) as [-> | HI].
  - rewrite (bool_decide_false (∅ <> ∅)), bool_decide_false by auto. rewrite lookup_delete_eq. cbn. rewrite lookup_empty. by destruct (_ =s _).
  - rewrite (bool_decide_false (∅ <> ∅)), (bool_decide_true (I <> ∅)) by auto. rewrite bool_decide_true by (intros H; by apply insert_non_empty in H).
    rewrite lookup_insert_eq, members_obj. destruct Hcase as [-> | ->]; [by rewrite lookup_insert_ne | by rewrite lookup_insert_eq].
  - rewrite (bool_decide_true (U <> ∅)), (bool_decide_false (∅ <> ∅)) by auto. rewrite bool_decide_true by (intros H; by apply insert_non_empty in H).
    rewrite lookup_insert_eq, members_obj. destruct Hcase as [-> | ->]; [by rewrite lookup_insert_eq | by rewrite lookup_insert_ne].
  - rewrite (bool_decide_true (U <> ∅)), (bool_decide_true (I <> ∅)) by auto. rewrite bool_decide_true by (intros H; by apply insert_non_empty in H).
    rewrite lookup_insert_eq, members_obj.
    destruct Hcase as [-> | ->]; [by rewrite lookup_insert_ne, lookup_insert_eq by done | by rewrite lookup_insert_eq].
Qed.

Lemma retained_other metadata key : key <> "rate_limits"%string -> RetainInstalledKeys metadata !! key = metadata !! key.
Proof.
  intros Hk. unfold RetainInstalledKeys. cbv zeta. destruct (0 <? _)%nat; rewrite ?lookup_insert_ne, lookup_delete_ne by congruence; done.
Qed.

(** What is bound once the users that are pushed at run time are gone. *)
Definition kept_users (names : gset string) (limits : obj) : obj :=
  if bool_decide (names = ∅) then ∅ else filter (fun p => p.1 ∉ names) (installed_group limits "users").

Lemma omap_filter_names (names : gset string) (f : json -> option json) (m : obj) :
  omap f (filter (fun p => p.1 ∉ names) m) = filter (fun p => p.1 ∉ names) (omap f m).
Proof.
  apply map_eq. intros k. apply option_eq. intros v. rewrite lookup_omap_Some, map_lookup_filter_Some, lookup_omap_Some.
  setoid_rewrite map_lookup_filter_Some. naive_solver.
Qed.

Lemma strip_limits_users names limits : installed_group (strip_limits names limits) "users" = kept_users names limits.
Proof.
  unfold strip_limits, kept_users, installed_group. destruct (as_obj (limits !! "users"%string)) as [users |] eqn:E.
  - assert (obj_members (limits !! "users"%string) = users) as Hm by (unfold obj_members; by rewrite E). rewrite Hm.
    case_bool_decide as Hn; [rewrite lookup_delete_eq; cbn; apply omap_empty |].
    destruct (size _ =? 0)%nat eqn:Es.
    + apply Nat.eqb_eq, map_size_empty_iff in Es. rewrite lookup_delete_eq, <- omap_filter_names, Es. cbn. by rewrite !omap_empty.
    + rewrite lookup_insert_eq, members_obj. apply omap_filter_names.
  - unfold obj_members. rewrite E. cbn. rewrite omap_empty. case_bool_decide; [done |]. by rewrite map_filter_empty.
Qed.

Lemma strip_limits_inbounds names limits : installed_group (strip_limits names limits) "inbounds" = installed_group limits "inbounds".
Proof.
  unfold strip_limits, installed_group. destruct (as_obj _); [| done].
  case_bool_decide; [by rewrite lookup_delete_ne |]. destruct (_ =? _)%nat; [by rewrite lookup_delete_ne | by rewrite lookup_insert_ne].
Qed.

Definition tags_of (c : obj) : gset string := runtime_tags (metadata_of c).
Definition names_of (c : obj) : gset string := runtime_names (tags_of c) c.

(** What of the bindings of a configuration is part of its normal form. *)
Definition kept (c : obj) (group : string) : obj :=
  if (group =s "users") && negb (bool_decide (tags_of c = ∅)) then kept_users (names_of c) (limits_of c) else bindings c group.

Definition drop_runtime_keys (m : obj) : obj := fold_left (fun m key => delete key m) runtimeOnlyCoreMetadataKeys m.

Lemma drop_runtime_keys_lookup m key :
  drop_runtime_keys m !! key = if bool_decide (key ∈ runtimeOnlyCoreMetadataKeys) then None else m !! key.
Proof.
  unfold drop_runtime_keys, runtimeOnlyCoreMetadataKeys. cbn [fold_left]. case_bool_decide as H.
  - apply elem_of_cons in H as [-> | ->%list_elem_of_singleton]; [rewrite lookup_delete_ne by done |]; apply lookup_delete_eq.
  - rewrite !lookup_delete_ne by set_solver. done.
Qed.

(** The metadata of a normal form, given that of the configuration. *)
Lemma normalize_metadata (c md : obj) : c !! "_oboard"%string = Some (JObj md) ->
  metadata_of (normalize c) = drop_runtime_keys (RetainInstalledKeys (snd (stripRuntimeUserFields c md))).
Proof.
  intros Hc. unfold normalize. rewrite Hc. cbn [as_obj]. destruct (stripRuntimeUserFields c md) as [o md1]. cbn [snd].
  fold (drop_runtime_keys (RetainInstalledKeys md1)). set (md2 := drop_runtime_keys _). destruct (size md2 =? 0)%nat eqn:E.
  - apply Nat.eqb_eq, map_size_empty_iff in E. unfold metadata_of. by rewrite lookup_delete_eq, E.
  - unfold metadata_of. by rewrite lookup_insert_eq.
Qed.

Lemma normalize_plain (c : obj) : as_obj (c !! "_oboard"%string) = None -> normalize c = c /\ metadata_of c = ∅.
Proof. intros H. unfold normalize, metadata_of, obj_members. by rewrite H. Qed.

(** The limits after the run-time users are gone. *)
Lemma stripped_limits (c md : obj) group : c !! "_oboard"%string = Some (JObj md) -> group ∈ groups ->
  installed_group (obj_members (snd (stripRuntimeUserFields c md) !! "rate_limits"%string)) group = kept c group.
Proof.
  intros Hc Hg. assert (metadata_of c = md) as Hm by (unfold metadata_of; by rewrite Hc).
  assert (group = "users" \/ group = "inbounds")%string as Hcase by set_solver.
  unfold stripRuntimeUserFields, kept, bindings, limits_of, names_of, tags_of. rewrite Hm.
  destruct (decide (runtime_tags md = ∅)) as [Ht | Ht].
  - rewrite !bool_decide_true by done. cbn [snd negb]. by rewrite andb_false_r.
  - rewrite !bool_decide_false by done. cbn [snd negb]. rewrite andb_true_r. unfold obj_members.
    destruct (as_obj (md !! "rate_limits"%string)) as [limits |] eqn:El; cbn [default].
    + rewrite lookup_insert_eq. cbn [as_obj]. destruct Hcase as [-> | ->]; [apply strip_limits_users | apply strip_limits_inbounds].
    + rewrite El. destruct Hcase as [-> | ->]; [| done]. cbn [str_eqb String.eqb]. rewrite str_eqb_refl. unfold kept_users.
      case_bool_decide; cbn; unfold installed_group; rewrite ?lookup_empty; cbn; by rewrite ?omap_empty, ?map_filter_empty.
Qed.

Lemma normal_bindings c group : group ∈ groups -> obj_members (limits_of (normalize c) !! group) = kept c group.
Proof.
  intros Hg. destruct (as_obj (c !! "_oboard"%string)) as [md |] eqn:E.
  - pose proof (as_obj_Some _ _ E) as Hc.
    unfold limits_of. rewrite (normalize_metadata c md Hc), drop_runtime_keys_lookup, bool_decide_false by (by vm_compute; set_solver).
    rewrite retained_group by done. by apply stripped_limits.
  - destruct (normalize_plain c E) as [-> Hm]. unfold kept, bindings, limits_of, tags_of. rewrite Hm. cbn. rewrite lookup_empty. cbn.
    unfold installed_group. cbn. rewrite lookup_empty. cbn. by rewrite omap_empty, andb_false_r.
Qed.

(** The credentials bound to a kernel are part of its identity: two
    configurations with the same normal form bind the same credentials to their
    inbounds, and to every user that is not pushed at run time, as long as the
    inbounds that are pushed have named users. *)
Theorem bound_credentials_are_identified c c' name :
  normalize c = normalize c' ->
  bindings c "inbounds" = bindings c' "inbounds" /\
  ((tags_of c = ∅ \/ names_of c <> ∅) -> (tags_of c' = ∅ \/ names_of c' <> ∅) ->
   (tags_of c <> ∅ -> name ∉ names_of c) -> (tags_of c' <> ∅ -> name ∉ names_of c') ->
   bindings c "users" !! name = bindings c' "users" !! name).
Proof.
  intros He. assert (forall g, g ∈ groups -> kept c g = kept c' g) as Hk.
  { intros g Hg. rewrite <- !normal_bindings by done. by rewrite He. }
  split; [apply (Hk "inbounds"%string); set_solver |]. intros H1 H2 H3 H4.
  assert (forall d, (tags_of d = ∅ \/ names_of d <> ∅) -> (tags_of d <> ∅ -> name ∉ names_of d) ->
    kept d "users" !! name = bindings d "users" !! name) as Hd.
  { intros d Hn Hf. unfold kept. rewrite str_eqb_refl. cbn [andb]. case_bool_decide as Ht; cbn [negb]; [done |].
    destruct Hn as [Hn | Hn]; [done |]. unfold kept_users. rewrite bool_decide_false by done. fold (bindings d "users").
    apply option_eq. intros v. rewrite map_lookup_filter_Some. cbn. naive_solver. }
  rewrite <- (Hd c), <- (Hd c') by done. by rewrite (Hk "users"%string) by set_solver.
Qed.

(** ** What a normal form forgets *)

(** Changes that are pushed to a running kernel: runtime-only metadata, a field
    of a limit that is not part of the binding, and the users of the inbounds
    that are declared as pushed, with their limits. *)
Inductive runtime_change (c : obj) : obj -> Prop :=
| change_policy md key v :
    c !! "_oboard"%string = Some (JObj md) -> key ∈ runtimeOnlyCoreMetadataKeys ->
    runtime_change c (<["_oboard"%string := JObj (<[key := v]> md)]> c)
| change_quota md limits group entries name e field v :
    c !! "_oboard"%string = Some (JObj md) -> md !! "rate_limits"%string = Some (JObj limits) ->
    limits !! group = Some (JObj entries) -> entries !! name = Some (JObj e) ->
    field ∉ "authorization_key"%string :: retained_fields ->
    runtime_change c (<["_oboard"%string := JObj (<["rate_limits"%string :=
      JObj (<[group := JObj (<[name := JObj (<[field := v]> e)]> entries)]> limits)]> md)]> c)
| change_users md limits users users' l l' :
    c !! "_oboard"%string = Some (JObj md) -> md !! "rate_limits"%string = Some (JObj limits) ->
    limits !! "users"%string = Some (JObj users) -> c !! "inbounds"%string = Some (JArr l) ->
    map (strip_inbound (runtime_tags md)) l' = map (strip_inbound (runtime_tags md)) l ->
    let names := runtime_names (runtime_tags md) c in
    let c' := <["inbounds"%string := JArr l']> (<["_oboard"%string := JObj (<["rate_limits"%string :=
      JObj (<["users"%string := JObj users']> limits)]> md)]> c) in
    let names' := runtime_names (runtime_tags md) c' in
    runtime_tags md <> ∅ -> names <> ∅ -> names' <> ∅ ->
    filter (fun p => p.1 ∉ names') users' = filter (fun p => p.1 ∉ names) users ->
    runtime_change c c'.

Lemma retained_limits md md' :
  (forall g, g ∈ groups -> installed_group (obj_members (md !! "rate_limits"%string)) g = installed_group (obj_members (md' !! "rate_limits"%string)) g) ->
  RetainInstalledKeys md !! "rate_limits"%string = RetainInstalledKeys md' !! "rate_limits"%string.
Proof.
  intros H. unfold RetainInstalledKeys. cbn [fold_left]. cbv zeta. rewrite (H "users"%string), (H "inbounds"%string) by set_solver.
  destruct (0 <? size (if (0 <? size (installed_group _ "inbounds"))%nat then _ else _))%nat.
  - by rewrite !lookup_insert_eq.
  - by rewrite !lookup_delete_eq.
Qed.

Lemma stripped_other (c md : obj) key : key <> "rate_limits"%string -> snd (stripRuntimeUserFields c md) !! key = md !! key.
Proof.
  intros Hk. unfold stripRuntimeUserFields. case_bool_decide; cbn [snd]; [done |].
  destruct (as_obj _); [by rewrite lookup_insert_ne by congruence | done].
Qed.

Lemma insert_delete_ext (o o' : obj) k v : (forall key, key <> k -> o !! key = o' !! key) -> <[k := v]> o = <[k := v]> o' /\ delete k o = delete k o'.
Proof.
  intros H. split; apply map_eq; intros key; (destruct (decide (key = k)) as [-> | Hne]);
    rewrite ?lookup_insert_eq, ?lookup_delete_eq, ?lookup_insert_ne, ?lookup_delete_ne by congruence; auto.
Qed.

(** What a normal form depends on. *)
Lemma normalize_ext (c c' md md' : obj) :
  c !! "_oboard"%string = Some (JObj md) -> c' !! "_oboard"%string = Some (JObj md') ->
  (forall key, key <> "_oboard"%string -> fst (stripRuntimeUserFields c md) !! key = fst (stripRuntimeUserFields c' md') !! key) ->
  (forall key, key ∉ "rate_limits"%string :: runtimeOnlyCoreMetadataKeys -> md !! key = md' !! key) ->
  (forall g, g ∈ groups -> kept c g = kept c' g) -> normalize c = normalize c'.
Proof.
  intros Hc Hc' Hroot Hmd Hk. unfold normalize. rewrite Hc, Hc'. cbn [as_obj].
  pose proof (fun g => stripped_limits c md g Hc) as Hs. pose proof (fun g => stripped_limits c' md' g Hc') as Hs'.
  pose proof (stripped_other c md) as Ho. pose proof (stripped_other c' md') as Ho'.
  destruct (stripRuntimeUserFields c md) as [o md1], (stripRuntimeUserFields c' md') as [o' md1']. cbn [fst snd] in *.
  fold (drop_runtime_keys (RetainInstalledKeys md1)) (drop_runtime_keys (RetainInstalledKeys md1')).
  assert (drop_runtime_keys (RetainInstalledKeys md1) = drop_runtime_keys (RetainInstalledKeys md1')) as ->.
  { apply map_eq. intros key. rewrite !drop_runtime_keys_lookup. case_bool_decide as Hkey; [done |].
    destruct (decide (key = "rate_limits"%string)) as [-> | Hne].
    - apply retained_limits. intros g Hg. rewrite Hs, Hs' by done. by apply Hk.
    - rewrite !retained_other, Ho, Ho' by done. apply Hmd. set_solver. }
  destruct (size _ =? 0)%nat; [exact (proj2 (insert_delete_ext o o' _ JNull Hroot)) | exact (proj1 (insert_delete_ext o o' _ _ Hroot))].
Qed.

Lemma edit_array_lookup key f (m : obj) k : k <> key -> edit_array key f m !! k = m !! k.
Proof. intros Hk. unfold edit_array. destruct (as_arr _); [by rewrite lookup_insert_ne by congruence | done]. Qed.

Lemma edit_array_eq key f f' (m m' : obj) : map f <$> as_arr (m !! key) = map f' <$> as_arr (m' !! key) ->
  (as_arr (m !! key) = None -> m !! key = m' !! key) -> edit_array key f m !! key = edit_array key f' m' !! key.
Proof.
  intros H H0. unfold edit_array. destruct (as_arr (m !! key)), (as_arr (m' !! key)); cbn in H; try discriminate; [| by apply H0].
  rewrite !lookup_insert_eq. congruence.
Qed.

(** The root of the normal form when the declared inbounds are the same. *)
Lemma stripped_root (c c' md md' : obj) :
  runtime_tags md = runtime_tags md' ->
  (runtime_tags md = ∅ -> c !! "inbounds"%string = c' !! "inbounds"%string) ->
  map (strip_inbound (runtime_tags md)) <$> as_arr (c !! "inbounds"%string) = map (strip_inbound (runtime_tags md)) <$> as_arr (c' !! "inbounds"%string) ->
  (as_arr (c !! "inbounds"%string) = None -> c !! "inbounds"%string = c' !! "inbounds"%string) ->
  (forall key, key ∉ ["_oboard"; "inbounds"]%string -> c !! key = c' !! key) ->
  forall key, key <> "_oboard"%string -> fst (stripRuntimeUserFields c md) !! key = fst (stripRuntimeUserFields c' md') !! key.
Proof.
  intros Ht H0 Hi Hn Ho key Hkey. unfold stripRuntimeUserFields. rewrite <- Ht. case_bool_decide as Hd; cbn [fst].
  - destruct (decide (key = "inbounds"%string)) as [-> | Hne]; [by apply H0 | apply Ho; set_solver].
  - assert (forall k, k <> "_oboard"%string ->
      edit_array "inbounds" (strip_inbound (runtime_tags md)) c !! k = edit_array "inbounds" (strip_inbound (runtime_tags md)) c' !! k) as He.
    { intros k Hk. destruct (decide (k = "inbounds"%string)) as [-> | Hne]; [by apply edit_array_eq |].
      rewrite !(edit_array_lookup "inbounds") by done. apply Ho. set_solver. }
    destruct (decide (key = "outbounds"%string)) as [-> | Hne]; [| rewrite !(edit_array_lookup "outbounds") by done; by apply He].
    apply edit_array_eq; rewrite He by done; done.
Qed.

Lemma metadata_insert (c md : obj) : metadata_of (<["_oboard"%string := JObj md]> c) = md.
Proof. unfold metadata_of. by rewrite lookup_insert_eq. Qed.

Lemma runtime_names_ext tags (c c' : obj) : c !! "inbounds"%string = c' !! "inbounds"%string -> runtime_names tags c = runtime_names tags c'.
Proof. intros H. unfold runtime_names. by rewrite H. Qed.

(** A change of the metadata that keeps the declaration of the pushed inbounds
    and the bindings. *)
Lemma normalize_metadata_change (c md md' : obj) :
  c !! "_oboard"%string = Some (JObj md) ->
  (forall key, key ∉ "rate_limits"%string :: runtimeOnlyCoreMetadataKeys -> md !! key = md' !! key) ->
  (forall g, g ∈ groups -> installed_group (obj_members (md !! "rate_limits"%string)) g = installed_group (obj_members (md' !! "rate_limits"%string)) g) ->
  normalize (<["_oboard"%string := JObj md']> c) = normalize c.
Proof.
  intros Hc Hmd Hg. symmetry.
  assert (runtime_tags md = runtime_tags md') as Ht by (unfold runtime_tags; rewrite Hmd; [done | vm_compute; set_solver]).
  apply (normalize_ext c (<["_oboard"%string := JObj md']> c) md md'); [done | by rewrite lookup_insert_eq | | done |].
  - apply stripped_root; [done | by rewrite lookup_insert_ne | by rewrite lookup_insert_ne | by rewrite lookup_insert_ne |].
    intros key Hk. rewrite lookup_insert_ne; [done | set_solver].
  - intros g Hin. assert (metadata_of c = md) as Hm by (unfold metadata_of; by rewrite Hc).
    unfold kept, kept_users, bindings, limits_of, names_of, tags_of. rewrite metadata_insert, Hm, <- Ht.
    rewrite (runtime_names_ext _ (<["_oboard"%string := JObj md']> c) c) by (by rewrite lookup_insert_ne).
    rewrite (Hg "users"%string) by set_solver. by rewrite (Hg g) by done.
Qed.

(** A field that is not retained does not show in the identity of an entry. *)
Lemma installed_entry_field (e : obj) field v : field ∉ "authorization_key"%string :: retained_fields ->
  installed_entry (JObj (<[field := v]> e)) = installed_entry (JObj e).
Proof.
  intros Hf. unfold installed_entry, installedIdentity. rewrite !members_obj. rewrite lookup_insert_ne by set_solver.
  destruct (_ =s _); [done |]. do 2 f_equal. unfold retained_fields in *. cbn [fold_left].
  rewrite !(lookup_insert_ne e field) by set_solver. done.
Qed.

Lemma installed_group_edit (limits entries : obj) group name e e' g :
  limits !! group = Some (JObj entries) -> entries !! name = Some e -> installed_entry e' = installed_entry e ->
  installed_group (<[group := JObj (<[name := e']> entries)]> limits) g = installed_group limits g.
Proof.
  intros Hl He Heq. unfold installed_group. destruct (decide (g = group)) as [-> | Hne]; [| by rewrite lookup_insert_ne].
  rewrite lookup_insert_eq, Hl, !members_obj. apply map_eq. intros k. rewrite !lookup_omap.
  destruct (decide (k = name)) as [-> | Hk]; [rewrite lookup_insert_eq, He; cbn; exact Heq | by rewrite lookup_insert_ne].
Qed.

Lemma runtime_change_normalize c c' : runtime_change c c' -> normalize c' = normalize c.
Proof.
  intros [md key v Hc Hk | md limits group entries name e field v Hc Hl Hg He Hf
         | md limits users users' l l' Hc Hl Hu Hi Hmap names c1 names' Ht Hn Hn' Hfilter].
  - apply (normalize_metadata_change c md); [done | |].
    + intros k Hin. rewrite lookup_insert_ne; [done | set_solver].
    + intros g _. rewrite lookup_insert_ne; [done |]. intros ->. revert Hk. vm_compute. set_solver.
  - apply (normalize_metadata_change c md); [done | intros k Hin; rewrite lookup_insert_ne; [done | set_solver] |].
    intros g _. rewrite lookup_insert_eq, Hl, !members_obj. symmetry.
    eapply installed_group_edit; [done | done |]. by apply installed_entry_field.
  - set (md' := <["rate_limits"%string := _]> md) in c1. symmetry.
    assert (runtime_tags md' = runtime_tags md) as Ht' by (unfold runtime_tags, md'; by rewrite lookup_insert_ne).
    assert (c1 !! "_oboard"%string = Some (JObj md')) as Hc1 by (unfold c1; by rewrite lookup_insert_ne, lookup_insert_eq by done).
    apply (normalize_ext c c1 md md'); [done | done | | intros k Hin; unfold md'; rewrite lookup_insert_ne; [done | set_solver] |].
    + apply stripped_root; [done | done | | by rewrite Hi |].
      * unfold c1. rewrite lookup_insert_eq, Hi. cbn. by rewrite Hmap.
      * intros k Hk. unfold c1. rewrite !lookup_insert_ne by set_solver. done.
    + intros g Hin. assert (metadata_of c = md) as Hm by (unfold metadata_of; by rewrite Hc).
      assert (metadata_of c1 = md') as Hm1 by (unfold metadata_of; by rewrite Hc1).
      unfold kept, kept_users, bindings, limits_of, names_of, tags_of. rewrite Hm, Hm1, Ht'. fold names names'.
      rewrite !bool_decide_false by done. cbn [negb]. rewrite andb_true_r. unfold md'. rewrite lookup_insert_eq, Hl, !members_obj.
      destruct (g =s "users") eqn:Eg.
      * unfold installed_group. rewrite lookup_insert_eq, Hu, !members_obj, <- !omap_filter_names. by rewrite Hfilter.
      * apply str_eqb_neq in Eg. unfold installed_group. by rewrite lookup_insert_ne by congruence.
Qed.

(** Nothing that is pushed to a running kernel changes the identity of its
    configuration: however often the collection policy, the lease, quotas or the
    users of the declared inbounds are replaced, the normal form, and with it the
    digest the agent compares, stays the same, so that no push looks like drift. *)
Theorem pushed_changes_keep_the_identity c c' : rtc runtime_change c c' -> normalize c' = normalize c.
Proof. induction 1 as [| x y z Hxy _ IH]; [done |]. rewrite IH. by apply runtime_change_normalize. Qed.

(** ** Where the identity is blind *)

(** A user [bob] of an ordinary inbound, next to a pushed inbound that has no
    users yet. *)
Definition idle_config (key : string) : obj :=
  <["inbounds"%string := JArr [JObj {["tag"%string := JStr "pushed"]}; JObj {["tag"%string := JStr "fixed"]}]]>
  (<["_oboard"%string := JObj
    (<["runtime_users"%string := JObj {["inbounds"%string := JArr [JStr "pushed"]]}]>
     {["rate_limits"%string := JObj {["users"%string := JObj {["bob"%string := JObj {["authorization_key"%string := JStr key]}]}]}]})]> ∅).

(** While a pushed inbound has no named users, the normal form drops the
    limits of all users, those of ordinary inbounds included: a changed binding
    of such a user goes unnoticed. *)
Theorem idle_push_hides_bindings key key' : key <> ""%string -> key' <> key ->
  normalize (idle_config key) = normalize (idle_config key') /\
  bindings (idle_config key) "users" !! "bob"%string <> bindings (idle_config key') "users" !! "bob"%string.
Proof.
  intros Hk Hne. split; [reflexivity |].
  assert (forall k, bindings (idle_config k) "users" !! "bob"%string = installed_entry (JObj {["authorization_key"%string := JStr k]})) as Hb.
  { intros k. unfold bindings, installed_group. rewrite lookup_omap.
    assert (obj_members (limits_of (idle_config k) !! "users"%string) !! "bob"%string = Some (JObj {["authorization_key"%string := JStr k]})) as -> by reflexivity.
    done. }
  rewrite !Hb. unfold installed_entry. rewrite !members_obj, !lookup_singleton_eq. cbn [as_str].
  apply str_eqb_neq in Hk as Hk'. rewrite Hk'. destruct (key' =s "") eqn:E; [done |].
  intros Heq. assert (installedIdentity {["authorization_key"%string := JStr key]} key = installedIdentity {["authorization_key"%string := JStr key']} key') as H by congruence.
  apply (f_equal (fun m : obj => m !! "authorization_key"%string)) in H.
  vm_compute in H. congruence.
Qed.

(** ** Witnesses *)

Definition leased_config : obj :=
  <["_oboard"%string := JObj (<["authorization"%string := JNum "1"]>
    {["rate_limits"%string := JObj {["users"%string := JObj {["bob"%string := JObj {["authorization_key"%string := JStr "k1"]}]}]}]})]> ∅.

Lemma leased_config_metadata : leased_config !! "_oboard"%string = Some (JObj (metadata_of leased_config)).
Proof. reflexivity. Qed.

Definition renewed_config : obj :=
  <["_oboard"%string := JObj (<["authorization"%string := JNum "2"]> (metadata_of leased_config))]> leased_config.

Lemma bound_credentials_are_identified_witness :
  bindings leased_config "users" !! "bob"%string = bindings renewed_config "users" !! "bob"%string.
Proof.
  exact (proj2 (bound_credentials_are_identified leased_config renewed_config "bob" eq_refl) (or_introl eq_refl) (or_introl eq_refl)
    (fun H => False_ind _ (H eq_refl)) (fun H => False_ind _ (H eq_refl))).
Defined.

Lemma pushed_changes_keep_the_identity_witness : normalize renewed_config = normalize leased_config.
Proof.
  apply (pushed_changes_keep_the_identity leased_config), rtc_once.
  apply (change_policy leased_config (metadata_of leased_config) "authorization" (JNum "2")); [apply leased_config_metadata |].
  vm_compute. set_solver.
Defined.

Lemma idle_push_hides_bindings_witness : normalize (idle_config "k1") = normalize (idle_config "k2").
Proof. exact (proj1 (idle_push_hides_bindings "k1" "k2" ltac:(done) ltac:(done))). Defined.
