(* ===== verification/CoreRuntime.v ===== *)
(** * CoreRuntime: which kernel is running

    Model of internal/agent/core_runtime.go: the identity of a kernel build, the
    comparison of the process that serves traffic with the configuration and the
    executable on disk, the polling after a restart and the activation of an
    installed build.

    What the local API of the kernel, the file system and the service manager
    answer are arguments; the digest of the desired configuration comes from
    OperationalConfig. *)

From S2P Require Import Prelude GoTime Stealth OperationalConfig.

(** ** Build identities *)

Record coreBuildIdentity := mkBuild { bi_Version : string; bi_Build : string; bi_Commit : string }.
Definition no_build : coreBuildIdentity := mkBuild "" "" "".

Definition build_empty (i : coreBuildIdentity) : bool := (TrimSpace (bi_Build i) =s "") && (TrimSpace (bi_Commit i) =s "").

Definition build_same (i other : coreBuildIdentity) : bool :=
  if build_empty i || build_empty other then false
  else if negb (TrimSpace (bi_Build i) =s TrimSpace (bi_Build other)) then false
  else if negb (TrimSpace (bi_Commit i) =s "") && negb (TrimSpace (bi_Commit other) =s "")
  then TrimSpace (bi_Commit i) =s TrimSpace (bi_Commit other)
  else true.

Fixpoint str_join (sep : string) (l : list string) : string :=
  match l with
  | [] => ""%string
  | [a] => a
  | a :: l => (a +:+ sep +:+ str_join sep l)%string
  end.

Definition build_String (i : coreBuildIdentity) : string :=
  let part prefix v := if TrimSpace v =s "" then [] else [(prefix +:+ TrimSpace v)%string] in
  str_join " / " (part ""%string (bi_Version i) ++ part "build "%string (bi_Build i) ++ part "commit "%string (bi_Commit i)).

(** [decode] is [json.Unmarshal] into a [coreBuildIdentity]. *)
Definition parseCoreBuildIdentity (decode : string -> option coreBuildIdentity) (out : string) : result string coreBuildIdentity :=
  let trimmed := TrimSpace out in
  if negb (HasPrefix trimmed "{") then Err "core version output is not the oboard-sb JSON form"%string
  else
    match decode trimmed with
    | None => Err "json"%string
    | Some identity => if build_empty identity then Err "core version output carries no build identity"%string else Ok identity
    end.

(** The fingerprint of the executable on disk is read again when the file
    changed. *)
Record coreBinaryIdentityCache := mkCache {
  bc_path : string; bc_size : Z; bc_modTime : Time; bc_result : result string coreBuildIdentity
}.
Definition empty_cache : coreBinaryIdentityCache := mkCache "" 0 time_zero (Ok no_build).

(** [stat] is the size and the time of [resolved]; [read] runs the binary. *)
Definition installedCoreBuild (resolved : string) (stat : option (Z * Time)) (read : result string coreBuildIdentity)
  (cached : coreBinaryIdentityCache) : result string coreBuildIdentity * coreBinaryIdentityCache :=
  match stat with
  | Some (size, modTime) =>
      if (bc_path cached =s resolved) && (bc_size cached =? size) && (bc_modTime cached =? modTime) then (bc_result cached, cached)
      else (read, mkCache resolved size modTime read)
  | None => (read, empty_cache)
  end.

(** ** The status of the running kernel *)

Definition coreRuntimeDigestCapability : string := "runtime_config_digest_v1".
Definition coreRuntimeVerificationVerified : string := "verified".
Definition coreRuntimeVerificationUnsupported : string := "unsupported".
Definition coreRuntimeVerificationUnavailable : string := "unavailable".
Definition coreBuildStateUnknown : string := "unknown".
Definition coreBuildStateCurrent : string := "current".
Definition coreBuildStateStale : string := "stale".

Record coreRuntimeStatus := mkCoreStatus {
  cs_OperationalDigest : string; cs_PID : Z; cs_Generation : Z; cs_build : coreBuildIdentity
}.

Inductive core_error := EUnsupported | EStarting | EOther (e : string).

(** An answer of GET /runtime/status: its code, the [state] field of its body
    and the status its body decodes to. *)
Inductive status_answer :=
| NoAnswer (e : string)
| Answer (code : Z) (state : option string) (body : option coreRuntimeStatus).

Definition coreRuntimeStarting (code : Z) (state : option string) : bool :=
  (code =? 503) && match state with Some st => st =s "starting" | None => false end.

Definition read_status (a : status_answer) : result core_error coreRuntimeStatus :=
  match a with
  | NoAnswer e => Err (EOther e)
  | Answer code state body =>
      if code =? 404 then Err EUnsupported
      else if coreRuntimeStarting code state then Err EStarting
      else if 300 <=? code then Err (EOther "core runtime status")
      else
        match body with
        | None => Err (EOther "json")
        | Some status => if cs_OperationalDigest status =s "" then Err (EOther "core runtime status has no operational digest") else Ok status
        end
  end.

Record coreRuntimeCheck := mkCheck {
  ck_Verification : string;
  ck_DesiredDigest : string;
  ck_LoadedDigest : string;
  ck_PID : Z;
  ck_Generation : Z;
  ck_Err : option core_error;
  ck_BuildState : string;
  ck_RunningBuild : coreBuildIdentity;
  ck_InstalledBuild : coreBuildIdentity;
  ck_BuildErr : option string
}.

#[export] Instance eta_coreRuntimeCheck : Eta coreRuntimeCheck := fun c =>
  mkCheck (ck_Verification c) (ck_DesiredDigest c) (ck_LoadedDigest c) (ck_PID c) (ck_Generation c) (ck_Err c) (ck_BuildState c)
    (ck_RunningBuild c) (ck_InstalledBuild c) (ck_BuildErr c).

Definition verified (c : coreRuntimeCheck) : bool := ck_Verification c =s coreRuntimeVerificationVerified.
Definition drift (c : coreRuntimeCheck) : bool := verified c && negb (ck_LoadedDigest c =s ck_DesiredDigest c).
Definition binaryDrift (c : coreRuntimeCheck) : bool := ck_BuildState c =s coreBuildStateStale.
Definition check_buildState (c : coreRuntimeCheck) : string := if ck_BuildState c =s "" then coreBuildStateUnknown else ck_BuildState c.

(** What one look at the kernel sees. *)
Record Probe := mkProbe {
  pb_status : status_answer;
  pb_capabilities : option (list string);
  pb_runningBuild : result string coreBuildIdentity;
  pb_installed : result string coreBuildIdentity
}.

Definition resolveCoreBuildState (installed : result string coreBuildIdentity) (check : coreRuntimeCheck) : coreRuntimeCheck :=
  let check := check<|ck_BuildState := coreBuildStateUnknown|> in
  if build_empty (ck_RunningBuild check) then
    match ck_BuildErr check with
    | None => check<|ck_BuildErr := Some "core does not report runtime_build_identity_v1"%string|>
    | Some _ => check
    end
  else
    match installed with
    | Err e => check<|ck_BuildErr := Some e|>
    | Ok installed =>
        let check := check<|ck_InstalledBuild := installed|> in
        if build_same installed (ck_RunningBuild check) then check<|ck_BuildState := coreBuildStateCurrent|>
        else check<|ck_BuildState := coreBuildStateStale|>
    end.

(** [digest] is the operational digest of the desired configuration. *)
Definition checkCoreRuntimeConfig (digest : result string string) (p : Probe) : coreRuntimeCheck :=
  let check := mkCheck coreRuntimeVerificationUnavailable "" "" 0 0 None coreBuildStateUnknown no_build no_build None in
  match digest with
  | Err e => check<|ck_Err := Some (EOther e)|>
  | Ok digest =>
      let check := check<|ck_DesiredDigest := digest|> in
      match read_status (pb_status p) with
      | Ok status =>
          resolveCoreBuildState (pb_installed p)
            (check<|ck_Verification := coreRuntimeVerificationVerified|><|ck_LoadedDigest := cs_OperationalDigest status|>
              <|ck_PID := cs_PID status|><|ck_Generation := cs_Generation status|><|ck_RunningBuild := cs_build status|>)
      | Err EStarting => check<|ck_Err := Some EStarting|>
      | Err EUnsupported =>
          let check := check<|ck_Verification := coreRuntimeVerificationUnsupported|> in
          resolveCoreBuildState (pb_installed p)
            (match pb_runningBuild p with
             | Ok b => check<|ck_RunningBuild := b|>
             | Err e => check<|ck_BuildErr := Some e|>
             end)
      | Err (EOther e) =>
          let check := check<|ck_Err := Some (EOther e)|> in
          match pb_capabilities p with
          | None => check
          | Some capabilities =>
              if bool_decide (coreRuntimeDigestCapability ∈ capabilities) then check
              else check<|ck_Verification := coreRuntimeVerificationUnsupported|><|ck_Err := None|>
          end
      end
  end.

(** ** Polling *)

(** The loop of [awaitCoreRuntimeConfig] and [awaitCoreRuntimeActivation]:
    [polls] are the checks that can still be made, each with the news whether
    the deadline or the context ended before it. *)
Fixpoint await_loop (good : coreRuntimeCheck -> bool) (check : coreRuntimeCheck) (polls : list (bool * coreRuntimeCheck)) : coreRuntimeCheck :=
  if ck_Verification check =s coreRuntimeVerificationUnsupported then check
  else if good check then check
  else
    match polls with
    | [] => check
    | (expired, next) :: polls => if expired then check else await_loop good next polls
    end.

Definition config_good (c : coreRuntimeCheck) : bool := verified c && negb (drift c).
Definition activation_good (c : coreRuntimeCheck) : bool := verified c && negb (drift c) && negb (binaryDrift c).

(** [window] is whether there is time to poll. *)
Definition awaitCoreRuntimeConfig (window : bool) (check : coreRuntimeCheck) (polls : list (bool * coreRuntimeCheck)) : coreRuntimeCheck :=
  if negb window then check else await_loop config_good check polls.
Definition awaitCoreRuntimeActivation (window : bool) (check : coreRuntimeCheck) (polls : list (bool * coreRuntimeCheck)) : coreRuntimeCheck :=
  if negb window then check else await_loop activation_good check polls.

(** ** Activation *)

Definition isHexDigest (value : string) : bool :=
  forallb (fun c => let n := nat_of_ascii c in ((48 <=? n) && (n <=? 57) || (97 <=? n) && (n <=? 102))%nat) (list_ascii_of_string value).

(** [output] is what the kernel binary prints, if it runs. *)
Definition kernelDigestVerdict (loaded binary : string) (output : option string) : bool * bool :=
  if TrimSpace loaded =s "" then (false, false)
  else if TrimSpace binary =s "" then (false, false)
  else
    match output with
    | None => (false, false)
    | Some out =>
        let digest := TrimSpace out in
        if negb (str_len digest =? 64) || negb (isHexDigest digest) then (false, false) else (digest =s loaded, true)
    end.

(** The configuration on disk: absent, unreadable or its bytes. *)
Inductive deployed := DNone | DUnreadable | DConfig (raw : bytes).

Record ActivateEnv := mkActivateEnv {
  ae_managed : bool;
  ae_config : deployed;
  ae_before : coreRuntimeCheck;
  ae_validate : option string;
  ae_restart : option string;
  ae_stable : option string;
  ae_after : coreRuntimeCheck;
  ae_polls : list (bool * coreRuntimeCheck);
  ae_binary : string;
  ae_digest : option string;
  ae_security : option string
}.

Definition blank (raw : bytes) : bool := TrimSpace (string_of_list_ascii raw) =s "".

(** The outcome: the word under [core_activation], the error, and whether the
    kernel was restarted. *)
Definition activateInstalledCoreLocked (e : ActivateEnv) (binaryReplaced : bool) : string * option string * bool :=
  if negb (ae_managed e) then ("unmanaged"%string, None, false)
  else
    match ae_config e with
    | DUnreadable => ("config_unreadable"%string, Some "deployed configuration unreadable"%string, false)
    | DNone => ("waiting_for_config"%string, None, false)
    | DConfig raw =>
        if blank raw then ("waiting_for_config"%string, None, false)
        else
          let secured word restarted :=
            match ae_security e with
            | Some err => ("security_unverified"%string, Some err, restarted)
            | None => (word, None, restarted)
            end in
          let before := ae_before e in
          if negb (binaryDrift before) && (ck_BuildState before =s coreBuildStateCurrent) then secured "already_current"%string false
          else if negb (binaryDrift before) && negb binaryReplaced then secured "not_required"%string false
          else
            match ae_validate e with
            | Some err => ("invalid_config"%string, Some err, false)
            | None =>
                match ae_restart e with
                | Some err => ("restart_failed"%string, Some err, true)
                | None =>
                    match ae_stable e with
                    | Some err => ("crashed_after_restart"%string, Some err, true)
                    | None =>
                        let after := awaitCoreRuntimeActivation true (ae_after e) (ae_polls e) in
                        if binaryDrift after then ("still_stale"%string, Some "core still runs the previous build"%string, true)
                        else if drift after then
                          if ((ck_BuildState after =s coreBuildStateCurrent) || (ck_BuildState after =s coreBuildStateStale)) &&
                             (let '(verdict, ok) := kernelDigestVerdict (ck_LoadedDigest after) (ae_binary e) (ae_digest e) in ok && verdict)
                          then secured "restarted"%string true
                          else ("config_drift"%string, Some "core runs another configuration after restart"%string, true)
                        else secured "restarted"%string true
                    end
                end
            end
    end.

(** [VerifyCoreRuntime]: the error, if there is one. *)
Definition VerifyCoreRuntime (config : deployed) (window : bool) (check : coreRuntimeCheck) (polls : list (bool * coreRuntimeCheck))
  (security : option string) : option string :=
  match config with
  | DUnreadable => Some "deployed configuration unreadable"%string
  | DNone => None
  | DConfig raw =>
      if blank raw then None
      else
        let check := awaitCoreRuntimeConfig window check polls in
        if drift check then Some "core runs another configuration"%string
        else if binaryDrift check then Some "core still runs another build"%string
        else if ck_Verification check =s coreRuntimeVerificationUnavailable then
          Some (match ck_Err check with
                | Some EStarting => "core is still starting, so the running kernel could not be verified"
                | _ => "core local API is unreachable, so the running kernel could not be verified"
                end)%string
        else security
  end.

(** [restoreCoreRuntime]: the strategy that was recorded. *)
Record RestoreEnv := mkRestoreEnv {
  re_reload : bool; re_reloadErr : option string; re_restart : option string; re_managed : bool; re_stable : option string;
  re_check : coreRuntimeCheck; re_polls : list (bool * coreRuntimeCheck)
}.

Definition restoreCoreRuntime (e : RestoreEnv) : string :=
  if re_reload e && match re_reloadErr e with None => true | Some _ => false end then "hot_reload"%string
  else
    match re_restart e, (if re_managed e then re_stable e else None) with
    | Some _, _ | None, Some _ => "restart_failed"%string
    | None, None =>
        if drift (awaitCoreRuntimeConfig (re_managed e) (re_check e) (re_polls e)) then "restart_verification_failed"%string
        else "restart"%string
    end.

(** [coreRuntimeConverged]: whether a replayed task can be skipped. *)
Definition coreRuntimeConverged (config : deployed) (check : coreRuntimeCheck) : bool :=
  match config with DConfig raw => negb (blank raw) && negb (drift check) | _ => false end.

(** ** Evidence *)

Lemma resolve_build_verification installed c : ck_Verification (resolveCoreBuildState installed c) = ck_Verification c /\
  ck_LoadedDigest (resolveCoreBuildState installed c) = ck_LoadedDigest c /\
  ck_DesiredDigest (resolveCoreBuildState installed c) = ck_DesiredDigest c.
Proof.
  unfold resolveCoreBuildState. cbn [ck_RunningBuild ck_BuildErr]. destruct (build_empty _); [by destruct (ck_BuildErr _) |].
  destruct installed; [| done]. by destruct (build_same _ _).
Qed.

(** A stale verdict: both builds identified themselves, as different ones. *)
Lemma resolve_build_stale installed c : binaryDrift (resolveCoreBuildState installed c) = true ->
  build_empty (ck_RunningBuild c) = false /\ exists b, installed = Ok b /\ build_same b (ck_RunningBuild c) = false /\
    ck_InstalledBuild (resolveCoreBuildState installed c) = b.
Proof.
  unfold resolveCoreBuildState, binaryDrift. cbn [ck_RunningBuild ck_BuildErr upd]. destruct (build_empty _) eqn:E.
  { by destruct (ck_BuildErr _). }
  destruct installed as [b | e]; [| done]. cbn. destruct (build_same b _) eqn:Eb; [done |]. intros _. split; [done |]. by exists b.
Qed.

(** Drift is reported by the kernel itself: only a kernel that answered with
    another digest has drifted; one that is unreachable, starting or too old has
    not. *)
Lemma drift_is_positive d p : drift (checkCoreRuntimeConfig (Ok d) p) = true <->
  exists status, read_status (pb_status p) = Ok status /\ cs_OperationalDigest status <> d.
Proof.
  unfold checkCoreRuntimeConfig, drift, verified. destruct (read_status (pb_status p)) as [status | [| | e]] eqn:E.
  - destruct (resolve_build_verification (pb_installed p)
      ((mkCheck coreRuntimeVerificationUnavailable "" "" 0 0 None coreBuildStateUnknown no_build no_build None)<|ck_DesiredDigest := d|>
        <|ck_Verification := coreRuntimeVerificationVerified|><|ck_LoadedDigest := cs_OperationalDigest status|>
        <|ck_PID := cs_PID status|><|ck_Generation := cs_Generation status|><|ck_RunningBuild := cs_build status|>)) as (-> & -> & ->).
    cbn. rewrite str_eqb_refl. cbn. rewrite negb_true_iff, str_eqb_neq. split; [eauto | intros (st & [= <-] & H); exact H].
  - rewrite (proj1 (resolve_build_verification _ _)). split; [| intros (st & H & _); discriminate].
    by destruct (pb_runningBuild p).
  - split; [done | intros (st & H & _); discriminate].
  - split; [| intros (st & H & _); discriminate]. destruct (pb_capabilities p); [| done]. by case_bool_decide.
Qed.

Lemma binaryDrift_is_positive digest p : binaryDrift (checkCoreRuntimeConfig digest p) = true ->
  exists running installed, build_empty running = false /\ pb_installed p = Ok installed /\ build_same installed running = false /\
    ck_InstalledBuild (checkCoreRuntimeConfig digest p) = installed /\
    ((exists status, read_status (pb_status p) = Ok status /\ cs_build status = running) \/
     (read_status (pb_status p) = Err EUnsupported /\ pb_runningBuild p = Ok running)).
Proof.
  unfold checkCoreRuntimeConfig. destruct digest as [d |]; [| done]. destruct (read_status (pb_status p)) as [status | [| | e]] eqn:E.
  - intros H. apply resolve_build_stale in H as (Hr & b & Hi & Hs & Hb). cbn in Hr, Hs. exists (cs_build status), b. eauto 10.
  - intros H. apply resolve_build_stale in H as (Hr & b & Hi & Hs & Hb). destruct (pb_runningBuild p) as [running |] eqn:Er; cbn in Hr, Hs.
    + exists running, b. eauto 10.
    + done.
  - done.
  - destruct (pb_capabilities p); [| done]. by case_bool_decide.
Qed.

Lemma await_loop_result good check polls :
  let r := await_loop good check polls in
  ck_Verification r = coreRuntimeVerificationUnsupported \/ good r = true \/
  (exists expired, In expired polls /\ fst expired = true) \/ r = List.last (map snd polls) check.
Proof.
  cbv zeta. revert check. induction polls as [| [expired next] polls IH]; intros check; cbn [await_loop].
  - destruct (_ =s _) eqn:E; [apply str_eqb_eq in E; auto |]. destruct (good check) eqn:Eg; auto.
  - destruct (_ =s _) eqn:E; [apply str_eqb_eq in E; auto |]. destruct (good check) eqn:Eg; [auto |].
    destruct expired; [right; right; left; exists (true, next); split; [by left | done] |].
    destruct (IH next) as [H | [H | [(x & Hin & Hx) | H]]]; [by left | by right; left | right; right; left; exists x; split; [by right | done] |].
    right; right; right. rewrite H. cbn [map snd]. clear. destruct polls as [| q polls]; [done |].
    cbn [map List.last]. generalize (snd q). induction (map snd polls) as [| y l IHl]; intros z; [done | apply (IHl y)].
Qed.


(** ** Witness *)

Definition old_build : coreBuildIdentity := mkBuild "1.0" "100" "".
Definition new_build : coreBuildIdentity := mkBuild "1.1" "101" "".
Definition probe_of (digest : string) (running : coreBuildIdentity) : Probe :=
  mkProbe (Answer 200 None (Some (mkCoreStatus digest 42 1 running))) None (Ok running) (Ok new_build).
Definition upgrade_env : ActivateEnv :=
  mkActivateEnv true (DConfig (list_ascii_of_string "{}")) (checkCoreRuntimeConfig (Ok "d1"%string) (probe_of "d1" old_build))
    None None None (checkCoreRuntimeConfig (Ok "d1"%string) (probe_of "d1" new_build)) [] "oboard-sb" None None.

