(* ===== verification/Watchdog.v ===== *)
(** * Watchdog: recovery of the kernel process

    Model of internal/agent/core_watchdog.go: the check that runs every five
    seconds, compares the kernel with the configuration and the executable on
    disk, and restarts it under a growing backoff.

    A check sees its surroundings as a [WatchEnv]: the file system, the service
    manager and the local API of the kernel. [wd_restarts] records the restarts,
    the newest first, with the number of restarts in a row they were. Counters
    are unbounded: one step takes five seconds. *)

From S2P Require Import Prelude GoTime Stealth CoreRuntime.

Definition coreWatchdogStableReset : Z := 2 * Minute.

Record coreWatchdogStatus := mkStatus {
  ws_Service : string;
  ws_State : string;
  ws_RestartCount : Z;
  ws_Consecutive : Z;
  ws_LastCheckedAt : Time;
  ws_LastRestartAt : Time;
  ws_NextAttemptAt : Time;
  ws_StableSince : Time;
  ws_LastError : string;
  ws_ConfigPath : string;
  ws_RecoveryAction : string;
  ws_DesiredDigest : string;
  ws_LoadedDigest : string;
  ws_RuntimeVerified : bool;
  ws_RuntimeVerification : string;
  ws_LastRuntimeCheckAt : Time;
  ws_LastRestartReason : string;
  ws_BuildState : string;
  ws_RunningBuild : string;
  ws_InstalledBuild : string;
  ws_BinaryRecoveryBuild : string
}.

#[export] Instance eta_coreWatchdogStatus : Eta coreWatchdogStatus := fun s =>
  mkStatus (ws_Service s) (ws_State s) (ws_RestartCount s) (ws_Consecutive s) (ws_LastCheckedAt s) (ws_LastRestartAt s) (ws_NextAttemptAt s)
    (ws_StableSince s) (ws_LastError s) (ws_ConfigPath s) (ws_RecoveryAction s) (ws_DesiredDigest s) (ws_LoadedDigest s) (ws_RuntimeVerified s)
    (ws_RuntimeVerification s) (ws_LastRuntimeCheckAt s) (ws_LastRestartReason s) (ws_BuildState s) (ws_RunningBuild s) (ws_InstalledBuild s)
    (ws_BinaryRecoveryBuild s).

(** The status [startCoreWatchdog] begins with. *)
Definition initial_status (service path : string) : coreWatchdogStatus :=
  mkStatus service "" 0 0 time_zero time_zero time_zero time_zero "" path "" "" "" false "" time_zero "" "" "" "" "".

Definition applyBuildIdentity (check : coreRuntimeCheck) (s : coreWatchdogStatus) : coreWatchdogStatus :=
  s<|ws_BuildState := check_buildState check|><|ws_RunningBuild := build_String (ck_RunningBuild check)|>
    <|ws_InstalledBuild := build_String (ck_InstalledBuild check)|>.

Definition coreWatchdogBackoff (consecutive : Z) : Z :=
  if consecutive <=? 1 then 0
  else if consecutive =? 2 then 5 * Second
  else if consecutive =? 3 then 15 * Second
  else if consecutive =? 4 then 30 * Second
  else 2 * Minute.

(** What one check sees. The second clock is read after a restart. *)
Record WatchEnv := mkWatchEnv {
  we_cancelled : bool;
  we_managed : bool;
  we_service : string;
  we_config : option bytes;
  we_hostLock : bool;
  we_active : bool;
  we_digest : result string string;
  we_probe : Probe;
  we_validate : option string;
  we_restart : option string;
  we_stable : option string;
  we_after : Probe;
  we_polls : list (bool * Probe);
  we_clock : bool;
  we_later : Time
}.

(** The watchdog: its status, the process that received the clock
    ([coreClockPID]), the file it writes and the restarts it made. *)
Record watchdog := mkWatchdog {
  wd_status : coreWatchdogStatus;
  wd_clockPID : Z;
  wd_file : option coreWatchdogStatus;
  wd_restarts : list (Time * Z * string)
}.

#[export] Instance eta_watchdog : Eta watchdog := fun w => mkWatchdog (wd_status w) (wd_clockPID w) (wd_file w) (wd_restarts w).

Definition set_status (s : coreWatchdogStatus) (w : watchdog) : watchdog := w<|wd_status := s|>.
(** [writeCoreWatchdogStatus] with the status as it is. *)
Definition write (s : coreWatchdogStatus) (w : watchdog) : watchdog := w<|wd_status := s|><|wd_file := Some s|>.

Definition observe (check : coreRuntimeCheck) (at_ : Time) (s : coreWatchdogStatus) : coreWatchdogStatus :=
  applyBuildIdentity check
    (s<|ws_LastRuntimeCheckAt := at_|><|ws_DesiredDigest := ck_DesiredDigest check|><|ws_LoadedDigest := ck_LoadedDigest check|>
      <|ws_RuntimeVerified := verified check|><|ws_RuntimeVerification := ck_Verification check|>).

Definition after_check (e : WatchEnv) : coreRuntimeCheck :=
  awaitCoreRuntimeActivation (we_managed e) (checkCoreRuntimeConfig (we_digest e) (we_after e))
    (map (fun p => (fst p, checkCoreRuntimeConfig (we_digest e) (snd p))) (we_polls e)).

Definition restartCoreFromWatchdog (e : WatchEnv) (now : Time) (reason : string) (s : coreWatchdogStatus) (w : watchdog) : watchdog :=
  let s := s<|ws_State := "recovering"%string|><|ws_RecoveryAction := "managed_restart"%string|><|ws_LastRestartReason := reason|>
            <|ws_LastRestartAt := now|><|ws_RestartCount ::= Z.add 1|> in
  let w := (write s w)<|wd_restarts ::= cons (now, ws_Consecutive s, reason)|> in
  let next := now + coreWatchdogBackoff (ws_Consecutive s + 1) in
  match we_restart e with
  | Some err => write (s<|ws_State := "restart_failed"%string|><|ws_LastError := err|><|ws_NextAttemptAt := next|>) w
  | None =>
      match we_stable e with
      | Some err => write (s<|ws_State := "crashed_after_restart"%string|><|ws_LastError := err|><|ws_NextAttemptAt := next|>) w
      | None =>
          let check := after_check e in
          let s := observe check (we_later e) s in
          if drift check then
            write (s<|ws_State := "runtime_drift"%string|><|ws_LastError := "core still runs an older configuration after restart"%string|>
                    <|ws_NextAttemptAt := next|>) w
          else if binaryDrift check then
            write (s<|ws_State := "binary_stale"%string|><|ws_LastError := "core still runs the previous build after restart"%string|>
                    <|ws_NextAttemptAt := next|>) w
          else
            write (s<|ws_State := "recovered"%string|><|ws_LastError := ""%string|><|ws_StableSince := we_later e|>
                    <|ws_NextAttemptAt := next|>) w
      end
  end.

(** A recovery waits for its next attempt. *)
Definition in_backoff (now : Time) (s : coreWatchdogStatus) : bool :=
  negb (IsZero (ws_NextAttemptAt s)) && Before now (ws_NextAttemptAt s).

(** The common end of the recoveries: the configuration is validated first. *)
Definition validated_restart (e : WatchEnv) (now : Time) (reason : string) (s : coreWatchdogStatus) (w : watchdog) : watchdog :=
  match we_validate e with
  | Some err =>
      write (s<|ws_State := "invalid_config"%string|><|ws_LastError := err|><|ws_NextAttemptAt := now + 2 * Minute|>) w
  | None => restartCoreFromWatchdog e now reason s w
  end.

Definition recoverCoreRuntimeDrift (e : WatchEnv) (now : Time) (s : coreWatchdogStatus) (w : watchdog) : watchdog :=
  if in_backoff now s then write (s<|ws_State := "backoff"%string|>) w
  else
    validated_restart e now "runtime_drift"
      (s<|ws_State := "runtime_drift"%string|><|ws_StableSince := time_zero|><|ws_Consecutive ::= Z.add 1|>) w.

Definition recoverCoreBinaryDrift (e : WatchEnv) (now : Time) (check : coreRuntimeCheck) (s : coreWatchdogStatus) (w : watchdog) : watchdog :=
  let installed := build_String (ck_InstalledBuild check) in
  if negb (ws_BinaryRecoveryBuild s =s "") && (ws_BinaryRecoveryBuild s =s installed) then
    write (s<|ws_State := "binary_stale"%string|><|ws_LastError := "installed build is not being picked up"%string|>) w
  else if in_backoff now s then write (s<|ws_State := "backoff"%string|>) w
  else
    let s := s<|ws_State := "binary_drift"%string|><|ws_StableSince := time_zero|><|ws_Consecutive ::= Z.add 1|> in
    validated_restart e now "binary_drift" (match we_validate e with Some _ => s | None => s<|ws_BinaryRecoveryBuild := installed|> end) w.

(** The part of the check for a unit that is active. *)
Definition check_active (e : WatchEnv) (now : Time) (s : coreWatchdogStatus) (w : watchdog) : watchdog :=
  let wasRunning := ws_State s =s "running" in
  let check := checkCoreRuntimeConfig (we_digest e) (we_probe e) in
  let s := observe check now s in
  if drift check then recoverCoreRuntimeDrift e now s w
  else if ck_Verification check =s coreRuntimeVerificationUnavailable then
    write (let s := s<|ws_State := "runtime_unreachable"%string|> in
           match ck_Err check with Some _ => s<|ws_LastError := "unreachable"%string|> | None => s end) w
  else if binaryDrift check then recoverCoreBinaryDrift e now check s w
  else
    let s := if ck_BuildState check =s coreBuildStateCurrent then s<|ws_BinaryRecoveryBuild := ""%string|> else s in
    let s := s<|ws_State := "running"%string|><|ws_LastError := ""%string|> in
    let s := if IsZero (ws_StableSince s) then s<|ws_StableSince := now|> else s in
    let s := if coreWatchdogStableReset <=? time_Sub now (ws_StableSince s)
             then s<|ws_Consecutive := 0|><|ws_NextAttemptAt := time_zero|> else s in
    let restarted := verified check && (0 <? ck_PID check) && negb (ck_PID check =? wd_clockPID w) in
    write s (if (negb wasRunning || restarted) && we_clock e && verified check then w<|wd_clockPID := ck_PID check|> else w).

(** The part for a unit that is down. *)
Definition check_stopped (e : WatchEnv) (now : Time) (s : coreWatchdogStatus) (w : watchdog) : watchdog :=
  let s := s<|ws_StableSince := time_zero|> in
  if in_backoff now s then write (s<|ws_State := "backoff"%string|>) w
  else validated_restart e now "service_stopped" (s<|ws_Consecutive ::= Z.add 1|>) w.

Definition runCoreWatchdogCheck (e : WatchEnv) (now : Time) (w : watchdog) : watchdog :=
  if we_cancelled e || negb (we_managed e) then w
  else
    let s := (wd_status w)<|ws_Service := we_service e|><|ws_LastCheckedAt := now|> in
    match we_config e with
    | None | Some [] =>
        write (s<|ws_State := "waiting_for_config"%string|><|ws_LastError := ""%string|><|ws_DesiredDigest := ""%string|>
                <|ws_LoadedDigest := ""%string|><|ws_RuntimeVerified := false|><|ws_RuntimeVerification := ""%string|>
                <|ws_BuildState := ""%string|><|ws_RunningBuild := ""%string|><|ws_InstalledBuild := ""%string|>) w
    | Some _ =>
        if negb (we_hostLock e) then set_status s w
        else if we_active e then check_active e now s w
        else check_stopped e now s w
    end.

(** A run of checks. *)
Definition run_watchdog (w : watchdog) (checks : list (Time * WatchEnv)) : watchdog :=
  fold_left (fun w c => runCoreWatchdogCheck (snd c) (fst c) w) checks w.

Definition new_watchdog (service path : string) : watchdog := mkWatchdog (initial_status service path) 0 None [].

(** ** Restarts need a cause *)

Lemma restartCore_restarts e now reason s w :
  wd_restarts (restartCoreFromWatchdog e now reason s w) = (now, ws_Consecutive s, reason) :: wd_restarts w.
Proof.
  unfold restartCoreFromWatchdog. cbv zeta. destruct (we_restart e); [done |]. destruct (we_stable e); [done |].
  destruct (drift _); [done |]. by destruct (binaryDrift _).
Qed.

Lemma validated_restarts e now reason s w :
  wd_restarts (validated_restart e now reason s w) = wd_restarts w \/
  (we_validate e = None /\ wd_restarts (validated_restart e now reason s w) = (now, ws_Consecutive s, reason) :: wd_restarts w).
Proof. unfold validated_restart. destruct (we_validate e); [by left | right]. by rewrite restartCore_restarts. Qed.

(** The reasons for which a check may restart the kernel. *)
Inductive justified (e : WatchEnv) (w : watchdog) : string -> Prop :=
| because_stopped : we_active e = false -> justified e w "service_stopped"
| because_drift status :
    we_active e = true -> read_status (pb_status (we_probe e)) = Ok status -> we_digest e <> Ok (cs_OperationalDigest status) ->
    justified e w "runtime_drift"
| because_binary installed running :
    we_active e = true -> pb_installed (we_probe e) = Ok installed -> build_empty running = false -> build_same installed running = false ->
    (ws_BinaryRecoveryBuild (wd_status w) = ""%string \/ ws_BinaryRecoveryBuild (wd_status w) <> build_String installed) ->
    justified e w "binary_drift".

(** The watchdog restarts the kernel at most once per check, and only for a
    cause: the unit is down, or the kernel itself reported another configuration
    than the one on disk, or it identified itself as another build than the
    installed one, which was not tried yet. The configuration was validated
    first, and nothing is restarted while an update holds the host lock, without a
    configuration, or when the agent does not manage the process. *)
Theorem restart_is_justified e now w :
  wd_restarts (runCoreWatchdogCheck e now w) = wd_restarts w \/
  (exists k reason, wd_restarts (runCoreWatchdogCheck e now w) = (now, k, reason) :: wd_restarts w /\
    we_managed e = true /\ we_hostLock e = true /\ we_validate e = None /\ (exists raw, we_config e = Some raw /\ raw <> []) /\
    justified e w reason).
Proof.
  unfold runCoreWatchdogCheck. destruct (we_cancelled e); cbn [orb]; [by left |]. destruct (we_managed e); cbn [negb]; [| by left].
  destruct (we_config e) as [[| b raw] |]; [by left | | by left]. destruct (we_hostLock e); cbn [negb]; [| by left].
  set (s0 := _<|ws_LastCheckedAt := now|>). assert (exists raw', Some (b :: raw) = Some raw' /\ raw' <> []) as Hraw by eauto.
  destruct (we_active e) eqn:Ea.
  - unfold check_active. cbv zeta. destruct (drift _) eqn:Ed.
    { unfold recoverCoreRuntimeDrift. destruct (in_backoff _ _); [by left |].
      match goal with |- context [validated_restart e now ?r ?s w] => destruct (validated_restarts e now r s w) as [-> | [Hv ->]] end; [by left |].
      right. eexists _, _. split_and!; [done | done | done | done | done |]. destruct (we_digest e) as [d |] eqn:Edig; [| done].
      apply drift_is_positive in Ed as (status & Hs & Hne). eapply because_drift; [done | exact Hs | congruence]. }
    destruct (ck_Verification _ =s _); [by left |]. destruct (binaryDrift _) eqn:Eb; [| left; unfold write; cbn; by destruct (_ && _)].
    unfold recoverCoreBinaryDrift. cbv zeta. destruct (negb _ && _) eqn:El; [by left |]. destruct (in_backoff _ _); [by left |].
    match goal with |- context [validated_restart e now ?r ?s w] => destruct (validated_restarts e now r s w) as [-> | [Hv ->]] end; [by left |].
    right. eexists _, _. split_and!; [done | done | done | done | done |].
    apply binaryDrift_is_positive in Eb as (running & installed & Hr & Hi & Hs & Hb & _).
    eapply because_binary; [done | exact Hi | exact Hr | exact Hs |]. rewrite Hb in El. cbn in El.
    apply andb_false_iff in El as [El | El]; [left | right].
    + apply negb_false_iff, str_eqb_eq in El. exact El.
    + by apply str_eqb_neq in El.
  - unfold check_stopped. cbv zeta. destruct (in_backoff _ _); [by left |].
    match goal with |- context [validated_restart e now ?r ?s w] => destruct (validated_restarts e now r s w) as [-> | [Hv ->]] end; [by left |].
    right. eexists _, _. split_and!; [done | done | done | done | done |]. by constructor.
Qed.

(** ** Restarts are paced *)

Definition follows (new old : Time * Z * string) : Prop :=
  let '(t1, k1, _) := new in
  let '(t0, k0, _) := old in
  t0 + coreWatchdogBackoff (k0 + 1) <= t1 /\ (k0 + 1 <= k1 \/ t0 + 2 * Minute <= t1).

(** The state of the pacing at time [T]. *)
Record pacing (T next stable cons : Z) (l : list (Time * Z * string)) : Prop := {
  pc_cons : 0 <= cons;
  pc_list : Sorted follows l;
  pc_head : match l with
            | [] => True
            | (t, k, _) :: _ =>
                1 <= k /\ t <= T /\
                ((next = time_zero /\ t + 2 * Minute <= T) \/ (next <> time_zero /\ t + coreWatchdogBackoff (k + 1) <= next)) /\
                (stable = time_zero \/ t <= stable) /\ (k <= cons \/ t + 2 * Minute <= T)
            end
}.

Definition paced (T : Z) (s : coreWatchdogStatus) (l : list (Time * Z * string)) : Prop :=
  pacing T (ws_NextAttemptAt s) (ws_StableSince s) (ws_Consecutive s) l.

Lemma backoff_bound k : 0 <= coreWatchdogBackoff k <= 2 * Minute.
Proof. unfold coreWatchdogBackoff, Minute, Second. solve_arith. Qed.

Ltac pace := unfold time_zero, Minute, Second in *; lia.

Lemma pacing_later T T' next stable cons l : T <= T' -> pacing T next stable cons l -> pacing T' next stable cons l.
Proof. intros H [H1 H2 H3]. split; [done | done |]. destruct l as [| [[t k] r] l]; [done |]. pace. Qed.

Lemma pacing_unstable T next stable cons l : pacing T next stable cons l -> pacing T next time_zero cons l.
Proof. intros [H1 H2 H3]. split; [done | done |]. destruct l as [| [[t k] r] l]; [done |]. pace. Qed.

Lemma pacing_more T next stable cons l : pacing T next stable cons l -> pacing T next stable (1 + cons) l.
Proof. intros [H1 H2 H3]. split; [lia | done |]. destruct l as [| [[t k] r] l]; [done |]. pace. Qed.

Lemma pacing_invalid T next stable cons l : 0 <= T -> pacing T next stable cons l -> pacing T (T + 2 * Minute) stable cons l.
Proof.
  intros HT [H1 H2 H3]. split; [done | done |]. destruct l as [| [[t k] r] l]; [done |]. pose proof (backoff_bound (k + 1)). pace.
Qed.

Lemma pacing_stable T next stable cons l since : T <= since -> pacing T next stable cons l -> pacing T next since cons l.
Proof. intros H [H1 H2 H3]. split; [done | done |]. destruct l as [| [[t k] r] l]; [done |]. pace. Qed.

Lemma pacing_reset T next stable cons l : stable <> time_zero -> stable + 2 * Minute <= T ->
  pacing T next stable cons l -> pacing T time_zero stable 0 l.
Proof. intros Hz H [H1 H2 H3]. split; [done | done |]. destruct l as [| [[t k] r] l]; [done |]. pace. Qed.

(** A restart outside of the backoff. *)
Lemma pacing_restart T next stable cons l reason : 0 <= T -> 1 <= cons -> (next = time_zero \/ next <= T) -> pacing T next stable (cons - 1) l ->
  pacing T (T + coreWatchdogBackoff (cons + 1)) time_zero cons ((T, cons, reason) :: l).
Proof.
  intros HT Hc Hn [H1 H2 H3]. pose proof (backoff_bound (cons + 1)). split; [lia | | split_and!; [lia | lia | right; pace | by left | by left]].
  constructor; [done |]. destruct l as [| [[t k] r] l]; constructor. unfold follows. pose proof (backoff_bound (k + 1)). pace.
Qed.

Lemma not_in_backoff now s : in_backoff now s = false -> ws_NextAttemptAt s = time_zero \/ ws_NextAttemptAt s <= now.
Proof.
  unfold in_backoff, IsZero, Before. intros H. apply andb_false_iff in H as [H | H]; zify_bool; auto.
Qed.

Lemma stable_enough now since : coreWatchdogStableReset <= time_Sub now since -> since + 2 * Minute <= now.
Proof.
  unfold time_Sub, clamp, coreWatchdogStableReset, min_int64, max_int64, Minute, Second.
  destruct (Z.ltb_spec (now - since) (- 2 ^ 63)); [lia |]. destruct (Z.ltb_spec (2 ^ 63 - 1) (now - since)); lia.
Qed.

Lemma restart_paced e now reason s w : 0 <= now -> now <= we_later e -> 1 <= ws_Consecutive s -> ws_StableSince s = time_zero ->
  (ws_NextAttemptAt s = time_zero \/ ws_NextAttemptAt s <= now) ->
  pacing now (ws_NextAttemptAt s) time_zero (ws_Consecutive s - 1) (wd_restarts w) ->
  paced now (wd_status (restartCoreFromWatchdog e now reason s w)) (wd_restarts (restartCoreFromWatchdog e now reason s w)).
Proof.
  intros H0 Hl Hc Hs Hn Hp. unfold paced. rewrite restartCore_restarts.
  pose proof (pacing_restart now _ _ _ _ reason H0 Hc Hn Hp) as Hr.
  unfold restartCoreFromWatchdog. cbv zeta. destruct (we_restart e); [cbn; by rewrite Hs |]. destruct (we_stable e); [cbn; by rewrite Hs |].
  destruct (drift _); [cbn; by rewrite Hs |]. destruct (binaryDrift _); [cbn; by rewrite Hs |]. cbn. by eapply pacing_stable.
Qed.

Lemma validated_paced e now reason s w : 0 <= now -> now <= we_later e -> 1 <= ws_Consecutive s -> ws_StableSince s = time_zero ->
  (ws_NextAttemptAt s = time_zero \/ ws_NextAttemptAt s <= now) ->
  pacing now (ws_NextAttemptAt s) time_zero (ws_Consecutive s - 1) (wd_restarts w) ->
  paced now (wd_status (validated_restart e now reason s w)) (wd_restarts (validated_restart e now reason s w)).
Proof.
  intros H0 Hl Hc Hs Hn Hp. unfold validated_restart. destruct (we_validate e); [| by apply restart_paced].
  unfold paced. cbn. rewrite Hs. eapply pacing_invalid; [done |].
  replace (ws_Consecutive s) with (1 + (ws_Consecutive s - 1)) by lia. apply pacing_more. exact Hp.
Qed.

Lemma check_active_paced e now s w : 0 <= now -> now <= we_later e -> paced now s (wd_restarts w) ->
  paced now (wd_status (check_active e now s w)) (wd_restarts (check_active e now s w)).
Proof.
  intros H0 Hl Hp0. unfold check_active. cbv zeta. generalize (checkCoreRuntimeConfig (we_digest e) (we_probe e)). intros check.
  assert (paced now (observe check now s) (wd_restarts w)) as Hp by exact Hp0. revert Hp.
  generalize (ws_State s =s "running"). generalize (observe check now s). clear Hp0 s. intros s running Hp.
  assert (forall d, 1 + ws_Consecutive s - 1 = d -> pacing now (ws_NextAttemptAt s) time_zero d (wd_restarts w)) as Hz.
  { intros d <-. replace (1 + ws_Consecutive s - 1) with (ws_Consecutive s) by lia. by eapply pacing_unstable. }
  destruct (drift _).
  { unfold recoverCoreRuntimeDrift. destruct (in_backoff _ _) eqn:Eb; [done |]. apply not_in_backoff in Eb.
    apply validated_paced; [exact H0 | exact Hl | cbn; pose proof (pc_cons _ _ _ _ _ Hp); lia | reflexivity | exact Eb | by apply Hz]. }
  destruct (ck_Verification _ =s _); [by destruct (ck_Err _) |]. destruct (binaryDrift _).
  { unfold recoverCoreBinaryDrift. cbv zeta. destruct (negb _ && _); [done |]. destruct (in_backoff _ _) eqn:Eb; [done |].
    apply not_in_backoff in Eb. pose proof (pc_cons _ _ _ _ _ Hp).
    destruct (we_validate e); (apply validated_paced; [exact H0 | exact Hl | cbn; lia | reflexivity | exact Eb | by apply Hz]). }
  match goal with |- context [write ?x ?v] => set (s1 := x); set (w1 := v) end.
  assert (wd_restarts (write s1 w1) = wd_restarts w) as -> by (unfold write, w1; cbn; by destruct (_ && _)).
  unfold paced. cbn [wd_status write upd]. change (wd_status (write s1 w1)) with s1. unfold s1. clear s1 w1.
  match goal with |- context [if ck_BuildState ?c =s _ then ?a else ?b] => set (s2 := if ck_BuildState c =s _ then a else b) end.
  assert (paced now s2 (wd_restarts w)) as H2 by (unfold s2; by destruct (_ =s _)). clearbody s2. clear Hz Hp.
  set (s3 := s2<|ws_State := _|><|ws_LastError := _|>). assert (paced now s3 (wd_restarts w)) as H3 by exact H2. clearbody s3.
  set (s4 := if IsZero (ws_StableSince s3) then _ else s3).
  assert (paced now s4 (wd_restarts w) /\ ws_StableSince s4 <> time_zero) as [H4 Hs4].
  { unfold s4, IsZero. destruct (_ =? _) eqn:E; zify_bool; [| by split]. split; [by eapply pacing_stable | cbn; pace]. }
  destruct (coreWatchdogStableReset <=? _) eqn:Er; zify_bool; [| exact H4]. apply stable_enough in Er. by eapply pacing_reset.
Qed.

Lemma check_stopped_paced e now s w : 0 <= now -> now <= we_later e -> paced now s (wd_restarts w) ->
  paced now (wd_status (check_stopped e now s w)) (wd_restarts (check_stopped e now s w)).
Proof.
  intros H0 Hl Hp. unfold check_stopped. cbv zeta. destruct (in_backoff _ _) eqn:Eb; [unfold paced; cbn; by eapply pacing_unstable |].
  apply not_in_backoff in Eb. pose proof (pc_cons _ _ _ _ _ Hp). apply validated_paced; [exact H0 | exact Hl | cbn; lia | reflexivity | exact Eb |]. cbn.
  replace (1 + ws_Consecutive s - 1) with (ws_Consecutive s) by lia. by eapply pacing_unstable.
Qed.

Lemma check_paced e now w : 0 <= now -> now <= we_later e -> paced now (wd_status w) (wd_restarts w) ->
  paced now (wd_status (runCoreWatchdogCheck e now w)) (wd_restarts (runCoreWatchdogCheck e now w)).
Proof.
  intros H0 Hl Hp. unfold runCoreWatchdogCheck. destruct (_ || _); [done |]. cbv zeta.
  destruct (we_config e) as [[| b raw] |]; [done | | done]. destruct (negb _); [done |].
  destruct (we_active e); [by apply check_active_paced | by apply check_stopped_paced].
Qed.

(** The checks come in the order of the clock. *)
Fixpoint clocked (T : Time) (checks : list (Time * WatchEnv)) : Prop :=
  match checks with
  | [] => True
  | (now, e) :: checks => T <= now /\ now <= we_later e /\ clocked now checks
  end.

Lemma run_paced T checks w : 0 <= T -> clocked T checks -> paced T (wd_status w) (wd_restarts w) ->
  Sorted follows (wd_restarts (run_watchdog w checks)).
Proof.
  revert T w. induction checks as [| [now e] checks IH]; intros T w H0 Hc Hp; [apply Hp |]. destruct Hc as (Hle & Hl & Hc).
  cbn [run_watchdog fold_left fst snd]. apply (IH now); [lia | done |]. apply check_paced; [lia | done |]. by eapply pacing_later.
Qed.

(** C38: however the kernel fails, restarts are paced: the restart that is the
    k-th in a row is followed by the next one only after the backoff of k + 1,
    that is 5, 15, 30 seconds and then two minutes, and the next one counts as
    k + 1 or more unless two minutes went by. *)
Theorem restarts_are_paced service path checks : clocked 0 checks ->
  Sorted follows (wd_restarts (run_watchdog (new_watchdog service path) checks)).
Proof. intros Hc. apply (run_paced 0); [lia | done |]. split; [done | constructor | done]. Qed.

(** ** A stale build is tried once *)

Definition binary_restarts (l : list (Time * Z * string)) : nat := List.length (List.filter (fun r => snd r =s "binary_drift") l).

(** The kernel runs something that is not the installed build [b], if it tells. *)
Definition stuck_on (b : string) (e : WatchEnv) : Prop :=
  let check := checkCoreRuntimeConfig (we_digest e) (we_probe e) in
  ck_BuildState check <> coreBuildStateCurrent /\ (binaryDrift check = true -> build_String (ck_InstalledBuild check) = b).

Definition tried_once (b : string) (w : watchdog) : Prop :=
  (binary_restarts (wd_restarts w) <= 1)%nat /\
  (binary_restarts (wd_restarts w) = 1%nat -> ws_BinaryRecoveryBuild (wd_status w) = b).

Lemma restart_latch e now reason s w : ws_BinaryRecoveryBuild (wd_status (restartCoreFromWatchdog e now reason s w)) = ws_BinaryRecoveryBuild s.
Proof.
  unfold restartCoreFromWatchdog. cbv zeta. destruct (we_restart e); [done |]. destruct (we_stable e); [done |].
  destruct (drift _); [done |]. by destruct (binaryDrift _).
Qed.

Lemma validated_once b e now reason s w : reason <> "binary_drift"%string -> ws_BinaryRecoveryBuild s = ws_BinaryRecoveryBuild (wd_status w) ->
  tried_once b w -> tried_once b (validated_restart e now reason s w).
Proof.
  intros Hr Hs [H1 H2]. unfold validated_restart. destruct (we_validate e); [split; [done | cbn; by rewrite Hs] |].
  unfold tried_once. rewrite restart_latch, restartCore_restarts, Hs. unfold binary_restarts in *. cbn [List.filter snd]. apply str_eqb_neq in Hr. by rewrite Hr.
Qed.

Lemma check_once b e now w : b <> ""%string -> stuck_on b e -> tried_once b w -> tried_once b (runCoreWatchdogCheck e now w).
Proof.
  intros Hb [Hcur Hinst] Hw. unfold runCoreWatchdogCheck. destruct (_ || _); [done |]. cbv zeta.
  destruct (we_config e) as [[| c raw] |]; [done | | done]. destruct (negb _); [done |]. destruct (we_active e).
  - unfold check_active. cbv zeta. set (check := checkCoreRuntimeConfig _ _) in *. destruct (drift check).
    { unfold recoverCoreRuntimeDrift. destruct (in_backoff _ _); [done |]. by apply validated_once. }
    destruct (ck_Verification check =s _); [by destruct (ck_Err check) |]. destruct (binaryDrift check) eqn:Ed.
    + unfold recoverCoreBinaryDrift. cbv zeta. rewrite (Hinst eq_refl). destruct (negb _ && _) eqn:El; [done |].
      destruct (in_backoff _ _); [done |]. unfold validated_restart. destruct (we_validate e) eqn:Ev; [done |].
      unfold tried_once. rewrite restart_latch, restartCore_restarts. cbn. split; [| done]. destruct Hw as [H1 H2].
      unfold binary_restarts in *. cbn [List.filter snd List.length]. rewrite str_eqb_refl. cbn [List.length].
      destruct (List.length (List.filter _ (wd_restarts w))) as [| [|]]; [lia | | lia]. exfalso. specialize (H2 eq_refl). cbn in El.
      rewrite H2, str_eqb_refl, andb_true_r in El. apply negb_false_iff, str_eqb_eq in El. done.
    + apply str_eqb_neq in Hcur. rewrite Hcur. destruct Hw as [H1 H2].
      match goal with |- tried_once b (write ?x ?v) => set (s1 := x); set (w1 := v) end.
      assert (wd_restarts (write s1 w1) = wd_restarts w) as Hr by (unfold write, w1; cbn; by destruct (_ && _)).
      unfold tried_once. rewrite Hr. split; [done |]. intros H. rewrite <- (H2 H). change (wd_status (write s1 w1)) with s1. unfold s1.
      destruct (coreWatchdogStableReset <=? _); cbn; by destruct (IsZero _).
  - unfold check_stopped. cbv zeta. destruct (in_backoff _ _); [done |]. by apply validated_once.
Qed.

(** An installed build is tried once: as long as the kernel never shows to
    run the installed build [b], the watchdog restarts it for [b] at most once,
    however many checks find it stale. *)
Theorem stale_build_is_tried_once service path b checks :
  b <> ""%string -> Forall (fun c => stuck_on b (snd c)) checks ->
  (binary_restarts (wd_restarts (run_watchdog (new_watchdog service path) checks)) <= 1)%nat.
Proof.
  intros Hb Hc. assert (tried_once b (run_watchdog (new_watchdog service path) checks)) as [H _]; [| exact H].
  apply (fold_left_inv _ (tried_once b)); [split; [cbn; lia | done] |]. intros w c Hin. apply check_once; [done |].
  by apply (proj1 (Forall_forall _ _) Hc).
Qed.

(** ** Witnesses *)

(** A kernel that does not stay up. *)
Definition crashing : WatchEnv :=
  mkWatchEnv false true "oboard-sb" (Some (list_ascii_of_string "{}")) true false (Ok "d1"%string) (probe_of "d1" new_build)
    None None (Some "exited"%string) (probe_of "d1" new_build) [] true (100 * Minute).

(** A kernel that keeps running the old build. *)
Definition pinned : WatchEnv :=
  mkWatchEnv false true "oboard-sb" (Some (list_ascii_of_string "{}")) true true (Ok "d1"%string) (probe_of "d1" old_build)
    None None None (probe_of "d1" old_build) [] true (100 * Minute).

Definition crash_checks : list (Time * WatchEnv) := map (fun i => (Z.of_nat i * 5 * Second, crashing)) (seq 1 20).

Lemma restarts_are_paced_witness :
  Sorted follows (wd_restarts (run_watchdog (new_watchdog "oboard-sb" "/c") crash_checks)) /\
  map (fun r => r.1.1 / Second) (wd_restarts (run_watchdog (new_watchdog "oboard-sb" "/c") crash_checks)) = [55; 25; 10; 5].
Proof.
  split; [| vm_compute; reflexivity]. apply (restarts_are_paced "oboard-sb" "/c" crash_checks).
  vm_compute. repeat split; discriminate.
Defined.

Definition stale_checks : list (Time * WatchEnv) := map (fun i => (Z.of_nat i * Minute, pinned)) (seq 1 20).

Lemma stale_build_is_tried_once_witness :
  (binary_restarts (wd_restarts (run_watchdog (new_watchdog "oboard-sb" "/c") stale_checks)) <= 1)%nat.
Proof.
  apply (stale_build_is_tried_once "oboard-sb" "/c" (build_String new_build) stale_checks); [by vm_compute |].
  apply Forall_forall. intros c Hc. apply list_elem_of_fmap in Hc as (i & -> & _). cbn [snd]. split; [by vm_compute |]. intros _. by vm_compute.
Defined.
