(* ===== verification/AgentAuthorization.v ===== *)
(** * AgentAuthorization: the authorization lane of the agent

    internal/agent/authorization.go with internal/security/authorization.go
    and the local API of the kernel (cmd/oboard-sb/authorization.go). A signed
    envelope is verified, its lease goes into the store of the agent, SSH
    sessions are reaped, and the kernel receives the lease and the deny
    watermark over its local API and is asked what it holds. The file composes
    the lease store, the SSH inbounds and the connection tracker, each with a
    store and a disk of its own.

    [Lane] is the state of both processes. [LaneEnv] holds what one pass meets:
    the instants, the writes, the configuration on disk and the fate of the two
    local calls. Bodies of the local calls travel as values; the two structures
    the kernel decodes them into are [post_body]. HMAC and SHA-256 are
    parameters. *)

From S2P Require Import Prelude GoTime Stealth Files Json Authorization Window Quota Tracker TrackerInv SshInbound CoreRuntime Agentlink ControllerLink.

(** ** Signed envelopes *)

Record AuthorizationEnvelope := mkEnvelope {
  ev_MessageID : string; ev_ServerID : Z; ev_LeaseJSON : string; ev_Signature : string
}.

Record AuthorizationEnvelopeFields := mkFields {
  ef_ServerID : Z; ef_MessageID : string; ef_Revision : Z; ef_Sequence : Z;
  ef_IssuedAt : string; ef_ExpiresAt : string; ef_LeaseJSON : string
}.

Definition newline : string := String "010"%char "".

Section Envelopes.
Context (sha256hex : string -> string) (sign : string -> string -> string).

(** The fields joined by newlines, the lease by its hash. *)
Definition canonicalAuthorizationEnvelope (f : AuthorizationEnvelopeFields) : string :=
  str_join newline ["authz_v1"%string; pretty (ef_ServerID f); ef_MessageID f; pretty (ef_Revision f); pretty (ef_Sequence f);
    ef_IssuedAt f; ef_ExpiresAt f; sha256hex (ef_LeaseJSON f)].

Definition SignAuthorizationEnvelope (secret : string) (f : AuthorizationEnvelopeFields) : string :=
  sign secret (canonicalAuthorizationEnvelope f).

Definition VerifyAuthorizationEnvelope (secret : string) (f : AuthorizationEnvelopeFields) (signature : string) : bool :=
  if (secret =s "") || (signature =s "") then false else SignAuthorizationEnvelope secret f =s signature.

Inductive rejection := RejServer | RejMissing | RejDecode | RejSignature | RejLease (e : string).

Definition envelope_fields (e : AuthorizationEnvelope) (l : Lease) : AuthorizationEnvelopeFields :=
  mkFields (ev_ServerID e) (ev_MessageID e) (l_Revision l) (l_Sequence l) (l_IssuedAt l) (l_ExpiresAt l) (ev_LeaseJSON e).

(** [serverID] and [token] are the enrolled identity of the configuration;
    HashSecret is [sha256hex]. *)
Definition verifyAuthorizationEnvelope {CL : Codec Lease} (serverID : Z) (token : string) (e : AuthorizationEnvelope)
  : result rejection Lease :=
  if (0 <? serverID) && negb (ev_ServerID e =? serverID) then Err RejServer
  else if (TrimSpace (ev_LeaseJSON e) =s "") || (TrimSpace (ev_Signature e) =s "") then Err RejMissing
  else
    match json_Unmarshal (A := Lease) (list_ascii_of_string (ev_LeaseJSON e)) with
    | None => Err RejDecode
    | Some lease =>
        if negb (VerifyAuthorizationEnvelope (sha256hex token) (envelope_fields e lease) (ev_Signature e)) then Err RejSignature
        else match lease_Validate (Some lease) with Err m => Err (RejLease m) | Ok _ => Ok lease end
    end.

End Envelopes.

(** ** What a signature binds *)

Definition no_newline (s : string) : Prop := "010"%char ∉ list_ascii_of_string s.

Lemma bytes_app a b : list_ascii_of_string (a +:+ b) = list_ascii_of_string a ++ list_ascii_of_string b.
Proof. induction a as [| c a IH]; [done |]. cbn. by rewrite <- IH. Qed.

Lemma bytes_inj a b : list_ascii_of_string a = list_ascii_of_string b -> a = b.
Proof. intros E. rewrite <- (string_of_list_ascii_of_string a), <- (string_of_list_ascii_of_string b). by rewrite E. Qed.

Lemma no_newline_app a b : no_newline (a +:+ b) <-> no_newline a /\ no_newline b.
Proof. unfold no_newline. rewrite bytes_app, not_elem_of_app. done. Qed.

Lemma no_newline_digit x : pretty_N_char x <> "010"%char.
Proof. unfold pretty_N_char. destruct x as [| p]; [done |]. by do 4 (destruct p as [p | p |]; try done). Qed.

Lemma no_newline_N (x : N) : no_newline (pretty x).
Proof.
  unfold pretty, pretty_N. destruct (decide (x = 0%N)); [by apply (bool_decide_unpack _); vm_compute |].
  assert (forall s, no_newline s -> no_newline (pretty_N_go x s)) as Hgo; [| apply Hgo; by apply (bool_decide_unpack _); vm_compute].
  clear. induction (N.lt_wf_0 x) as [x _ IH]. intros s Hs. destruct (decide (x = 0%N)) as [-> | Hx].
  { by rewrite pretty_N_go_0. }
  rewrite pretty_N_go_step by lia. apply IH; [apply N.div_lt; lia |].
  unfold no_newline in *. cbn. rewrite not_elem_of_cons. split; [| done]. intros E. by apply (no_newline_digit (x `mod` 10)%N).
Qed.

Lemma no_newline_Z (z : Z) : no_newline (pretty z).
Proof.
  destruct z as [| p | p]; cbn; [apply (no_newline_N 0) | apply (no_newline_N (Npos p)) |].
  unfold pretty, pretty_Z. apply no_newline_app. split; [by apply (bool_decide_unpack _); vm_compute | apply (no_newline_N (Npos p))].
Qed.

Lemma split_first (a b x y : list ascii) c : c ∉ a -> c ∉ b -> a ++ c :: x = b ++ c :: y -> a = b /\ x = y.
Proof.
  revert b. induction a as [| h a IH]; intros [| h' b] Ha Hb; cbn.
  - by intros [= <-].
  - intros [= <- _]. by destruct Hb; left.
  - intros [= -> _]. by destruct Ha; left.
  - intros [= <- E]. apply not_elem_of_cons in Ha as [_ Ha], Hb as [_ Hb]. destruct (IH b Ha Hb E) as [-> ->]. done.
Qed.

Lemma split_last (a b x y : list ascii) c : c ∉ x -> c ∉ y -> (a ++ [c]) ++ x = (b ++ [c]) ++ y -> a = b /\ x = y.
Proof.
  intros Hx Hy E. apply (f_equal (@reverse ascii)) in E. rewrite !reverse_app in E. cbn in E.
  apply split_first in E as [E1 E2]; [| by rewrite elem_of_reverse..].
  split; by apply (inj (@reverse ascii)).
Qed.

(** What an accepted envelope satisfies. *)
Lemma verified_envelope {CL : Codec Lease} sha256hex sign serverID token e l :
  verifyAuthorizationEnvelope sha256hex sign serverID token e = Ok l ->
  (0 < serverID -> ev_ServerID e = serverID) /\
  json_Unmarshal (A := Lease) (list_ascii_of_string (ev_LeaseJSON e)) = Some l /\
  sign (sha256hex token) (canonicalAuthorizationEnvelope sha256hex (envelope_fields e l)) = ev_Signature e.
Proof.
  unfold verifyAuthorizationEnvelope, VerifyAuthorizationEnvelope, SignAuthorizationEnvelope.
  destruct (_ && _) eqn:Es; [done |]. destruct (_ || _); [done |].
  destruct (json_Unmarshal _) as [l0 |]; [| done].
  destruct (_ || _); [done |]. destruct (_ =s _) eqn:Ev; [| done]. cbn.
  destruct (lease_Validate (Some l0)); [| done]. intros [= <-]. apply str_eqb_eq in Ev.
  split_and!; [| done | done]. intros Hp. apply andb_false_iff in Es as [Es | Es]; zify_bool; lia.
Qed.

Section Binding.
Context (sha256hex : string -> string) (sign : string -> string -> string).
Context (sha256hex_inj : forall a b, sha256hex a = sha256hex b -> a = b).
Context (sha256hex_line : forall a, no_newline (sha256hex a)).
Context (sign_inj : forall k a b, sign k a = sign k b -> a = b).

(** The canonical string determines the lease text, and with the numbers and
    instants that text carries, the server and the message. *)
Lemma canonical_inj f g :
  canonicalAuthorizationEnvelope sha256hex f = canonicalAuthorizationEnvelope sha256hex g ->
  (ef_LeaseJSON f = ef_LeaseJSON g -> ef_Revision f = ef_Revision g /\ ef_Sequence f = ef_Sequence g /\
     ef_IssuedAt f = ef_IssuedAt g /\ ef_ExpiresAt f = ef_ExpiresAt g) -> f = g.
Proof.
  unfold canonicalAuthorizationEnvelope. intros E Hsame. apply (f_equal list_ascii_of_string) in E.
  cbn [str_join] in E. rewrite !bytes_app in E. cbn [newline list_ascii_of_string] in E.
  rewrite !app_assoc in E. cbn [app] in E. injection E as E. apply split_last in E as [E Eh]; [| apply sha256hex_line..].
  apply bytes_inj, sha256hex_inj in Eh. destruct (Hsame Eh) as (Hr & Hq & Hi & Hx). rewrite Hr, Hq, Hi, Hx in E.
  do 8 (apply app_inv_tail in E). rewrite <- !app_assoc in E. cbn [app] in E.
  apply split_first in E as [Es Em]; [| apply no_newline_Z..].
  apply bytes_inj, (inj pretty) in Es. apply bytes_inj in Em. destruct f, g. cbn in *. congruence.
Qed.

(** A signature is good for one envelope: two envelopes that an agent with
    the same token accepts under one signature are the same envelope, so a
    signed lease cannot be carried to another server, renamed or exchanged for
    another lease. *)
Theorem signature_binds_envelope {CL : Codec Lease} s1 s2 token e1 e2 l1 l2 :
  verifyAuthorizationEnvelope sha256hex sign s1 token e1 = Ok l1 ->
  verifyAuthorizationEnvelope sha256hex sign s2 token e2 = Ok l2 ->
  ev_Signature e1 = ev_Signature e2 ->
  e1 = e2 /\ l1 = l2 /\ (0 < s1 -> 0 < s2 -> s1 = s2).
Proof.
  intros H1 H2 Hs.
  apply verified_envelope in H1 as (Hs1 & Hd1 & Hv1), H2 as (Hs2 & Hd2 & Hv2).
  rewrite <- Hs, <- Hv1 in Hv2. apply sign_inj, eq_sym, canonical_inj in Hv2; [| intros E; cbn in *; rewrite E in *; naive_solver].
  unfold envelope_fields in Hv2. destruct e1, e2. cbn in *. injection Hv2 as -> -> _ _ _ _ ->.
  split_and!; [by subst | congruence | lia].
Qed.
End Binding.

(** ** The configuration the lane looks at *)

(** What [configAuthorization] decodes: the snapshot and the key of every limit
    entry, by group and name. *)
Record AuthMetadata := mkAuthMetadata {
  am_Authorization : option Lease;
  am_Limits : gmap string (gmap string string)
}.

(** What [configHasAuthorizationUsers] decodes: the runtime-user tags and the
    user number and key of the limit entries of two groups. *)
Record identity := mkUserIdentity { id_UserID : Z; id_Key : string }.
Record UsersMetadata := mkUsersMetadata {
  um_Tags : list string;
  um_Users : gmap string identity;
  um_Inbounds : gmap string identity
}.

Definition any_value {V} (p : V -> bool) (m : gmap string V) : bool := existsb (fun kv => p (snd kv)) (map_to_list m).

Definition installed (i : identity) : bool := (0 <? id_UserID i) || negb (id_Key i =s "").

Section Configuration.
Context {CA : Codec AuthMetadata} {CU : Codec UsersMetadata}.

Definition configAuthorization (raw : bytes) : result string (option Lease) :=
  match json_Unmarshal (A := AuthMetadata) raw with
  | None => Err "invalid configuration"%string
  | Some c =>
      if bool_decide (am_Authorization c = None) && any_value (any_value (fun key => negb (key =s ""))) (am_Limits c)
      then Err "authorization snapshot is required for installed credentials"%string
      else let? _ := lease_Validate (am_Authorization c) in Ok (am_Authorization c)
  end.

Definition configHasAuthorizationUsers (raw : bytes) : result string bool :=
  match json_Unmarshal (A := UsersMetadata) raw with
  | None => Err "invalid configuration"%string
  | Some c =>
      Ok (existsb (fun tag => negb (TrimSpace tag =s "")) (um_Tags c) ||
          any_value installed (um_Users c) || any_value installed (um_Inbounds c))
  end.

End Configuration.

(** ** The local API of the kernel *)

(** The body of POST /authorization/config as the kernel decodes it: the
    wrapped update and, promoted beside it, the fields of a bare lease. *)
Record post_body := mkPost { pb_Lease : option Lease; pb_Deny : list string; pb_bare : option Lease }.

Section Lane.
Context {A : AEAD} {CL : Codec Lease} {CD : Codec (gmap string deniedEntry)} {TZ : TimeZones}.
Context {CA : Codec AuthMetadata} {CU : Codec UsersMetadata}.

(** The handler of POST /authorization/config: the status it answers. A body
    without any field of a lease is a zero lease, [pb_bare = None]. *)
Definition postAuthorizationConfig (ev ev' : Event) (body : post_body) (t : tracker) : Z * tracker :=
  let update :=
    match pb_Lease body with
    | Some l => Some l
    | None =>
        match pb_bare body with
        | Some bare => if (l_Revision bare <=? 0) && (l_IssuedAt bare =s "") then None else Some bare
        | None => None
        end
    end in
  match update with
  | None => (400, t)
  | Some l =>
      match ApplyAuthorization ev ev' (Some l) (pb_Deny body) t with
      | (Some _, t) => (409, t)
      | (None, t) => (200, t)
      end
  end.

(** The handler of POST /authorization/deny. *)
Definition postAuthorizationDeny (ev : Event) (keys : list string) (revision : Z) (t : tracker) : Z * tracker :=
  if (List.length keys =? 0)%nat then (400, t)
  else match DenyAuthorization ev keys revision t with
       | ((_, Some _), t) => (409, t)
       | ((_, None), t) => (200, t)
       end.

(** [AuthorizationStatus], the answer of GET /authorization/status. *)
Definition AuthorizationStatus (t : tracker) : Status := fst (store_Status (t_auth t) (t_disk t)).

(** ** The agent and the kernel *)

Record Lane := mkLane {
  ln_store : Store;
  ln_disk : disk;
  ln_ssh : option sshInboundManager;
  ln_kernel : tracker
}.

#[export] Instance eta_Lane : Eta Lane := fun w => mkLane (ln_store w) (ln_disk w) (ln_ssh w) (ln_kernel w).

(** The fate of a local call: it never reaches the kernel, it is answered, or
    it is carried out and the answer is lost. *)
Inductive call := CallLost | CallDone | CallUnanswered.

Record LaneEnv := mkLaneEnv {
  le_env : Env;
  le_ssh_now : Time;
  le_config : deployed;
  le_control : bool;
  le_post : call;
  le_event : Event;
  le_event' : Event;
  le_status : call
}.

Inductive apply_error :=
| AEStore (e : update_error) | AESnapshot (e : string) | AEConfig (e : string)
| AEUnreachable | AERejected (code : Z) | AEReadback | AEMismatch.

Record authorizationApplyOutcome := mkOutcome {
  ao_Status : option Status;
  ao_RuntimeVerified : bool;
  ao_Runtimes : gmap string string;
  ao_Revoked : nat
}.
#[export] Instance eta_outcome : Eta authorizationApplyOutcome := fun o =>
  mkOutcome (ao_Status o) (ao_RuntimeVerified o) (ao_Runtimes o) (ao_Revoked o).

Definition no_outcome : authorizationApplyOutcome := mkOutcome None false ∅ 0.

(** [authorizationAllows] on the store of the agent. *)
Definition authorizationAllows (w : Lane) (now : Time) (key : string) : bool := fst (store_Allows (ln_store w) (ln_disk w) key now).

Definition same_identity_as (s : Status) (l : Lease) : bool :=
  (status_Revision s =? l_Revision l) && (status_Sequence s =? l_Sequence l) &&
  negb (negb (status_Digest s =s "") && negb (l_Digest l =s "") && negb (status_Digest s =s l_Digest l)).

Definition kernel_is (state : string) (o : authorizationApplyOutcome) : authorizationApplyOutcome :=
  o<|ao_Runtimes ::= <["kernel"%string := state]>|>.

(** The read back of what the kernel holds, [readKernelAuthorizationStatus]
    with the comparison that follows it. *)
Definition kernel_verify (e : LaneEnv) (latest : Lease) (o : authorizationApplyOutcome) (w : Lane)
  : (authorizationApplyOutcome * option apply_error) * Lane :=
  match le_status e with
  | CallLost | CallUnanswered => ((kernel_is "readback_failed" o, Some AEReadback), w)
  | CallDone =>
      if same_identity_as (AuthorizationStatus (ln_kernel w)) latest
      then (((kernel_is "verified" o)<|ao_RuntimeVerified := true|>, None), w)
      else ((kernel_is "mismatch" o, Some AEMismatch), w)
  end.

Definition post_for (e : LaneEnv) (latest : Lease) (w : Lane) : post_body :=
  if le_control e then mkPost (Some latest) (fst (store_DeniedKeys (ln_store w) (ln_disk w))) None
  else mkPost None [] (Some latest).

(** The push into the kernel. *)
Definition kernel_apply (e : LaneEnv) (latest : Lease) (o : authorizationApplyOutcome) (w : Lane)
  : (authorizationApplyOutcome * option apply_error) * Lane :=
  match le_post e with
  | CallLost => ((kernel_is "unreachable" o, Some AEUnreachable), w)
  | CallUnanswered =>
      ((kernel_is "unreachable" o, Some AEUnreachable),
       w<|ln_kernel := snd (postAuthorizationConfig (le_event e) (le_event' e) (post_for e latest w) (ln_kernel w))|>)
  | CallDone =>
      let '(code, t) := postAuthorizationConfig (le_event e) (le_event' e) (post_for e latest w) (ln_kernel w) in
      let w := w<|ln_kernel := t|> in
      if negb (code =? 200) then ((kernel_is "rejected" o, Some (AERejected code)), w)
      else if negb (le_control e) then ((kernel_is "applied_unverified" o, None), w)
      else kernel_verify e latest (kernel_is "applied" o) w
  end.

(** The part after the SSH sessions: the snapshot, the configuration, the
    kernel. *)
Definition apply_kernel (e : LaneEnv) (o : authorizationApplyOutcome) (w : Lane)
  : (authorizationApplyOutcome * option apply_error) * Lane :=
  let '((latest, err), s) := store_Snapshot (ln_store w) (ln_disk w) in
  let w := w<|ln_store := s|> in
  match err with
  | Some m => ((o, Some (AESnapshot m)), w)
  | None =>
      let '(status, s) := store_Status (ln_store w) (ln_disk w) in
      let w := w<|ln_store := s|> in
      let o := o<|ao_Status := Some status|> in
      match latest with
      | None => ((o<|ao_RuntimeVerified := true|>, None), w)
      | Some latest =>
          match le_config e with
          | DNone => (((kernel_is "no_config" o)<|ao_RuntimeVerified := true|>, None), w)
          | DUnreadable => ((o, Some (AEConfig "unreadable")), w)
          | DConfig raw =>
              match configHasAuthorizationUsers raw with
              | Err m => ((o, Some (AEConfig m)), w)
              | Ok false => (((kernel_is "no_users" o)<|ao_RuntimeVerified := true|>, None), w)
              | Ok true => kernel_apply e latest o w
              end
          end
      end
  end.

Definition reap_ssh (e : LaneEnv) (w : Lane) : Lane :=
  w<|ln_ssh ::= fmap (reapAuthorization (authorizationAllows w (le_ssh_now e)))|>.

Definition applyAuthorization (e : LaneEnv) (lease : option Lease) (w : Lane)
  : (authorizationApplyOutcome * option apply_error) * Lane :=
  let '((update, _, err), s, d) := store_UpdateWithResult (le_env e) (ln_store w) lease (ln_disk w) in
  let w := w<|ln_store := s|><|ln_disk := d|> in
  match err with
  | Some m => ((no_outcome, Some (AEStore m)), w)
  | None =>
      let o := no_outcome<|ao_Revoked := List.length (ur_Revoked update)|> in
      apply_kernel e (o<|ao_Runtimes := {["ssh"%string := "applied"%string]}|>) (reap_ssh e w)
  end.

Definition applyConfigAuthorization (e : LaneEnv) (raw : bytes) (w : Lane) : option apply_error * Lane :=
  match configAuthorization raw with
  | Err m => (Some (AEConfig m), w)
  | Ok lease => let '((_, err), w) := applyAuthorization e lease w in (err, w)
  end.

(** [stageConfigAuthorization]: [capabilities] is what the kernel binary
    announces, [None] when it cannot be run. *)
Definition stageConfigAuthorization (e : Env) (capabilities : option (list string)) (raw : bytes) (w : Lane)
  : option apply_error * Lane :=
  match configAuthorization raw, configHasAuthorizationUsers raw with
  | Err m, _ | Ok _, Err m => (Some (AEConfig m), w)
  | Ok lease, Ok hasUsers =>
      let supported := match capabilities with Some l => existsb (fun c => c =s "authorization_lease_v1") l | None => false end in
      if bool_decide (is_Some lease) && hasUsers && negb supported
      then (Some (AEConfig "authorization_lease_v1 required"), w)
      else
        let '((_, _, err), s, d) := store_UpdateWithResult e (ln_store w) lease (ln_disk w) in
        (option_map AEStore err, w<|ln_store := s|><|ln_disk := d|>)
  end.

(** ** Envelopes *)

Context (sha256hex : string -> string) (sign : string -> string -> string).

Record AuthorizationAppliedSnapshot := mkApplied { as_Revision : Z; as_Sequence : Z; as_Digest : string; as_BootID : string }.

Definition appliedAuthorization (w : Lane) : option AuthorizationAppliedSnapshot :=
  let status := fst (store_Status (ln_store w) (ln_disk w)) in
  if status_Revision status <=? 0 then None
  else Some (mkApplied (status_Revision status) (status_Sequence status) (status_Digest status) (status_BootID status)).

Inductive ack_error := AckRejected (r : rejection) | AckFailed (e : apply_error).

Record AuthorizationAck := mkAck {
  ak_MessageID : string; ak_Revision : Z; ak_Sequence : Z; ak_Digest : string; ak_Confirmed : bool;
  ak_BootID : string; ak_Runtimes : gmap string string; ak_Error : option ack_error;
  ak_Applied : option AuthorizationAppliedSnapshot
}.

(** A status that was never filled in has every field zero. *)
Definition status_or_zero (o : option Status) : Status := default (mkStatus 0 0 "" "" "" "" 0 0) o.

Definition applyAuthorizationEnvelope (e : LaneEnv) (serverID : Z) (token : string) (envelope : AuthorizationEnvelope) (w : Lane)
  : AuthorizationAck * Lane :=
  match verifyAuthorizationEnvelope sha256hex sign serverID token envelope with
  | Err r => (mkAck (ev_MessageID envelope) 0 0 "" false "" ∅ (Some (AckRejected r)) (appliedAuthorization w), w)
  | Ok lease =>
      let '((o, err), w) := applyAuthorization e (Some lease) w in
      let status := status_or_zero (ao_Status o) in
      match err with
      | Some err =>
          (mkAck (ev_MessageID envelope) (l_Revision lease) (l_Sequence lease) (l_Digest lease) false (status_BootID status)
             (ao_Runtimes o) (Some (AckFailed err)) (appliedAuthorization w), w)
      | None =>
          (mkAck (ev_MessageID envelope) (status_Revision status) (status_Sequence status) (status_Digest status) true
             (status_BootID status)
             (<["runtime_verified"%string := if ao_RuntimeVerified o then "true"%string else "false"%string]> (ao_Runtimes o))
             None (appliedAuthorization w), w)
      end
  end.

(** [applyAuthorizationResponse]: the authorization of a traffic answer, the
    envelope when there is one. *)
Definition applyAuthorizationResponse (e : LaneEnv) (serverID : Z) (token : string) (envelope : option AuthorizationEnvelope)
    (lease : option Lease) (w : Lane) : option ack_error * Lane :=
  match envelope with
  | Some envelope => let '(ack, w) := applyAuthorizationEnvelope e serverID token envelope w in (ak_Error ack, w)
  | None => let '((_, err), w) := applyAuthorization e lease w in (option_map AckFailed err, w)
  end.

(** [pullAuthorization]: the callback under the pause of ControllerLink, then
    the envelope it carried. *)
Definition pullAuthorization (ParseTime : string -> option Z) (e : LaneEnv) (serverID : Z) (token : string) (now : Time) (x : http_exchange)
    (envelope : option AuthorizationEnvelope) (rand : Z) (b : controllerAuthBackoff) (w : Lane) : controllerAuthBackoff * Lane :=
  let '(c, b) := controllerJSON ParseTime now x rand b in
  match c with
  | CStatus code =>
      match envelope with
      | Some envelope => if code <? 300 then (b, snd (applyAuthorizationEnvelope e serverID token envelope w)) else (b, w)
      | None => (b, w)
      end
  | _ => (b, w)
  end.

(** The period of the lane; [raw] is the random number drawn, if any. *)
Definition authorizationSyncInterval : Duration := 30 * Second.
Definition jitteredAuthorizationInterval (raw : option Z) : Duration :=
  match raw with
  | None => authorizationSyncInterval
  | Some n => authorizationSyncInterval + n mod (authorizationSyncInterval / 3)
  end.

End Lane.

(** ** What an accepted update leaves in a store *)

(** [latest] is the lease the store kept or installed for [lease]: it does not
    lose against it. *)
Definition covers (latest lease : Lease) : Prop :=
  store_compare latest lease = orderEqual \/ store_compare latest lease = orderOlder.

(** A grant of the lease that has not run out. *)
Definition granted (l : Lease) (key : string) (now : Time) : Prop :=
  exists raw fin, l_Grants l !! key = Some raw /\ time_Parse raw = Some fin /\ now < fin.

Lemma lease_Allows_granted l key now : lease_Allows (Some l) key now = true -> granted l key now.
Proof.
  unfold lease_Allows, granted, Before. destruct (_ =s _); [done |]. destruct (lease_window l) as [[i x] |]; [| done].
  destruct (_ || _); [done |]. assert (time_Parse "" = None) as Hempty by by_compute.
  destruct (l_Grants l !! key) as [raw |] eqn:E; cbn [from_option id]; [| by rewrite Hempty].
  destruct (time_Parse raw) as [fin |] eqn:Ep; [| done]. rewrite andb_true_iff, Z.ltb_lt. naive_solver.
Qed.

Lemma granted_sub l g key now : granted (l<|l_Grants := g|>) key now -> g ⊆ l_Grants l -> granted l key now.
Proof. intros (raw & fin & Hr & Hp & Hn) Hs. exists raw, fin. split_and!; [| done..]. eapply lookup_weaken; eauto. Qed.

Section Facts.
Context {A : AEAD} {CL : Codec Lease} {CD : Codec (gmap string deniedEntry)} {TZ : TimeZones}.
Context {CA : Codec AuthMetadata} {CU : Codec UsersMetadata}.

(** The store after an update that met no error: it holds a lease that covers
    the candidate, the candidate itself without some grants or one it keeps. *)
Definition settled (s' : Store) (c : Lease) : Prop :=
  st_err s' = None /\ st_loaded s' = true /\ exists l, st_lease s' = Some l /\ covers l c /\
    ((exists g, l = c<|l_Grants := g|> /\ g ⊆ l_Grants c) \/
     store_compare l c = orderOlder \/ (store_compare l c = orderEqual /\ l_Grants c = l_Grants l)).

Lemma install_settled e s c d ur h s' d' :
  st_err s = None -> st_loaded s = true -> install e s c d = ((ur, h, None), s', d') -> settled s' c.
Proof.
  intros He Hl Hi. apply install_fields in Hi as (_ & Hlo & _ & _ & [(_ & _ & Hle & Her) | (Hn & _)]); [| done].
  unfold settled. rewrite Her, Hlo. split_and!; [done | done |]. eexists. split; [exact Hle |].
  split; [left; apply store_compare_refl |]. left. eexists. split; [done |].
  rewrite deny_one_grants. apply filter_grants_sub.
Qed.

Lemma update_settled e s c d ur h s' d' :
  store_UpdateWithResult e s (Some c) d = ((ur, h, None), s', d') -> settled s' c.
Proof.
  pose proof (store_load_loaded s d) as Hl. unfold store_UpdateWithResult.
  destruct (st_err (store_load s d)) eqn:Ee; [done |].
  destruct (lease_Validate (Some c)); [| done].
  destruct (st_lease (store_load s d)) as [cur |] eqn:El; [| by apply install_settled].
  assert (forall x : (UpdateResult * bool * option update_error), covers cur c ->
    store_compare cur c = orderOlder \/ (store_compare cur c = orderEqual /\ l_Grants c = l_Grants cur) ->
    (x, store_load s d, d) = ((ur, h, None), s', d') -> settled s' c) as Hkept.
  { intros x Hc Hg E. assert (s' = store_load s d) as -> by congruence. split_and!; [done | done |]. exists cur. auto. }
  unfold covers in Hkept. destruct (store_compare cur c) eqn:Ec; [by apply install_settled | by apply Hkept; auto | | done].
  destruct (_ || _) eqn:Eo; [done |]. zify_bool.
  destruct (_ =? _)%nat; [by apply Hkept; auto | by apply install_settled].
Qed.

(** A store that answers with the identity of a numbered lease holds none that
    is ahead of it. *)
Lemma same_identity_not_older s d l c :
  same_identity_as (fst (store_Status s d)) c = true -> st_loaded s = true -> st_lease s = Some l -> 0 < l_Sequence c ->
  store_compare l c <> orderOlder.
Proof.
  unfold store_Status, same_identity_as. intros Hs Hlo Hl Hp. rewrite store_load_idemp, Hl in Hs by done. cbn in Hs.
  rewrite !andb_true_iff, negb_true_iff, !Z.eqb_eq in Hs. destruct Hs as [[Hr Hq] _].
  unfold store_compare. destruct (window_or_zero l) as [ci cx]. rewrite Hr, !Z.ltb_irrefl, Hq.
  destruct (negb _ && negb _ && negb _); [by destruct (negb _) |].
  destruct (Z.ltb_spec 0 (l_Sequence c)); [| lia]. cbn [andb]. rewrite !Z.ltb_irrefl. by destruct (_ =? _).
Qed.

Lemma kernel_settled ev ev' l deny t t' :
  inv t -> ApplyAuthorization ev ev' (Some l) deny t = (None, t') -> settled (t_auth t') l.
Proof.
  intros Hi. unfold ApplyAuthorization.
  assert (inv (snd (if (0 <? List.length deny)%nat then auth_Deny ev deny (l_Revision l) t else (None, t)))) as H1
    by (destruct (0 <? _)%nat; [by apply auth_Deny_inv | done]).
  destruct (if (0 <? List.length deny)%nat then _ else _) as [[m |] t1]; [done |].
  pose proof (auth_Update_inv ev' (Some l) t1 H1) as H2. unfold auth_Update in *. cbn [snd] in *.
  destruct (store_UpdateWithResult _ _ _ _) as [[[[ur h] [m |]] s] d] eqn:Eu; [done |].
  intros E. assert (t' = snd (ReapAuthorization ev' (t1<|t_auth := s|><|t_disk := d|>))) as -> by congruence.
  destruct (good_Reap ev' _ H2) as [_ Hsh]. cbn [snd] in Hsh. rewrite (sh_auth _ _ Hsh). by eapply update_settled.
Qed.

(** A kernel that settled for the lease and reports its identity lets no
    connection stay open without a grant of that lease. *)
Lemma settled_kernel_governs ev ev' l deny t t' n id c :
  inv t -> ApplyAuthorization ev ev' (Some l) deny t = (None, t') ->
  same_identity_as (AuthorizationStatus t') l = true -> 0 < l_Sequence l ->
  open_in (the_index n t') id c -> authorizationKey (c_identity c) <> ""%string ->
  granted l (authorizationKey (c_identity c)) (ev_now ev').
Proof.
  intros Hi Ha Hs Hq Ho Hk. pose proof (kernel_settled _ _ _ _ _ _ Hi Ha) as (He & Hlo & kl & Hkl & _ & Hcase).
  destruct (ApplyAuthorization_cases ev ev' (Some l) deny t Hi) as [Hi' Hc]. rewrite Ha in Hi', Hc. cbn [fst snd] in *.
  destruct (Hc eq_refl) as (t1 & Hi1 & ->).
  pose proof (reap_complete ev' t1 n id c Hi1 Ho) as Hr. set (t' := snd (ReapAuthorization ev' t1)) in *.
  destruct (inv_conns _ Hi' _ _ _ (proj1 Ho)) as [x Hx].
  assert (granted kl (authorizationKey (c_identity c)) (ev_now ev')) as Hg.
  { apply lease_Allows_granted. unfold conn_revoked in Hr. rewrite Hx in Hr. unfold authorizationRevokedFor in Hr.
    apply str_eqb_neq in Hk. rewrite Hk, andb_false_r in Hr.
    destruct (Allows t' _ _) eqn:Eal; [| done]. unfold Allows, store_Allows in Eal.
    rewrite Hk, (store_load_idemp _ _ Hlo), He in Eal. destruct (st_denied _ !! _); [done |]. by rewrite Hkl in Eal. }
  destruct Hcase as [(g & -> & Hsub) | [Hold | (_ & Hgr)]].
  - by eapply granted_sub.
  - exfalso. by apply (same_identity_not_older _ _ _ _ Hs Hlo Hkl Hq).
  - unfold granted in *. by rewrite Hgr.
Qed.

(** Sessions that survive the reaping have a key the store of the agent
    allows. *)
Lemma reap_ssh_allowed e w m k i id user :
  ln_ssh (reap_ssh e w) = Some m -> sm_listeners m !! k = Some i -> open_session i id user ->
  exists c, in_auth i !! user = Some c /\ authorizationAllows w (le_ssh_now e) (cr_authorizationKey c) = true.
Proof.
  unfold reap_ssh. cbn. destruct (ln_ssh w) as [m0 |]; cbn; [| done]. intros [= <-]. cbn. rewrite lookup_fmap.
  destruct (sm_listeners m0 !! k) as [i0 |]; cbn; [| done]. intros [= <-] [_ Ha]%reap_inbound_open. cbn.
  unfold sessionAuthorized, credentialAuthorized in Ha. destruct (in_auth i0 !! user) as [c |]; [| done].
  exists c. apply andb_true_iff in Ha as [Ha _]. done.
Qed.

Lemma authorizationAllows_granted w s l key now :
  ln_store w = s -> st_loaded s = true -> st_err s = None -> st_lease s = Some l ->
  authorizationAllows w now key = true -> granted l key now /\ st_denied s !! key = None.
Proof.
  intros <- Hlo He Hl. unfold authorizationAllows, store_Allows. destruct (key =s ""); [done |].
  rewrite (store_load_idemp _ _ Hlo), He, Hl. destruct (st_denied _ !! _); [done |]. split; [| done].
  by apply lease_Allows_granted.
Qed.

(** The push leaves the agent alone. *)
Lemma kernel_apply_frame e l o w r w' :
  kernel_apply e l o w = (r, w') ->
  ln_store w' = ln_store w /\ ln_disk w' = ln_disk w /\ ln_ssh w' = ln_ssh w /\ ao_Status (fst r) = ao_Status o.
Proof.
  unfold kernel_apply, kernel_verify. destruct (le_post e); try (intros [= <- <-]; done).
  destruct (postAuthorizationConfig _ _ _ _) as [code t]. destruct (negb _); [intros [= <- <-]; done |].
  destruct (negb _); [intros [= <- <-]; done |].
  destruct (le_status e); [| destruct (same_identity_as _ _) |]; intros [= <- <-]; done.
Qed.

Lemma apply_kernel_frame e o w r w' :
  st_loaded (ln_store w) = true -> apply_kernel e o w = (r, w') ->
  ln_store w' = ln_store w /\ ln_disk w' = ln_disk w /\ ln_ssh w' = ln_ssh w.
Proof.
  intros Hl. unfold apply_kernel, store_Snapshot, store_Status. rewrite !(store_load_idemp _ _ Hl). cbn.
  rewrite ?(store_load_idemp _ _ Hl).
  destruct (st_err _); [intros [= _ <-]; done |]. destruct (st_lease _) as [l |]; [| intros [= _ <-]; done].
  destruct (le_config e); try (intros [= _ <-]; done).
  destruct (configHasAuthorizationUsers raw) as [[] |]; try (intros [= _ <-]; done).
  intros H. apply kernel_apply_frame in H. naive_solver.
Qed.

(** "verified" is only reported of a kernel that took the lease and names it. *)
Lemma kernel_apply_verified e l o w o' w' :
  ao_Runtimes o !! "kernel"%string = None -> kernel_apply e l o w = ((o', None), w') ->
  ao_Runtimes o' !! "kernel"%string = Some "verified"%string ->
  exists deny, ApplyAuthorization (le_event e) (le_event' e) (Some l) deny (ln_kernel w) = (None, ln_kernel w') /\
    same_identity_as (AuthorizationStatus (ln_kernel w')) l = true.
Proof.
  intros Ho. unfold kernel_apply. destruct (le_post e); try done.
  unfold post_for. destruct (le_control e).
  - unfold postAuthorizationConfig. cbn [pb_Lease pb_Deny]. set (deny := fst _).
    destruct (ApplyAuthorization _ _ _ _ _) as [[m |] t] eqn:Ea; cbn [negb]; [done |].
    unfold kernel_verify. destruct (le_status e); try done. destruct (same_identity_as _ _) eqn:Es; [| done].
    intros [= <- <-] _. exists deny. split; [exact Ea | exact Es].
  - destruct (postAuthorizationConfig _ _ _ _) as [code t]. destruct (negb (code =? 200)); [done |].
    cbn [negb]. intros [= <- <-]. unfold kernel_is. cbn. by rewrite lookup_insert_eq.
Qed.

Lemma apply_kernel_verified e o w o' w' :
  st_loaded (ln_store w) = true -> ao_Runtimes o !! "kernel"%string = None -> apply_kernel e o w = ((o', None), w') ->
  st_err (ln_store w) = None /\ ao_Status o' = Some (fst (store_Status (ln_store w) (ln_disk w))) /\
  (ao_Runtimes o' !! "kernel"%string = Some "verified"%string -> exists l deny, st_lease (ln_store w) = Some l /\
     ApplyAuthorization (le_event e) (le_event' e) (Some l) deny (ln_kernel w) = (None, ln_kernel w') /\
     same_identity_as (AuthorizationStatus (ln_kernel w')) l = true).
Proof.
  intros Hl Ho. unfold apply_kernel. unfold store_Snapshot at 1. rewrite (store_load_idemp _ _ Hl). cbn [ln_store ln_disk upd].
  assert (snd (store_Status (ln_store w) (ln_disk w)) = ln_store w) as Hst
    by (unfold store_Status; by rewrite (store_load_idemp _ _ Hl)).
  set (st := store_Status _ _) in *. destruct st as [status s] eqn:Est. cbn [snd fst] in *. subst s.
  destruct (st_err _); [done |]. destruct (st_lease _) as [l |]; [| by intros [= <- <-]; cbn; rewrite Ho].
  destruct (le_config e) as [| | raw]; [| done |].
  { intros [= <- <-]. cbn. by rewrite lookup_insert_eq. }
  destruct (configHasAuthorizationUsers raw) as [[] |]; [| | done].
  2: { intros [= <- <-]. cbn. by rewrite lookup_insert_eq. }
  intros Hk. destruct (kernel_apply_frame _ _ _ _ _ _ Hk) as (_ & _ & _ & Hs). cbn [fst] in Hs. rewrite Hs.
  split_and!; [done | done |].
  intros Hv. apply kernel_apply_verified in Hk as (deny & Ha & Hi); [eauto | done | done].
Qed.

(** Once the store of the agent took a lease its SSH sessions are governed by
    it, whatever became of the kernel. *)
Lemma applied_governs e lease w o err w' :
  applyAuthorization e (Some lease) w = ((o, err), w') -> (forall r, err <> Some (AEStore r)) ->
  exists latest, st_lease (ln_store w') = Some latest /\ covers latest lease /\
    forall m k i id user, ln_ssh w' = Some m -> sm_listeners m !! k = Some i -> open_session i id user ->
      exists c, in_auth i !! user = Some c /\ granted latest (cr_authorizationKey c) (le_ssh_now e) /\
        st_denied (ln_store w') !! cr_authorizationKey c = None.
Proof.
  unfold applyAuthorization. intros Ha Herr.
  destruct (store_UpdateWithResult _ _ _ _) as [[[[ur h] [x |]] s] d] eqn:Eu.
  { exfalso. injection Ha as _ <- _. by apply (Herr x). }
  apply update_settled in Eu as (He & Hlo & latest & Hl & Hcov & _).
  set (w0 := w<|ln_store := s|><|ln_disk := d|>) in *.
  destruct (apply_kernel_frame e _ (reap_ssh e w0) _ _ Hlo Ha) as (Hs & _ & Hssh).
  rewrite Hssh, Hs. change (ln_store (reap_ssh e w0)) with s. exists latest. do 2 (split; [done |]). intros m k i id user Hm Hi Ho.
  destruct (reap_ssh_allowed _ _ _ _ _ _ _ Hm Hi Ho) as (c & Hc & Hal). exists c. split; [done |]. by apply (authorizationAllows_granted w0 s).
Qed.

(** ** Theorems *)

Context (sha : string -> bytes) (sha256hex : string -> string) (sign : string -> string -> string).

(** C11: a confirmed acknowledgement is the truth about both data planes: the
    envelope was signed for this server, the store of the agent holds a lease
    that covers it and has the identity the acknowledgement names, every SSH
    session left has a grant of that lease that has not run out and is not on
    the deny watermark; and when the kernel is reported verified, every
    connection left open in it that authenticated with a key has a grant of
    that lease (for leases the Controller numbers). *)
Theorem confirmed_lease_governs_every_session e serverID token env w ack w' :
  reachable sha (ln_kernel w) ->
  applyAuthorizationEnvelope sha256hex sign e serverID token env w = (ack, w') -> ak_Confirmed ack = true ->
  exists lease latest,
    verifyAuthorizationEnvelope sha256hex sign serverID token env = Ok lease /\
    st_lease (ln_store w') = Some latest /\ covers latest lease /\
    ak_Revision ack = l_Revision latest /\ ak_Sequence ack = l_Sequence latest /\
    (forall m k i id user, ln_ssh w' = Some m -> sm_listeners m !! k = Some i -> open_session i id user ->
       exists c, in_auth i !! user = Some c /\ granted latest (cr_authorizationKey c) (le_ssh_now e) /\
         st_denied (ln_store w') !! cr_authorizationKey c = None) /\
    (ak_Runtimes ack !! "kernel"%string = Some "verified"%string -> 0 < l_Sequence latest ->
     forall n id c, open_in (the_index n (ln_kernel w')) id c -> authorizationKey (c_identity c) <> ""%string ->
       granted latest (authorizationKey (c_identity c)) (ev_now (le_event' e))).
Proof.
  intros Hr. unfold applyAuthorizationEnvelope.
  destruct (verifyAuthorizationEnvelope _ _ _ _ _) as [lease | rj]; [| by intros [= <- <-]].
  unfold applyAuthorization.
  destruct (store_UpdateWithResult _ _ _ _) as [[[[ur h] [m |]] s] d] eqn:Eu; [by intros [= <- <-] |].
  apply update_settled in Eu as (He & Hlo & latest & Hl & Hcov & _).
  set (o := _<|ao_Runtimes := _|>). set (w0 := w<|ln_store := s|><|ln_disk := d|>).
  destruct (apply_kernel e o (reap_ssh e w0)) as [[o' [er |]] w1] eqn:Ek; [by intros [= <- <-] |].
  destruct (apply_kernel_frame e o (reap_ssh e w0) _ _ Hlo Ek) as (Hs & _ & Hssh). cbn [ln_store reap_ssh upd] in Hs.
  destruct (apply_kernel_verified e o (reap_ssh e w0) o' w1 Hlo eq_refl Ek) as (_ & Hst & Hv).
  intros E _. assert (w' = w1) as -> by congruence.
  assert (ack = fst (ack, w1)) as -> by done. rewrite <- E. clear E. cbn [fst ak_Revision ak_Sequence ak_Runtimes].
  rewrite Hst. unfold store_Status. cbn [ln_store ln_disk reap_ssh upd] in *.
  change (ln_store w0) with s in *. rewrite (store_load_idemp _ _ Hlo), Hl. cbn.
  exists lease, latest. rewrite Hs. split_and!; try done.
  - intros m k i id user Hm Hi Ho. rewrite Hssh in Hm.
    destruct (reap_ssh_allowed _ _ _ _ _ _ _ Hm Hi Ho) as (c & Hc & Ha). exists c. split; [done |].
    by apply (authorizationAllows_granted w0 s).
  - rewrite lookup_insert_ne by done. intros Hk Hq n id c Ho Hne.
    destruct (Hv Hk) as (l & deny & Hl' & Ha & Hid). change (ln_store _) with s in Hl'.
    assert (l = latest) as -> by congruence.
    eapply settled_kernel_governs; eauto. by apply (reachable_inv sha).
Qed.

(** Whatever happens to the kernel (no configuration, a lost call, a
    rejection, a mismatch), once the store of the agent has taken the lease no
    SSH session is left that its lease does not grant or its watermark
    denies. *)
Theorem ssh_revocation_needs_no_kernel e lease w o err w' m k i id user :
  applyAuthorization e (Some lease) w = ((o, err), w') -> (forall r, err <> Some (AEStore r)) ->
  ln_ssh w' = Some m -> sm_listeners m !! k = Some i -> open_session i id user ->
  exists latest c, st_lease (ln_store w') = Some latest /\ covers latest lease /\
    in_auth i !! user = Some c /\ granted latest (cr_authorizationKey c) (le_ssh_now e) /\
    st_denied (ln_store w') !! cr_authorizationKey c = None.
Proof.
  intros Ha Herr Hm Hi Ho. destruct (applied_governs _ _ _ _ _ _ Ha Herr) as (latest & Hl & Hcov & Hssh).
  destruct (Hssh _ _ _ _ _ Hm Hi Ho) as (c & Hc). by exists latest, c.
Qed.

(** An envelope that is not verified changes nothing and is not confirmed. *)
Theorem rejected_envelope_changes_nothing e serverID token env w r :
  verifyAuthorizationEnvelope sha256hex sign serverID token env = Err r ->
  snd (applyAuthorizationEnvelope sha256hex sign e serverID token env w) = w /\
  ak_Confirmed (fst (applyAuthorizationEnvelope sha256hex sign e serverID token env w)) = false.
Proof. intros E. unfold applyAuthorizationEnvelope. by rewrite E. Qed.

End Facts.

(** ** Witnesses *)

Section Witnesses.
#[local] Existing Instance lease_codec.
#[local] Existing Instance denied_codec.
#[local] Existing Instance no_zones.
#[local] Instance auth_codec : Codec AuthMetadata := {| json_Marshal _ := None; json_Unmarshal _ := Some (mkAuthMetadata None ∅) |}.
#[local] Instance users_codec : Codec UsersMetadata := {| json_Marshal _ := None; json_Unmarshal _ := Some (mkUsersMetadata ["in"%string] ∅ ∅) |}.

(** A function without collisions whose values are single lines: newlines are
    escaped. *)
Fixpoint escape (s : string) : string :=
  match s with
  | EmptyString => EmptyString
  | String c r =>
      if Ascii.eqb c "010" then String "\" (String "n" (escape r))
      else if Ascii.eqb c "\" then String "\" (String "\" (escape r)) else String c (escape r)
  end.
Definition plain_sign (key text : string) : string := ("mac:" +:+ text)%string.

Lemma escape_inj a b : escape a = escape b -> a = b.
Proof.
  revert b. induction a as [| x a IH]; intros [| y b]; cbn; [done | | |].
  1: by destruct (Ascii.eqb y "010"), (Ascii.eqb y "\").
  1: by destruct (Ascii.eqb x "010"), (Ascii.eqb x "\").
  destruct (Ascii.eqb_spec x "010"), (Ascii.eqb_spec y "010"), (Ascii.eqb_spec x "\"), (Ascii.eqb_spec y "\");
    subst; try done; intros E; injection E; intros; subst; try done; f_equal; eauto.
Qed.

Lemma escape_line a : no_newline (escape a).
Proof.
  unfold no_newline. induction a as [| c a IH]; cbn; [apply not_elem_of_nil |].
  destruct (Ascii.eqb_spec c "010"); [| destruct (Ascii.eqb_spec c "\")]; cbn; rewrite ?not_elem_of_cons; by split_and!.
Qed.

Definition next_json : string := string_of_list_ascii (default [] (json_Marshal sample_next)).
Definition next_fields : AuthorizationEnvelopeFields := mkFields 3 "m" 8 1 "2024-01-01T00:01:00Z" "" next_json.
Definition next_envelope : AuthorizationEnvelope :=
  mkEnvelope "m" 3 next_json (SignAuthorizationEnvelope escape plain_sign (escape "token") next_fields).

Lemma next_verified : verifyAuthorizationEnvelope escape plain_sign 3 "token" next_envelope = Ok sample_next.
Proof. by_compute. Qed.

Lemma signature_binds_envelope_witness :
  verifyAuthorizationEnvelope escape plain_sign 3 "token" next_envelope = Ok sample_next /\ next_envelope = next_envelope.
Proof.
  split; [exact next_verified |].
  apply (signature_binds_envelope escape plain_sign escape_inj escape_line
    (fun _ _ _ => inj (String.append "mac:") _ _) 3 3 "token" next_envelope next_envelope sample_next sample_next
    next_verified next_verified eq_refl).
Defined.

(** The agent with the lease of both users; the kernel with a session of
    each. *)
Definition both_serving : Lane := mkLane (t_auth two_sessions) ∅ (Some serving_manager) two_sessions.
Definition next_env : LaneEnv := mkLaneEnv sample_env sample_now (DConfig []) true CallDone at_sample at_sample CallDone.

Lemma confirmed_lease_governs_every_session_witness :
  exists ack w', applyAuthorizationEnvelope escape plain_sign next_env 3 "token" next_envelope both_serving = (ack, w') /\
    ak_Confirmed ack = true /\ ak_Runtimes ack !! "kernel"%string = Some "verified"%string /\
    open_in (the_index TCP (ln_kernel w')) 5 session_v /\
    exists latest, st_lease (ln_store w') = Some latest /\ granted latest "v" sample_now.
Proof.
  destruct (applyAuthorizationEnvelope _ _ _ _ _ _ _) as [ack w'] eqn:E. exists ack, w'.
  pose proof (f_equal fst E) as Ea. pose proof (f_equal snd E) as Ew. cbn [fst snd] in Ea, Ew.
  assert (ak_Confirmed ack = true) as Hc by (rewrite <- Ea; by_compute).
  assert (ak_Runtimes ack !! "kernel"%string = Some "verified"%string) as Hk by (rewrite <- Ea; by_compute).
  assert (open_in (the_index TCP (ln_kernel w')) 5 session_v) as Ho by (rewrite <- Ew; split; by_compute).
  destruct (confirmed_lease_governs_every_session plain_sha escape plain_sign next_env 3 "token" next_envelope
    both_serving ack w' two_sessions_reachable E Hc) as (lease & latest & _ & Hl & _ & _ & _ & _ & Hg).
  split; [reflexivity |]. split; [exact Hc |]. split; [exact Hk |]. split; [exact Ho |].
  exists latest. split; [exact Hl |]. refine (Hg Hk _ TCP 5%nat session_v Ho _); [| discriminate].
  rewrite <- Ew in Hl. assert (st_lease (ln_store (snd (applyAuthorizationEnvelope escape plain_sign next_env 3 "token" next_envelope both_serving))) = Some sample_next) as Hn by by_compute.
  rewrite Hn in Hl. injection Hl as <-. reflexivity.
Defined.

(** The call to the kernel is lost; the session of alice has a grant. *)
Definition alice_lease : Lease := sample_next<|l_Grants := {["key" := "2024-01-01T00:05:00Z"]}|>.
Definition lost_env : LaneEnv := mkLaneEnv sample_env sample_now (DConfig []) true CallLost at_sample at_sample CallDone.

Lemma ssh_revocation_needs_no_kernel_witness :
  exists o w', applyAuthorization lost_env (Some alice_lease) both_serving = ((o, Some AEUnreachable), w') /\
    exists latest, st_lease (ln_store w') = Some latest /\ granted latest "key" sample_now.
Proof.
  destruct (applyAuthorization _ _ _) as [[o err] w'] eqn:E. pose proof (f_equal snd E) as Ew. cbn [snd] in Ew.
  assert (err = Some AEUnreachable) as -> by (apply (f_equal (fun r => snd (fst r))) in E; cbn [fst snd] in E; rewrite <- E; by_compute).
  exists o, w'. split; [reflexivity |].
  assert (ln_ssh w' = Some serving_manager) as Hm by (rewrite <- Ew; by_compute).
  destruct (ssh_revocation_needs_no_kernel lost_env alice_lease both_serving o (Some AEUnreachable) w' serving_manager 1 serving 5 "alice"
    E ltac:(discriminate) Hm eq_refl) as (latest & c & Hl & _ & Hc & Hg & _).
  { split; [reflexivity | by_compute]. }
  exists latest. split; [exact Hl |]. change (in_auth serving !! "alice"%string = Some c) in Hc.
  vm_compute in Hc. injection Hc as <-. exact Hg.
Defined.

End Witnesses.
