(* ===== verification/UsersLane.v ===== *)
(** * UsersLane: the users lane of the agent

    internal/agent/runtime_users.go with internal/security/users.go, the
    handler of the kernel (cmd/oboard-sb/users.go) and the goroutine of
    [Runner.connect] that takes users envelopes. A signed envelope is
    verified, guarded by the revision the node has applied, handed to the
    kernel over its local API, read back, and recorded in the state file of
    the agent. The file composes RuntimeUsers.v with the state files of the
    agent.

    Requests travel as values; [request_bytes] is the size of the encoded
    request. The policy type of the agent lacks two fields of that of the
    kernel (reset_anchor, previous_period_key), which the Controller does not
    send either; the model has one type. *)

From S2P Require Import Prelude GoTime Stealth Files Json StateFile Authorization Window Quota Tracker TrackerInv RuntimeUsers RuntimeUsersInv SshInbound CoreRuntime Agentlink ControllerLink AgentAuthorization.

(** ** Envelopes *)

Record UsersEnvelope := mkUsersEnvelope { ue_MessageID : string; ue_ServerID : Z; ue_UsersJSON : string; ue_Signature : string }.

(** [model.UsersInstallRequest]: the request of the kernel and the identity of
    its content. *)
Record UsersInstallRequest := mkUsersRequest { uq_req : UserInstallRequest; uq_ContentDigest : string }.

Definition uq_revision (q : UsersInstallRequest) : Z := ur_UsersRevision (uq_req q).
Definition uq_digest (q : UsersInstallRequest) : string := ur_UsersDigest (uq_req q).
Definition uq_entries (q : UsersInstallRequest) : list InstallEntry := default [] (ur_Entries (uq_req q)).

Record UsersEnvelopeFields := mkUsersFields {
  uf_ServerID : Z; uf_MessageID : string; uf_Revision : Z; uf_Digest : string; uf_UsersJSON : string
}.

(** The keys of each inbound [validatePSKInstall] has seen. *)
Fixpoint psk_install (mode : string) (keys : gmap string (gset string)) (es : list InstallEntry) : option string :=
  match es with
  | [] => None
  | e :: es =>
      let c := ie_Credential e in
      if deleted e then
        if negb (mode =s "delta") || negb (ie_AuthorizationKey e =s "") then Some "invalid users deletion"%string
        else psk_install mode keys es
      else if uc_PSK c =s "" then psk_install mode keys es
      else if (str_len (uc_PSK c) <? 8) || (255 <? str_len (uc_PSK c)) || negb (uc_UserKey c =s "") ||
              negb (uc_Password c =s "") || negb (uc_UUID c =s "") || negb (uc_Flow c =s "") ||
              (TrimSpace (ie_AuthUser e) =s "") || (ie_AuthorizationKey e =s "")
      then Some "snell credential is invalid"%string
      else
        let seen := default ∅ (keys !! ie_InboundTag e) in
        if bool_decide (uc_PSK c ∈ seen) then Some "snell_duplicate_psk"%string
        else
          let seen := {[uc_PSK c]} ∪ seen in
          if (64 <? size seen)%nat then Some "snell_credential_limit_exceeded"%string
          else psk_install mode (<[ie_InboundTag e := seen]> keys) es
  end.

Definition validatePSKInstall (q : UsersInstallRequest) : option string :=
  psk_install (ur_Mode (uq_req q)) ∅ (uq_entries q).

Record UsersAppliedSnapshot := mkApplied { ap_Revision : Z; ap_Digest : string; ap_BootID : string; ap_ContentDigest : string }.

(** The name of the identity that differs, if the request describes another
    desired state than the applied one of its revision. *)
Definition usersRevisionConflict (q : UsersInstallRequest) (a : UsersAppliedSnapshot) : string :=
  if negb (uq_ContentDigest q =s "") && negb (ap_ContentDigest a =s "") then
    if uq_ContentDigest q =s ap_ContentDigest a then "" else "content digest"
  else if negb (uq_ContentDigest q =s "") then ""
  else if negb (uq_digest q =s ap_Digest a) then "digest" else "".

Definition usersInstallIsRevoke (q : UsersInstallRequest) : bool :=
  ((List.length (uq_entries q) =? 0)%nat && (ur_Mode (uq_req q) =s "full")) || existsb deleted (uq_entries q).

Inductive users_rejection := UrServer | UrMissing | UrDecode | UrSignature | UrIllegal | UrPSK (e : string).

Section Envelope.
Context (sha256hex : string -> string) (sign : string -> string -> string) {CQ : Codec UsersInstallRequest}.

Definition canonicalUsersEnvelope (f : UsersEnvelopeFields) : string :=
  str_join newline ["users_v1"%string; pretty (uf_ServerID f); uf_MessageID f; pretty (uf_Revision f); uf_Digest f;
    sha256hex (uf_UsersJSON f)].

Definition VerifyUsersEnvelope (secret : string) (f : UsersEnvelopeFields) (signature : string) : bool :=
  if (secret =s "") || (signature =s "") then false else sign secret (canonicalUsersEnvelope f) =s signature.

Definition users_fields (e : UsersEnvelope) (q : UsersInstallRequest) : UsersEnvelopeFields :=
  mkUsersFields (ue_ServerID e) (ue_MessageID e) (uq_revision q) (uq_digest q) (ue_UsersJSON e).

Definition verifyUsersEnvelope (serverID : Z) (token : string) (e : UsersEnvelope) : result users_rejection UsersInstallRequest :=
  if (0 <? serverID) && negb (ue_ServerID e =? serverID) then Err UrServer
  else if (TrimSpace (ue_UsersJSON e) =s "") || (TrimSpace (ue_Signature e) =s "") then Err UrMissing
  else
    match json_Unmarshal (list_ascii_of_string (ue_UsersJSON e)) with
    | None => Err UrDecode
    | Some q =>
        if negb (VerifyUsersEnvelope (sha256hex token) (users_fields e q) (ue_Signature e)) then Err UrSignature
        else if (uq_revision q <=? 0) || (TrimSpace (uq_digest q) =s "") ||
                (negb (ur_Mode (uq_req q) =s "full") && negb (ur_Mode (uq_req q) =s "delta"))
        then Err UrIllegal
        else match validatePSKInstall q with Some err => Err (UrPSK err) | None => Ok q end
    end.

End Envelope.

(** ** The lane *)

Definition kernelCapabilityRuntimeUsers : string := "runtime_users_v1".
Definition kernelCapabilitySnellPSK : string := "runtime_users_snell_psk_v1".

(** [persistedRuntimeUsers]; the commit mark is always [current]. *)
Record persistedRuntimeUsers := mkPersistedRuntime {
  pr_Current : option UsersInstallRequest; pr_BootID : string; pr_Applied : option UsersAppliedSnapshot
}.

(** What the runner remembers of the users. *)
Record UsersAgent := mkAgent {
  ag_Current : option UsersInstallRequest; ag_BootID : string; ag_Applied : option UsersAppliedSnapshot
}.

Definition no_users : UsersAgent := mkAgent None "" None.

Record UsersNode := mkUsersNode { un_agent : UsersAgent; un_disk : disk; un_kernel : Kernel }.

#[export] Instance eta_UsersNode : Eta UsersNode := fun n => mkUsersNode (un_agent n) (un_disk n) (un_kernel n).

Record UsersLaneEnv := mkUsersEnv {
  ul_caps : list string;
  ul_post : call;
  ul_install : InstallEnv;
  ul_status : call;
  ul_mkdir : option string;
  ul_save : StateEnv
}.

Inductive lane_error :=
| LePSK (e : string) | LeConflict (what : string) | LeSnellUnsupported | LeUnsupported | LeUnreachable
| LeRejected (code : Z) | LeReadback | LeMismatch | LePersist (e : string).

Record runtimeUsersApplyOutcome := mkUsersOutcome {
  uo_revision : Z; uo_digest : string; uo_bootID : string; uo_verified : bool; uo_kernel : option string
}.

Definition no_users_outcome : runtimeUsersApplyOutcome := mkUsersOutcome 0 "" "" false None.
Definition kernel_says (state : string) : runtimeUsersApplyOutcome := mkUsersOutcome 0 "" "" false (Some state).

Record UsersAck := mkUsersAck {
  ua_MessageID : string; ua_Revision : Z; ua_Digest : string; ua_Confirmed : bool; ua_BootID : string;
  ua_kernel : option string; ua_Error : option (users_rejection + lane_error); ua_Applied : option UsersAppliedSnapshot
}.

Section Lane.
Context {J : UsersJson} (sha_hex : bytes -> string).
Context {A : AEAD} {CL : Codec Lease} {CD : Codec (gmap string deniedEntry)} {TZ : TimeZones} (sha256 : string -> bytes).
Context {CP : Codec runtimeProfile} {CR : Codec persistedRuntimeUsers} {CQ : Codec UsersInstallRequest}.
Context (r : Runner) (request_bytes : UsersInstallRequest -> Z).

Definition runtimeUsersPath : string := rn_statePath r "runtime-users.json".

(** The handler of POST /users/install: the status it answers. *)
Definition users_status (err : option users_error) : Z :=
  match err with
  | None => 200
  | Some ErrUserInstallIllegal => 400
  | Some ErrUserInstallIncomplete => 202
  | Some ErrUserInstallCapability => 422
  | Some _ => 409
  end.

Definition postUsersInstall (e : InstallEnv) (q : UsersInstallRequest) (k : Kernel) : Z * Kernel :=
  if Z.shiftl 4 20 <? request_bytes q then (400, k)
  else let '(err, _, k) := Install sha_hex sha256 e (uq_req q) k in (users_status err, k).

Definition loadPersistedRuntimeUsers (d : disk) (a : UsersAgent) : UsersAgent :=
  match stateReadPath r d runtimeUsersPath with
  | Err _ => a
  | Ok raw =>
      match json_Unmarshal raw with
      | None => a
      | Some st =>
          match pr_Current st with
          | None => a
          | Some q =>
              if negb (ur_Mode (uq_req q) =s "full") || bool_decide (is_Some (ur_Chunk (uq_req q))) then a
              else mkAgent (Some q) (pr_BootID st)
                     match pr_Applied st with
                     | Some ap => if 0 <? ap_Revision ap then Some ap else ag_Applied a
                     | None => ag_Applied a
                     end
          end
      end
  end.

Definition persistRuntimeUsersLocked (e : UsersLaneEnv) (a : UsersAgent) (d : disk) : option string * disk :=
  match json_Marshal (mkPersistedRuntime (ag_Current a) (ag_BootID a) (ag_Applied a)) with
  | None => (Some "json"%string, d)
  | Some data =>
      match ul_mkdir e with
      | Some err => (Some err, d)
      | None => match stateWritePath r (ul_save e) false runtimeUsersPath data d with (Ok _, d) => (None, d) | (Err err, d) => (Some err, d) end
      end
  end.

Definition has_capability (e : UsersLaneEnv) (want : string) : bool := existsb (fun c => c =s want) (ul_caps e).

(** The guard in front of the kernel: an older install is superseded, another
    state of the applied revision is a conflict. *)
Inductive gate := GatePass | GateSuperseded (a : UsersAppliedSnapshot) | GateConflict (what : string).

Definition revision_gate (q : UsersInstallRequest) (applied : option UsersAppliedSnapshot) : gate :=
  match applied with
  | None => GatePass
  | Some a =>
      if ap_Revision a <=? 0 then GatePass
      else if uq_revision q <? ap_Revision a then GateSuperseded a
      else if (uq_revision q =? ap_Revision a) && (ur_Mode (uq_req q) =s "full") && bool_decide (ur_Chunk (uq_req q) = None) then
        let conflict := usersRevisionConflict q a in if conflict =s "" then GatePass else GateConflict conflict
      else GatePass
  end.

(** The read back and the record of what was installed. *)
Definition users_verify (e : UsersLaneEnv) (q : UsersInstallRequest) (n : UsersNode)
  : (runtimeUsersApplyOutcome * option lane_error) * UsersNode :=
  match ul_status e with
  | CallLost | CallUnanswered => ((kernel_says "readback_failed", Some LeReadback), n)
  | CallDone =>
      let st := statusLocked (un_kernel n) in
      if negb (st_UsersRevision st =? uq_revision q) || negb (st_UsersDigest st =s uq_digest q) || (st_BootID st =s "")
      then ((kernel_says "mismatch", Some LeMismatch), n)
      else
        let current := if bool_decide (ur_Chunk (uq_req q) = None) && (ur_Mode (uq_req q) =s "full") then Some q else None in
        let a := mkAgent current (st_BootID st)
                   (Some (mkApplied (st_UsersRevision st) (st_UsersDigest st) (st_BootID st) (uq_ContentDigest q))) in
        match persistRuntimeUsersLocked e a (un_disk n) with
        | (Some err, d) => ((kernel_says "applied", Some (LePersist err)), n<|un_disk := d|>)
        | (None, d) =>
            ((mkUsersOutcome (st_UsersRevision st) (st_UsersDigest st) (st_BootID st) true (Some "verified"%string), None),
             n<|un_disk := d|><|un_agent := a|>)
        end
  end.

Definition users_apply (e : UsersLaneEnv) (q : UsersInstallRequest) (n : UsersNode)
  : (runtimeUsersApplyOutcome * option lane_error) * UsersNode :=
  match ul_post e with
  | CallLost => ((kernel_says "unreachable", Some LeUnreachable), n)
  | CallUnanswered =>
      ((kernel_says "unreachable", Some LeUnreachable), n<|un_kernel := snd (postUsersInstall (ul_install e) q (un_kernel n))|>)
  | CallDone =>
      let '(code, k) := postUsersInstall (ul_install e) q (un_kernel n) in
      let n := n<|un_kernel := k|> in
      if code =? 202 then ((mkUsersOutcome (uq_revision q) (uq_digest q) "" false (Some "incomplete"%string), None), n)
      else if negb (code =? 200) then ((kernel_says "rejected", Some (LeRejected code)), n)
      else users_verify e q n
  end.

Definition applyRuntimeUsers (e : UsersLaneEnv) (q : UsersInstallRequest) (n : UsersNode)
  : (runtimeUsersApplyOutcome * option lane_error) * UsersNode :=
  match validatePSKInstall q with
  | Some err => ((no_users_outcome, Some (LePSK err)), n)
  | None =>
      match revision_gate q (ag_Applied (un_agent n)) with
      | GateSuperseded a => ((mkUsersOutcome (ap_Revision a) (ap_Digest a) (ap_BootID a) true (Some "superseded"%string), None), n)
      | GateConflict what => ((no_users_outcome, Some (LeConflict what)), n)
      | GatePass =>
          if existsb (fun en => negb (uc_PSK (ie_Credential en) =s "")) (uq_entries q) && negb (has_capability e kernelCapabilitySnellPSK)
          then ((no_users_outcome, Some LeSnellUnsupported), n)
          else if negb (has_capability e kernelCapabilityRuntimeUsers)
          then ((mkUsersOutcome (uq_revision q) (uq_digest q) "" false (Some "unsupported"%string), Some LeUnsupported), n)
          else users_apply e q n
      end
  end.

Context (sha256hex : string -> string) (sign : string -> string -> string) (serverID : Z) (token : string).

Definition applyUsersEnvelope (e : UsersLaneEnv) (env : UsersEnvelope) (n : UsersNode) : UsersAck * UsersNode :=
  match verifyUsersEnvelope sha256hex sign serverID token env with
  | Err rej => (mkUsersAck (ue_MessageID env) 0 "" false "" None (Some (inl rej)) (ag_Applied (un_agent n)), n)
  | Ok q =>
      let '((o, err), n) := applyRuntimeUsers e q n in
      let applied := ag_Applied (un_agent n) in
      match err with
      | Some err => (mkUsersAck (ue_MessageID env) (uq_revision q) (uq_digest q) false (uo_bootID o) (uo_kernel o) (Some (inr err)) applied, n)
      | None =>
          if bool_decide (uo_kernel o = Some "incomplete"%string)
          then (mkUsersAck (ue_MessageID env) (uq_revision q) (uq_digest q) false (uo_bootID o) (uo_kernel o) None applied, n)
          else (mkUsersAck (ue_MessageID env) (uo_revision o) (uo_digest o) true (uo_bootID o) (uo_kernel o) None applied, n)
      end
  end.

(** [pullUsers] once the Controller answered with an envelope. *)
Definition pullUsers (e : UsersLaneEnv) (answer : option UsersEnvelope) (n : UsersNode) : option UsersAck * UsersNode :=
  match answer with
  | None => (None, n)
  | Some env =>
      if TrimSpace (ue_UsersJSON env) =s "" then (None, n)
      else let '(ack, n) := applyUsersEnvelope e env n in (Some ack, n)
  end.

(** *** A new configuration *)

Context (runtime_tags : bytes -> option (list string)).

Definition runtimeUsersScopeStale (q : UsersInstallRequest) (config : bytes) : bool :=
  if (List.length config =? 0)%nat then false
  else
    match runtime_tags config with
    | None => false
    | Some tags =>
        let declared := List.filter (fun tag => negb (tag =s "")) (map TrimSpace tags) in
        existsb (fun tag => negb (containsString declared (TrimSpace tag))) (ur_Scope (uq_req q))
    end.

Definition dropPersistedRuntimeUsers (rm : option string) (n : UsersNode) : option string * UsersNode :=
  let n := n<|un_agent ::= fun a => mkAgent None (ag_BootID a) None|> in
  match rm with
  | Some err => (Some err, n)
  | None => (None, n<|un_disk ::= delete runtimeUsersPath|>)
  end.

Definition pending_users (n : UsersNode) : option UsersInstallRequest :=
  match ag_Current (un_agent n) with
  | Some q => if uq_revision q <=? 0 then None else Some q
  | None => None
  end.

Definition reapplyPersistedRuntimeUsers (e : UsersLaneEnv) (rm : option string) (config : bytes) (n : UsersNode)
  : option (string + lane_error) * UsersNode :=
  let n := match pending_users n with
           | Some _ => n
           | None => n<|un_agent := loadPersistedRuntimeUsers (un_disk n) (un_agent n)|>
           end in
  match pending_users n with
  | None => (None, n)
  | Some q =>
      if negb (has_capability e kernelCapabilityRuntimeUsers) then (None, n)
      else if runtimeUsersScopeStale q config then
        let '(err, n) := dropPersistedRuntimeUsers rm n in (option_map inl err, n)
      else let '((_, err), n) := applyRuntimeUsers e q n in (option_map inr err, n)
  end.

(** ** The queue of envelopes *)

(** The goroutine of [connect]: an envelope that is not urgent waits for
    [usersMergeDebounce], and one that comes meanwhile takes its place. *)
Definition urgent (env : UsersEnvelope) : bool :=
  match verifyUsersEnvelope sha256hex sign serverID token env with
  | Err _ => true
  | Ok q => usersInstallIsRevoke q || bool_decide (is_Some (ur_Chunk (uq_req q)))
  end.

Inductive queue_event := Arrives (env : UsersEnvelope) | TimerFires.

(** The envelope that waits afterwards, and the one that is applied now. *)
Definition users_queue (pending : option UsersEnvelope) (ev : queue_event) : option UsersEnvelope * option UsersEnvelope :=
  match ev with
  | Arrives env => if urgent env then (None, Some env) else (Some env, None)
  | TimerFires => (None, pending)
  end.

End Lane.

(** ** What the lane guarantees *)

Section Guarantees.
Context {J : UsersJson} {JL : UsersJsonLaws J} (sha_hex : bytes -> string).
Context {A : AEAD} {AL : AEADLaws A} {CL : Codec Lease} {CD : Codec (gmap string deniedEntry)} {TZ : TimeZones} (sha256 : string -> bytes).
Context {CP : Codec runtimeProfile} {CR : Codec persistedRuntimeUsers} {CQ : Codec UsersInstallRequest}.
Context (r : Runner) (request_bytes : UsersInstallRequest -> Z).
Context (sha256hex : string -> string) (sign : string -> string -> string) (serverID : Z) (token : string).

Abbreviation post := (postUsersInstall sha_hex sha256 request_bytes).
Abbreviation apply_users := (applyRuntimeUsers sha_hex sha256 r request_bytes).
Abbreviation take := (applyUsersEnvelope sha_hex sha256 r request_bytes sha256hex sign serverID token).
Abbreviation verify := (verifyUsersEnvelope sha256hex sign serverID token).

Lemma post_ok e q k k' : post e q k = (200, k') -> exists status, Install sha_hex sha256 e (uq_req q) k = (None, status, k').
Proof.
  unfold postUsersInstall. destruct (_ <? _); [done |]. destruct (Install _ _ _ _ _) as [[err st] k1].
  intros [= H <-]. exists st. by destruct err as [[] |].
Qed.

Definition applied_revision (n : UsersNode) : Z := from_option ap_Revision 0 (ag_Applied (un_agent n)).

(** What an application without an error did. *)
Inductive applied_as (e : UsersLaneEnv) (q : UsersInstallRequest) (n : UsersNode) : runtimeUsersApplyOutcome -> UsersNode -> Prop :=
| as_superseded a :
    ag_Applied (un_agent n) = Some a -> 0 < ap_Revision a -> uq_revision q < ap_Revision a ->
    applied_as e q n (mkUsersOutcome (ap_Revision a) (ap_Digest a) (ap_BootID a) true (Some "superseded"%string)) n
| as_incomplete k :
    applied_as e q n (mkUsersOutcome (uq_revision q) (uq_digest q) "" false (Some "incomplete"%string)) (n<|un_kernel := k|>)
| as_verified status k d boot current :
    Install sha_hex sha256 (ul_install e) (uq_req q) (un_kernel n) = (None, status, k) ->
    st_UsersRevision (statusLocked k) = uq_revision q -> st_UsersDigest (statusLocked k) = uq_digest q ->
    st_BootID (statusLocked k) = boot -> boot <> "" -> (0 < applied_revision n -> applied_revision n <= uq_revision q) ->
    applied_as e q n (mkUsersOutcome (uq_revision q) (uq_digest q) boot true (Some "verified"%string))
      (mkUsersNode (mkAgent current boot (Some (mkApplied (uq_revision q) (uq_digest q) boot (uq_ContentDigest q)))) d k).

Lemma gate_pass q a : revision_gate q a = GatePass -> 0 < from_option ap_Revision 0 a -> from_option ap_Revision 0 a <= uq_revision q.
Proof.
  unfold revision_gate. destruct a as [a |]; cbn; [| lia]. destruct (Z.leb_spec (ap_Revision a) 0); [lia |].
  destruct (Z.ltb_spec (uq_revision q) (ap_Revision a)); [done | lia].
Qed.

Lemma gate_superseded q a b : revision_gate q a = GateSuperseded b -> a = Some b /\ 0 < ap_Revision b /\ uq_revision q < ap_Revision b.
Proof.
  unfold revision_gate. destruct a as [a |]; [| done]. destruct (Z.leb_spec (ap_Revision a) 0); [done |].
  destruct (Z.ltb_spec (uq_revision q) (ap_Revision a)).
  - by intros [= <-].
  - destruct (_ && _); [| done]. by destruct (_ =s _).
Qed.

Lemma apply_users_ok e q n o n' : apply_users e q n = ((o, None), n') -> applied_as e q n o n'.
Proof.
  unfold applyRuntimeUsers. destruct (validatePSKInstall q); [done |].
  destruct (revision_gate q (ag_Applied (un_agent n))) as [| a | what] eqn:Eg; [| | done].
  - destruct (_ && _); [done |]. destruct (negb _); [done |]. unfold users_apply. destruct (ul_post e); [done | | done].
    destruct (post (ul_install e) q (un_kernel n)) as [code k] eqn:Ep.
    destruct (Z.eqb_spec code 202); [intros [= <- <-]; constructor |].
    destruct (Z.eqb_spec code 200) as [-> |]; [cbn [negb] | done]. apply post_ok in Ep as [status Ei].
    unfold users_verify. destruct (ul_status e); [done | | done]. cbn [un_kernel upd].
    destruct (_ || _) eqn:Eo; [done |]. rewrite !orb_false_iff, !negb_false_iff, Z.eqb_eq, str_eqb_eq, str_eqb_neq in Eo.
    destruct Eo as [[Hr Hd] Hb]. cbn in Hr, Hd, Hb.
    destruct (persistRuntimeUsersLocked _ _ _ _) as [[err |] d]; [done |]. intros [= <- <-]. rewrite Hr, Hd.
    eapply as_verified; [exact Ei | exact Hr | exact Hd | done | exact Hb |]. intros Hpos. by apply gate_pass with (1 := Eg).
  - apply gate_superseded in Eg as (H1 & H2 & H3). intros [= <- <-]. by eapply as_superseded.
Qed.

(** Nothing the agent remembers changes on an error. *)
Lemma apply_users_error e q n o err n' : apply_users e q n = ((o, Some err), n') -> un_agent n' = un_agent n.
Proof.
  unfold applyRuntimeUsers. destruct (validatePSKInstall q); [by intros [= _ _ <-] |].
  destruct (revision_gate q (ag_Applied (un_agent n))) as [| a | what]; [| done | by intros [= _ _ <-]].
  destruct (_ && _); [by intros [= _ _ <-] |]. destruct (negb _); [by intros [= _ _ <-] |].
  unfold users_apply. destruct (ul_post e); [by intros [= _ _ <-] | | by intros [= _ _ <-]].
  destruct (post (ul_install e) q (un_kernel n)) as [code k]. destruct (code =? 202); [done |].
  destruct (negb _); [by intros [= _ _ <-] |]. unfold users_verify. destruct (ul_status e); [by intros [= _ _ <-] | | by intros [= _ _ <-]].
  destruct (_ || _); [by intros [= _ _ <-] |]. destruct (persistRuntimeUsersLocked _ _ _ _) as [[? |] ?]; [by intros [= _ _ <-] | done].
Qed.

Lemma verify_positive env q : verify env = Ok q -> 0 < uq_revision q.
Proof.
  unfold verifyUsersEnvelope. destruct (_ && _); [done |]. destruct (_ || _); [done |].
  destruct (json_Unmarshal _) as [q0 |]; [| done]. destruct (negb _); [done |].
  destruct (Z.leb_spec (uq_revision q0) 0); [done |]. cbn [orb].
  destruct (_ || _); [done |]. destruct (validatePSKInstall q0); [done |]. by intros [= <-].
Qed.


(** Envelopes reach the node in any order, and the kernel may change or be
    replaced in between. *)
Inductive users_event := UeEnvelope (e : UsersLaneEnv) (env : UsersEnvelope) | UeKernel (k : Kernel).

Definition users_step (n : UsersNode) (ev : users_event) : UsersNode :=
  match ev with
  | UeEnvelope e env => snd (take e env n)
  | UeKernel k => n<|un_kernel := k|>
  end.

Lemma take_level e env n : applied_revision n <= applied_revision (snd (take e env n)).
Proof.
  unfold applyUsersEnvelope. destruct (verify env) as [q | rej] eqn:Ev; [| done].
  destruct (apply_users e q n) as [[o err] n1] eqn:Ea.
  assert (applied_revision n <= applied_revision n1) as H.
  { destruct err as [err |]; [unfold applied_revision; by rewrite (apply_users_error _ _ _ _ _ _ Ea) |].
    destruct (apply_users_ok _ _ _ _ _ Ea) as [a Ha Hp Hlt | k | status k d boot current Hin Hr Hd Hb Hbn Hle]; [done | done |].
    apply verify_positive in Ev. unfold applied_revision at 2. cbn. lia. }
  destruct err; [done |]. by case_bool_decide.
Qed.

(** What a node has applied never goes back: whatever envelopes arrive in
    whatever order, signed or not, and whatever becomes of the kernel, the
    applied revision only grows, and an envelope older than it is answered
    without touching the kernel. *)
Theorem applied_users_never_go_back evs n :
  applied_revision n <= applied_revision (fold_left users_step evs n) /\
  forall e env q, verify env = Ok q -> uq_revision q < applied_revision n -> snd (take e env n) = n.
Proof.
  split.
  - revert n. induction evs as [| ev evs IH]; intros n; [done |]. cbn [fold_left]. etransitivity; [| apply IH].
    destruct ev as [e env | k]; [apply take_level | done].
  - intros e env q Ev Hlt. unfold applyUsersEnvelope. rewrite Ev. apply verify_positive in Ev.
    unfold applyRuntimeUsers. destruct (validatePSKInstall q); [done |].
    unfold applied_revision in Hlt. unfold revision_gate. destruct (ag_Applied (un_agent n)) as [a |]; cbn in Hlt; [| lia].
    rewrite (proj2 (Z.leb_gt _ _)), (proj2 (Z.ltb_lt _ _)) by lia. done.
Qed.

(** *** Restarts of the agent *)

Context {LR : CodecLaws CR}.

(** The state file is an ordinary one and what is written to it is text. *)
Definition lane_files (e : UsersLaneEnv) : Prop :=
  runtimeStatePurpose r (runtimeUsersPath r) = ""%string /\ se_tmp (ul_save e) <> runtimeUsersPath r /\ nonce_ok (se_nonce (ul_save e)) /\
  forall x b, json_Marshal (A := persistedRuntimeUsers) x = Some b -> plain_text b.

Lemma persist_reads e a d d' :
  lane_files e -> persistRuntimeUsersLocked r e a d = (None, d') ->
  exists b, json_Marshal (mkPersistedRuntime (ag_Current a) (ag_BootID a) (ag_Applied a)) = Some b /\ stateReadPath r d' (runtimeUsersPath r) = Ok b.
Proof.
  intros (Hp & Ht & Hn & Hb). unfold persistRuntimeUsersLocked. destruct (json_Marshal _) as [b |] eqn:Ej; [| done].
  destruct (ul_mkdir e); [done |]. destruct (stateWritePath _ _ _ _ _ _) as [res d1] eqn:Ew.
  destruct (write_file _ _ _ _ _ _ Hp Ht Hn (Hb _ _ Ej) Ew) as [_ Hr]. destruct res; [| done]. intros [= <-]. by exists b.
Qed.

Lemma verified_persists e q n o n' :
  apply_users e q n = ((o, None), n') -> uo_kernel o = Some "verified"%string ->
  exists d, persistRuntimeUsersLocked r e (un_agent n') d = (None, un_disk n') /\
    ag_Current (un_agent n') = (if bool_decide (ur_Chunk (uq_req q) = None) && (ur_Mode (uq_req q) =s "full") then Some q else None) /\
    0 < from_option ap_Revision 0 (ag_Applied (un_agent n')) = (0 < uq_revision q).
Proof.
  unfold applyRuntimeUsers. destruct (validatePSKInstall q); [done |].
  destruct (revision_gate q (ag_Applied (un_agent n))) as [| a | what] eqn:Eg; [| by intros [= <- <-] | done].
  destruct (_ && _); [done |]. destruct (negb _); [done |]. unfold users_apply. destruct (ul_post e); [done | | done].
  destruct (post (ul_install e) q (un_kernel n)) as [code k] eqn:Ep.
  destruct (code =? 202); [by intros [= <- <-] |]. destruct (negb _); [done |].
  unfold users_verify. destruct (ul_status e); [done | | done]. cbn [un_kernel upd].
  destruct (_ || _) eqn:Eo; [done |]. rewrite !orb_false_iff, !negb_false_iff, Z.eqb_eq in Eo. destruct Eo as [[Hr _] _].
  destruct (persistRuntimeUsersLocked _ _ _ _) as [[err |] d] eqn:Epe; [done |]. intros [= <- <-] _.
  eexists. split_and!; [exact Epe | done |]. cbn. by rewrite Hr.
Qed.

(** A full installation survives a restart of the agent: what it verified is
    what it finds in its state file. *)
Theorem full_install_survives_restart e q n o n' :
  lane_files e -> 0 < uq_revision q -> ur_Mode (uq_req q) = "full"%string -> ur_Chunk (uq_req q) = None ->
  apply_users e q n = ((o, None), n') -> uo_kernel o = Some "verified"%string ->
  loadPersistedRuntimeUsers r (un_disk n') no_users = un_agent n'.
Proof.
  intros Hf Hpos Hm Hc Ha Hk. destruct (verified_persists _ _ _ _ _ Ha Hk) as (d & Hp & Hcur & Hrev).
  destruct (persist_reads _ _ _ _ Hf Hp) as (b & Hb & Hread). rewrite Hm, Hc, bool_decide_eq_true_2 in Hcur by done. change ("full" =s "full") with true in Hcur. cbn in Hcur.
  unfold loadPersistedRuntimeUsers. rewrite Hread, (json_roundtrip _ _ Hb). cbn [pr_Current pr_BootID pr_Applied].
  rewrite Hcur, Hm, Hc, bool_decide_eq_false_2 by (by intros [? [=]]). cbn.
  rewrite <- Hrev in Hpos. destruct (un_agent n') as [cur boot [a |]]; cbn in *; [| lia].
  rewrite (proj2 (Z.ltb_lt _ _) Hpos). by subst.
Qed.

(** A delta is forgotten by a restart of the agent: the state file has the
    applied revision, but it is read only together with a full request, which
    a delta and a chunk do not leave. *)
Theorem delta_install_is_forgotten e q n o n' :
  lane_files e -> ur_Mode (uq_req q) = "delta"%string ->
  apply_users e q n = ((o, None), n') -> uo_kernel o = Some "verified"%string ->
  (exists b st, stateReadPath r (un_disk n') (runtimeUsersPath r) = Ok b /\ json_Unmarshal b = Some st /\
     pr_Applied st = ag_Applied (un_agent n')) /\
  loadPersistedRuntimeUsers r (un_disk n') no_users = no_users.
Proof.
  intros Hf Hm Ha Hk. destruct (verified_persists _ _ _ _ _ Ha Hk) as (d & Hp & Hcur & _).
  destruct (persist_reads _ _ _ _ Hf Hp) as (b & Hb & Hread). rewrite Hm, andb_false_r in Hcur.
  apply json_roundtrip in Hb. split; [by eexists _, _ |].
  unfold loadPersistedRuntimeUsers. by rewrite Hread, Hb, Hcur.
Qed.

(** *** The queue *)

(** The goroutine: the envelope that waits, the node, and the
    acknowledgements it has written. *)
Definition queue_step (e : UsersLaneEnv) (s : option UsersEnvelope * UsersNode * list UsersAck) (ev : queue_event)
  : option UsersEnvelope * UsersNode * list UsersAck :=
  let '(pending, n, acks) := s in
  let '(pending, now) := users_queue sha256hex sign serverID token pending ev in
  match now with
  | None => (pending, n, acks)
  | Some env => let '(ack, n) := take e env n in (pending, n, acks ++ [ack])
  end.

(** Within the delay the newest envelope wins: whatever waits, an envelope
    that is not urgent and followed by the timer is applied as if it were
    alone. *)
Theorem newest_envelope_is_applied e env n pending acks :
  urgent sha256hex sign serverID token env = false ->
  fold_left (queue_step e) [Arrives env; TimerFires] (pending, n, acks) =
    (None, snd (take e env n), acks ++ [fst (take e env n)]).
Proof. intros Hu. cbn. rewrite Hu. cbn. by destruct (take e env n). Qed.

(** A rejected envelope takes the waiting one with it: a verified update that
    waits for the delay is neither applied nor acknowledged once an envelope
    that does not verify arrives. *)
Theorem rejected_envelope_drops_pending e env bad n rej :
  urgent sha256hex sign serverID token env = false -> verify bad = Err rej ->
  exists ack, fold_left (queue_step e) [Arrives env; Arrives bad; TimerFires] (None, n, []) = (None, n, [ack]) /\
    ua_MessageID ack = ue_MessageID bad /\ ua_Confirmed ack = false.
Proof.
  intros Hu Hb. cbn [fold_left queue_step users_queue]. rewrite Hu. cbn.
  unfold urgent at 1. rewrite Hb. cbn. unfold applyUsersEnvelope. rewrite Hb. cbn. by eexists.
Qed.

End Guarantees.

(** ** Examples *)

Section LaneWitness.
#[local] Existing Instance lease_codec.
#[local] Existing Instance denied_codec.
#[local] Existing Instance no_zones.
#[local] Existing Instance profile_codec.

#[local] Instance chunk_of_eq_dec : EqDecision UserInstallChunk.
Proof. solve_decision. Defined.
#[local] Instance install_eq_dec : EqDecision UserInstallRequest.
Proof. solve_decision. Defined.
#[local] Instance applied_eq_dec : EqDecision UsersAppliedSnapshot.
Proof. solve_decision. Defined.
#[local] Instance request_eq_dec : EqDecision UsersInstallRequest.
Proof. solve_decision. Defined.
#[local] Instance runtime_eq_dec : EqDecision persistedRuntimeUsers.
Proof. solve_decision. Defined.

(** The two users of RuntimeUsersInv.v in one request, and a delta that
    removes the second one. *)
Definition first_request : UsersInstallRequest := mkUsersRequest asked "both".
Definition no_bob : InstallEntry := mkInstallEntry "in" "bob" no_credential "" no_identity "" zero_limit.
Definition second_digest : string := checksum (short_doc 2 ["in"%string] [ann]).
Definition second_request : UsersInstallRequest :=
  mkUsersRequest (RuntimeUsers.mkRequest ["in"%string] 2 second_digest "delta" 1 None (Some [no_bob])) "ann".
Definition ann_snapshot : UserSnapshot := mkSnapshot 2 second_digest ["in"%string] [ann].

Definition kernel_texts : list (persistedUsers * bytes) :=
  file_texts ++ [(mkPersisted (Some both_snapshot) (Some ann_snapshot) "candidate" None, list_ascii_of_string "5");
    (mkPersisted (Some ann_snapshot) None "current" None, list_ascii_of_string "6")].

#[local] Instance lane_json : UsersJson := table_json kernel_texts.
#[local] Instance lane_laws : UsersJsonLaws lane_json.
Proof. apply table_laws. by apply (bool_decide_unpack _). Qed.

Definition first_applied : UsersAppliedSnapshot := mkApplied 1 both_digest "boot-1" "both".
Definition second_applied : UsersAppliedSnapshot := mkApplied 2 second_digest "boot-1" "ann".
Definition agent_texts : list (persistedRuntimeUsers * bytes) :=
  [(mkPersistedRuntime (Some first_request) "boot-1" (Some first_applied), list_ascii_of_string "first");
   (mkPersistedRuntime None "boot-1" (Some second_applied), list_ascii_of_string "second")].
Definition request_texts : list (UsersInstallRequest * bytes) :=
  [(first_request, list_ascii_of_string "{first}"); (second_request, list_ascii_of_string "{second}")].

#[local] Instance agent_codec : Codec persistedRuntimeUsers :=
  {| json_Marshal x := text_of agent_texts x; json_Unmarshal b := value_of agent_texts b |}.
#[local] Instance agent_codec_laws : CodecLaws agent_codec.
Proof. intros x b. apply (text_value agent_texts). by apply (bool_decide_unpack _). Qed.
#[local] Instance request_codec : Codec UsersInstallRequest :=
  {| json_Marshal x := text_of request_texts x; json_Unmarshal b := value_of request_texts b |}.

Definition plain_sign (key m : string) : string := key +:+ "/" +:+ m.
Definition signed_first : UsersEnvelope :=
  let e := mkUsersEnvelope "m1" 7 "{first}" "" in
  mkUsersEnvelope "m1" 7 "{first}" (plain_sign "token" (canonicalUsersEnvelope id (users_fields e first_request))).

Definition lane_env_w : UsersLaneEnv :=
  mkUsersEnv [kernelCapabilityRuntimeUsers] CallDone env_w CallDone None plain_env.
Definition node_w : UsersNode := mkUsersNode no_users ∅ kernel_w.
Definition size_w (q : UsersInstallRequest) : Z := 512.

Abbreviation take_w := (applyUsersEnvelope checksum plain_sha plain_runner size_w id plain_sign 7 "token" lane_env_w).
Abbreviation apply_w := (applyRuntimeUsers checksum plain_sha plain_runner size_w lane_env_w).

Definition first_taken : UsersAck * UsersNode := take_w signed_first node_w.

Lemma node_w_inv : users_inv kernel_w.
Proof.
  split; [done | | intros _ s tag [=]]. exists None. split; [by exists no_state | by split].
Qed.


Lemma lane_files_w : lane_files plain_runner lane_env_w.
Proof.
  split_and!; [done | done | done |]. intros x b Hb.
  assert (b = list_ascii_of_string "first" \/ b = list_ascii_of_string "second") as [-> | ->].
  { unfold json_Marshal, agent_codec, text_of, agent_texts in Hb. cbn [List.find fst snd] in Hb.
    repeat case_bool_decide; cbn in Hb; simplify_eq; auto. }
  all: split_and!; by_compute.
Qed.

Definition first_result : (runtimeUsersApplyOutcome * option lane_error) * UsersNode := apply_w first_request node_w.
Definition second_result : (runtimeUsersApplyOutcome * option lane_error) * UsersNode := apply_w second_request (snd first_result).

Lemma full_install_survives_restart_witness :
  applied_revision (snd first_result) = 1 /\
  loadPersistedRuntimeUsers plain_runner (un_disk (snd first_result)) no_users = un_agent (snd first_result).
Proof.
  split; [vm_compute; reflexivity |].
  apply (full_install_survives_restart checksum plain_sha plain_runner size_w lane_env_w first_request node_w first_result.1.1).
  - exact lane_files_w.
  - reflexivity.
  - reflexivity.
  - reflexivity.
  - apply (pair_with first_result). apply (pair_with first_result.1). vm_compute. reflexivity.
  - vm_compute. reflexivity.
Defined.

Lemma delta_install_is_forgotten_witness :
  applied_revision (snd second_result) = 2 /\
  loadPersistedRuntimeUsers plain_runner (un_disk (snd second_result)) no_users = no_users.
Proof.
  split; [vm_compute; reflexivity |].
  apply (delta_install_is_forgotten checksum plain_sha plain_runner size_w lane_env_w second_request (snd first_result) second_result.1.1).
  - exact lane_files_w.
  - reflexivity.
  - apply (pair_with second_result). apply (pair_with second_result.1). vm_compute. reflexivity.
  - vm_compute. reflexivity.
Defined.

End LaneWitness.
