(* ===== verification/CoreDeploy.v ===== *)
(** * CoreDeploy: installing a kernel configuration

    Model of the task that installs a configuration of the kernel: the record of
    the version that was applied last (internal/agent/version_state.go), and
    [applyCoreConfigTask] with [applyCoreConfigUnlocked] of
    internal/agent/agent.go, which stage the lease of the configuration, write
    the file, push it or restart the kernel, ask the kernel what it runs and roll
    back.

    The files are the state files of StateFile, the leases and sessions the lane
    of AgentAuthorization, the answers of the kernel the probes of CoreRuntime
    and the comparison of configurations that of OperationalConfig. The service
    manager, the validation by the kernel binary, the forwards that share ports
    with the kernel, the managed assets and the SSH plan are outcomes of their
    calls; the runtime users and the clock, whose failures are only noted in the
    result, are left out. *)

From S2P Require Import Prelude GoTime Stealth Files Json OperationalConfig CoreRuntime Authorization Window Quota Tracker TrackerInv Traffic SshInbound AgentAuthorization StateFile.

(** ** The version that was applied last *)

Definition appliedVersionStateFile : string := "last-applied-version.json".
Definition singBoxConfigFile : string := "sing-box.json".
Definition singBoxLastGoodFile : string := "sing-box.last-good.json".

Inductive appliedVersionVerdict := appliedVersionApply | appliedVersionReplay | appliedVersionSuperseded.

Record appliedVersionState := mkVersion { av_Version : Z; av_PayloadID : string; av_Kind : string; av_UpdatedAt : string }.
Definition no_version : appliedVersionState := mkVersion 0 "" "" "".

(** ** What is asked of the kernel process *)

(** A restart or a reload, with what the configuration file reads as at that
    moment. *)
Inductive act := ActRestart (config : result state_error bytes) | ActReload (config : result state_error bytes).
Definition loaded (a : act) : result state_error bytes := match a with ActRestart c | ActReload c => c end.

(** The node: the configuration files, the lane of authorization and what was
    asked of the kernel process, newest first. *)
Record Node := mkNode { nd_disk : disk; nd_lane : Lane; nd_acts : list act }.
#[export] Instance eta_Node : Eta Node := fun n => mkNode (nd_disk n) (nd_lane n) (nd_acts n).

(** One look at the kernel and the polls that follow it. *)
Record Looks := mkLooks { lk_first : Probe; lk_polls : list (bool * Probe) }.

(** A restart: the service manager, the wait for a stable service, the looks. *)
Record RestartEnv := mkRestartEnv { rs_restart : option string; rs_stable : option string; rs_looks : Looks }.

Record ApplyEnv := mkApplyEnv {
  ap_lock : option string;
  ap_stage : Env;
  ap_capabilities : option (list string);
  ap_mkdir : option string;
  ap_look : Probe;
  ap_recover : RestartEnv;
  ap_backup : StateEnv;
  ap_candidate : StateEnv;
  ap_current : StateEnv;
  ap_restore : StateEnv;
  ap_remove : option string;
  ap_unlink : bool;
  ap_validate : option string;
  ap_push : option string;
  ap_suspend : result string bool;
  ap_commit : option string;
  ap_active : option string;
  ap_reload : option string;
  ap_reloadStable : option string;
  ap_reloadLooks : Looks;
  ap_restart : RestartEnv;
  ap_rollback : RestoreEnv;
  ap_lane : LaneEnv;
  ap_policies : option string
}.

(** The settings of the runner that decide how the kernel is driven. *)
Record Settings := mkSettings { sg_hotReload : bool; sg_managedReload : bool; sg_managedRestart : bool }.

(** The fields of the result that tell what happened. *)
Record ApplyResult := mkApplyResult {
  ar_validated : bool;
  ar_strategy : string;
  ar_check : option coreRuntimeCheck;
  ar_recovered : option bool;
  ar_rollback_error : option string;
  ar_rollback_strategy : string
}.
#[export] Instance eta_ApplyResult : Eta ApplyResult := fun r =>
  mkApplyResult (ar_validated r) (ar_strategy r) (ar_check r) (ar_recovered r) (ar_rollback_error r) (ar_rollback_strategy r).

Inductive failure :=
| FLock | FStage (e : apply_error) | FMkdir | FRead | FBackup | FCandidate | FValidate | FWrite | FMetadata
| FPolicyParse | FPolicyPush | FLeaseSync (e : apply_error) | FHandoff | FRestart | FUnstable | FCommit
| FDriftRestart | FDriftRemains | FVerify | FLease (e : apply_error) | FPolicies.

Abbreviation Applied := (ApplyResult * option failure * Node)%type (only parsing).

(** What [embeddedCoreTrafficPolicies] decodes: the raw limits of two groups. *)
Record LimitsMetadata := mkLimits { lm_Users : gmap string bytes; lm_Inbounds : gmap string bytes }.

Section Deploy.
Context {A : AEAD} {CP : Codec runtimeProfile} {CL : Codec Lease} {CD : Codec (gmap string deniedEntry)} {TZ : TimeZones}.
Context {CA : Codec AuthMetadata} {CU : Codec UsersMetadata} {CV : Codec appliedVersionState}.
Context {CM : Codec LimitsMetadata} {CT : Codec TrafficRuntimePolicy}.
Context (Decode : bytes -> option (json * bytes)) (Marshal : json -> bytes) (sha256hex : bytes -> string) (at_end : bytes -> bool).
(** The inbounds of a configuration, each member printed by [fmt.Sprint]. *)
Context (printed_inbounds : bytes -> option (list (gmap string string))).
Context (r : Runner) (cfg : Settings).

(** ** The record of the applied version *)

Definition version_path : string := rn_statePath r appliedVersionStateFile.
Definition current : string := rn_statePath r singBoxConfigFile.
Definition backup : string := rn_statePath r singBoxLastGoodFile.
Definition candidate (version : Z) : string := rn_statePath r ("sing-box." +:+ pretty version +:+ ".json")%string.

Definition appliedPayloadID (kind : string) (payload : bytes) : string :=
  sha256hex (list_ascii_of_string kind ++ [byte_of 0] ++ payload).

Definition loadAppliedVersion (d : disk) : result string appliedVersionState :=
  match stateReadPath r d version_path with
  | Err StateNotExist => Ok no_version
  | Err (StateFailed e) => Err e
  | Ok b =>
      match json_Unmarshal b with
      | None => Err "invalid applied version state"%string
      | Some state =>
          if (av_Version state <? 0) || ((0 <? av_Version state) && (av_PayloadID state =s ""))
          then Err "invalid applied version state values"%string
          else Ok state
      end
  end.

Definition checkAppliedVersion (kind : string) (version : Z) (payload : bytes) (d : disk)
  : appliedVersionVerdict * appliedVersionState * option string :=
  if version <=? 0 then (appliedVersionApply, no_version, Some "config_version must be positive"%string)
  else
    match loadAppliedVersion d with
    | Err e => (appliedVersionApply, no_version, Some e)
    | Ok state =>
        if version <? av_Version state then (appliedVersionSuperseded, state, None)
        else if version =? av_Version state then
          if negb (av_Kind state =s kind) || negb (av_PayloadID state =s appliedPayloadID kind payload)
          then (appliedVersionApply, state, Some "config_version was already applied with different content"%string)
          else (appliedVersionReplay, state, None)
        else (appliedVersionApply, state, None)
    end.

Definition persistAppliedVersion (mkdir : option string) (e : StateEnv) (now : Time) (kind : string) (version : Z) (payload : bytes) (d : disk)
  : option string * disk :=
  match mkdir with
  | Some err => (Some err, d)
  | None =>
      match json_Marshal (mkVersion version (appliedPayloadID kind payload) kind (time_Format now)) with
      | None => (Some "json"%string, d)
      | Some b => match stateWritePath r e false version_path b d with (Ok _, d) => (None, d) | (Err err, d) => (Some err, d) end
      end
  end.

(** ** Asking the kernel *)

Definition look (config : bytes) (p : Probe) : coreRuntimeCheck :=
  checkCoreRuntimeConfig (operationalCoreConfigDigest Decode Marshal sha256hex at_end config) p.

Definition await (config : bytes) (l : Looks) : coreRuntimeCheck :=
  awaitCoreRuntimeConfig (sg_managedRestart cfg) (look config (lk_first l)) (map (fun q => (fst q, look config (snd q))) (lk_polls l)).

Definition held (n : Node) : result state_error bytes := stateReadPath r (nd_disk n) current.
Definition ask (a : result state_error bytes -> act) (n : Node) : Node := n<|nd_acts ::= cons (a (held n))|>.

(** [restartCore] and, under a service manager, [waitCoreServiceStable]. *)
Definition restart_stable (e : RestartEnv) : option string :=
  match rs_restart e with Some m => Some m | None => if sg_managedRestart cfg then rs_stable e else None end.

Definition restartCoreForRuntimeDrift (e : RestartEnv) (config : bytes) (n : Node) : coreRuntimeCheck * option string * Node :=
  let unavailable m := mkCheck coreRuntimeVerificationUnavailable "" "" 0 0 (Some (EOther m)) "" no_build no_build None in
  let n := ask ActRestart n in
  match restart_stable e with
  | Some m => (unavailable m, Some m, n)
  | None => (await config (rs_looks e), None, n)
  end.

(** The traffic policies of a configuration, by user. *)
Definition collect_policies (items : gmap string bytes) (out : gmap string TrafficRuntimePolicy) : result string (gmap string TrafficRuntimePolicy) :=
  fold_left (fun acc kv =>
    let? out := acc in
    match json_Unmarshal (A := TrafficRuntimePolicy) (snd kv) with
    | None => Err "json"%string
    | Some p => Ok (if 0 <? tp_UserID p then <[("user:" +:+ pretty (tp_UserID p))%string := p]> out else out)
    end) (map_to_list items) (Ok out).

Definition embeddedCoreTrafficPolicies (config : bytes) : result string (gmap string TrafficRuntimePolicy) :=
  match json_Unmarshal (A := LimitsMetadata) config with
  | None => Err "json"%string
  | Some m => let? out := collect_policies (lm_Users m) ∅ in collect_policies (lm_Inbounds m) out
  end.

(** ** Sockets the kernel must give up *)

(** [fmt.Sprint] of a member; a missing one prints as <nil>. *)
Definition printed (m : gmap string string) (key : string) : string := default "<nil>"%string (m !! key).

Definition listen_resource (m : gmap string string) : option string :=
  let listen := TrimSpace (printed m "listen") in
  let listen := if (listen =s "") || (listen =s "<nil>") then "0.0.0.0"%string else listen in
  let port := printed m "listen_port" in
  if (port =s "") || (port =s "<nil>") then None
  else Some (printed m "tag" +:+ "/" +:+ printed m "type" +:+ "/" +:+ listen +:+ ":" +:+ port)%string.

Definition inboundListenResources (raw : bytes) : gset string :=
  if blank raw then ∅
  else match printed_inbounds raw with None => ∅ | Some l => list_to_set (omap listen_resource l) end.

Definition removedInboundListenResources (previous next : bytes) : list string :=
  merge_sort string_le (elements (inboundListenResources previous ∖ inboundListenResources next)).

(** ** Going back *)

(** [os.Remove], with a missing file no error. *)
Definition remove (fail : option string) (path : string) (d : disk) : option string * disk :=
  match fail with Some m => (Some m, d) | None => (None, delete path d) end.

Definition restoreCoreConfigFile (e : ApplyEnv) (previous : bytes) (d : disk) : option string * disk :=
  match previous with
  | [] => remove (ap_remove e) current d
  | _ => match stateWritePath r (ap_restore e) false current previous d with (Ok _, d) => (None, d) | (Err m, d) => (Some m, d) end
  end.

(** The rollback of the file after a failed handoff or restart: the bytes are
    written as they are. *)
Definition rollback_file (e : ApplyEnv) (previous : bytes) (d : disk) : option string * disk :=
  match previous with
  | [] => remove (ap_remove e) current d
  | _ =>
      match securefile_Write (se_io (ap_restore e)) (se_tmp (ap_restore e)) current previous false d with
      | (Ok _, d) => (None, d)
      | (Err m, d) => (Some m, d)
      end
  end.

Definition with_restored (res : ApplyResult) (err : failure) (x : option string * disk) (n : Node) : Applied :=
  (res<|ar_rollback_error := fst x|>, Some err, n<|nd_disk := snd x|>).

(** [rollbackConfig]: the file, then the process. *)
Definition rollbackConfig (e : ApplyEnv) (previous : bytes) (res : ApplyResult) (err : failure) (n : Node) : Applied :=
  let res := res<|ar_strategy := "rollback"%string|> in
  let '(restoreErr, d) := rollback_file e previous (nd_disk n) in
  let n := n<|nd_disk := d|> in
  match previous, restoreErr with
  | [], _ => (res<|ar_rollback_error := restoreErr|>, Some err, n)
  | _, Some m => (res<|ar_rollback_error := Some m|>, Some err, n)
  | _, None =>
      let strategy := restoreCoreRuntime (ap_rollback e) in
      let n := if re_reload (ap_rollback e) then ask ActReload n else n in
      let n := if strategy =s "hot_reload" then n else ask ActRestart n in
      (res<|ar_rollback_strategy := strategy|>, Some err, n)
  end.

(** ** Installing *)

(** The configuration the lane reads is the one on disk. *)
Definition on_disk (e : LaneEnv) (n : Node) : LaneEnv :=
  mkLaneEnv (le_env e) (le_ssh_now e)
    (match held n with Ok b => DConfig b | Err StateNotExist => DNone | Err (StateFailed _) => DUnreadable end)
    (le_control e) (le_post e) (le_event e) (le_event' e) (le_status e).

Definition lease_of (e : ApplyEnv) (config : bytes) (n : Node) : option apply_error * Node :=
  let '(err, w) := applyConfigAuthorization (on_disk (ap_lane e) n) config (nd_lane n) in (err, n<|nd_lane := w|>).

Definition finishOperationalApply (e : ApplyEnv) (config : bytes) (strategy : string) (res : ApplyResult) (n : Node) : Applied :=
  match lease_of e config n with
  | (Some err, n) => (res, Some (FLease err), n)
  | (None, n) =>
      (res<|ar_strategy := strategy|>, match ap_policies e with Some _ => Some FPolicies | None => None end, n)
  end.

Definition recoverRuntimeDrift (e : ApplyEnv) (config : bytes) (res : ApplyResult) (n : Node) : Applied :=
  let '(check, err, n) := restartCoreForRuntimeDrift (ap_recover e) config n in
  let res := res<|ar_check := Some check|><|ar_recovered := Some (bool_decide (err = None) && negb (drift check))|> in
  match err with
  | Some _ => (res<|ar_strategy := "runtime_drift_restart_failed"%string|>, Some FDriftRestart, n)
  | None =>
      if drift check then (res<|ar_strategy := "runtime_drift_restart_failed"%string|>, Some FDriftRemains, n)
      else finishOperationalApply e config "runtime_drift_restart" res n
  end.

(** The configuration is the one on disk. *)
Definition apply_unchanged (e : ApplyEnv) (config : bytes) (res : ApplyResult) (n : Node) : Applied :=
  let check := look config (ap_look e) in
  let res := res<|ar_validated := true|><|ar_check := Some check|> in
  if drift check then recoverRuntimeDrift e config res n
  else finishOperationalApply e config "unchanged" res n.

(** Only runtime metadata changed: it is pushed into the running process. *)
Definition apply_metadata (e : ApplyEnv) (previous config : bytes) (res : ApplyResult) (n : Node) : Applied :=
  let check := look config (ap_look e) in
  let res := res<|ar_check := Some check|> in
  if drift check then recoverRuntimeDrift e config res n
  else
    match embeddedCoreTrafficPolicies config with
    | Err _ =>
        with_restored (res<|ar_strategy := "runtime_policy_parse_failed"%string|>) FPolicyParse (restoreCoreConfigFile e previous (nd_disk n)) n
    | Ok _ =>
        match ap_push e with
        | Some _ =>
            with_restored (res<|ar_strategy := "runtime_policy_sync_failed"%string|>) FPolicyPush (restoreCoreConfigFile e previous (nd_disk n)) n
        | None =>
            match lease_of e config n with
            | (Some err, n) => (res<|ar_strategy := "runtime_authorization_sync_failed"%string|>, Some (FLeaseSync err), n)
            | (None, n) => (res<|ar_strategy := "runtime_policy_only"%string|>, None, n)
            end
        end
    end.

(** The restart that ends the ordinary path. *)
Definition apply_restart (e : ApplyEnv) (handoff : bool) (previous config : bytes) (res : ApplyResult) (n : Node) : Applied :=
  let n := ask ActRestart n in
  match rs_restart (ap_restart e) with
  | Some _ => rollbackConfig e previous res FRestart n
  | None =>
      match (if sg_managedRestart cfg then rs_stable (ap_restart e) else None) with
      | Some _ => rollbackConfig e previous res FUnstable n
      | None =>
          match (if handoff then ap_commit e else None) with
          | Some _ => rollbackConfig e previous res FCommit n
          | None =>
              let check := await config (rs_looks (ap_restart e)) in
              let res := res<|ar_check := Some check|> in
              if drift check then (res<|ar_strategy := "restart_verification_failed"%string|>, Some FVerify, n)
              else finishOperationalApply e config "restart_fallback" res n
          end
      end
  end.

(** A reload; a core that refuses it or stops is restarted. *)
Definition apply_reload (e : ApplyEnv) (handoff : bool) (previous config : bytes) (res : ApplyResult) (n : Node) : Applied :=
  let n := ask ActReload n in
  match ap_reload e, (if sg_managedReload cfg then ap_reloadStable e else None) with
  | None, None =>
      match (if handoff then ap_commit e else None) with
      | Some _ => rollbackConfig e previous res FCommit n
      | None =>
          let check := await config (ap_reloadLooks e) in
          let res := res<|ar_check := Some check|> in
          if drift check then recoverRuntimeDrift e config res n
          else finishOperationalApply e config "hot_reload" res n
      end
  | _, _ => apply_restart e handoff previous config res n
  end.

(** The process must load the new configuration: by a reload where the core
    has one and no socket goes away, otherwise by a restart. *)
Definition apply_process (e : ApplyEnv) (previous config : bytes) (res : ApplyResult) (n : Node) : Applied :=
  match ap_suspend e with
  | Err _ => with_restored (res<|ar_strategy := "forward_handoff_failed"%string|>) FHandoff (rollback_file e previous (nd_disk n)) n
  | Ok handoff =>
      match removedInboundListenResources previous config with
      | _ :: _ => apply_restart e handoff previous config (res<|ar_strategy := "restart_required"%string|>) n
      | [] =>
          let canReload :=
            if negb (sg_hotReload cfg) then false
            else if sg_managedReload cfg then match ap_active e with Some _ => false | None => true end
            else true in
          if canReload then apply_reload e handoff previous config res n else apply_restart e handoff previous config res n
      end
  end.

(** The deferred removal of the candidate file. *)
Definition drop_candidate (e : ApplyEnv) (version : Z) (x : Applied) : Applied :=
  let '(res, err, n) := x in
  (res, err, if ap_unlink e then n<|nd_disk ::= delete (candidate version)|> else n).

(** A new configuration: it is validated and written. *)
Definition apply_changed (e : ApplyEnv) (version : Z) (config : bytes) (forceRestart : bool) (previous : bytes) (res : ApplyResult) (n : Node)
  : Applied :=
  match stateWritePath r (ap_candidate e) false (candidate version) config (nd_disk n) with
  | (Err _, d) => (res, Some FCandidate, n<|nd_disk := d|>)
  | (Ok _, d) =>
      let n := n<|nd_disk := d|> in
      drop_candidate e version
        (match ap_validate e with
         | Some _ => (res<|ar_strategy := "validation_failed"%string|>, Some FValidate, n)
         | None =>
             let res := res<|ar_validated := true|> in
             match stateWritePath r (ap_current e) false current config (nd_disk n) with
             | (Err _, d) => (res, Some FWrite, n<|nd_disk := d|>)
             | (Ok _, d) =>
                 let n := n<|nd_disk := d|> in
                 match coreRuntimeMetadataOnlyChange Decode Marshal at_end previous config with
                 | Err _ =>
                     with_restored (res<|ar_strategy := "metadata_compare_failed"%string|>) FMetadata
                       (restoreCoreConfigFile e previous (nd_disk n)) n
                 | Ok metadataOnly =>
                     if metadataOnly && negb forceRestart then apply_metadata e previous config res n
                     else apply_process e previous config res n
                 end
             end
         end)
  end.

Definition same_text (a b : bytes) : bool := TrimSpace (string_of_list_ascii a) =s TrimSpace (string_of_list_ascii b).

Definition started : ApplyResult := mkApplyResult false "pending" None None None "".

Definition applyCoreConfigUnlocked (e : ApplyEnv) (version : Z) (config : bytes) (forceRestart : bool) (n : Node) : Applied :=
  match ap_lock e with
  | Some _ => (started<|ar_strategy := "host_lock_busy"%string|>, Some FLock, n)
  | None =>
      match stageConfigAuthorization (ap_stage e) (ap_capabilities e) config (nd_lane n) with
      | (Some err, w) => (started<|ar_strategy := ""%string|>, Some (FStage err), n<|nd_lane := w|>)
      | (None, w) =>
          let n := n<|nd_lane := w|> in
          match ap_mkdir e with
          | Some _ => (started, Some FMkdir, n)
          | None =>
              match held n with
              | Err (StateFailed _) => (started, Some FRead, n)
              | Err StateNotExist => apply_changed e version config forceRestart [] started n
              | Ok [] => apply_changed e version config forceRestart [] started n
              | Ok previous =>
                  if negb forceRestart && same_text previous config then apply_unchanged e config started n
                  else
                    match stateWritePath r (ap_backup e) false backup previous (nd_disk n) with
                    | (Err _, d) => (started, Some FBackup, n<|nd_disk := d|>)
                    | (Ok _, d) => apply_changed e version config forceRestart previous started (n<|nd_disk := d|>)
                    end
              end
          end
      end
  end.

(** ** The task *)

Definition AgentTaskTypeApplyCoreConfig : string := "apply_core_config".

(** A task: its version, its payload as text, the configuration in it and
    whether it carries an SSH plan. *)
Record CoreTask := mkTask { tk_version : Z; tk_payload : option bytes; tk_config : bytes; tk_ssh : bool }.

Record TaskEnv := mkTaskEnv {
  te_look : Probe;
  te_lane : LaneEnv;
  te_assets : result string bytes;
  te_apply : ApplyEnv;
  te_ssh : option string;
  te_mkdir : option string;
  te_save : StateEnv;
  te_now : Time;
  te_cleanup : option string
}.

Inductive task_result :=
| TRejected | TSuperseded | TReplayed (e : option apply_error) (cleanup : option string) | TAssets
| TApplied (res : ApplyResult) (err : option failure) | TSsh (res : ApplyResult) | TPersist (res : ApplyResult) | TCleanup (res : ApplyResult).

Definition converged (e : TaskEnv) (n : Node) : bool :=
  match held n with
  | Ok b => coreRuntimeConverged (DConfig b) (look b (te_look e))
  | Err _ => false
  end.

(** The deployment of a task, the SSH plan beside it and the record. *)
Definition deploy_task (e : TaskEnv) (t : CoreTask) (payload : bytes) (n : Node) : task_result * Node :=
  match te_assets e with
  | Err _ => (TAssets, n)
  | Ok resolved =>
      match applyCoreConfigUnlocked (te_apply e) (tk_version t) resolved false n with
      | (res, Some err, n) => (TApplied res (Some err), n)
      | (res, None, n) =>
          match (if tk_ssh t then te_ssh e else None) with
          | Some _ => (TSsh res, n)
          | None =>
              match persistAppliedVersion (te_mkdir e) (te_save e) (te_now e) AgentTaskTypeApplyCoreConfig (tk_version t) payload (nd_disk n) with
              | (Some _, d) => (TPersist res, n<|nd_disk := d|>)
              | (None, d) => (match te_cleanup e with Some _ => TCleanup res | None => TApplied res None end, n<|nd_disk := d|>)
              end
          end
      end
  end.

Definition applyCoreConfigTask (e : TaskEnv) (t : CoreTask) (n : Node) : task_result * Node :=
  match tk_payload t with
  | None => (TRejected, n)
  | Some payload =>
      match checkAppliedVersion AgentTaskTypeApplyCoreConfig (tk_version t) payload (nd_disk n) with
      | (_, _, Some _) => (TRejected, n)
      | (appliedVersionSuperseded, _, None) => (TSuperseded, n)
      | (verdict, _, None) =>
          if match verdict with appliedVersionReplay => true | _ => false end && negb (tk_ssh t) && converged e n then
            let '(err, w) := applyConfigAuthorization (on_disk (te_lane e) n) (tk_config t) (nd_lane n) in
            (TReplayed err (match err with None => te_cleanup e | Some _ => None end), n<|nd_lane := w|>)
          else
            deploy_task e t payload n
      end
  end.

End Deploy.

(** ** The configuration file *)

Section Facts.
Context {A : AEAD} {L : AEADLaws A} {CP : Codec runtimeProfile} {CL : Codec Lease} {CD : Codec (gmap string deniedEntry)} {TZ : TimeZones}.
Context {CA : Codec AuthMetadata} {CU : Codec UsersMetadata} {CV : Codec appliedVersionState}.
Context {CM : Codec LimitsMetadata} {CT : Codec TrafficRuntimePolicy}.
Context (Decode : bytes -> option (json * bytes)) (Marshal : json -> bytes) (sha256hex : bytes -> string) (at_end : bytes -> bool).
Context (printed_inbounds : bytes -> option (list (gmap string string))).
Context (r : Runner) (cfg : Settings).

Abbreviation digest := (operationalCoreConfigDigest Decode Marshal sha256hex at_end).
Abbreviation look := (look Decode Marshal sha256hex at_end).
Abbreviation await := (await Decode Marshal sha256hex at_end cfg).
Abbreviation apply := (applyCoreConfigUnlocked Decode Marshal sha256hex at_end printed_inbounds r cfg).

(** The files of the task are four different ones, and neither the
    configuration nor the version is protected under a runtime key. *)
Definition layout (version : Z) : Prop :=
  NoDup [current r; backup r; candidate r version; version_path r] /\
  runtimeStatePurpose r (current r) = ""%string /\ runtimeStatePurpose r (version_path r) = ""%string.

(** Temporary names are not those of the files, nonces are whole. *)
Definition save_ok (version : Z) (s : StateEnv) : Prop :=
  se_tmp s ∉ [current r; backup r; candidate r version; version_path r] /\ nonce_ok (se_nonce s).
Definition fits (version : Z) (e : ApplyEnv) : Prop :=
  save_ok version (ap_backup e) /\ save_ok version (ap_candidate e) /\ save_ok version (ap_current e) /\ save_ok version (ap_restore e).

Lemma layout_ne version : layout version ->
  backup r <> current r /\ candidate r version <> current r /\ version_path r <> current r /\ backup r <> candidate r version /\
  version_path r <> backup r /\ version_path r <> candidate r version.
Proof. intros [Hd _]. rewrite !NoDup_cons in Hd. set_solver. Qed.

Lemma save_ne version s : save_ok version s ->
  se_tmp s <> current r /\ se_tmp s <> backup r /\ se_tmp s <> candidate r version /\ se_tmp s <> version_path r.
Proof. intros [Hs _]. set_solver. Qed.

Abbreviation read d := (stateReadPath r d (current r)).

(** A write elsewhere. *)
Lemma write_elsewhere e path b d res d' p :
  se_tmp e <> path -> stateWritePath r e false path b d = (res, d') -> p <> se_tmp e -> p <> path -> d' !! p = d !! p.
Proof. intros Hne Hw Ht Hp. by apply (stateWritePath_cases _ _ _ _ _ _ _ _ Hne Hw). Qed.

(** The bytes written as they are read back as they are. *)
Lemma rollback_reads e previous d x d' :
  runtimeStatePurpose r (current r) = ""%string -> se_tmp (ap_restore e) <> current r -> plain_text previous ->
  rollback_file r e previous d = (x, d') ->
  (forall p, p <> se_tmp (ap_restore e) -> p <> current r -> d' !! p = d !! p) /\
  (x = None -> match previous with [] => read d' = Err StateNotExist | _ => read d' = Ok previous end).
Proof.
  intros Hp Hne (Hprot & Henc & Hlen). unfold rollback_file. destruct previous as [| c b].
  { unfold remove. destruct (ap_remove e); intros [= <- <-]; (split; [intros; by rewrite ?lookup_delete_ne by congruence |]); [done |].
    intros _. unfold stateReadPath, securefile_Read. by rewrite lookup_delete_eq. }
  set (previous := c :: b) in *. pose proof (securefile_Write_spec _ _ previous d Hne (se_io (ap_restore e)) false) as Hs.
  destruct (securefile_Write _ _ _ _ _ _) as [[[] | m] d1]; cbn [fst snd] in Hs; destruct Hs as (Hok & _ & Ho); intros [= <- <-];
    (split; [exact Ho |]); [| done].
  intros _. destruct (Hok eq_refl) as [Hd _]. unfold stateReadPath, securefile_Read. rewrite Hd.
  destruct (Z.ltb_spec (Z.shiftl 32 20) (Z.of_nat (List.length previous))); [lia |].
  unfold sniff. rewrite Henc, andb_false_r. unfold openRuntimeState. by rewrite Hprot, Hp.
Qed.

Lemma restore_reads e previous d x d' :
  runtimeStatePurpose r (current r) = ""%string -> se_tmp (ap_restore e) <> current r -> nonce_ok (se_nonce (ap_restore e)) ->
  plain_text previous -> restoreCoreConfigFile r e previous d = (x, d') ->
  (forall p, p <> se_tmp (ap_restore e) -> p <> current r -> d' !! p = d !! p) /\
  (x = None -> match previous with [] => read d' = Err StateNotExist | _ => read d' = Ok previous end).
Proof.
  intros Hp Hne Hn Hpl. unfold restoreCoreConfigFile. destruct previous as [| c b].
  { intros H. apply (rollback_reads e [] d x d'); [done | done | done | exact H]. }
  destruct (stateWritePath _ _ _ _ _ _) as [[[] | m] d1] eqn:Ew; intros [= <- <-];
    destruct (write_file _ _ _ _ _ _ Hp Hne Hn Hpl Ew) as [Ho Hr]; (split; [exact Ho |]); done.
Qed.

(** ** Evidence *)

Lemma look_served config p :
  drift (look config p) = false -> verified (look config p) = true -> digest config = Ok (ck_LoadedDigest (look config p)).
Proof.
  unfold look, CoreDeploy.look, checkCoreRuntimeConfig, drift, verified. destruct (digest config) as [d | m]; [| done].
  destruct (read_status (pb_status p)) as [status | [| | m]].
  - destruct (resolve_build_verification (pb_installed p)
      ((mkCheck coreRuntimeVerificationUnavailable "" "" 0 0 None coreBuildStateUnknown no_build no_build None)<|ck_DesiredDigest := d|>
        <|ck_Verification := coreRuntimeVerificationVerified|><|ck_LoadedDigest := cs_OperationalDigest status|>
        <|ck_PID := cs_PID status|><|ck_Generation := cs_Generation status|><|ck_RunningBuild := cs_build status|>)) as (-> & -> & ->).
    cbn. rewrite str_eqb_refl. cbn. intros H _. apply negb_false_iff, str_eqb_eq in H. by rewrite H.
  - rewrite (proj1 (resolve_build_verification _ _)). by destruct (pb_runningBuild p).
  - done.
  - destruct (pb_capabilities p); [| done]. by case_bool_decide.
Qed.

Lemma await_is_look config l : exists p, await config l = look config p.
Proof.
  unfold CoreDeploy.await, awaitCoreRuntimeConfig. destruct (negb _); [by eexists |].
  generalize (lk_first l). induction (lk_polls l) as [| [expired q] polls IH]; intros p; cbn [await_loop map fst snd].
  - destruct (_ =s _); [by eexists |]. by destruct (config_good _); eexists.
  - destruct (_ =s _); [by eexists |]. destruct (config_good _); [by eexists |]. destruct expired; [by eexists |]. apply IH.
Qed.

(** What a result says about the kernel when nothing went wrong. *)
Definition served (config : bytes) (res : ApplyResult) : Prop :=
  exists ck, ar_check res = Some ck /\ drift ck = false /\ (verified ck = true -> digest config = Ok (ck_LoadedDigest ck)).

Lemma looked config p res : drift (look config p) = false -> ar_check res = Some (look config p) -> served config res.
Proof. intros Hd Hc. eexists. split_and!; [exact Hc | done |]. by apply look_served. Qed.

Lemma awaited config l res : drift (await config l) = false -> ar_check res = Some (await config l) -> served config res.
Proof. destruct (await_is_look config l) as [p ->]. apply looked. Qed.

(** The lease of the configuration governs the SSH sessions of the agent. *)
Definition leased (e : ApplyEnv) (config : bytes) (n : Node) : Prop :=
  forall lease, configAuthorization config = Ok (Some lease) ->
  exists latest, st_lease (ln_store (nd_lane n)) = Some latest /\ covers latest lease /\
    forall m k i id user, ln_ssh (nd_lane n) = Some m -> sm_listeners m !! k = Some i -> open_session i id user ->
      exists c, in_auth i !! user = Some c /\ granted latest (cr_authorizationKey c) (le_ssh_now (ap_lane e)) /\
        st_denied (ln_store (nd_lane n)) !! cr_authorizationKey c = None.

Lemma lease_of_spec e config n err n' :
  lease_of r e config n = (err, n') ->
  nd_disk n' = nd_disk n /\ nd_acts n' = nd_acts n /\ (err = None -> leased e config n').
Proof.
  unfold lease_of, applyConfigAuthorization. destruct (configAuthorization config) as [lease | m] eqn:Ec; [| by intros [= <- <-]].
  destruct (applyAuthorization _ _ _) as [[o ae] w] eqn:Ea. intros [= <- <-]. split_and!; [done | done |]. intros ->.
  unfold leased. rewrite Ec. intros lease' [= ->]. by apply (applied_governs _ _ _ _ _ _ Ea).
Qed.

(** ** Outcomes *)

(** The failures after which the new configuration stays. *)
Definition keeps_new (f : failure) : bool :=
  match f with FLeaseSync _ | FDriftRestart | FDriftRemains | FVerify | FLease _ | FPolicies => true | _ => false end.

(** The configuration is back; an empty file counts as none. *)
Definition restored (prev now : result state_error bytes) : Prop := now = prev \/ (prev = Ok [] /\ now = Err StateNotExist).

Definition installs (config : bytes) (n : Node) : Prop := exists c, held r n = Ok c /\ same_text c config = true.

(** The process was left alone, or what it was last told to load is what the
    file holds. *)
Definition in_step (acts : list act) (n : Node) : Prop :=
  nd_acts n = acts \/ exists a rest, nd_acts n = a :: rest /\ loaded a = held r n.

Definition outcome (e : ApplyEnv) (prev : result state_error bytes) (config : bytes) (acts : list act) (x : Applied) : Prop :=
  let '(res, err, n) := x in
  match err with
  | None => installs config n /\ served config res /\ leased e config n
  | Some f => if keeps_new f then installs config n else ar_rollback_error res = None -> restored prev (held r n)
  end /\
  (ar_rollback_error res = None -> held r n <> Err StateNotExist -> in_step acts n).

Lemma held_disk n n' : nd_disk n' = nd_disk n -> held r n' = held r n.
Proof. unfold held. by intros ->. Qed.

Lemma ask_in_step a acts n : (forall c, loaded (a c) = c) -> in_step acts (ask r a n).
Proof. intros Ha. right. eexists _, _. split; [reflexivity |]. rewrite Ha. done. Qed.

Lemma finish_outcome e prev config acts strategy res n :
  installs config n -> served config res -> in_step acts n -> outcome e prev config acts (finishOperationalApply r e config strategy res n).
Proof.
  intros Hi Hs Ha. unfold finishOperationalApply. destruct (lease_of r e config n) as [[err |] n'] eqn:El;
    destruct (lease_of_spec _ _ _ _ _ El) as (Hd & Hc & Hl); pose proof (held_disk _ _ Hd) as Hh.
  - split; [| intros _ _]; unfold keeps_new, installs, in_step; by rewrite Hh, ?Hc.
  - split; [| intros _ _; unfold in_step; by rewrite Hh, Hc].
    assert (installs config n') as Hi' by (unfold installs; by rewrite Hh).
    destruct (ap_policies e); cbn [keeps_new]; [done |]. split_and!; [done | exact Hs | auto].
Qed.

Lemma recover_outcome e prev config acts res n :
  installs config n -> outcome e prev config acts (recoverRuntimeDrift Decode Marshal sha256hex at_end r cfg e config res n).
Proof.
  intros Hi. unfold recoverRuntimeDrift, restartCoreForRuntimeDrift. assert (installs config (ask r ActRestart n)) as Hi' by done.
  pose proof (ask_in_step ActRestart acts n (fun _ => eq_refl)) as Ha.
  destruct (restart_stable cfg _) as [m |]; [split; [done | intros _ _; exact Ha] |].
  destruct (drift (await config _)) eqn:Ed; [split; [done | intros _ _; exact Ha] |].
  apply finish_outcome; [done | | exact Ha]. eapply awaited; [exact Ed | done].
Qed.

(** The bytes the rollback works with, given what the file read as. *)
Definition came_from (previous : bytes) (prev : result state_error bytes) : Prop :=
  match previous with [] => prev = Err StateNotExist \/ prev = Ok [] | _ => prev = Ok previous end.

Lemma back_to_previous previous prev now :
  came_from previous prev -> match previous with [] => now = Err StateNotExist | _ => now = Ok previous end -> restored prev now.
Proof. unfold came_from, restored. destruct previous; intros H ->; [destruct H as [-> | ->]; auto | by left]. Qed.

Section Steps.
Context (e : ApplyEnv) (version : Z) (previous config : bytes) (prev : result state_error bytes).
Context (Hlay : layout version) (Hfit : fits version e).
Context (Hprevious : plain_text previous) (Hconfig : plain_text config) (Hfrom : came_from previous prev).

Lemma restore_tmp : se_tmp (ap_restore e) <> current r /\ nonce_ok (se_nonce (ap_restore e)).
Proof. destruct Hfit as (_ & _ & _ & Hs). split; [by apply (save_ne version) | by apply Hs]. Qed.

Lemma with_restored_outcome res err x n :
  keeps_new err = false -> (fst x = None -> match previous with [] => read (snd x) = Err StateNotExist | _ => read (snd x) = Ok previous end) ->
  outcome e prev config (nd_acts n) (with_restored res err x n).
Proof.
  intros Hk Hx. unfold with_restored. split; cbn [ar_rollback_error upd]; [rewrite Hk | by intros _ _; left].
  intros Hn. apply (back_to_previous previous); [done |]. by apply Hx.
Qed.

Lemma rollback_outcome acts res err n : keeps_new err = false -> outcome e prev config acts (rollbackConfig r e previous res err n).
Proof.
  intros Hk. unfold rollbackConfig. destruct (rollback_file r e previous (nd_disk n)) as [x d] eqn:Er.
  destruct Hlay as (_ & Hp & _), restore_tmp as [Ht Hn]. destruct (rollback_reads _ _ _ _ _ Hp Ht Hprevious Er) as [_ Hx].
  pose proof (back_to_previous previous prev) as Hb. destruct previous as [| c b]; [| destruct x as [m |]].
  - split; cbn [ar_rollback_error upd]; [rewrite Hk; intros ->; apply Hb; [done | by apply Hx] | intros -> Hne]. by destruct Hne; apply Hx.
  - by split; cbn [ar_rollback_error upd]; [rewrite Hk |].
  - specialize (Hx eq_refl). set (strategy := restoreCoreRuntime _).
    set (n1 := n<|nd_disk := d|>). set (n2 := if re_reload _ then ask r ActReload n1 else n1).
    assert (nd_disk n2 = d) as H2 by (unfold n2; by destruct (re_reload _)).
    split; cbn [ar_rollback_error upd]; [rewrite Hk; intros _ | intros _ _].
    + apply Hb; [done |]. destruct (strategy =s _); unfold held; cbn [ask nd_disk upd]; by rewrite H2.
    + destruct (strategy =s _) eqn:Es; [| by apply ask_in_step]. unfold n2. unfold strategy, restoreCoreRuntime in Es.
      destruct (re_reload (ap_rollback e)); [by apply ask_in_step |]. exfalso. cbn [andb] in Es.
      destruct (re_restart _); [done |]. destruct (if re_managed _ then _ else _); [done |]. by destruct (drift _).
Qed.

Lemma metadata_outcome res n :
  held r n = Ok config -> outcome e prev config (nd_acts n) (apply_metadata Decode Marshal sha256hex at_end r cfg e previous config res n).
Proof.
  intros Hh. assert (installs config n) as Hi by (exists config; split; [done | apply str_eqb_refl]).
  destruct Hlay as (_ & Hp & _), restore_tmp as [Ht Hn].
  assert (forall err, keeps_new err = false -> forall res, outcome e prev config (nd_acts n)
    (with_restored res err (restoreCoreConfigFile r e previous (nd_disk n)) n)) as Hback.
  { intros err Hk res'. apply with_restored_outcome; [done |]. destruct (restoreCoreConfigFile _ _ _ _) as [x d] eqn:Er.
    by destruct (restore_reads _ _ _ _ _ Hp Ht Hn Hprevious Er). }
  unfold apply_metadata. destruct (drift _) eqn:Ed; [by apply recover_outcome |].
  destruct (embeddedCoreTrafficPolicies config); [| by apply Hback]. destruct (ap_push e); [by apply Hback |].
  destruct (lease_of r e config n) as [[err |] n'] eqn:El; destruct (lease_of_spec _ _ _ _ _ El) as (Hd & Hc & Hl);
    (split; [| intros _ _; left; exact Hc]); cbn [keeps_new].
  - exists config. rewrite (held_disk _ _ Hd). split; [done | apply str_eqb_refl].
  - split_and!; [| eapply looked; [exact Ed | done] | by apply Hl]. exists config. rewrite (held_disk _ _ Hd). split; [done | apply str_eqb_refl].
Qed.

Lemma restart_outcome acts handoff res n :
  held r n = Ok config -> outcome e prev config acts (apply_restart Decode Marshal sha256hex at_end r cfg e handoff previous config res n).
Proof.
  intros Hh. assert (installs config (ask r ActRestart n)) as Hi by (exists config; split; [done | apply str_eqb_refl]).
  pose proof (ask_in_step ActRestart acts n (fun _ => eq_refl)) as Ha. unfold apply_restart.
  destruct (rs_restart _); [by apply rollback_outcome |]. destruct (if sg_managedRestart cfg then _ else _); [by apply rollback_outcome |].
  destruct (if handoff then _ else _); [by apply rollback_outcome |].
  destruct (drift _) eqn:Ed; [split; [done | by intros _ _] |]. apply finish_outcome; [done | | done]. eapply awaited; [exact Ed | done].
Qed.

Lemma reload_outcome acts handoff res n :
  held r n = Ok config -> outcome e prev config acts (apply_reload Decode Marshal sha256hex at_end r cfg e handoff previous config res n).
Proof.
  intros Hh. assert (held r (ask r ActReload n) = Ok config) as Hh' by exact Hh. unfold apply_reload.
  destruct (ap_reload e); [by apply restart_outcome |]. destruct (if sg_managedReload cfg then _ else _); [by apply restart_outcome |].
  destruct (if handoff then _ else _); [by apply rollback_outcome |].
  assert (installs config (ask r ActReload n)) as Hi by (exists config; split; [done | apply str_eqb_refl]).
  destruct (drift _) eqn:Ed; [by apply recover_outcome |].
  apply finish_outcome; [done | eapply awaited; [exact Ed | done] | by apply ask_in_step].
Qed.

Lemma process_outcome res n :
  held r n = Ok config ->
  outcome e prev config (nd_acts n) (apply_process Decode Marshal sha256hex at_end printed_inbounds r cfg e previous config res n).
Proof.
  intros Hh. destruct Hlay as (_ & Hp & _), restore_tmp as [Ht Hn]. unfold apply_process.
  destruct (ap_suspend e) as [handoff | m].
  2:{ apply with_restored_outcome; [done |]. destruct (rollback_file _ _ _ _) as [x d] eqn:Er.
      by destruct (rollback_reads _ _ _ _ _ Hp Ht Hprevious Er). }
  destruct (removedInboundListenResources _ _ _); [| by apply restart_outcome].
  destruct (if negb (sg_hotReload cfg) then _ else _); [by apply reload_outcome | by apply restart_outcome].
Qed.

Lemma drop_outcome acts x : outcome e prev config acts x -> outcome e prev config acts (drop_candidate r e version x).
Proof.
  destruct x as [[res err] n]. unfold drop_candidate. destruct (ap_unlink e); [| done].
  assert (held r (n<|nd_disk ::= delete (candidate r version)|>) = held r n) as Hh.
  { apply read_ext; [by apply Hlay |]. apply lookup_delete_ne. by apply layout_ne. }
  unfold outcome, installs, in_step. by rewrite Hh.
Qed.

Lemma changed_outcome forceRestart res n :
  held r n = prev ->
  outcome e prev config (nd_acts n)
    (apply_changed Decode Marshal sha256hex at_end printed_inbounds r cfg e version config forceRestart previous res n).
Proof.
  intros Hh. destruct Hlay as (_ & Hp & _), Hfit as (_ & Hcand & Hcur & _), restore_tmp as [Ht Hn]. unfold apply_changed.
  destruct (layout_ne version Hlay) as (_ & Hne & _), (save_ne _ _ Hcand) as (Hc1 & _ & Hc2 & _), (save_ne _ _ Hcur) as [Htc _].
  destruct (stateWritePath r (ap_candidate e) false _ _ _) as [res1 d1] eqn:E1.
  assert (read d1 = prev) as H1.
  { rewrite <- Hh. apply read_ext; [done |]. by eapply write_elsewhere; [| exact E1 | |]. }
  assert (forall f res m, keeps_new f = false -> read (nd_disk m) = prev -> nd_acts m = nd_acts n ->
    outcome e prev config (nd_acts n) (res, Some f, m)) as Hsame.
  { intros f res' m Hk Hm Ham. split; [rewrite Hk; intros _; by left | intros _ _; by left]. }
  destruct res1; [| by apply Hsame]. apply drop_outcome. destruct (ap_validate e); [by apply Hsame |].
  destruct (stateWritePath r (ap_current e) false _ _ _) as [res2 d2] eqn:E2. cbn [nd_disk upd] in E2.
  destruct (write_file _ _ _ _ _ _ Hp Htc (proj2 Hcur) Hconfig E2) as [_ H2]. destruct res2; [| apply Hsame; [done | exact (eq_trans H2 H1) | done]].
  destruct (coreRuntimeMetadataOnlyChange _ _ _ _ _) as [only | m].
  - destruct (only && _); [exact (metadata_outcome _ (n<|nd_disk := d1|><|nd_disk := d2|>) H2) | exact (process_outcome _ (n<|nd_disk := d1|><|nd_disk := d2|>) H2)].
  - change (nd_acts n) with (nd_acts (n<|nd_disk := d1|><|nd_disk := d2|>)). apply with_restored_outcome; [done |].
    destruct (restoreCoreConfigFile _ _ _ _) as [x d] eqn:Er. by destruct (restore_reads _ _ _ _ _ Hp Ht Hn Hprevious Er).
Qed.

End Steps.

(** Every run of [applyCoreConfigUnlocked] ends in one of the outcomes. *)
Lemma apply_outcome e version config forceRestart n :
  layout version -> fits version e -> plain_text config -> (forall b, held r n = Ok b -> plain_text b) ->
  outcome e (held r n) config (nd_acts n) (apply e version config forceRestart n).
Proof.
  intros Hlay Hfit Hc Hb. unfold applyCoreConfigUnlocked.
  assert (forall f res m, keeps_new f = false -> held r m = held r n -> nd_acts m = nd_acts n ->
    outcome e (held r n) config (nd_acts n) (res, Some f, m)) as Hsame.
  { intros f res m Hk Hm Ham. split; [rewrite Hk; intros _; by left | intros _ _; by left]. }
  destruct (ap_lock e); [by apply Hsame |]. destruct (stageConfigAuthorization _ _ _ _) as [[err |] w]; [by apply Hsame |].
  destruct (ap_mkdir e); [by apply Hsame |]. set (n1 := n<|nd_lane := w|>).
  change (held r n) with (held r n1) in *. change (nd_acts n) with (nd_acts n1) in *.
  assert (plain_text []) as Hnil by (split_and!; [done | done | by_compute]).
  destruct (held r n1) as [[| c b] | [| m]] eqn:Eh.
  - apply (changed_outcome e version [] config (Ok []) Hlay Hfit Hnil Hc (or_intror eq_refl) forceRestart started n1 Eh).
  - destruct (negb forceRestart && _) eqn:Eu.
    + assert (installs config n1) as Hi by (apply andb_true_iff in Eu as [_ Eu]; by exists (c :: b)).
      unfold apply_unchanged. destruct (drift _) eqn:Ed; [by apply recover_outcome |].
      apply finish_outcome; [done | by eapply looked | by left].
    + pose proof (Hb _ eq_refl) as Hpl. pose proof Hlay as (_ & Hp & _). pose proof Hfit as (Hback & _).
      destruct (layout_ne version Hlay) as (Hne & _), (save_ne _ _ Hback) as (Hb1 & Hb2 & _).
      destruct (stateWritePath r (ap_backup e) false _ _ _) as [res1 d1] eqn:E1.
      assert (read d1 = Ok (c :: b)) as H1.
      { rewrite <- Eh. apply read_ext; [done |]. by eapply write_elsewhere; [| exact E1 | |]. }
      destruct res1; [| apply Hsame; [done | exact H1 | done]].
      assert (held r (n1<|nd_disk := d1|>) = Ok (c :: b)) as Hh1 by (unfold held; cbn [nd_disk upd]; exact H1).
      apply (changed_outcome e version (c :: b) config (Ok (c :: b)) Hlay Hfit Hpl Hc eq_refl forceRestart started (n1<|nd_disk := d1|>) Hh1).
  - apply (changed_outcome e version [] config (Err StateNotExist) Hlay Hfit Hnil Hc (or_introl eq_refl) forceRestart started n1 Eh).
  - apply Hsame; [done | exact Eh | done].
Qed.


(** C15: a deployment that reports success is in force: the file holds the
    configuration, the kernel has not drifted from it and, if it answers at all,
    reports the digest of exactly this configuration; and the lease the
    configuration carries governs every SSH session of the agent. *)
Theorem deployed_config_is_served e version config forceRestart n res n' :
  layout version -> fits version e -> plain_text config -> (forall b, held r n = Ok b -> plain_text b) ->
  apply e version config forceRestart n = (res, None, n') ->
  installs config n' /\ served config res /\ leased e config n'.
Proof.
  intros Hl Hf Hc Hb E. pose proof (apply_outcome e version config forceRestart n Hl Hf Hc Hb) as Ho. rewrite E in Ho. apply Ho.
Qed.

(** Under stealth the rollback after a failed restart leaves the previous
    configuration on disk as plain text, where the rollback of a failed policy
    push leaves an envelope. *)
Theorem rollback_stores_plaintext e previous res err n res' n' x d' :
  stealthOn r = true -> previous <> [] -> runtimeStatePurpose r (current r) = ""%string -> se_tmp (ap_restore e) <> current r ->
  ar_rollback_error res = None ->
  rollbackConfig r e previous res err n = (res', Some err, n') -> ar_rollback_error res' = None ->
  restoreCoreConfigFile r e previous (nd_disk n) = (x, d') -> x = None ->
  nd_disk n' !! current r = Some (Regular previous) /\
  exists stored, d' !! current r = Some (Regular stored) /\ IsEncrypted stored = true.
Proof.
  intros Hon Hne Hp Ht Hr E Hr' Es ->. split.
  - revert E. unfold rollbackConfig, rollback_file. destruct previous as [| c b]; [done |].
    pose proof (securefile_Write_spec _ _ (c :: b) (nd_disk n) Ht (se_io (ap_restore e)) false) as (Hok & _ & _).
    destruct (securefile_Write _ _ _ _ _ _) as [[[] | m] d]; cbn [fst snd] in Hok; [| intros [= <- <-]; done].
    destruct (Hok eq_refl) as [Hd _]. intros [= _ <-].
    destruct (restoreCoreRuntime _ =s _), (re_reload _); cbn [ask nd_disk upd]; exact Hd.
  - revert Es. unfold restoreCoreConfigFile. destruct previous as [| c b]; [done |].
    destruct (stateWritePath _ _ _ _ _ _) as [[[] | m] d] eqn:Ew; [| done]. intros [= <-].
    destruct (stateWritePath_cases _ _ _ _ _ _ _ _ Ht Ew) as [_ [[_ []] | (prot & stored & _ & He & _ & Hd)]]; [done |].
    exists stored. split; [by apply Hd |]. unfold envelope in He. rewrite Hon in He.
    unfold Encrypt in He. destruct (_ <? _); [done |]. cbn in He. unfold gcm in He. destruct (_ =? _)%nat; [| done]. cbn in He.
    destruct (se_nonce _); [| done]. injection He as <-. apply IsEncrypted_magic.
Qed.

(** ** Other files *)

Section Frame.
Context (e : ApplyEnv) (version : Z) (p : string).
Context (Hcurrent : p <> current r) (Hbackup : p <> backup r) (Hcandidate : p <> candidate r version).
Context (Hfit : fits version e) (Htmp : p ∉ map se_tmp [ap_backup e; ap_candidate e; ap_current e; ap_restore e]).

Definition leaves (n : Node) (x : Applied) : Prop := nd_disk (snd x) !! p = nd_disk n !! p.

Lemma finish_leaves config strategy res n : leaves n (finishOperationalApply r e config strategy res n).
Proof.
  unfold leaves, finishOperationalApply. destruct (lease_of r e config n) as [[err |] n'] eqn:El;
    destruct (lease_of_spec _ _ _ _ _ El) as (Hd & _); cbn [snd]; by rewrite Hd.
Qed.

Lemma recover_leaves config res n : leaves n (recoverRuntimeDrift Decode Marshal sha256hex at_end r cfg e config res n).
Proof.
  unfold recoverRuntimeDrift, restartCoreForRuntimeDrift. destruct (restart_stable _ _); [done |].
  destruct (drift _); [done | apply (finish_leaves config _ _ (ask r ActRestart n))].
Qed.

Lemma rollback_leaves previous res err n : leaves n (rollbackConfig r e previous res err n).
Proof.
  assert (nd_disk n !! p = snd (rollback_file r e previous (nd_disk n)) !! p) as Hd.
  { destruct Hfit as (_ & _ & _ & Hs). unfold rollback_file. destruct previous as [| c b].
    - unfold remove. destruct (ap_remove e); cbn [snd]; [done |]. by rewrite lookup_delete_ne.
    - pose proof (securefile_Write_spec _ _ (c :: b) (nd_disk n) (proj1 (save_ne _ _ Hs)) (se_io (ap_restore e)) false) as (_ & _ & Ho).
      destruct (securefile_Write _ _ _ _ _ _) as [[] d]; cbn [snd] in *; symmetry; apply Ho; [set_solver | done | set_solver | done]. }
  unfold leaves, rollbackConfig. rewrite Hd. destruct (rollback_file _ _ _ _) as [x d]. cbn [snd].
  destruct previous; [done |]. destruct x; [done |]. destruct (restoreCoreRuntime _ =s _), (re_reload _); done.
Qed.

Lemma restore_leaves previous d : snd (restoreCoreConfigFile r e previous d) !! p = d !! p.
Proof.
  destruct Hfit as (_ & _ & _ & Hs). unfold restoreCoreConfigFile. destruct previous as [| c b].
  - unfold remove. destruct (ap_remove e); cbn [snd]; [done |]. by rewrite lookup_delete_ne.
  - destruct (stateWritePath _ _ _ _ _ _) as [x d1] eqn:Ew.
    assert (d1 !! p = d !! p) as <- by (eapply write_elsewhere; [exact (proj1 (save_ne _ _ Hs)) | exact Ew | set_solver | done]). by destruct x.
Qed.

Lemma restart_leaves handoff previous config res n : leaves n (apply_restart Decode Marshal sha256hex at_end r cfg e handoff previous config res n).
Proof.
  unfold apply_restart. pose proof (fun err => rollback_leaves previous res err (ask r ActRestart n)) as Hr.
  destruct (rs_restart _); [apply Hr |]. destruct (if sg_managedRestart cfg then _ else _); [apply Hr |].
  destruct (if handoff then _ else _); [apply Hr |]. destruct (drift _); [done | apply (finish_leaves config _ _ (ask r ActRestart n))].
Qed.

Lemma metadata_leaves previous config res n : leaves n (apply_metadata Decode Marshal sha256hex at_end r cfg e previous config res n).
Proof.
  unfold apply_metadata. destruct (drift _); [apply recover_leaves |].
  destruct (embeddedCoreTrafficPolicies config); [| apply restore_leaves]. destruct (ap_push e); [apply restore_leaves |].
  unfold leaves. destruct (lease_of r e config n) as [[err |] n'] eqn:El; destruct (lease_of_spec _ _ _ _ _ El) as (Hd & _); cbn [snd]; by rewrite Hd.
Qed.

Lemma reload_leaves handoff previous config res n : leaves n (apply_reload Decode Marshal sha256hex at_end r cfg e handoff previous config res n).
Proof.
  unfold apply_reload. set (n1 := ask r ActReload n). change (leaves n) with (leaves n1).
  destruct (ap_reload e); [apply restart_leaves |]. destruct (if sg_managedReload cfg then _ else _); [apply restart_leaves |].
  destruct (if handoff then _ else _); [apply rollback_leaves |]. destruct (drift _); [apply recover_leaves | apply finish_leaves].
Qed.

Lemma process_leaves previous config res n :
  leaves n (apply_process Decode Marshal sha256hex at_end printed_inbounds r cfg e previous config res n).
Proof.
  unfold apply_process. destruct (ap_suspend e) as [handoff |].
  2:{ pose proof (rollback_leaves previous res FHandoff n) as Hr. unfold leaves, rollbackConfig, with_restored in *. cbn [snd nd_disk upd].
      destruct (rollback_file _ _ _ _) as [x d]. cbn [snd]. rewrite <- Hr.
      destruct previous; [done |]. destruct x; [done |]. destruct (restoreCoreRuntime _ =s _), (re_reload _); done. }
  destruct (removedInboundListenResources _ _ _); [| apply restart_leaves].
  destruct (if negb (sg_hotReload cfg) then _ else _); [apply reload_leaves | apply restart_leaves].
Qed.

Lemma changed_leaves config forceRestart previous res n :
  leaves n (apply_changed Decode Marshal sha256hex at_end printed_inbounds r cfg e version config forceRestart previous res n).
Proof.
  destruct Hfit as (_ & Hcand & Hcur & _). unfold apply_changed.
  destruct (stateWritePath r (ap_candidate e) false _ _ _) as [[] d1] eqn:E1;
    (assert (d1 !! p = nd_disk n !! p) as H1
      by (eapply write_elsewhere; [exact (proj1 (proj2 (proj2 (save_ne _ _ Hcand)))) | exact E1 | set_solver | done])); [| exact H1].
  assert (forall x, leaves (n<|nd_disk := d1|>) x -> leaves n (drop_candidate r e version x)) as Hdrop.
  { intros [[res' err] m] Hx. unfold leaves, drop_candidate in *. cbn [snd nd_disk upd] in *. rewrite <- H1, <- Hx.
    destruct (ap_unlink e); cbn [nd_disk upd]; [by rewrite lookup_delete_ne | done]. }
  apply Hdrop. destruct (ap_validate e); [done |].
  destruct (stateWritePath r (ap_current e) false _ _ _) as [[] d2] eqn:E2;
    (assert (d2 !! p = d1 !! p) as H2 by (eapply write_elsewhere; [exact (proj1 (save_ne _ _ Hcur)) | exact E2 | set_solver | done])); [| exact H2].
  set (n2 := _<|nd_disk := d2|>). assert (forall x, leaves n2 x -> leaves (n<|nd_disk := d1|>) x) as Hn2
    by (intros x Hx; unfold leaves in *; cbn [nd_disk upd]; by rewrite <- H2).
  apply Hn2. destruct (coreRuntimeMetadataOnlyChange _ _ _ _ _) as [only | m]; [| apply restore_leaves].
  destruct (only && _); [apply metadata_leaves | apply process_leaves].
Qed.

(** A file that is none of those of the task stays as it is. *)
Lemma apply_leaves config forceRestart n : leaves n (apply e version config forceRestart n).
Proof.
  destruct Hfit as (Hback & _). unfold applyCoreConfigUnlocked. destruct (ap_lock e); [done |].
  destruct (stageConfigAuthorization _ _ _ _) as [[err |] w]; [done |]. destruct (ap_mkdir e); [done |]. set (n1 := n<|nd_lane := w|>).
  change (leaves n) with (leaves n1). destruct (held r n1) as [[| c b] | [| m]]; [apply changed_leaves | | apply changed_leaves | done].
  destruct (negb forceRestart && _).
  - unfold apply_unchanged. destruct (drift _); [apply recover_leaves | apply finish_leaves].
  - destruct (stateWritePath r (ap_backup e) false _ _ _) as [[] d1] eqn:E1;
      (assert (d1 !! p = nd_disk n1 !! p) as H1
        by (eapply write_elsewhere; [exact (proj1 (proj2 (save_ne _ _ Hback))) | exact E1 | set_solver | done])); [| exact H1].
    pose proof (changed_leaves config forceRestart (c :: b) started (n1<|nd_disk := d1|>)) as Hc. unfold leaves in *. rewrite Hc. exact H1.
Qed.

End Frame.

(** ** Versions *)

(** The surroundings of a task: those of its deployment and of the record. *)
Definition task_fits (et : TaskEnv * CoreTask) : Prop :=
  let '(e, t) := et in
  layout (tk_version t) /\ fits (tk_version t) (te_apply e) /\ save_ok (tk_version t) (te_save e) /\
  version_path r ∉ map se_tmp [ap_backup (te_apply e); ap_candidate (te_apply e); ap_current (te_apply e); ap_restore (te_apply e)] /\
  forall payload b, json_Marshal (mkVersion (tk_version t) (appliedPayloadID sha256hex AgentTaskTypeApplyCoreConfig payload)
    AgentTaskTypeApplyCoreConfig (time_Format (te_now e))) = Some b -> plain_text b.

Abbreviation load d := (loadAppliedVersion r d).
Abbreviation task := (applyCoreConfigTask Decode Marshal sha256hex at_end printed_inbounds r cfg).

(** The record of a task whose deployment succeeded. *)
Definition records (et : TaskEnv * CoreTask) (v : appliedVersionState) : Prop :=
  let '(e, t) := et in
  av_Version v = tk_version t /\ av_Kind v = AgentTaskTypeApplyCoreConfig /\
  exists payload resolved n res n', tk_payload t = Some payload /\ te_assets e = Ok resolved /\
    av_PayloadID v = appliedPayloadID sha256hex AgentTaskTypeApplyCoreConfig payload /\
    apply (te_apply e) (tk_version t) resolved false n = (res, None, n').

Lemma load_ext version d d' : layout version -> d' !! version_path r = d !! version_path r -> load d' = load d.
Proof. intros (_ & _ & Hv) Hd. unfold loadAppliedVersion. by rewrite (read_ext _ _ _ Hv Hd). Qed.

Lemma persist_load {LV : CodecLaws CV} (Hsha : forall b, sha256hex b <> ""%string) mkdir s now kind version payload d err d' :
  layout version -> save_ok version s -> 0 < version ->
  (forall b, json_Marshal (mkVersion version (appliedPayloadID sha256hex kind payload) kind (time_Format now)) = Some b -> plain_text b) ->
  persistAppliedVersion sha256hex r mkdir s now kind version payload d = (err, d') ->
  load d' = match err with
            | None => Ok (mkVersion version (appliedPayloadID sha256hex kind payload) kind (time_Format now))
            | Some _ => load d
            end.
Proof.
  intros Hl Hs Hpos Hplain. unfold persistAppliedVersion. destruct mkdir; [by intros [= <- <-] |].
  destruct (json_Marshal _) as [b |] eqn:Ej; [| by intros [= <- <-]].
  destruct (stateWritePath _ _ _ _ _ _) as [w d1] eqn:Ew. pose proof Hl as (_ & _ & Hv).
  destruct (write_file _ _ _ _ _ _ Hv (proj2 (proj2 (proj2 (save_ne _ _ Hs)))) (proj2 Hs) (Hplain b eq_refl) Ew) as [_ Hr].
  unfold loadAppliedVersion. destruct w; intros [= <- <-]; rewrite Hr; [| done].
  rewrite (json_roundtrip _ _ Ej). cbn. destruct (Z.ltb_spec version 0); [lia |].
  assert ((appliedPayloadID sha256hex kind payload =s "") = false) as -> by (apply str_eqb_neq, Hsha). by rewrite andb_false_r.
Qed.

(** A record that is that of before or of the task. *)
Definition moved (et : TaskEnv * CoreTask) (v : appliedVersionState) (d : disk) : Prop :=
  exists v', load d = Ok v' /\ (v' = v \/ (records et v' /\ av_Version v <= av_Version v')).

Lemma deploy_version {LV : CodecLaws CV} (Hsha : forall b, sha256hex b <> ""%string) e t payload n v :
  task_fits (e, t) -> tk_payload t = Some payload -> 0 < tk_version t -> av_Version v <= tk_version t -> load (nd_disk n) = Ok v ->
  moved (e, t) v (nd_disk (snd (deploy_task Decode Marshal sha256hex at_end printed_inbounds r cfg e t payload n))).
Proof.
  intros (Hl & Hf & Hs & Ht & Hplain) Ep Hpos Hle Hv. unfold deploy_task.
  destruct (te_assets e) as [resolved |] eqn:Ea; [| by exists v; auto].
  destruct (layout_ne _ Hl) as (_ & _ & Hn1 & _ & Hn2 & Hn3).
  pose proof (apply_leaves (te_apply e) (tk_version t) (version_path r) Hn1 Hn2 Hn3 Hf Ht resolved false n) as Hleave.
  destruct (apply _ _ _ _ _) as [[res err] n1] eqn:Eap. unfold leaves in Hleave. cbn [snd] in Hleave.
  pose proof (load_ext _ _ _ Hl Hleave) as Hload. rewrite Hv in Hload.
  destruct err; [by exists v; auto |]. destruct (if tk_ssh t then _ else _); [by exists v; auto |].
  destruct (persistAppliedVersion _ _ _ _ _ _ _ _ _) as [err d] eqn:Epv.
  pose proof (persist_load Hsha _ _ _ _ _ _ _ _ _ Hl Hs Hpos (Hplain payload) Epv) as Hd. unfold moved. destruct err; cbn [snd nd_disk upd]; rewrite Hd.
  - rewrite Hload. eauto.
  - eexists. split; [done |]. right. split; [| done]. split_and!; [done | done |]. exists payload, resolved, n, res, n1. done.
Qed.

Lemma task_version {LV : CodecLaws CV} (Hsha : forall b, sha256hex b <> ""%string) e t n v :
  task_fits (e, t) -> load (nd_disk n) = Ok v -> moved (e, t) v (nd_disk (snd (task e t n))).
Proof.
  intros Hf Hv. assert (moved (e, t) v (nd_disk n)) as Hsame by (exists v; auto).
  unfold applyCoreConfigTask. destruct (tk_payload t) as [payload |] eqn:Ep; [| done].
  unfold checkAppliedVersion. rewrite Hv. destruct (Z.leb_spec (tk_version t) 0); [done |].
  destruct (Z.ltb_spec (tk_version t) (av_Version v)); [done |].
  pose proof (deploy_version Hsha e t payload n v Hf Ep ltac:(lia) ltac:(lia) Hv) as Hd.
  destruct (_ =? _); [| exact Hd]. destruct (_ || _); [done |].
  destruct (_ && converged _ _ _ _ _ _ _); [| exact Hd]. by destruct (applyConfigAuthorization _ _ _) as [err w].
Qed.

Definition run_tasks (tasks : list (TaskEnv * CoreTask)) (n : Node) : Node :=
  fold_left (fun n et => snd (task (fst et) (snd et) n)) tasks n.


End Facts.

(** ** Witnesses *)

Section Witnesses.
#[local] Existing Instance profile_codec.
#[local] Existing Instance lease_codec.
#[local] Existing Instance denied_codec.
#[local] Existing Instance no_zones.
#[local] Existing Instance users_codec.
#[local] Instance lease_metadata_codec : Codec AuthMetadata :=
  {| json_Marshal _ := None; json_Unmarshal _ := Some (mkAuthMetadata (Some sample_next) ∅) |}.
#[local] Instance limits_codec : Codec LimitsMetadata := {| json_Marshal _ := None; json_Unmarshal _ := Some (mkLimits ∅ ∅) |}.
#[local] Instance policy_codec : Codec TrafficRuntimePolicy := {| json_Marshal _ := None; json_Unmarshal _ := None |}.

#[local] Instance version_eq_dec : EqDecision appliedVersionState.
Proof. solve_decision. Defined.
#[local] Instance version_countable : Countable appliedVersionState :=
  inj_countable' (fun v => (av_Version v, av_PayloadID v, av_Kind v, av_UpdatedAt v))
    (fun '(n, p, k, u) => mkVersion n p k u) (fun v => match v with mkVersion _ _ _ _ => eq_refl end).
#[local] Instance version_codec : Codec appliedVersionState := countable_codec.

(** A configuration is a text that decodes to an object with that text. *)
Definition text_decode (b : bytes) : option (json * bytes) := Some (JObj {["text"%string := JStr (string_of_list_ascii b)]}, []).
Definition text_marshal (j : json) : bytes := list_ascii_of_string (as_str (obj_members (Some j) !! "text"%string)).
Definition text_digest (b : bytes) : string := ("sha:" +:+ string_of_list_ascii b)%string.
Definition nothing_left (b : bytes) : bool := match b with [] => true | _ => false end.
Definition no_inbounds (b : bytes) : option (list (gmap string string)) := None.
Definition managed : Settings := mkSettings false true true.

Definition old_config : bytes := list_ascii_of_string "{old}".
Definition new_config : bytes := list_ascii_of_string "{new}".
Definition old_node : Node := mkNode {["/var/lib/oboard/sing-box.json"%string := Regular old_config]} both_serving [].

(** The kernel comes up with the new configuration unless the service manager
    fails. *)
Definition deploy_env (fails : option string) : ApplyEnv :=
  let looks := mkLooks (probe_of "sha:{new}" new_build) [] in
  mkApplyEnv None sample_env (Some ["authorization_lease_v1"%string]) None (probe_of "sha:{old}" new_build)
    (mkRestartEnv None None looks) plain_env plain_env plain_env plain_env None true None None (Ok false) None None None None looks
    (mkRestartEnv fails None looks) (mkRestoreEnv false None None true None (look text_decode text_marshal text_digest nothing_left old_config (probe_of "sha:{old}" new_build)) [])
    next_env None.

Lemma plain_layout : layout plain_runner 7.
Proof. split_and!; [apply (bool_decide_unpack _); by_compute | by_compute | by_compute]. Qed.

Lemma plain_fits fails : fits plain_runner 7 (deploy_env fails).
Proof. split_and!; (split; [apply (bool_decide_unpack _); by_compute | done]). Qed.

Lemma config_plain b : b = old_config \/ b = new_config -> plain_text b.
Proof. intros [-> | ->]; (split_and!; [by_compute | by_compute | by_compute]). Qed.

Lemma old_held b : held plain_runner old_node = Ok b -> plain_text b.
Proof. intros H. assert (held plain_runner old_node = Ok old_config) as H' by by_compute. apply config_plain. left. congruence. Qed.

Abbreviation deploy fails :=
  (applyCoreConfigUnlocked text_decode text_marshal text_digest nothing_left no_inbounds plain_runner managed (deploy_env fails) 7 new_config false old_node).


Lemma deployed_config_is_served_witness :
  exists res n', deploy None = (res, None, n') /\ ar_strategy res = "restart_fallback"%string /\
    held plain_runner n' = Ok new_config /\ served text_decode text_marshal text_digest nothing_left new_config res /\
    exists latest, st_lease (ln_store (nd_lane n')) = Some latest /\ covers latest sample_next.
Proof.
  destruct (deploy None) as [[res err] n'] eqn:E. pose proof (f_equal snd E) as En. cbn [snd] in En.
  assert (err = None) as -> by (apply (f_equal (fun x => snd (fst x))) in E; cbn [fst snd] in E; rewrite <- E; by_compute).
  assert (ar_strategy res = "restart_fallback"%string) as Hs by (apply (f_equal (fun x => ar_strategy (fst (fst x)))) in E; cbn [fst snd] in E; rewrite <- E; by_compute).
  exists res, n'. split; [reflexivity |]. split; [exact Hs |]. split; [rewrite <- En; by_compute |].
  destruct (deployed_config_is_served text_decode text_marshal text_digest nothing_left no_inbounds plain_runner managed
    (deploy_env None) 7 new_config false old_node res n' plain_layout (plain_fits _)
    (config_plain _ (or_intror eq_refl)) old_held E) as (_ & Hserved & Hleased).
  split; [exact Hserved |]. assert (configAuthorization new_config = Ok (Some sample_next)) as Hc by by_compute.
  destruct (Hleased sample_next Hc) as (latest & Hl & Hcov & _). exists latest. split; [exact Hl | exact Hcov].
Defined.

(** The same installation under stealth. *)
Definition hidden_runner : Runner := mkRunner (repeat "k"%char 32) (rn_statePath plain_runner).

Lemma rollback_stores_plaintext_witness :
  exists res' n' d', rollbackConfig hidden_runner (deploy_env None) old_config started FRestart old_node = (res', Some FRestart, n') /\
    restoreCoreConfigFile hidden_runner (deploy_env None) old_config (nd_disk old_node) = (None, d') /\
    nd_disk n' !! current hidden_runner = Some (Regular old_config).
Proof.
  destruct (rollbackConfig hidden_runner (deploy_env None) old_config started FRestart old_node) as [[res' err] n'] eqn:E.
  destruct (restoreCoreConfigFile hidden_runner (deploy_env None) old_config (nd_disk old_node)) as [x d'] eqn:Ed.
  assert (err = Some FRestart) as -> by (apply (f_equal (fun x => snd (fst x))) in E; cbn [fst snd] in E; rewrite <- E; by_compute).
  assert (ar_rollback_error res' = None) as Hr by (apply (f_equal (fun x => ar_rollback_error (fst (fst x)))) in E; cbn [fst snd] in E; rewrite <- E; by_compute).
  assert (x = None) as -> by (apply (f_equal fst) in Ed; cbn [fst] in Ed; rewrite <- Ed; by_compute).
  exists res', n', d'. split; [reflexivity |]. split; [reflexivity |].
  refine (proj1 (rollback_stores_plaintext hidden_runner (deploy_env None) old_config started FRestart old_node res' n' None d'
    _ _ _ _ _ E Hr Ed eq_refl)); [by_compute | discriminate | by_compute | by_compute | reflexivity].
Defined.

(** Two tasks, the second with an older version. *)
Definition one_digest (b : bytes) : string := "digest".
Definition task_env : TaskEnv :=
  mkTaskEnv (probe_of "digest" new_build) next_env (Ok new_config) (deploy_env None) None None plain_env sample_now None.
Definition two_tasks : list (TaskEnv * CoreTask) :=
  [(task_env, mkTask 7 (Some (list_ascii_of_string "p7")) new_config false);
   (task_env, mkTask 6 (Some (list_ascii_of_string "p6")) old_config false)].

Lemma two_tasks_fit : Forall (task_fits one_digest plain_runner) two_tasks.
Proof.
  assert (forall v, (v = 7 \/ v = 6) -> task_fits one_digest plain_runner (task_env, mkTask v (Some []) new_config false)) as H.
  { intros v Hv. split_and!; try (destruct Hv as [-> | ->]; apply (bool_decide_unpack _); by_compute); try done.
    all: try (destruct Hv as [-> | ->]; (split; [apply (bool_decide_unpack _); by_compute | done])).
    intros payload b. unfold appliedPayloadID, one_digest. destruct Hv as [-> | ->]; intros Hb.
    all: assert (b = default [] (json_Marshal (mkVersion 7 "digest" AgentTaskTypeApplyCoreConfig (time_Format sample_now))) \/
                 b = default [] (json_Marshal (mkVersion 6 "digest" AgentTaskTypeApplyCoreConfig (time_Format sample_now)))) as Hc
      by (cbn [te_now task_env tk_version] in Hb; rewrite Hb; auto).
    all: clear Hb; destruct Hc as [-> | ->]; (split_and!; [by_compute | by_compute | by_compute]). }
  apply Forall_cons. split; [exact (H 7 (or_introl eq_refl)) |]. apply Forall_cons. split; [exact (H 6 (or_intror eq_refl)) |]. by apply Forall_nil.
Qed.


End Witnesses.
