(* ===== verification/Activity.v ===== *)
(** * Activity: bounded account activity and its reports

    Model of internal/activity (activity.go, delivery.go; the kernel carries
    the same files): a [Collector] keeps the last three minutes of payload
    activity per account and source network, and freezes one completed minute
    at a time into a report that stays pending until it is acknowledged.
    Counters are uint64 and saturate. Random bytes (the boot id) are an
    argument of [Read]. *)

From S2P Require Import Prelude GoTime Netip Authorization.

Definition Capacity : Z := 4096.
Definition PerAccountCapacity : Z := 32.
Definition RetainedMinutes : Z := 3.

Record Identity := mkId { id_UserID : Z; id_InboundID : Z; id_PathID : Z; id_Source : Prefix }.

#[export] Instance Identity_eq_dec : EqDecision Identity.
Proof. solve_decision. Defined.

#[export] Instance Identity_countable : Countable Identity.
Proof.
  refine (inj_countable' (fun i => (id_UserID i, id_InboundID i, id_PathID i, id_Source i))
    (fun '(u, b, p, s) => mkId u b p s) _). by intros [].
Defined.

(** [Bind]: the network group of a public source. *)
Definition Bind (user inbound path : Z) (source : Addr) : Identity :=
  let source := Unmap source in
  if negb (IsValid source) || IsPrivate source || IsLoopback source || IsUnspecified source ||
     IsMulticast source || IsLinkLocalUnicast source
  then mkId user inbound path zero_prefix
  else mkId user inbound path (masked_prefix source (if Is4 source then 24 else 56)).

Record bucket := mkBucket { b_ActivityBits : Z; b_UploadBytes : Z; b_DownloadBytes : Z }.

(** [m_buckets] is [None] for a slot that was never used. *)
Record minute := mkMinute {
  m_at : Z;
  m_buckets : option (gmap Identity bucket);
  m_accounts : gmap Z Z;
  m_dropped : Z;
  m_unknown : Z;
  m_dirty : bool
}.

#[export] Instance eta_minute : Eta minute := fun m =>
  mkMinute (m_at m) (m_buckets m) (m_accounts m) (m_dropped m) (m_unknown m) (m_dirty m).

Definition zero_minute : minute := mkMinute 0 None ∅ 0 0 false.

Record Item := mkItem {
  it_UserID : Z; it_InboundID : Z; it_PathID : Z; it_SourcePrefix : string; it_ActivityBits : Z;
  it_UploadBytes : Z; it_DownloadBytes : Z
}.

Record Report := mkReport {
  r_CollectorBootID : string;
  r_CollectorStartedAt : Z;
  r_StreamType : string;
  r_Sequence : Z;
  r_MinuteUnix : Z;
  r_ClockState : string;
  r_Complete : bool;
  r_DroppedUpdates : Z;
  r_UnknownSourceUpdates : Z;
  r_Items : list Item
}.

#[export] Instance Item_eq_dec : EqDecision Item.
Proof. solve_decision. Defined.
#[export] Instance Report_eq_dec : EqDecision Report.
Proof. solve_decision. Defined.

Record deliveryState := mkDelivery {
  d_boot : string; d_generation : Z; d_sequence : Z; d_next : Z; d_pending : option Report; d_started : Z
}.

#[export] Instance eta_deliveryState : Eta deliveryState := fun d =>
  mkDelivery (d_boot d) (d_generation d) (d_sequence d) (d_next d) (d_pending d) (d_started d).

Definition no_delivery : deliveryState := mkDelivery "" 0 0 0 None 0.

Record Collector := mkCollector {
  c_enabled : bool;
  c_latest : Z;
  c_slots : list minute;
  c_unalignedUntil : Z;
  c_delivery : deliveryState;
  c_clockSince : Z;
  c_clockUntil : Z
}.

#[export] Instance eta_Collector : Eta Collector := fun c =>
  mkCollector (c_enabled c) (c_latest c) (c_slots c) (c_unalignedUntil c) (c_delivery c) (c_clockSince c) (c_clockUntil c).

Definition empty_slots : list minute := [zero_minute; zero_minute; zero_minute].
Definition new_Collector : Collector := mkCollector false 0 empty_slots 0 no_delivery 0 0.

Definition SetEnabled (enabled : bool) (c : Collector) : Collector :=
  if enabled then c<|c_enabled := true|> else new_Collector.

(** Saturating addition of uint64. *)
Definition sat_add (a b : Z) : Z := if max_uint64 - a <? b then max_uint64 else a + b.

Definition slot_of (at_ : Z) : nat := Z.to_nat (at_ / 60 mod RetainedMinutes).
Definition get_slot (c : Collector) (at_ : Z) : minute := nth (slot_of at_) (c_slots c) zero_minute.

(** The part of [Record] that works on the slot of the minute. *)
Definition record_in (id : Identity) (unix at_ upload download : Z) (s : minute) : minute :=
  if negb (Prefix_IsValid (id_Source id)) then s<|m_unknown ::= fun n => sat_add n 1|>
  else
    let bs := default ∅ (m_buckets s) in
    let count := default 0 (m_accounts s !! id_UserID id) in
    let full := (Capacity <=? Z.of_nat (size bs)) || (PerAccountCapacity <=? count) in
    match bs !! id with
    | None =>
        if full then s<|m_dropped ::= fun n => sat_add n 1|>
        else
          let b := mkBucket (Z.shiftl 1 ((unix - at_) / 5)) (sat_add 0 upload) (sat_add 0 download) in
          s<|m_accounts ::= <[id_UserID id := count + 1]>|><|m_buckets := Some (<[id := b]> bs)|>
    | Some b =>
        let b := mkBucket (Z.lor (b_ActivityBits b) (Z.shiftl 1 ((unix - at_) / 5)))
                   (sat_add (b_UploadBytes b) upload) (sat_add (b_DownloadBytes b) download) in
        s<|m_buckets := Some (<[id := b]> bs)|>
    end.

Definition Record_ (id : Identity) (unix upload download : Z) (c : Collector) : Collector :=
  if (id_UserID id <=? 0) || ((upload =? 0) && (download =? 0)) then c
  else if negb (c_enabled c) then c
  else if unix <? 0 then c<|c_unalignedUntil := c_latest c + RetainedMinutes * 60|>
  else
    let at_ := unix / 60 * 60 in
    if RetainedMinutes * 60 <=? c_latest c - at_ then c<|c_unalignedUntil := c_latest c + RetainedMinutes * 60|>
    else
      let c := if c_latest c <? at_ then c<|c_latest := at_|> else c in
      let s := get_slot c at_ in
      let s := if bool_decide (m_buckets s = None) || negb (m_at s =? at_)
               then mkMinute at_ (Some ∅) ∅ 0 0 false else s in
      let s := if negb (d_boot (c_delivery c) =s "") && (at_ <? d_next (c_delivery c)) then s<|m_dirty := true|> else s in
      c<|c_slots ::= <[slot_of at_ := record_in id unix at_ upload download s]>|>.

Record Snapshot := mkSnapshot {
  sn_Buckets : list (Identity * Z * bucket); sn_Dropped : Z; sn_Unknown : Z; sn_TimeUnaligned : bool
}.

Definition snapshot_slot (at_ : Z) (out : Snapshot) (s : minute) : Snapshot :=
  match m_buckets s with
  | None => out
  | Some bs =>
      if (at_ <? m_at s) || (RetainedMinutes * 60 <=? at_ - m_at s) then out
      else mkSnapshot (sn_Buckets out ++ map (fun '(id, b) => (id, m_at s, b)) (map_to_list bs))
             (sat_add (sn_Dropped out) (m_dropped s)) (sat_add (sn_Unknown out) (m_unknown s)) (sn_TimeUnaligned out)
  end.

Definition collector_Snapshot (unix : Z) (c : Collector) : Snapshot :=
  let out := mkSnapshot [] 0 0 (unix <? c_unalignedUntil c) in
  if negb (c_enabled c) then out
  else fold_left (snapshot_slot (Z.quot unix 60 * 60)) (c_slots c) out.

(** ** Delivery *)

(** The order of [sort.Slice]: user, inbound, path, prefix. *)
Definition item_lt (a b : Item) : bool :=
  if negb (it_UserID a =? it_UserID b) then it_UserID a <? it_UserID b
  else if negb (it_InboundID a =? it_InboundID b) then it_InboundID a <? it_InboundID b
  else if negb (it_PathID a =? it_PathID b) then it_PathID a <? it_PathID b
  else String.ltb (it_SourcePrefix a) (it_SourcePrefix b).

Definition item_le (a b : Item) : Prop := item_lt b a = false.
#[export] Instance item_le_dec a b : Decision (item_le a b).
Proof. unfold item_le. apply _. Defined.

(** A bucket as an item, with its byte counts capped to an int64. *)
Definition cap (n : Z) : Z := if max_int64 <? n then max_int64 else n.
Definition item_of (ib : Identity * bucket) : Item :=
  let '(id, b) := ib in
  mkItem (id_UserID id) (id_InboundID id) (id_PathID id) (Prefix_String (id_Source id)) (b_ActivityBits b)
    (cap (b_UploadBytes b)) (cap (b_DownloadBytes b)).
Definition caps (dropped : Z) (ib : Identity * bucket) : Z :=
  let '(_, b) := ib in
  let dropped := if max_int64 <? b_UploadBytes b then sat_add dropped 1 else dropped in
  if max_int64 <? b_DownloadBytes b then sat_add dropped 1 else dropped.

(** The minute to report: a completed one that changed after its report, or
    the next one. *)
Definition choose_minute (slots : list minute) (end_ next : Z) : Z * bool :=
  fold_left (fun '(at_, correction) s =>
    if m_dirty s && (m_at s <=? end_) && (m_at s <? at_) then (m_at s, true) else (at_, correction))
    slots (next, false).

(** First call of [Read]: the boot identity of the stream. *)
Definition start_delivery (now : Time) (boot : string) (d : deliveryState) : deliveryState :=
  let unix := time_Unix now in
  mkDelivery boot now (d_sequence d) (unix / 60 * 60 - 120) (d_pending d) ((unix + 59) / 60 * 60).

(** The report of the minute [at_], before its items are read. *)
Definition report_head (unix end_ at_ : Z) (stream : string) (c : Collector) (d : deliveryState) : Report :=
  let clock := if (0 <? c_clockSince c) && (c_clockSince c <=? at_) && (at_ + 60 <=? c_clockUntil c)
               then "aligned"%string else "unknown"%string in
  let complete := d_started d <=? at_ in
  let unaligned := (unix <? c_unalignedUntil c) || (unix / 60 * 60 <? c_latest c) in
  let late := RetainedMinutes * 60 <=? end_ - at_ in
  mkReport (d_boot d) (d_generation d) stream (wrapu64 (d_sequence d + 1)) at_
    (if unaligned then "unaligned"%string else clock)
    (if unaligned || late then false else complete)
    (if late then 1 else 0) 0 [].

(** The items of the minute, when its slot still holds it. *)
Definition report_body (s : minute) (r : Report) : Report :=
  let bs := map_to_list (default ∅ (m_buckets s)) in
  let dropped := fold_left caps bs (sat_add (r_DroppedUpdates r) (m_dropped s)) in
  mkReport (r_CollectorBootID r) (r_CollectorStartedAt r) (r_StreamType r) (r_Sequence r) (r_MinuteUnix r)
    (r_ClockState r) (r_Complete r) dropped (m_unknown s) (merge_sort item_le (map item_of bs)).

Definition report_close (r : Report) : Report :=
  mkReport (r_CollectorBootID r) (r_CollectorStartedAt r) (r_StreamType r) (r_Sequence r) (r_MinuteUnix r)
    (r_ClockState r) (if (0 <? r_DroppedUpdates r) || (0 <? r_UnknownSourceUpdates r) then false else r_Complete r)
    (r_DroppedUpdates r) (r_UnknownSourceUpdates r) (r_Items r).

(** [Read]; [boot] is the fresh identity, [None] when no randomness is left. *)
Definition Read (now : Time) (stream : string) (boot : option string) (c : Collector) : option Report * Collector :=
  let unix := time_Unix now in
  if negb (c_enabled c) || (unix <? 120) then (None, c)
  else
    match (if d_boot (c_delivery c) =s "" then
             match boot with Some b => Some (start_delivery now b (c_delivery c)) | None => None end
           else Some (c_delivery c)) with
    | None => (None, c)
    | Some d =>
        let c := c<|c_delivery := d|> in
        match d_pending d with
        | Some r => (Some r, c)
        | None =>
            let end_ := unix / 60 * 60 - 120 in
            let '(at_, correction) := choose_minute (c_slots c) end_ (d_next d) in
            if end_ <? at_ then (None, c)
            else
              let r := report_head unix end_ at_ stream c d in
              let next := if RetainedMinutes * 60 <=? end_ - at_ then end_
                          else if correction then d_next d else d_next d + 60 in
              let s := get_slot c at_ in
              let '(r, slots) :=
                if m_at s =? at_ then (report_body s r, <[slot_of at_ := s<|m_dirty := false|>]> (c_slots c))
                else (r, c_slots c) in
              let r := report_close r in
              (Some r, c<|c_slots := slots|>
                        <|c_delivery := d<|d_sequence := r_Sequence r|><|d_next := next|><|d_pending := Some r|>|>)
        end
    end.

Definition AlignClock (unix : Z) (aligned : bool) (c : Collector) : Collector :=
  if negb aligned then c<|c_clockSince := 0|><|c_clockUntil := 0|>
  else
    let c := if (c_clockUntil c <? unix) || (c_clockSince c =? 0) then c<|c_clockSince := unix|> else c in
    c<|c_clockUntil := unix + 45|>.

Definition Ack (boot : string) (sequence : Z) (c : Collector) : bool * Collector :=
  match d_pending (c_delivery c) with
  | None => (false, c)
  | Some r =>
      if negb (d_boot (c_delivery c) =s boot) || negb (r_Sequence r =? sequence) then (false, c)
      else (true, c<|c_delivery ::= fun d => d<|d_pending := None|>|>)
  end.

(** ** Bounds *)

(** Identities of one account in a minute. *)
Definition of_user (u : Z) (bs : gmap Identity bucket) : gmap Identity bucket :=
  filter (fun p : Identity * bucket => id_UserID (fst p) = u) bs.

Definition bucket_ok (b : bucket) : Prop :=
  1 <= b_ActivityBits b < 2 ^ 12 /\ in_uint64 (b_UploadBytes b) /\ in_uint64 (b_DownloadBytes b).

(** A used slot: within capacity, with exact per-account counts. *)
Record minute_ok (s : minute) (bs : gmap Identity bucket) : Prop := {
  mo_size : Z.of_nat (size bs) <= Capacity;
  mo_accounts : forall u, default 0 (m_accounts s !! u) = Z.of_nat (size (of_user u bs));
  mo_user : forall u, Z.of_nat (size (of_user u bs)) <= PerAccountCapacity;
  mo_buckets : map_Forall (fun _ b => bucket_ok b) bs
}.

Definition slot_ok (latest : Z) (i : nat) (s : minute) : Prop :=
  forall bs, m_buckets s = Some bs ->
  minute_ok s bs /\ 0 <= m_at s <= latest /\ m_at s mod 60 = 0 /\ slot_of (m_at s) = i.

Record collector_ok (c : Collector) : Prop := {
  co_length : List.length (c_slots c) = 3%nat;
  co_latest : 0 <= c_latest c;
  co_slots : forall i s, c_slots c !! i = Some s -> slot_ok (c_latest c) i s
}.

Lemma sat_add_range a b : in_uint64 a -> 0 <= b -> in_uint64 (sat_add a b).
Proof. unfold in_uint64, sat_add. intros. split_ifs; zify_bool; lia. Qed.

Lemma slot_of_lt at_ : (slot_of at_ < 3)%nat.
Proof. unfold slot_of, RetainedMinutes. pose proof (Z.mod_pos_bound (at_ / 60) 3). lia. Qed.

Lemma of_user_insert u id b bs :
  bs !! id = None ->
  size (of_user u (<[id := b]> bs)) =
    (if decide (id_UserID id = u) then S (size (of_user u bs)) else size (of_user u bs)).
Proof.
  intros Hn. unfold of_user. case_decide as Hu.
  - rewrite map_filter_insert_True by done. apply map_size_insert_None. apply map_lookup_filter_None. by left.
  - rewrite map_filter_insert_not; [done |]. intros b' Hb'. done.
Qed.

Lemma of_user_update u id b b' bs :
  bs !! id = Some b -> size (of_user u (<[id := b']> bs)) = size (of_user u bs).
Proof.
  intros Hb. unfold of_user. destruct (decide (id_UserID id = u)) as [Hu | Hu].
  - rewrite map_filter_insert_True by done. apply map_size_insert_Some. exists b. by apply map_lookup_filter_Some.
  - rewrite map_filter_insert_not; [done |]. by intros.
Qed.

Lemma size_of_user u bs : (size (of_user u bs) <= size bs)%nat.
Proof. apply size_filter_le. Qed.

Lemma slice_range unix at_ : at_ = unix / 60 * 60 -> 0 <= (unix - at_) / 5 <= 11.
Proof. intros ->. Z.to_euclidean_division_equations. lia. Qed.

Lemma slice_bit k : 0 <= k <= 11 -> 1 <= Z.shiftl 1 k < 2 ^ 12.
Proof. intros H. enum k 12%nat as Hc. repeat destruct Hc as [<- | Hc]; try done; by_compute. Qed.

Lemma lor_bits a b : 0 <= a < 2 ^ 12 -> 1 <= b < 2 ^ 12 -> 1 <= Z.lor a b < 2 ^ 12.
Proof.
  intros Ha Hb.
  assert (0 <= Z.lor a b) by (apply Z.lor_nonneg; lia).
  assert (Z.lor a b <> 0) by (rewrite Z.lor_eq_0_iff; lia).
  split; [lia |]. apply Z.log2_lt_cancel. rewrite Z.log2_lor by lia.
  assert (Z.log2 (2 ^ 12) = 12) as -> by reflexivity.
  assert (forall x, 0 <= x < 2 ^ 12 -> Z.log2 x < 12) as Hl.
  { intros x Hx. destruct (Z.eq_dec x 0) as [-> |]; [reflexivity |]. apply Z.log2_lt_pow2; lia. }
  pose proof (Hl a ltac:(lia)). pose proof (Hl b ltac:(lia)). lia.
Qed.

Lemma record_in_ok id unix at_ up down s bs :
  at_ = unix / 60 * 60 -> 0 <= up -> 0 <= down -> m_buckets s = Some bs -> minute_ok s bs ->
  exists bs', m_buckets (record_in id unix at_ up down s) = Some bs' /\
    minute_ok (record_in id unix at_ up down s) bs' /\ m_at (record_in id unix at_ up down s) = m_at s /\
    (forall i b, bs !! i = Some b -> exists b', bs' !! i = Some b' /\
       b_UploadBytes b <= b_UploadBytes b' /\ b_DownloadBytes b <= b_DownloadBytes b').
Proof.
  intros Hat Hup Hdown Hbs [O1 O2 O3 O4]. unfold record_in. rewrite Hbs. change (default ∅ (Some bs)) with bs.
  pose proof (slice_bit _ (slice_range unix at_ Hat)) as Hbit.
  assert (forall i b, bs !! i = Some b -> exists b', bs !! i = Some b' /\
    b_UploadBytes b <= b_UploadBytes b' /\ b_DownloadBytes b <= b_DownloadBytes b') as Hsame
    by (intros i b Hb; exists b; split_and!; done || lia).
  destruct (negb _); [exists bs; split_and!; [done | by split | done | done] |].
  destruct (bs !! id) as [b |] eqn:Eb.
  - eexists. split; [reflexivity |]. split_and!; [| done |].
    + specialize (O4 _ _ Eb) as HO. destruct HO as (B1 & B2 & B3). split.
      * rewrite map_size_insert_Some by eauto. done.
      * intros u. rewrite (of_user_update u id b) by done. apply O2.
      * intros u. rewrite (of_user_update u id b) by done. apply O3.
      * apply map_Forall_insert_2; [| done]. split_and!; cbn;
          [apply lor_bits; lia | apply lor_bits; lia | by apply sat_add_range | by apply sat_add_range].
    + intros i b' Hb'. destruct (decide (id = i)) as [<- | Hne].
      * rewrite lookup_insert_eq. assert (b' = b) as -> by congruence. eexists. split; [done |].
        destruct (O4 _ _ Eb) as (_ & B2 & B3). cbn. unfold sat_add, in_uint64 in *.
        split; split_ifs; zify_bool; lia.
      * rewrite lookup_insert_ne by done. by apply Hsame.
  - destruct (_ || _) eqn:Ef; [exists bs; split_and!; [done | by split | done | done] |].
    apply orb_false_iff in Ef as [F1 F2]. zify_bool. eexists. split; [reflexivity |]. split_and!; [| done |].
    + rewrite O2 in F2. split.
      * rewrite map_size_insert_None by done. lia.
      * intros u. cbn [m_accounts upd]. rewrite of_user_insert by done. case_decide as Hu.
        -- subst u. rewrite lookup_insert_eq. cbn. rewrite O2. lia.
        -- rewrite lookup_insert_ne by done. apply O2.
      * intros u. rewrite of_user_insert by done. specialize (O3 u). case_decide as Hu; [subst u; lia | done].
      * apply map_Forall_insert_2; [| done]. split_and!; cbn; [lia | lia | |];
          apply sat_add_range; done.
    + intros i b' Hb'. rewrite lookup_insert_ne by congruence. by apply Hsame.
Qed.

(** ** Runs of a collector *)

Inductive activity_op :=
| ARecord (id : Identity) (unix upload download : Z)
| ARead (now : Time) (stream : string) (boot : option string)
| AAck (boot : string) (sequence : Z)
| AAlign (unix : Z) (aligned : bool)
| AEnable (enabled : bool).

Definition run_activity_op (c : Collector) (o : activity_op) : Collector :=
  match o with
  | ARecord id unix up down => Record_ id unix up down c
  | ARead now stream boot => snd (Read now stream boot c)
  | AAck boot sequence => snd (Ack boot sequence c)
  | AAlign unix aligned => AlignClock unix aligned c
  | AEnable enabled => SetEnabled enabled c
  end.

(** Byte counts are unsigned. *)
Definition op_ok (o : activity_op) : Prop :=
  match o with ARecord _ _ up down => 0 <= up /\ 0 <= down | _ => True end.

Definition run_activity (c : Collector) (ops : list activity_op) : Collector := fold_left run_activity_op ops c.

Lemma get_slot_lookup c at_ : collector_ok c -> c_slots c !! slot_of at_ = Some (get_slot c at_).
Proof.
  intros Hc. destruct (lookup_lt_is_Some_2 (c_slots c) (slot_of at_)) as [x Hx].
  { rewrite co_length by done. apply slot_of_lt. }
  unfold get_slot. by rewrite (nth_lookup_Some _ _ _ _ Hx).
Qed.

Lemma minute_at unix : 0 <= unix -> let at_ := unix / 60 * 60 in 0 <= at_ <= unix /\ at_ mod 60 = 0.
Proof. cbv zeta. intros. split; [Z.to_euclidean_division_equations; lia |]. apply Z.mod_mul. lia. Qed.

Lemma fresh_minute_ok at_ : minute_ok (mkMinute at_ (Some ∅) ∅ 0 0 false) ∅.
Proof.
  split; cbn.
  - rewrite map_size_empty. unfold Capacity. lia.
  - intros u. rewrite lookup_empty. unfold of_user. rewrite map_filter_empty, map_size_empty. done.
  - intros u. unfold of_user. rewrite map_filter_empty, map_size_empty. unfold PerAccountCapacity. lia.
  - apply map_Forall_empty.
Qed.

(** The slot [Record] writes to: the minute it holds is kept or renewed. *)
Definition entered_slot (c : Collector) (at_ : Z) : minute :=
  let s := get_slot c at_ in
  let s := if bool_decide (m_buckets s = None) || negb (m_at s =? at_) then mkMinute at_ (Some ∅) ∅ 0 0 false else s in
  if negb (d_boot (c_delivery c) =s "") && (at_ <? d_next (c_delivery c)) then s<|m_dirty := true|> else s.

Lemma entered_slot_ok c at_ :
  collector_ok c ->
  exists bs, m_buckets (entered_slot c at_) = Some bs /\ minute_ok (entered_slot c at_) bs /\
    m_at (entered_slot c at_) = at_ /\
    (m_at (get_slot c at_) = at_ -> forall bs0, m_buckets (get_slot c at_) = Some bs0 -> bs0 = bs).
Proof.
  intros Hc. pose proof (co_slots _ Hc _ _ (get_slot_lookup c at_ Hc)) as Hs. unfold entered_slot.
  set (s := get_slot c at_) in *. set (dirty := negb _ && _).
  destruct (bool_decide (m_buckets s = None) || negb (m_at s =? at_)) eqn:E.
  - exists ∅. pose proof (fresh_minute_ok at_) as [F1 F2 F3 F4].
    destruct dirty; (split_and!; [done | by split | done |]); intros Hat bs0 Hbs0;
      apply orb_true_iff in E as [E | E]; zify_bool; congruence.
  - apply orb_false_iff in E as [E1 E2]. zify_bool. destruct (m_buckets s) as [bs |] eqn:Eb; [| done].
    destruct (Hs bs Eb) as ([F1 F2 F3 F4] & _). exists bs.
    destruct dirty; (split_and!; [done | by split | done | intros; congruence]).
Qed.

Lemma Record_cases id unix up down c :
  let c' := Record_ id unix up down c in
  (c_slots c' = c_slots c /\ c_latest c' = c_latest c /\ c_delivery c' = c_delivery c) \/
  (0 <= unix /\ c_latest c - unix / 60 * 60 < 180 /\ c_latest c' = Z.max (c_latest c) (unix / 60 * 60) /\
   c_delivery c' = c_delivery c /\
   c_slots c' = <[slot_of (unix / 60 * 60) :=
     record_in id unix (unix / 60 * 60) up down (entered_slot c (unix / 60 * 60))]> (c_slots c)).
Proof.
  cbv zeta. unfold Record_, RetainedMinutes. destruct (_ || _); [by left |]. destruct (negb (c_enabled c)); [by left |].
  destruct (Z.ltb_spec unix 0); [by left |].
  destruct (Z.leb_spec (3 * 60) (c_latest c - unix / 60 * 60)); [by left |]. right.
  destruct (Z.ltb_spec (c_latest c) (unix / 60 * 60)); cbn [c_latest c_slots c_delivery upd];
    split_and!; try done; lia.
Qed.

Lemma Record_ok id unix up down c :
  0 <= up -> 0 <= down -> collector_ok c -> collector_ok (Record_ id unix up down c).
Proof.
  intros Hup Hdown Hc. destruct (Record_cases id unix up down c) as [(Hs & Hl & _) | (H0 & Hret & Hl & _ & Hs)].
  { destruct Hc. split; rewrite ?Hs, ?Hl; done. }
  set (at_ := unix / 60 * 60) in *. set (c' := Record_ id unix up down c) in *.
  destruct (minute_at unix H0) as [Hat Hmod]. fold at_ in Hat, Hmod.
  destruct (entered_slot_ok c at_ Hc) as (bs & Hbs & Hok & Hm & _).
  destruct (record_in_ok id unix at_ up down _ _ eq_refl Hup Hdown Hbs Hok) as (bs' & Hbs' & Hok' & Hm' & _).
  split.
  - rewrite Hs, length_insert. apply Hc.
  - rewrite Hl. pose proof (co_latest _ Hc). lia.
  - intros i s. rewrite Hs, Hl. intros [(<- & <- & _) | [Hne Hi]]%list_lookup_insert_Some.
    + intros bs1 Hbs1. assert (bs1 = bs') as -> by congruence. split_and!; try done; rewrite ?Hm', ?Hm; done || lia.
    + intros bs1 Hbs1. destruct (co_slots _ Hc _ _ Hi _ Hbs1) as (P1 & P2 & P3). split_and!; done || lia.
Qed.

Lemma Read_slots now stream boot c :
  c_slots (snd (Read now stream boot c)) = c_slots c \/
  exists at_, c_slots (snd (Read now stream boot c)) = <[slot_of at_ := (get_slot c at_)<|m_dirty := false|>]> (c_slots c).
Proof.
  unfold Read. destruct (_ || _); [by left |].
  destruct (if d_boot (c_delivery c) =s "" then _ else _) as [d |]; [| by left].
  destruct (d_pending d); [by left |].
  destruct (choose_minute _ _ _) as [at_ corr]. destruct (_ <? at_); [by left |]. cbn [c_slots upd].
  change (get_slot (c<|c_delivery := d|>) at_) with (get_slot c at_).
  destruct (m_at (get_slot c at_) =? at_); [right; by exists at_ | by left].
Qed.

Lemma Read_latest now stream boot c : c_latest (snd (Read now stream boot c)) = c_latest c.
Proof.
  unfold Read. destruct (_ || _); [done |].
  destruct (if d_boot (c_delivery c) =s "" then _ else _) as [d |]; [| done].
  destruct (d_pending d); [done |]. destruct (choose_minute _ _ _) as [at_ corr]. destruct (_ <? at_); [done |].
  by destruct (m_at _ =? at_).
Qed.

Lemma run_activity_op_ok c o : op_ok o -> collector_ok c -> collector_ok (run_activity_op c o).
Proof.
  intros Ho Hc. destruct o as [id unix up down | now stream boot | boot sequence | unix aligned | enabled]; cbn.
  - destruct Ho. by apply Record_ok.
  - pose proof (Read_latest now stream boot c) as Hl.
    destruct (Read_slots now stream boot c) as [Hs | [at_ Hs]]; split; rewrite ?Hs, ?Hl; try apply Hc.
    + rewrite length_insert. apply Hc.
    + intros i s [(<- & <- & _) | [Hne Hi]]%list_lookup_insert_Some; [| by apply Hc].
      intros bs Hbs. destruct (co_slots _ Hc _ _ (get_slot_lookup c at_ Hc) bs Hbs) as ([P1 P2 P3 P4] & ?). done.
  - unfold Ack. destruct (d_pending _); [| done]. destruct (_ || _); [done |]. destruct Hc. by split.
  - unfold AlignClock. destruct Hc. destruct (negb aligned); [by split |]. destruct (_ || _); by split.
  - destruct enabled; destruct Hc; [by split |]. split; [done | done |].
    intros i s Hi bs Hbs. exfalso. do 3 (destruct i as [| i]; [cbn in Hi; injection Hi as <-; done |]). done.
Qed.

Lemma new_Collector_ok : collector_ok new_Collector.
Proof.
  split; [done | done |]. intros i s Hi bs Hbs. exfalso.
  do 3 (destruct i as [| i]; [cbn in Hi; injection Hi as <-; done |]). done.
Qed.

(** The collector's memory is bounded whatever it is fed: in every
    reachable state it holds at most three minutes, a minute holds at most
    4096 identities and at most 32 of one account, its per-account counts
    are exact, activity bits fit the twelve five-second slices and byte
    counters an unsigned 64-bit integer. *)
Theorem collector_is_bounded ops i s bs :
  Forall op_ok ops -> c_slots (run_activity new_Collector ops) !! i = Some s -> m_buckets s = Some bs ->
  (i < 3)%nat /\ Z.of_nat (size bs) <= Capacity /\
  (forall u, default 0 (m_accounts s !! u) = Z.of_nat (size (of_user u bs)) /\
     Z.of_nat (size (of_user u bs)) <= PerAccountCapacity) /\
  (forall id b, bs !! id = Some b -> 1 <= b_ActivityBits b < 2 ^ 12 /\
     in_uint64 (b_UploadBytes b) /\ in_uint64 (b_DownloadBytes b)).
Proof.
  intros Hops Hi Hbs. rewrite Forall_forall in Hops.
  assert (collector_ok (run_activity new_Collector ops)) as Hc.
  { apply (fold_left_inv _ collector_ok); [apply new_Collector_ok |]. intros. apply run_activity_op_ok; auto. }
  destruct (co_slots _ Hc _ _ Hi _ Hbs) as ([O1 O2 O3 O4] & _). split_and!; [| done | |].
  - apply lookup_lt_Some in Hi. by rewrite (co_length _ Hc) in Hi.
  - intros u. split; [apply O2 | apply O3].
  - intros id b Hb. by apply (O4 id b).
Qed.

(** Recording never discards a minute that is still retained: a slot
    whose minute lies within three minutes of the newest one survives every
    [Record], late and out-of-order payloads included, with all its
    identities, and their byte counts only grow. *)
Theorem record_keeps_retained_minutes id unix up down c i s bs :
  collector_ok c -> 0 <= up -> 0 <= down -> c_slots c !! i = Some s -> m_buckets s = Some bs ->
  c_latest (Record_ id unix up down c) - m_at s < RetainedMinutes * 60 ->
  exists s' bs', c_slots (Record_ id unix up down c) !! i = Some s' /\ m_buckets s' = Some bs' /\ m_at s' = m_at s /\
    forall j b, bs !! j = Some b -> exists b', bs' !! j = Some b' /\
      b_UploadBytes b <= b_UploadBytes b' /\ b_DownloadBytes b <= b_DownloadBytes b'.
Proof.
  intros Hc Hup Hdown Hi Hbs. unfold RetainedMinutes.
  destruct (Record_cases id unix up down c) as [(Hs & Hl & _) | (H0 & Hret & Hl & _ & Hs)].
  { intros _. rewrite Hs. exists s, bs. split_and!; try done. intros j b Hb. exists b. split_and!; done || lia. }
  set (at_ := unix / 60 * 60) in *. rewrite Hl, Hs. intros Hret'.
  destruct (co_slots _ Hc _ _ Hi _ Hbs) as (Hok & Hrange & Hmod & Hidx).
  destruct (minute_at unix H0) as [Hat Hatmod]. fold at_ in Hat, Hatmod.
  destruct (decide (slot_of at_ = i)) as [<- | Hne].
  2:{ rewrite list_lookup_insert_ne by done. exists s, bs. split_and!; try done.
      intros j b Hb. exists b. split_and!; done || lia. }
  assert (s = get_slot c at_) as -> by (pose proof (get_slot_lookup c at_ Hc); congruence).
  assert (m_at (get_slot c at_) = at_) as Heq.
  { unfold slot_of, RetainedMinutes in Hidx. set (m := m_at (get_slot c at_)) in *.
    assert ((m / 60) mod 3 = (at_ / 60) mod 3) as Hm.
    { pose proof (Z.mod_pos_bound (m / 60) 3). pose proof (Z.mod_pos_bound (at_ / 60) 3). lia. }
    clear - Hm Hmod Hatmod Hret' Hret Hrange. Z.to_euclidean_division_equations. lia. }
  destruct (entered_slot_ok c at_ Hc) as (bs1 & Hbs1 & Hok1 & Hm1 & Hkeep).
  assert (bs = bs1) as <- by (by apply Hkeep).
  destruct (record_in_ok id unix at_ up down _ _ eq_refl Hup Hdown Hbs1 Hok1) as (bs' & Hbs' & _ & Hm' & Hmono).
  eexists _, bs'. split; [apply list_lookup_insert_eq; rewrite (co_length _ Hc); apply slot_of_lt |].
  split_and!; [done | congruence | done].
Qed.

(** ** Delivery *)

(** The fields of the delivery a call of [Read] leaves. *)
Lemma Read_pending now stream boot c r :
  c_enabled c = true -> 120 <= time_Unix now -> d_pending (c_delivery c) = Some r -> d_boot (c_delivery c) <> ""%string ->
  Read now stream boot c = (Some r, c).
Proof.
  intros He Hu Hp Hb. unfold Read. rewrite He, (proj2 (Z.ltb_ge _ _) Hu), (proj2 (str_eqb_neq _ _) Hb), Hp. cbn.
  by destruct c.
Qed.

Lemma Read_new now stream boot c r c' :
  Read now stream boot c = (Some r, c') ->
  c_enabled c = true /\ 120 <= time_Unix now /\ d_pending (c_delivery c') = Some r /\
  c_enabled c' = true /\
  ((d_boot (c_delivery c) = ""%string -> boot <> Some ""%string) -> d_boot (c_delivery c') <> ""%string).
Proof.
  unfold Read. destruct (c_enabled c) eqn:Ee; [| done]. cbn [negb orb].
  destruct (Z.ltb_spec (time_Unix now) 120); [done |].
  destruct (if d_boot (c_delivery c) =s "" then _ else _) as [d |] eqn:Ed; [| done].
  assert ((d_boot (c_delivery c) = ""%string -> boot <> Some ""%string) -> d_boot d <> ""%string) as Hb.
  { destruct (d_boot (c_delivery c) =s "") eqn:Eb.
    - apply str_eqb_eq in Eb. destruct boot as [b |]; [| done]. injection Ed as <-. cbn. intros Hne ->. by apply Hne.
    - apply str_eqb_neq in Eb. by injection Ed as <-. }
  destruct (d_pending d) as [r0 |] eqn:Ep.
  { intros Heq. apply pair_eq in Heq as [[= ->] <-]. split_and!; done. }
  destruct (choose_minute _ _ _) as [at_ corr]. destruct (_ <? at_); [done |].
  destruct (m_at _ =? at_); intros Heq; apply pair_eq in Heq as [[= <-] <-]; split_and!; done.
Qed.

(** An operation that does not acknowledge [r] and keeps the collector on. *)
Definition keeps (r : Report) (boot : string) (o : activity_op) : Prop :=
  match o with
  | AAck b q => b <> boot \/ q <> r_Sequence r
  | AEnable b => b = true
  | _ => True
  end.

Lemma keeps_pending r boot c o :
  c_enabled c = true -> d_pending (c_delivery c) = Some r -> d_boot (c_delivery c) = boot -> boot <> ""%string ->
  keeps r boot o ->
  let c' := run_activity_op c o in
  c_enabled c' = true /\ d_pending (c_delivery c') = Some r /\ d_boot (c_delivery c') = boot.
Proof.
  intros He Hp Hb Hne Hk. cbv zeta. destruct o as [id unix up down | now stream b | b q | unix aligned | enabled]; cbn.
  - unfold Record_. rewrite He. destruct (_ || _); [done |]. cbn [negb]. destruct (unix <? 0); [done |].
    destruct (_ <=? _); [done |]. by destruct (_ <? _).
  - destruct (Z.ltb_spec (time_Unix now) 120) as [Hu | Hu].
    + unfold Read. rewrite He, (proj2 (Z.ltb_lt _ _) Hu). done.
    + rewrite (Read_pending now stream b c r) by (done || congruence). done.
  - unfold Ack. rewrite Hp, Hb. destruct (_ || _) eqn:E; [done |]. exfalso.
    apply orb_false_iff in E as [E1 E2]. zify_bool. apply str_eqb_eq in E1. destruct Hk; congruence.
  - unfold AlignClock. destruct (negb aligned); [done |]. by destruct (_ || _).
  - cbn in Hk. by subst enabled.
Qed.

(** A frozen report is immutable until its own acknowledgement: once
    [Read] has returned it, every later [Read] returns the same bytes,
    whatever is recorded, aligned, read or wrongly acknowledged in between. *)
Theorem pending_report_is_immutable now stream boot c r c' ops now' stream' boot' :
  Read now stream boot c = (Some r, c') -> (d_boot (c_delivery c) = ""%string -> boot <> Some ""%string) ->
  Forall (keeps r (d_boot (c_delivery c'))) ops -> 120 <= time_Unix now' ->
  fst (Read now' stream' boot' (run_activity c' ops)) = Some r.
Proof.
  intros HR Hboot Hops Hu. destruct (Read_new _ _ _ _ _ _ HR) as (_ & _ & Hp & He & Hb). specialize (Hb Hboot).
  set (bt := d_boot (c_delivery c')) in *. rewrite Forall_forall in Hops.
  assert (c_enabled (run_activity c' ops) = true /\ d_pending (c_delivery (run_activity c' ops)) = Some r /\
    d_boot (c_delivery (run_activity c' ops)) = bt) as (He' & Hp' & Hb').
  { apply (fold_left_inv _ (fun x => c_enabled x = true /\ d_pending (c_delivery x) = Some r /\ d_boot (c_delivery x) = bt)).
    - done.
    - intros x o Ho (X1 & X2 & X3). by apply keeps_pending; auto. }
  rewrite (Read_pending now' stream' boot' _ r) by (done || congruence). done.
Qed.

(** The report of a minute its slot still holds is exact and canonical:
    its items are the minute's identities with their bits and byte counts
    (capped to an int64), sorted by user, inbound, path and prefix. *)
Theorem report_lists_the_minute s r :
  Permutation (r_Items (report_body s r)) (map item_of (map_to_list (default ∅ (m_buckets s)))) /\
  Sorted item_le (r_Items (report_body s r)).
Proof.
  split; [apply merge_sort_Permutation |]. apply Sorted_merge_sort.
  intros a b. unfold item_le, item_lt. destruct (Z.eqb_spec (it_UserID a) (it_UserID b)) as [E1 | E1]; cbn [negb].
  2:{ rewrite (proj2 (Z.eqb_neq (it_UserID b) (it_UserID a))) by congruence. cbn [negb].
      destruct (Z.lt_total (it_UserID a) (it_UserID b)) as [? | [? | ?]]; [left | lia | right]; apply Z.ltb_ge; lia. }
  rewrite <- E1, Z.eqb_refl. cbn [negb].
  destruct (Z.eqb_spec (it_InboundID a) (it_InboundID b)) as [E2 | E2]; cbn [negb].
  2:{ rewrite (proj2 (Z.eqb_neq (it_InboundID b) (it_InboundID a))) by congruence. cbn [negb].
      destruct (Z.lt_total (it_InboundID a) (it_InboundID b)) as [? | [? | ?]]; [left | lia | right]; apply Z.ltb_ge; lia. }
  rewrite <- E2, Z.eqb_refl. cbn [negb].
  destruct (Z.eqb_spec (it_PathID a) (it_PathID b)) as [E3 | E3]; cbn [negb].
  2:{ rewrite (proj2 (Z.eqb_neq (it_PathID b) (it_PathID a))) by congruence. cbn [negb].
      destruct (Z.lt_total (it_PathID a) (it_PathID b)) as [? | [? | ?]]; [left | lia | right]; apply Z.ltb_ge; lia. }
  rewrite <- E3, Z.eqb_refl. cbn [negb]. unfold String.ltb.
  rewrite (String.compare_antisym (it_SourcePrefix a) (it_SourcePrefix b)).
  destruct (String.compare (it_SourcePrefix b) (it_SourcePrefix a)); cbn; auto.
Qed.

(** ** Witnesses *)

Definition public_id : Identity := Bind 7 1 0 (V4 (203 * 16777216 + 113 * 256 + 9)).
Definition noon : Z := 28333320 * 60.
Definition recorded : Collector := Record_ public_id noon 10 0 (SetEnabled true new_Collector).

Definition noon_minute : minute := mkMinute noon (Some {[public_id := mkBucket 1 10 0]}) {[7 := 1]} 0 0 false.

Lemma collector_is_bounded_witness :
  c_slots (run_activity new_Collector [AEnable true; ARecord public_id noon 10 0]) !! 0%nat = Some noon_minute /\
  Z.of_nat (size (default ∅ (m_buckets noon_minute))) <= Capacity.
Proof.
  assert (c_slots (run_activity new_Collector [AEnable true; ARecord public_id noon 10 0]) !! 0%nat = Some noon_minute)
    as Hs by by_compute.
  split; [exact Hs |].
  assert (Forall op_ok [AEnable true; ARecord public_id noon 10 0]) as Ho by (repeat constructor; cbn; lia).
  exact (proj1 (proj2 (collector_is_bounded _ 0 noon_minute _ Ho Hs eq_refl))).
Defined.

Lemma record_keeps_retained_minutes_witness :
  exists s', c_slots (Record_ public_id (noon + 60) 5 0 recorded) !! 0%nat = Some s' /\ m_at s' = noon.
Proof.
  assert (collector_ok recorded) as Hc.
  { unfold recorded. apply Record_ok; [lia | lia |]. apply (run_activity_op_ok new_Collector (AEnable true)); [done | apply new_Collector_ok]. }
  assert (c_slots recorded !! 0%nat = Some noon_minute) as Hs by by_compute.
  assert (c_latest (Record_ public_id (noon + 60) 5 0 recorded) - m_at noon_minute < RetainedMinutes * 60) as Hl by by_compute.
  destruct (record_keeps_retained_minutes public_id (noon + 60) 5 0 recorded 0 noon_minute _
    Hc ltac:(lia) ltac:(lia) Hs eq_refl Hl) as (s' & bs' & Hs' & _ & Hm & _).
  exists s'. split; [exact Hs' | exact Hm].
Defined.

Definition read_once : option Report * Collector := Read ((noon + 130) * Second) "kernel" (Some "b"%string) recorded.

Lemma pending_report_is_immutable_witness :
  exists r, fst read_once = Some r /\
    fst (Read ((noon + 500) * Second) "kernel" None
      (run_activity (snd read_once) [ARecord public_id (noon + 400) 1 1; AAck "b" 9])) = Some r.
Proof.
  destruct read_once as [o c'] eqn:E.
  assert (exists r, o = Some r /\ r_Sequence r = 1 /\ d_boot (c_delivery c') = "b"%string) as (r & -> & Hq & Hb).
  { unfold read_once in E. vm_compute in E. apply pair_eq in E as [<- <-]. eexists. split_and!; reflexivity. }
  exists r. split; [reflexivity |].
  apply (pending_report_is_immutable ((noon + 130) * Second) "kernel" (Some "b"%string) recorded r c'
    [ARecord public_id (noon + 400) 1 1; AAck "b" 9]).
  - exact E.
  - intros _. discriminate.
  - rewrite Hb. constructor; [exact I |]. constructor; [| constructor]. right. rewrite Hq. discriminate.
  - by_compute.
Defined.

(** A minute whose slot was reused before it was read is reported as a
    complete minute without activity: the collector recorded a payload at
    noon, later minutes were read on time until 12:02, the slot of noon was
    taken over by a payload at 12:03, and the read at 12:03 answers a complete
    report of noon with no items, nothing dropped. *)
Theorem overwritten_minute_reported_complete :
  let c := SetEnabled true new_Collector in
  let c := snd (Read ((noon - 60) * Second) "kernel" (Some "b"%string) c) in
  let c := snd (Ack "b" 1 c) in
  let c := snd (Read (noon * Second) "kernel" None c) in
  let c := snd (Ack "b" 2 c) in
  let c := Record_ public_id noon 10 0 c in
  let c := snd (Read ((noon + 60) * Second) "kernel" None c) in
  let c := snd (Ack "b" 3 c) in
  let c := Record_ public_id (noon + 180) 20 0 c in
  exists r, fst (Read ((noon + 180) * Second) "kernel" None c) = Some r /\
    r_MinuteUnix r = noon /\ r_Complete r = true /\ r_Items r = [] /\ r_DroppedUpdates r = 0.
Proof. eexists. split_and!; vm_compute; reflexivity. Qed.
