(* ===== verification/ActivityDelivery.v ===== *)
(** * ActivityDelivery: from the collectors to the Controller

    Model of [collectAndReportAccountActivity] in internal/agent/account_activity.go,
    of the local API of the kernel it talks to
    (kernel/oboard-sb/cmd/oboard-sb/activity.go, minibox/activity_delivery.go)
    and of the collection policy (internal/auditwire/collection.go,
    internal/agent/activity_collection.go).

    A report frozen by a collector moves into the agent's synced pending file,
    is then acknowledged to the collector, posted to the Controller and finally
    dropped from the file. Every call can fail before or after it took effect;
    these outcomes are arguments. [w_settled] records the reports the
    Controller acknowledged. The pending file is used through the interface
    [StateFiles]. *)

From S2P Require Import Prelude GoTime Stealth Files Json StateFile Netip Activity.

(** ** Collection policies *)

Record CollectionPolicy := mkCollectionPolicy {
  cp_Mode : string;
  cp_BaseMode : string;
  cp_DiagnosticUserIDs : list Z;
  cp_DiagnosticUntil : Time;
  cp_Revision : Z
}.

#[export] Instance CollectionPolicy_eq_dec : EqDecision CollectionPolicy.
Proof. solve_decision. Defined.

#[export] Instance eta_CollectionPolicy : Eta CollectionPolicy := fun p =>
  mkCollectionPolicy (cp_Mode p) (cp_BaseMode p) (cp_DiagnosticUserIDs p) (cp_DiagnosticUntil p) (cp_Revision p).

Definition policy_Valid (p : CollectionPolicy) : bool :=
  if (cp_Revision p <? 0) || (256 <? Z.of_nat (List.length (cp_DiagnosticUserIDs p))) ||
     (negb (cp_BaseMode p =s "") && negb (cp_BaseMode p =s "light") && negb (cp_BaseMode p =s "standard"))
  then false
  else if (cp_Mode p =s "light") || (cp_Mode p =s "standard") then (List.length (cp_DiagnosticUserIDs p) =? 0)%nat
  else if cp_Mode p =s "diagnostic" then
    negb (IsZero (cp_DiagnosticUntil p)) && forallb (fun id => 0 <? id) (cp_DiagnosticUserIDs p)
  else false.

Definition policy_Allows (p : option CollectionPolicy) (user : Z) (now : Time) : bool :=
  match p with
  | None => false
  | Some p =>
      if cp_Mode p =s "standard" then true
      else if negb (cp_Mode p =s "diagnostic") then false
      else if negb (Before now (cp_DiagnosticUntil p)) then cp_BaseMode p =s "standard"
      else if (List.length (cp_DiagnosticUserIDs p) =? 0)%nat then true
      else existsb (fun id => id =? user) (cp_DiagnosticUserIDs p)
  end.

(** A diagnostic window that is over falls back to the base mode. *)
Definition resolved (p : CollectionPolicy) (now : Time) : CollectionPolicy :=
  if (cp_Mode p =s "diagnostic") && negb (Before now (cp_DiagnosticUntil p)) then
    p<|cp_Mode := if cp_BaseMode p =s "" then "light"%string else cp_BaseMode p|><|cp_DiagnosticUserIDs := []|>
  else p.

(** The audit accumulators of agent and kernel, as far as the policy is
    concerned: [D] is the per-connection detail they keep. *)
Record auditState (D : Type) := mkAudit {
  au_collection : option CollectionPolicy;
  au_diagnostics : bool;
  au_detail : option D;
  au_generation : Z
}.
Arguments mkAudit {D} _ _ _ _.
Arguments au_collection {D} _.
Arguments au_diagnostics {D} _.
Arguments au_detail {D} _.
Arguments au_generation {D} _.

Section Policy.
Context {D : Type}.

(** [RateLimitTracker.SetActivityCollection]. *)
Definition SetActivityCollection (p : CollectionPolicy) (a : auditState D) : bool * auditState D :=
  if negb (policy_Valid p) then (false, a)
  else
    match au_collection a with
    | Some old =>
        if cp_Revision p <? cp_Revision old then (false, a)
        else if bool_decide (old = p) then (true, a)
        else (true, mkAudit (Some p) (negb (cp_Mode p =s "light")) None (wrapu64 (au_generation a + 1)))
    | None => (true, mkAudit (Some p) (negb (cp_Mode p =s "light")) None (wrapu64 (au_generation a + 1)))
    end.

(** [setCollectionPolicy] of the agent's accumulator. *)
Definition setCollectionPolicy (p : CollectionPolicy) (a : auditState D) : auditState D :=
  if negb (policy_Valid p) then a
  else
    match au_collection a with
    | Some old =>
        if (cp_Revision p <? cp_Revision old) || bool_decide (old = p) then a
        else mkAudit (Some p) (au_diagnostics a) None (wrapu64 (au_generation a + 1))
    | None => mkAudit (Some p) (au_diagnostics a) None (wrapu64 (au_generation a + 1))
    end.

(** [setAuditCollectionPolicy]: the second component is the policy posted to
    the kernel, the third whether the persisted audit state was discarded. *)
Definition setAuditCollectionPolicy (p : option CollectionPolicy) (now : Time) (a : auditState D)
  : auditState D * option CollectionPolicy * bool :=
  let p := match p with
           | Some p => p
           | None => mkCollectionPolicy "light" "" [] time_zero
                       (match au_collection a with Some old => cp_Revision old | None => 0 end)
           end in
  if negb (policy_Valid p) then (a, None, false)
  else
    let p := resolved p now in
    if match au_collection a with Some old => cp_Revision p <? cp_Revision old | None => false end
    then (a, None, false)
    else (setCollectionPolicy p a, Some p, cp_Mode p =s "light").

(** The policy part of [collectDiagnosticActivity]; the last component is
    whether detail is reported. *)
Definition collectDiagnosticActivity (now : Time) (a : auditState D)
  : auditState D * option CollectionPolicy * bool :=
  match au_collection a with
  | None => (a, None, false)
  | Some p =>
      if (cp_Mode p =s "diagnostic") && negb (Before now (cp_DiagnosticUntil p)) then
        let '(a, posted, _) := setAuditCollectionPolicy (Some (resolved p now)) now a in
        (a, posted, (cp_Mode (resolved p now) =s "standard") || (cp_Mode (resolved p now) =s "diagnostic"))
      else (a, None, (cp_Mode p =s "standard") || (cp_Mode p =s "diagnostic"))
  end.

(** The policy in force after a sequence of pushes. *)
Definition push (a : auditState D) (pn : option CollectionPolicy * Time) : auditState D :=
  fst (fst (setAuditCollectionPolicy (fst pn) (snd pn) a)).

End Policy.

(** One push of the Controller, with its post to the kernel. *)
Definition sync_policy {D D' : Type} (ak : auditState D * auditState D') (pn : option CollectionPolicy * Time)
  : auditState D * auditState D' :=
  let '(a, k) := ak in
  let '(a, posted, _) := setAuditCollectionPolicy (fst pn) (snd pn) a in
  (a, match posted with Some q => snd (SetActivityCollection q k) | None => k end).

Definition revision_of (c : option CollectionPolicy) : Z := match c with Some p => cp_Revision p | None => 0 end.

Lemma resolved_Valid p now : policy_Valid p = true -> policy_Valid (resolved p now) = true.
Proof.
  intros Hv. unfold resolved. destruct (_ && _) eqn:E; [| done]. unfold policy_Valid in Hv |- *. cbn.
  destruct (cp_Revision p <? 0); [done |]. cbn [orb] in Hv |- *. destruct (256 <? _); [done |]. cbn [orb] in Hv.
  destruct (cp_BaseMode p =s "") eqn:E0; [apply str_eqb_eq in E0; by rewrite E0 |].
  destruct (cp_BaseMode p =s "light") eqn:E1; [apply str_eqb_eq in E1; by rewrite E1 |].
  destruct (cp_BaseMode p =s "standard") eqn:E2; [apply str_eqb_eq in E2; by rewrite E2 | done].
Qed.

Lemma resolved_Revision p now : cp_Revision (resolved p now) = cp_Revision p.
Proof. unfold resolved. by destruct (_ && _). Qed.

Lemma sync_policy_step {D D'} (a : auditState D) (k : auditState D') pn :
  au_collection a = au_collection k ->
  let '(a', k') := sync_policy (a, k) pn in
  au_collection a' = au_collection k' /\ revision_of (au_collection a) <= revision_of (au_collection a').
Proof.
  intros Heq. unfold sync_policy, setAuditCollectionPolicy. set (p := match fst pn with Some p => p | None => _ end).
  destruct (policy_Valid p) eqn:Ev; cbn [negb]; [| split; [done | lia]].
  pose proof (resolved_Valid p (snd pn) Ev) as Hr. set (q := resolved p (snd pn)) in *.
  assert (0 <= cp_Revision q) as Hpos.
  { unfold policy_Valid in Hr. destruct (Z.ltb_spec (cp_Revision q) 0); [done | done]. }
  destruct (au_collection a) as [old |] eqn:Ea.
  - destruct (Z.ltb_spec (cp_Revision q) (cp_Revision old)) as [Hlt | Hge]; [rewrite Ea; split; [done | lia] |].
    unfold setCollectionPolicy, SetActivityCollection. rewrite Hr, Ea, <- Heq. cbn [negb].
    rewrite (proj2 (Z.ltb_ge _ _) Hge). cbn [orb].
    destruct (bool_decide_reflect (old = q)); cbn; [rewrite Ea |]; (split; [congruence | cbn; lia]).
  - unfold setCollectionPolicy, SetActivityCollection. rewrite Hr, Ea, <- Heq. cbn. split; [done | lia].
Qed.

(** C33: agent and kernel follow the same collection policy: after any
    sequence of pushes whose posts arrive they hold the same one, expired
    diagnostic windows resolved alike, and its revision never goes back. *)
Theorem kernel_follows_agent_policy {D D'} pushes (a : auditState D) (k : auditState D') :
  au_collection a = au_collection k ->
  let '(a', k') := fold_left sync_policy pushes (a, k) in
  au_collection a' = au_collection k' /\ revision_of (au_collection a) <= revision_of (au_collection a').
Proof.
  revert a k. induction pushes as [| pn pushes IH]; intros a k Heq; cbn [fold_left]; [split; [done | lia] |].
  pose proof (sync_policy_step a k pn Heq) as Hstep. destruct (sync_policy (a, k) pn) as [a1 k1]. destruct Hstep as [Heq1 Hrev].
  specialize (IH a1 k1 Heq1). destruct (fold_left _ _ _) as [a' k']. destruct IH as [H1 H2]. split; [done | lia].
Qed.

(** ** The delivery *)

Definition MaxReportBytes : Z := Z.shiftl 1 20.
Definition MaxPendingBytes : Z := Z.shiftl 16 20.
Definition MaxPending : Z := 256.

(** The fields of [auditwire.Ack] the agent reads. *)
Record AckReply := mkAckReply { ar_Sequence : Z; ar_Accepted : bool; ar_Terminal : bool; ar_Reason : string }.

(** What happened to one call of the local API. *)
Inductive outcome := Lost | Unanswered | Answered.

Record World := mkWorld {
  w_kernel : Collector;
  w_ssh : option Collector;
  w_disk : disk;
  w_settled : list Report
}.

#[export] Instance eta_World : Eta World := fun w => mkWorld (w_kernel w) (w_ssh w) (w_disk w) (w_settled w).

(** One call of [save]. *)
Record SaveEnv := mkSaveEnv { sv_mkdir : bool; sv_env : StateEnv }.

(** The surroundings of one round. *)
Record Round := mkRound {
  rd_now : Time;
  rd_bootKernel : option string;
  rd_bootSsh : option string;
  rd_controllerUnix : Z;
  rd_clock : outcome;
  rd_read : outcome;
  rd_ack : outcome;
  rd_saveKernel : SaveEnv;
  rd_saveSsh : SaveEnv;
  rd_posts : list (option AckReply * SaveEnv)
}.

Section Delivery.
Context {F : StateFiles} {CL : Codec (list Report)} {CR : Codec Report}.

Definition save (e : SaveEnv) (items : list Report) (w : World) : option string * World :=
  match json_Marshal items with
  | None => (Some "marshal"%string, w)
  | Some b =>
      if (MaxPending <? Z.of_nat (List.length items)) || (MaxPendingBytes <? Z.of_nat (List.length b))
      then (Some "activity pending capacity"%string, w)
      else if sv_mkdir e then (Some "mkdir"%string, w)
      else
        let '(res, d) := sf_write (sv_env e) b (w_disk w) in
        (match res with Ok _ => None | Err x => Some x end, w<|w_disk := d|>)
  end.

Definition same_report (a b : Report) : bool :=
  (r_CollectorBootID a =s r_CollectorBootID b) && (r_StreamType a =s r_StreamType b) && (r_Sequence a =? r_Sequence b).

Definition accept (e : SaveEnv) (report : option Report) (ack : World -> option string * World)
    (pending : list Report) (w : World) : option string * list Report * World :=
  match report with
  | None => (None, pending, w)
  | Some r =>
      match json_Marshal r with
      | None => (Some "marshal"%string, pending, w)
      | Some encoded =>
          if (MaxReportBytes <? Z.of_nat (List.length encoded)) || (4096 <? Z.of_nat (List.length (r_Items r)))
          then (Some "activity report capacity"%string, pending, w)
          else
            match List.find (fun p => same_report p r) pending with
            | Some p =>
                if bool_decide (default [] (json_Marshal p) = encoded)
                then let '(err, w) := ack w in (err, pending, w)
                else (Some "activity local identity conflict"%string, pending, w)
            | None =>
                let next := pending ++ [r] in
                match save e next w with
                | (Some err, w) => (Some err, pending, w)
                | (None, w) => let '(err, w) := ack w in (err, next, w)
                end
            end
      end
  end.

(** The local API: what the kernel does when the call reaches it, and what
    the agent sees. *)
Definition local {X} (o : outcome) (f : Collector -> X * Collector) (w : World) : option X * World :=
  match o with
  | Lost => (None, w)
  | Unanswered => (None, w<|w_kernel := snd (f (w_kernel w))|>)
  | Answered => (Some (fst (f (w_kernel w))), w<|w_kernel := snd (f (w_kernel w))|>)
  end.

(** [AlignActivityClock]. *)
Definition aligned_with (now controllerUnix : Z) : bool :=
  (0 <? controllerUnix) && (controllerUnix - 2 <=? now) && (now <=? controllerUnix + 2).

(** The ack calls: the kernel answers 409 when the report is not pending. *)
Definition ack_kernel (o : outcome) (r : Report) (w : World) : option string * World :=
  match local o (Ack (r_CollectorBootID r) (r_Sequence r)) w with
  | (None, w) => (Some "activity local"%string, w)
  | (Some false, w) => (Some "activity local status 409"%string, w)
  | (Some true, w) => (None, w)
  end.

Definition ack_ssh (r : Report) (w : World) : option string * World :=
  (None, w<|w_ssh ::= fmap (fun c => snd (Ack (r_CollectorBootID r) (r_Sequence r) c))|>).

Definition acknowledges (a : AckReply) (r : Report) : bool :=
  (ar_Sequence a =? r_Sequence r) && (ar_Accepted a || ar_Terminal a) &&
  (negb (ar_Terminal a) || (ar_Reason a =s "expired") || (ar_Reason a =s "disabled") || (ar_Reason a =s "subject_removed")).

(** The catch-up loop: at most [n] reports are sent. *)
Fixpoint deliver (n : nat) (posts : list (option AckReply * SaveEnv)) (pending : list Report) (w : World)
  : option string * list Report * World :=
  match n, pending with
  | O, _ | _, [] => (None, pending, w)
  | S n, r :: rest =>
      match posts with
      | (Some a, e) :: posts =>
          if negb (acknowledges a r) then (Some "activity response"%string, pending, w)
          else
            match save e rest (w<|w_settled ::= fun l => l ++ [r]|>) with
            | (Some err, w) => (Some err, pending, w)
            | (None, w) => deliver n posts rest w
            end
      | _ => (Some "post"%string, pending, w)
      end
  end.

(** The pending reports of the file: [None] when the round gives up. *)
Definition load (w : World) : option (list Report) :=
  match sf_read (w_disk w) with
  | Err StateNotExist => Some []
  | Err (StateFailed _) => None
  | Ok raw => if MaxPendingBytes <? Z.of_nat (List.length raw) then None else json_Unmarshal raw
  end.

(** Both collectors are aligned with the Controller's clock. *)
Definition align (rd : Round) (w : World) : World :=
  let now := time_Unix (rd_now rd) in
  let w := snd (local (rd_clock rd) (fun c => (tt, AlignClock now (aligned_with now (rd_controllerUnix rd)) c)) w) in
  w<|w_ssh ::= fmap (AlignClock now (aligned_with now (rd_controllerUnix rd)))|>.

(** The report of the kernel: persisted, then acknowledged. *)
Definition take_kernel (rd : Round) (pending : list Report) (w : World) : option string * list Report * World :=
  match local (rd_read rd) (Read (rd_now rd) "kernel" (rd_bootKernel rd)) w with
  | (None, w) => (Some "activity local"%string, pending, w)
  | (Some kernel, w) =>
      accept (rd_saveKernel rd) kernel
        (fun w => match kernel with Some r => ack_kernel (rd_ack rd) r w | None => (None, w) end) pending w
  end.

(** The report of the SSH inbounds. *)
Definition take_ssh (rd : Round) (pending : list Report) (w : World) : option string * list Report * World :=
  match w_ssh w with
  | None => (None, pending, w)
  | Some c =>
      let '(ssh, c) := Read (rd_now rd) "ssh" (rd_bootSsh rd) c in
      accept (rd_saveSsh rd) ssh
        (fun w => match ssh with Some r => ack_ssh r w | None => (None, w) end) pending (w<|w_ssh := Some c|>)
  end.

Definition collectAndReportAccountActivity (rd : Round) (w : World) : option string * World :=
  match load w with
  | None => (Some "activity pending"%string, w)
  | Some pending =>
      let '(localErr, pending, w) := take_kernel rd pending (align rd w) in
      let '(sshErr, pending, w) := take_ssh rd pending w in
      let localErr := match sshErr with Some e => Some e | None => localErr end in
      match deliver 8 (rd_posts rd) pending w with
      | (Some err, _, w) => (Some err, w)
      | (None, _, w) => (localErr, w)
      end
  end.

(** ** Ownership of reports *)

Context {FL : StateFilesLaws F} {LL : CodecLaws CL} {LR : CodecLaws CR}.
(** [json.Marshal] does not fail on a report, and the file layer takes every
    document within the byte budget. *)
Context (json_total : forall r : Report, exists b, json_Marshal r = Some b).
Context (json_fits : forall (l : list Report) b, json_Marshal l = Some b ->
  Z.of_nat (List.length b) <= MaxPendingBytes -> sf_data_ok b).

(** The reports in the file. *)
Definition stored (w : World) : list Report :=
  match sf_read (w_disk w) with Ok b => default [] (json_Unmarshal b) | Err _ => [] end.

Definition frozen (w : World) (r : Report) : Prop :=
  d_pending (c_delivery (w_kernel w)) = Some r \/
  exists c, w_ssh w = Some c /\ d_pending (c_delivery c) = Some r.

(** A report is somewhere: frozen in its collector, in the file, or
    acknowledged by the Controller. *)
Definition owned (w : World) (r : Report) : Prop := frozen w r \/ r ∈ stored w \/ r ∈ w_settled w.

(** The same while a round runs with [pending] in memory. *)
Definition held (pending : list Report) (w : World) (r : Report) : Prop := frozen w r \/ r ∈ pending \/ r ∈ w_settled w.
Definition backed (pending : list Report) (w : World) : Prop := forall r, r ∈ pending -> r ∈ stored w.

Lemma held_owned pending w r : backed pending w -> held pending w r -> owned w r.
Proof. intros Hb [H | [H | H]]; [by left | right; left; auto | by do 2 right]. Qed.

Lemma load_backed w pending r :
  load w = Some pending -> backed pending w /\ (owned w r -> held pending w r).
Proof.
  unfold load, backed, owned, held, stored. destruct (sf_read (w_disk w)) as [raw | []].
  - destruct (_ <? _); [done |]. intros ->. done.
  - intros [= <-]. split; [by intros x ?%elem_of_nil | done].
  - done.
Qed.

Definition save_ok (e : SaveEnv) : Prop := sf_env_ok (sv_env e).

Lemma save_spec e items w err w' :
  save_ok e -> save e items w = (err, w') ->
  w_kernel w' = w_kernel w /\ w_ssh w' = w_ssh w /\ w_settled w' = w_settled w /\
  (stored w' = stored w \/ stored w' = items) /\ (err = None -> stored w' = items).
Proof.
  intros He. unfold save. destruct (json_Marshal items) as [b |] eqn:Eb; [| intros [= <- <-]; split_and!; by auto].
  destruct (_ || _) eqn:Ecap; [intros [= <- <-]; split_and!; by auto |]. apply orb_false_iff in Ecap as [_ Ecap]. zify_bool.
  destruct (sv_mkdir e); [intros [= <- <-]; split_and!; by auto |].
  pose proof (json_fits _ _ Eb Ecap) as Hok.
  assert (forall d, sf_read d = Ok b -> stored (w<|w_disk := d|>) = items) as Hread.
  { intros d Hd. unfold stored. cbn. rewrite Hd. by rewrite (json_roundtrip _ _ Eb). }
  destruct (sf_write (sv_env e) b (w_disk w)) as [[[] | x] d] eqn:Ew; intros [= <- <-].
  - pose proof (Hread d (sf_written _ _ _ _ He Hok Ew)). split_and!; auto.
  - split_and!; try done. destruct (sf_failed _ _ _ _ _ He Hok Ew) as [H | H]; [left | right; auto].
    unfold stored. cbn. by rewrite H.
Qed.

Lemma Read_keeps now stream boot c r :
  d_pending (c_delivery c) = Some r -> d_pending (c_delivery (snd (Read now stream boot c))) = Some r.
Proof.
  intros Hp. unfold Read. destruct (_ || _); [done |].
  destruct (if d_boot (c_delivery c) =s "" then _ else _) as [d |] eqn:Ed; [| done].
  assert (d_pending d = Some r) as Hd; [| rewrite Hd; exact Hd].
  destruct (d_boot (c_delivery c) =s ""); [destruct boot; [| done] |]; by injection Ed as <-.
Qed.

Lemma AlignClock_keeps unix aligned c : c_delivery (AlignClock unix aligned c) = c_delivery c.
Proof. unfold AlignClock. destruct (negb aligned); [done |]. by destruct (_ || _). Qed.

Lemma local_world {X} o (f : Collector -> X * Collector) w a w' :
  local o f w = (a, w') ->
  w_ssh w' = w_ssh w /\ w_settled w' = w_settled w /\ stored w' = stored w /\
  (w_kernel w' = w_kernel w \/ w_kernel w' = snd (f (w_kernel w))) /\
  (forall x, a = Some x -> x = fst (f (w_kernel w)) /\ w_kernel w' = snd (f (w_kernel w))).
Proof. destruct o; cbn; intros [= <- <-]; split_and!; auto; intros x Hx; simplify_eq; done. Qed.

(** An acknowledgement touches only collectors, and only lets go of [r]. *)
Definition lets_go (ack : World -> option string * World) (r : Report) (w : World) : Prop :=
  forall w1 err w2, w_kernel w1 = w_kernel w -> w_ssh w1 = w_ssh w -> ack w1 = (err, w2) ->
  stored w2 = stored w1 /\ w_settled w2 = w_settled w1 /\ forall x, frozen w1 x -> frozen w2 x \/ x = r.

Lemma accept_held e report ack pending w err pending' w' r :
  save_ok e -> (forall r1, report = Some r1 -> lets_go ack r1 w) ->
  backed pending w -> held pending w r -> accept e report ack pending w = (err, pending', w') ->
  backed pending' w' /\ held pending' w' r.
Proof.
  intros He Hack Hb Hh. unfold accept. destruct report as [r1 |]; [| by intros [= <- <- <-]].
  specialize (Hack r1 eq_refl). destruct (json_Marshal r1) as [encoded |] eqn:Ee; [| by intros [= <- <- <-]].
  destruct (_ || _); [by intros [= <- <- <-] |].
  destruct (List.find _ pending) as [p |] eqn:Ef.
  - destruct (bool_decide_reflect (default [] (json_Marshal p) = encoded)) as [Heq |]; [| by intros [= <- <- <-]].
    destruct (ack w) as [err1 w1] eqn:Ea. intros [= <- <- <-].
    destruct (Hack w err1 w1 eq_refl eq_refl Ea) as (Hs & Ht & Hf).
    assert (p = r1) as ->.
    { destruct (json_total p) as [bp Hbp]. rewrite Hbp in Heq. cbn in Heq. subst bp.
      pose proof (json_roundtrip _ _ Ee). pose proof (json_roundtrip _ _ Hbp). congruence. }
    apply find_some in Ef as [Hin _]. apply list_elem_of_In in Hin.
    split; [intros x Hx; rewrite Hs; by apply Hb |]. destruct Hh as [Hfr | [Hp | Hset]].
    + destruct (Hf r Hfr) as [H | ->]; [by left | right; by left].
    + right; by left.
    + do 2 right. by rewrite Ht.
  - destruct (save e (pending ++ [r1]) w) as [[err1 |] w1] eqn:Es;
      destruct (save_spec _ _ _ _ _ He Es) as (Hk & Hssh & Hset & Hst & Hok).
    + intros [= <- <- <-]. split.
      * intros x Hx. destruct Hst as [-> | ->]; [by apply Hb | apply elem_of_app; by left].
      * destruct Hh as [Hfr | [Hp | Hs]]; [left | right; by left | do 2 right; by rewrite Hset].
        unfold frozen. by rewrite Hk, Hssh.
    + destruct (ack w1) as [err2 w2] eqn:Ea. intros [= <- <- <-].
      destruct (Hack w1 err2 w2 Hk Hssh Ea) as (Hs2 & Ht2 & Hf2).
      split; [intros x Hx; by rewrite Hs2, Hok |]. destruct Hh as [Hfr | [Hp | Hs]].
      * assert (frozen w1 r) as Hfr1 by (unfold frozen; by rewrite Hk, Hssh).
        destruct (Hf2 r Hfr1) as [H | ->]; [by left |]. right; left. apply elem_of_app. right. by apply list_elem_of_singleton.
      * right; left. apply elem_of_app. by left.
      * do 2 right. by rewrite Ht2, Hset.
Qed.

Lemma deliver_owned n posts pending w err pending' w' r :
  Forall (fun p => save_ok (snd p)) posts -> backed pending w -> held pending w r ->
  deliver n posts pending w = (err, pending', w') -> owned w' r.
Proof.
  intros Hps. revert n pending w. induction Hps as [| [[a |] e] posts Hp Hps IH]; intros n pending w Hb Hh.
  - destruct n, pending; cbn; intros [= <- <- <-]; by apply (held_owned _ _ _ Hb).
  - destruct n as [| n]; [intros [= <- <- <-]; by apply (held_owned _ _ _ Hb) |].
    destruct pending as [| r1 rest]; [intros [= <- <- <-]; by apply (held_owned _ _ _ Hb) |]. cbn [deliver].
    destruct (negb _); [intros [= <- <- <-]; by apply (held_owned _ _ _ Hb) |].
    set (w1 := w<|w_settled ::= fun l => l ++ [r1]|>).
    assert (held rest w1 r) as Hh1.
    { destruct Hh as [Hf | [Hin | Hs]]; [by left | | do 2 right; apply elem_of_app; by left].
      apply elem_of_cons in Hin as [-> | Hin]; [| right; by left].
      do 2 right. apply elem_of_app. right. by apply list_elem_of_singleton. }
    assert (backed rest w1) as Hb1 by (intros x Hx; apply Hb; by constructor).
    destruct (save e rest w1) as [[err1 |] w2] eqn:Es;
      destruct (save_spec _ _ _ _ _ Hp Es) as (Hk & Hssh & Hset & Hst & Hok).
    all: assert (held rest w2 r) as Hh2
      by (destruct Hh1 as [Hf | [Hin | Hs]]; [left; unfold frozen in *; by rewrite Hk, Hssh | right; by left |
          do 2 right; by rewrite Hset]).
    all: assert (backed rest w2) as Hb2 by (intros x Hx; destruct Hst as [-> | ->]; [by apply Hb1 | done]).
    + intros [= <- <- <-]. exact (held_owned _ _ _ Hb2 Hh2).
    + exact (IH _ _ _ Hb2 Hh2).
  - destruct n, pending; cbn; intros [= <- <- <-]; by apply (held_owned _ _ _ Hb).
Qed.

Lemma frozen_stay w w' x :
  (forall r, d_pending (c_delivery (w_kernel w)) = Some r -> d_pending (c_delivery (w_kernel w')) = Some r) ->
  (forall c r, w_ssh w = Some c -> d_pending (c_delivery c) = Some r ->
     exists c', w_ssh w' = Some c' /\ d_pending (c_delivery c') = Some r) ->
  frozen w x -> frozen w' x.
Proof. intros Hk Hs [H | (c & Hc & H)]; [left; auto | right; eauto]. Qed.

Lemma align_held rd pending w r :
  backed pending w -> held pending w r -> backed pending (align rd w) /\ held pending (align rd w) r.
Proof.
  intros Hb Hh. unfold align. set (f := AlignClock _ _).
  destruct (local _ _ w) as [a w1] eqn:El. destruct (local_world _ _ _ _ _ El) as (Hs & Ht & Hst & Hk & _). cbn [snd].
  split; [intros x Hx; unfold stored in *; cbn; rewrite Hst; by apply Hb |].
  destruct Hh as [Hf | [Hp | Hset]]; [left | right; by left | do 2 right; cbn; by rewrite Ht].
  revert Hf. apply frozen_stay; cbn.
  - intros x Hx. destruct Hk as [-> | ->]; [done |]. cbn. unfold f. by rewrite AlignClock_keeps.
  - intros c x Hc Hx. rewrite Hs, Hc. cbn. exists (f c). split; [done |]. unfold f. by rewrite AlignClock_keeps.
Qed.

Lemma take_kernel_held rd pending w err pending' w' r :
  save_ok (rd_saveKernel rd) -> backed pending w -> held pending w r ->
  take_kernel rd pending w = (err, pending', w') -> backed pending' w' /\ held pending' w' r.
Proof.
  intros He Hb Hh. unfold take_kernel. destruct (local (rd_read rd) _ w) as [a w1] eqn:El.
  destruct (local_world _ _ _ _ _ El) as (Hs & Ht & Hst & Hk & Ha).
  assert (backed pending w1) as Hb1 by (intros x Hx; rewrite Hst; by apply Hb).
  assert (held pending w1 r) as Hh1.
  { destruct Hh as [Hf | [Hp | Hset]]; [left | right; by left | do 2 right; by rewrite Ht].
    revert Hf. apply frozen_stay; [| rewrite Hs; eauto]. intros x Hx. destruct Hk as [-> | ->]; [done | by apply Read_keeps]. }
  destruct a as [kernel |]; [| by intros [= <- <- <-]]. destruct (Ha kernel eq_refl) as [Hkr Hk1].
  apply accept_held; [done | | done | done]. intros r1 ->. intros w2 err2 w3 E1 E2 Hack.
  assert (d_pending (c_delivery (w_kernel w2)) = Some r1) as Hpend.
  { rewrite E1, Hk1. destruct (Read (rd_now rd) "kernel" (rd_bootKernel rd) (w_kernel w)) as [o c'] eqn:Er.
    cbn in *. subst o. apply (Read_new _ _ _ _ _ _ Er). }
  unfold ack_kernel in Hack. destruct (local (rd_ack rd) _ w2) as [b w4] eqn:El2.
  destruct (local_world _ _ _ _ _ El2) as (Hs2 & Ht2 & Hst2 & _ & _).
  assert (w3 = w4) as -> by (destruct b as [[] |]; congruence).
  split_and!; [done | done |]. intros x [Hx | (c & Hc & Hx)]; [right; congruence |].
  left. right. exists c. by rewrite Hs2.
Qed.

Lemma take_ssh_held rd pending w err pending' w' r :
  save_ok (rd_saveSsh rd) -> backed pending w -> held pending w r ->
  take_ssh rd pending w = (err, pending', w') -> backed pending' w' /\ held pending' w' r.
Proof.
  intros He Hb Hh. unfold take_ssh. destruct (w_ssh w) as [c |] eqn:Ec; [| by intros [= <- <- <-]].
  destruct (Read (rd_now rd) "ssh" (rd_bootSsh rd) c) as [o c'] eqn:Er. apply accept_held; [done | | done |].
  - intros r1 ->. intros w2 err2 w3 E1 E2 [= <- <-]. split_and!; [done | done |].
    intros x [Hx | (c2 & Hc2 & Hx)]; [left; by left |]. right. rewrite E2 in Hc2. cbn in Hc2. injection Hc2 as <-.
    destruct (Read_new _ _ _ _ _ _ Er) as (_ & _ & Hp & _). congruence.
  - destruct Hh as [Hf | [Hp | Hset]]; [left | right; by left | by do 2 right].
    revert Hf. apply frozen_stay; [done |]. intros c0 x Hc0 Hx. assert (c0 = c) as -> by congruence.
    exists c'. split; [done |]. pose proof (Read_keeps (rd_now rd) "ssh" (rd_bootSsh rd) c x Hx) as H. by rewrite Er in H.
Qed.

Definition round_ok (rd : Round) : Prop :=
  save_ok (rd_saveKernel rd) /\ save_ok (rd_saveSsh rd) /\ Forall (fun p => save_ok (snd p)) (rd_posts rd).

Lemma round_owned rd w r : round_ok rd -> owned w r -> owned (snd (collectAndReportAccountActivity rd w)) r.
Proof.
  intros (H1 & H2 & H3) Ho. unfold collectAndReportAccountActivity. destruct (load w) as [pending |] eqn:El; [| done].
  destruct (load_backed _ _ r El) as [Hb Hh]. destruct (align_held rd pending w r Hb (Hh Ho)) as [Hb1 Hh1].
  destruct (take_kernel rd pending (align rd w)) as [[e1 p1] w1] eqn:E1.
  destruct (take_kernel_held _ _ _ _ _ _ _ H1 Hb1 Hh1 E1) as [Hb2 Hh2].
  destruct (take_ssh rd p1 w1) as [[e2 p2] w2] eqn:E2.
  destruct (take_ssh_held _ _ _ _ _ _ _ H2 Hb2 Hh2 E2) as [Hb3 Hh3].
  destruct (deliver 8 (rd_posts rd) p2 w2) as [[e3 p3] w3] eqn:E3.
  pose proof (deliver_owned _ _ _ _ _ _ _ _ H3 Hb3 Hh3 E3). by destruct e3.
Qed.

(** Rounds, interleaved with payloads of both collectors. *)
Inductive sys_op :=
| SRound (rd : Round)
| SKernel (id : Identity) (unix upload download : Z)
| SSsh (id : Identity) (unix upload download : Z).

Definition sys_step (w : World) (o : sys_op) : World :=
  match o with
  | SRound rd => snd (collectAndReportAccountActivity rd w)
  | SKernel id unix up down => w<|w_kernel ::= Record_ id unix up down|>
  | SSsh id unix up down => w<|w_ssh ::= fmap (Record_ id unix up down)|>
  end.

Definition sys_ok (o : sys_op) : Prop := match o with SRound rd => round_ok rd | _ => True end.

Lemma Record_delivery id unix up down c : c_delivery (Record_ id unix up down c) = c_delivery c.
Proof. by destruct (Record_cases id unix up down c) as [(_ & _ & H) | (_ & _ & _ & H & _)]. Qed.


(** ** Progress *)

(** A post the Controller accepts, followed by a save that completes. *)
Definition good_post (r : Report) (p : option AckReply * SaveEnv) : Prop :=
  (exists a, fst p = Some a /\ acknowledges a r = true) /\ save_ok (snd p) /\ sv_mkdir (snd p) = false /\
  forall b d, is_Ok (sf_read d) = true -> fst (sf_write (sv_env (snd p)) b d) = Ok tt.

Definition fits (l : list Report) : Prop :=
  exists b, json_Marshal l = Some b /\ Z.of_nat (List.length b) <= MaxPendingBytes /\ Z.of_nat (List.length l) <= MaxPending.

(** Delivery makes progress: when the Controller acknowledges and the
    file can be written, one round sends the eight oldest reports, in order
    and each once, and leaves exactly the others in the file. *)
Theorem healthy_round_sends_oldest n posts pending w :
  stored w = pending -> Forall2 good_post (take n pending) posts -> (forall k, fits (drop k pending)) ->
  exists w', deliver n posts pending w = (None, drop n pending, w') /\
    w_settled w' = w_settled w ++ take n pending /\ stored w' = drop n pending.
Proof.
  revert posts pending w. induction n as [| n IH]; intros posts pending w Hst Hg Hfit.
  { exists w. rewrite take_0, app_nil_r. done. }
  destruct pending as [| r rest]; [exists w; by rewrite app_nil_r |]. cbn [take] in Hg.
  inversion Hg as [| r' [ao e] ? posts' ((a & Ha & Hack) & He & Hmk & Hw) Hg']; subst. cbn in Ha, He, Hmk, Hw. subst ao.
  cbn [deliver]. rewrite Hack. cbn [negb]. set (w1 := w<|w_settled ::= _|>).
  destruct (save e rest w1) as [err w2] eqn:Es.
  destruct (save_spec _ _ _ _ _ He Es) as (_ & _ & Hset & _ & Hok).
  assert (err = None) as ->.
  { destruct (Hfit 1%nat) as (b & Hb & Hlen & Hn). change (drop 1 (r :: rest)) with rest in Hb, Hn. unfold save in Es.
    rewrite Hb, (proj2 (Z.ltb_ge _ _) Hn), (proj2 (Z.ltb_ge _ _) Hlen), Hmk in Es. cbn [orb] in Es.
    assert (is_Ok (sf_read (w_disk w1)) = true) as Hrd.
    { unfold stored in Hst. cbn. by destruct (sf_read (w_disk w)). }
    specialize (Hw b (w_disk w1) Hrd). destruct (sf_write _ _ _) as [res d]. cbn in Hw. subst res. by injection Es as <- _. }
  destruct (IH posts' rest w2 (Hok eq_refl) Hg') as (w' & Hd & Hs & Hst').
  { intros k. exact (Hfit (S k)). }
  exists w'. split_and!; [exact Hd | | exact Hst']. rewrite Hs, Hset. cbn. by rewrite <- app_assoc.
Qed.

End Delivery.

(** ** Witnesses *)

#[export] Instance Item_countable : Countable Item.
Proof.
  refine (inj_countable' (fun i => (it_UserID i, it_InboundID i, it_PathID i, it_SourcePrefix i, it_ActivityBits i,
    it_UploadBytes i, it_DownloadBytes i)) (fun '(u, b, p, s, a, up, down) => mkItem u b p s a up down) _). by intros [].
Defined.

#[export] Instance Report_countable : Countable Report.
Proof.
  refine (inj_countable' (fun r => (r_CollectorBootID r, r_CollectorStartedAt r, r_StreamType r, r_Sequence r,
    r_MinuteUnix r, r_ClockState r, r_Complete r, r_DroppedUpdates r, r_UnknownSourceUpdates r, r_Items r))
    (fun '(b, g, s, q, m, c, k, d, u, l) => mkReport b g s q m c k d u l) _). by intros [].
Defined.

Section Witnesses.
#[local] Instance profile_text : Codec runtimeProfile := {|
  json_Marshal p := Some (list_ascii_of_string (rp_Mode p));
  json_Unmarshal b := Some (mkProfile (string_of_list_ascii b))
|}.
#[local] Instance report_codec : Codec Report := countable_codec.
#[local] Instance reports_codec : Codec (list Report) := countable_codec.
#[local] Instance report_laws : CodecLaws report_codec := countable_codec_laws.
#[local] Instance reports_laws : CodecLaws reports_codec := countable_codec_laws.

Definition pending_path : string := "/var/lib/oboard/account-activity-pending.json".
#[local] Instance pending_file : StateFiles := runner_files plain_runner pending_path.
#[local] Instance pending_file_laws : StateFilesLaws pending_file.
Proof. apply runner_files_laws. by vm_compute. Defined.

Lemma reports_total (r : Report) : exists b, json_Marshal r = Some b.
Proof. by eexists. Defined.

Lemma reports_fit (l : list Report) b :
  json_Marshal l = Some b -> Z.of_nat (List.length b) <= MaxPendingBytes -> sf_data_ok b.
Proof.
  cbn. intros [= <-] Hlen. split.
  - unfold IsProtected, has_prefix. by destruct (encode l).
  - unfold MaxPendingBytes in Hlen. change (Z.shiftl 16 20) with 16777216 in Hlen. change (Z.shiftl 32 20) with 33554432. lia.
Defined.

Definition quiet_save : SaveEnv := mkSaveEnv false plain_env.
Definition broken_round : Round :=
  mkRound (noon * Second) None None 0 Lost Unanswered Lost quiet_save quiet_save [(None, quiet_save)].
Definition one_report : Report := mkReport "b" 1 "kernel" 1 (noon - 120) "unknown" true 0 0 [].
Definition with_report : World :=
  mkWorld (recorded<|c_delivery := mkDelivery "b" 1 1 (noon - 60) (Some one_report) (noon - 600)|>) None ∅ [].

Lemma quiet_save_ok : save_ok quiet_save.
Proof. split_and!; try done. Qed.


Definition one_pending : disk :=
  {[pending_path := Regular (positive_bytes (encode [one_report]))]}.
Definition accepting : option AckReply * SaveEnv := (Some (mkAckReply 1 true false ""), quiet_save).

Lemma healthy_round_sends_oldest_witness :
  exists w', deliver 8 [accepting] [one_report] (mkWorld recorded None one_pending []) = (None, [], w') /\
    w_settled w' = [one_report] /\ stored w' = [].
Proof.
  assert (stored (mkWorld recorded None one_pending []) = [one_report]) as Hst by (vm_compute; reflexivity).
  assert (Forall2 good_post (take 8 [one_report]) [accepting]) as Hg.
  { constructor; [| constructor]. split_and!; [| exact quiet_save_ok | done |].
    2:{ intros b d. cbn. unfold stateReadPath, stateWritePath, securefile_Read, securefile_Write, protectRuntimeState.
        change (runtimeStatePurpose plain_runner pending_path) with ""%string.
        change (stealthOn plain_runner) with false. cbn. by destruct (d !! pending_path) as [[] |]. }
    eexists. split; [reflexivity | vm_compute; reflexivity]. }
  assert (forall k, fits (drop k [one_report])) as Hfit.
  { intros [| k]; [eexists; split; [reflexivity | by_compute] |].
    destruct k; (eexists; split; [reflexivity | by_compute]). }
  exact (healthy_round_sends_oldest reports_fit 8 [accepting] [one_report] _ Hst Hg Hfit).
Defined.

Lemma kernel_follows_agent_policy_witness :
  let '(a, k) := fold_left sync_policy [(Some (mkCollectionPolicy "diagnostic" "standard" [7] 100 3), 200); (None, 300)]
                   (mkAudit (D := unit) None false None 0, mkAudit (D := unit) None false None 0) in
  au_collection a = au_collection k /\ revision_of None <= revision_of (au_collection a).
Proof.
  exact (kernel_follows_agent_policy [(Some (mkCollectionPolicy "diagnostic" "standard" [7] 100 3), 200); (None, 300)]
    (mkAudit (D := unit) None false None 0) (mkAudit (D := unit) None false None 0) eq_refl).
Defined.

End Witnesses.
