(* ===== verification/ConnectionAudit.v ===== *)
(** * ConnectionAudit: per-connection audit and presence in the kernel

    kernel/oboard-sb/internal/minibox/connection_audit.go, with the switch of
    ratelimit.go (SetConnectionAuditEnabled) and the policy of
    activity_delivery.go (SetActivityCollection) as far as they touch it.
    Routed connections are summed up in buckets by credential, source and
    network; [cu_active] counts the open connections of an identity over its
    buckets. Presence states follow the same connections by a key that leaves
    the generation out, and queue events for the agent.

    A handle is a record here; the source joins its four parts with a byte that
    occurs in none of them. Counters of events and connections are unbounded
    integers, byte and duration sums wrap like int64. Maps are walked in key
    order. *)

From S2P Require Import Prelude GoTime Window Quota Activity ActivityDelivery.

Definition maxConnectionAuditBuckets : nat := 4096.
Definition maxConnectionPresenceEvents : nat := 4096.
Definition connectionPresenceRefresh : Duration := 30 * Second.

(** What identifies a connection in the audit. *)
Record source := mkSource {
  sr_UserID : Z; sr_InboundID : Z; sr_PathID : Z; sr_DeviceIDHash : string; sr_CredentialEpoch : Z;
  sr_SourceIP : string; sr_Network : string
}.

Record ConnectionAuditBucket := mkAuditBucket {
  ab_source : source;
  ab_geo : string;
  ab_ConnectionCount : Z;
  ab_ClosedCount : Z;
  ab_DurationTotalMS : Z;
  ab_DurationMaxMS : Z;
  ab_UploadBytes : Z;
  ab_DownloadBytes : Z;
  ab_PayloadFirstAt : string;
  ab_PayloadLastAt : string;
  ab_LE1S : Z;
  ab_LE5S : Z;
  ab_LE20S : Z;
  ab_GT20S : Z;
  ab_PresenceSequence : Z;
  ab_ActivePeak : Z;
  ab_ActiveAtEnd : Z;
  ab_StartedAt : string;
  ab_EndedAt : string;
  ab_active : Z;
  ab_activeIdentity : string
}.

#[export] Instance eta_ConnectionAuditBucket : Eta ConnectionAuditBucket := fun b =>
  mkAuditBucket (ab_source b) (ab_geo b) (ab_ConnectionCount b) (ab_ClosedCount b) (ab_DurationTotalMS b) (ab_DurationMaxMS b)
    (ab_UploadBytes b) (ab_DownloadBytes b) (ab_PayloadFirstAt b) (ab_PayloadLastAt b) (ab_LE1S b) (ab_LE5S b) (ab_LE20S b)
    (ab_GT20S b) (ab_PresenceSequence b) (ab_ActivePeak b) (ab_ActiveAtEnd b) (ab_StartedAt b) (ab_EndedAt b) (ab_active b)
    (ab_activeIdentity b).

Record ConnectionPresenceEvent := mkPresence {
  pe_Sequence : Z;
  pe_source : source;
  pe_Event : string;
  pe_State : string;
  pe_ActiveConnections : Z;
  pe_Meaningful : bool;
  pe_PayloadLastAt : string;
  pe_At : string
}.
#[export] Instance eta_ConnectionPresenceEvent : Eta ConnectionPresenceEvent := fun e =>
  mkPresence (pe_Sequence e) (pe_source e) (pe_Event e) (pe_State e) (pe_ActiveConnections e) (pe_Meaningful e)
    (pe_PayloadLastAt e) (pe_At e).

(** A presence state: the event it last emitted and when. *)
Record connectionPresenceState := mkPresenceState { ps_event : ConnectionPresenceEvent; ps_lastEmittedAt : Time }.
#[export] Instance eta_connectionPresenceState : Eta connectionPresenceState := fun p =>
  mkPresenceState (ps_event p) (ps_lastEmittedAt p).

(** The audit fields of RateLimitTracker. *)
Record connectionAudit := mkConnectionAudit {
  cu_enabled : bool;
  cu_diagnostics : bool;
  cu_collection : option CollectionPolicy;
  cu_generation : Z;
  cu_buckets : gmap string ConnectionAuditBucket;
  cu_active : gmap string Z;
  cu_sequence : Z;
  cu_dropped : Z;
  cu_windowStart : Time;
  cu_presence : gmap string connectionPresenceState;
  cu_events : list ConnectionPresenceEvent;
  cu_presenceDropped : Z
}.
#[export] Instance eta_connectionAudit : Eta connectionAudit := fun a =>
  mkConnectionAudit (cu_enabled a) (cu_diagnostics a) (cu_collection a) (cu_generation a) (cu_buckets a) (cu_active a)
    (cu_sequence a) (cu_dropped a) (cu_windowStart a) (cu_presence a) (cu_events a) (cu_presenceDropped a).

Record handle := mkHandle { hd_key : string; hd_started : Time; hd_presence : string; hd_admitted : bool }.

(** ** Keys *)

Definition nul : string := String "000"%char "".

Definition connectionAuditActiveIdentity (userID : Z) (deviceIDHash sourceIP : string) : string :=
  if negb (TrimSpace deviceIDHash =s "") then (pretty userID +:+ nul +:+ "device:" +:+ TrimSpace deviceIDHash)%string
  else (pretty userID +:+ nul +:+ "legacy:" +:+ TrimSpace sourceIP)%string.

Definition connectionPresenceKey (s : source) : string :=
  (pretty (sr_UserID s) +:+ nul +:+ TrimSpace (sr_DeviceIDHash s) +:+ nul +:+ pretty (sr_CredentialEpoch s) +:+ nul +:+
   TrimSpace (sr_SourceIP s) +:+ nul +:+ ToLower (TrimSpace (sr_Network s)))%string.

Definition bucket_key (generation : Z) (credential : string) (s : source) : string :=
  (pretty generation +:+ nul +:+ credential +:+ nul +:+ sr_SourceIP s +:+ nul +:+ sr_Network s)%string.

(** ** Windows *)

Definition later_of (raw : string) (t : Time) : Time :=
  match time_Parse raw with Some x => if After x t then x else t | None => t end.

Definition advanceAuditEnd (now : Time) (b : ConnectionAuditBucket) : ConnectionAuditBucket :=
  b<|ab_EndedAt := time_Format (later_of (ab_PayloadLastAt b) (later_of (ab_StartedAt b) (later_of (ab_EndedAt b) now)))|>.

(** The payload part of [normalizeAuditItemWindow]: first and last payload, and
    the end moved behind them. *)
Definition payload_window (started ended collectionEnded first last : Time) : Time * Time * Time :=
  let first := if Before first started then started else first in
  let last := if Before last first then first else last in
  let last := if After last collectionEnded then collectionEnded else last in
  let first := if After first last then last else first in
  (first, last, if Before ended last then last else ended).

Definition normalizeAuditItemWindow (collectionStarted collectionEnded : Time) (b : ConnectionAuditBucket) : ConnectionAuditBucket :=
  let started := match time_Parse (ab_StartedAt b) with
                 | Some s => if Before s collectionStarted then collectionStarted else s
                 | None => collectionStarted
                 end in
  let started := if After started collectionEnded then collectionEnded else started in
  let ended := match time_Parse (ab_EndedAt b) with
               | Some x => if Before x started then started else x
               | None => started
               end in
  let '(b, ended) :=
    match time_Parse (ab_PayloadFirstAt b), time_Parse (ab_PayloadLastAt b) with
    | None, None => (b, ended)
    | f, l =>
        let first := match f, l with Some x, _ => x | None, Some y => y | None, None => ended end in
        let last := match l with Some y => y | None => first end in
        let '(first, last, ended) := payload_window started ended collectionEnded first last in
        (b<|ab_PayloadFirstAt := time_Format first|><|ab_PayloadLastAt := time_Format last|>, ended)
    end in
  let ended := if After ended collectionEnded then collectionEnded else ended in
  let started := if Before ended started then ended else started in
  b<|ab_StartedAt := time_Format started|><|ab_EndedAt := time_Format ended|>.

(** ** Events *)

(** [enqueuePresenceEventLocked]: the state remembers the event also when the
    queue is full. *)
Definition enqueuePresenceEvent (event : string) (at_ : Time) (p : connectionPresenceState) (a : connectionAudit)
  : connectionPresenceState * connectionAudit :=
  let seq := cu_sequence a + 1 in
  let e := (ps_event p)<|pe_Event := event|><|pe_At := time_Format at_|><|pe_Sequence := seq|> in
  let a := a<|cu_sequence := seq|> in
  (mkPresenceState e at_,
   if (maxConnectionPresenceEvents <=? List.length (cu_events a))%nat then a<|cu_presenceDropped ::= Z.add 1|>
   else a<|cu_events ::= fun l => l ++ [e]|>).

Definition new_presence (s : source) (state : string) : connectionPresenceState :=
  mkPresenceState (mkPresence 0 s "" state 0 false "" "") time_zero.

(** An admitted connection enters its presence state, which announces its
    first connection; a refused one is only announced. *)
Definition presence_start (s : source) (admitted : bool) (now : Time) (a : connectionAudit) : connectionAudit :=
  if admitted then
    let key := connectionPresenceKey s in
    let p := default (new_presence s "active") (cu_presence a !! key) in
    let p := p<|ps_event ::= fun e => e<|pe_ActiveConnections ::= Z.add 1|>|> in
    if pe_ActiveConnections (ps_event p) =? 1 then
      let '(p, a) := enqueuePresenceEvent "first_authenticated" now p a in a<|cu_presence ::= <[key := p]>|>
    else a<|cu_presence ::= <[key := p]>|>
  else snd (enqueuePresenceEvent "credential_rejected" now (new_presence s "rejected") a).

Definition presence_payload (key : string) (now : Time) (a : connectionAudit) : connectionAudit :=
  match cu_presence a !! key with
  | None => a
  | Some p =>
      let first := negb (pe_Meaningful (ps_event p)) in
      let p := p<|ps_event ::= fun e => e<|pe_Meaningful := true|><|pe_PayloadLastAt := time_Format now|>|> in
      if first then
        let '(p, a) := enqueuePresenceEvent "first_meaningful_payload" now p a in a<|cu_presence ::= <[key := p]>|>
      else a<|cu_presence ::= <[key := p]>|>
  end.

Definition presence_end (key : string) (now : Time) (a : connectionAudit) : connectionAudit :=
  match cu_presence a !! key with
  | None => a
  | Some p =>
      let n := pe_ActiveConnections (ps_event p) in
      let n := if 0 <? n then n - 1 else n in
      let p := p<|ps_event ::= fun e => e<|pe_ActiveConnections := n|>|> in
      if n =? 0 then
        let '(_, a) := enqueuePresenceEvent "last_connection_closed" now (p<|ps_event ::= fun e => e<|pe_State := "inactive"%string|>|>) a in
        a<|cu_presence ::= delete key|>
      else a<|cu_presence ::= <[key := p]>|>
  end.

(** ** Connections *)

Definition new_bucket (s : source) (geo : string) (sequence : Z) (now : Time) : ConnectionAuditBucket :=
  mkAuditBucket s geo 0 0 0 0 0 0 "" "" 0 0 0 0 sequence 0 0 (time_Format now) "" 0
    (connectionAuditActiveIdentity (sr_UserID s) (sr_DeviceIDHash s) (sr_SourceIP s)).

(** One more open connection of the bucket and of its identity. *)
Definition count_start (key : string) (now : Time) (b : ConnectionAuditBucket) (a : connectionAudit) : connectionAudit :=
  let n := default 0 (cu_active a !! ab_activeIdentity b) + 1 in
  let b := b<|ab_ConnectionCount ::= Z.add 1|><|ab_active ::= Z.add 1|>
            <|ab_ActivePeak ::= fun p => if p <? n then n else p|> in
  a<|cu_active ::= <[ab_activeIdentity b := n]>|><|cu_buckets ::= <[key := advanceAuditEnd now b]>|>.

(** [recordConnectionStart] for the policy of the state, [s] its identity and
    [credential] its key; an invalid source address is the empty text, [geo] is
    the two-letter code or empty, and [None] is the empty handle. *)
Definition recordConnectionStart (now : Time) (credential : string) (s : source) (geo : string) (admitted : bool) (a : connectionAudit)
  : option handle * connectionAudit :=
  if negb (cu_enabled a) || negb (cu_diagnostics a) || (sr_SourceIP s =s "") then (None, a)
  else if (sr_UserID s <=? 0) || negb (policy_Allows (cu_collection a) (sr_UserID s) now) then (None, a)
  else
    let key := bucket_key (cu_generation a) credential s in
    let entered :=
      match cu_buckets a !! key with
      | Some b => Some (b, a)
      | None =>
          if (maxConnectionAuditBuckets <=? size (cu_buckets a))%nat then None
          else Some (new_bucket s geo (cu_sequence a + 1) now, a<|cu_sequence ::= Z.add 1|>)
      end in
    match entered with
    | None => (None, a<|cu_dropped ::= Z.add 1|>)
    | Some (b, a) =>
        (Some (mkHandle key now (connectionPresenceKey s) admitted), presence_start s admitted now (count_start key now b a))
    end.

Definition recordConnectionPayload (now : Time) (h : handle) (upload download : Z) (a : connectionAudit) : connectionAudit :=
  if (upload <? 0) || (download <? 0) || (add64 upload download <=? 0) then a
  else
    match cu_buckets a !! hd_key h with
    | None => a
    | Some b =>
        if negb (policy_Allows (cu_collection a) (sr_UserID (ab_source b)) now) then a
        else
          let b := b<|ab_PayloadFirstAt ::= fun f => if f =s "" then time_Format now else f|><|ab_PayloadLastAt := time_Format now|>
                    <|ab_UploadBytes ::= fun x => add64 x upload|><|ab_DownloadBytes ::= fun x => add64 x download|> in
          let a := a<|cu_buckets ::= <[hd_key h := advanceAuditEnd now b]>|> in
          if hd_admitted h then presence_payload (hd_presence h) now a else a
    end.

Definition milliseconds (d : Duration) : Z := Z.quot d Millisecond.

(** The duration of a closed connection, by class. *)
Definition count_closed (started now : Time) (b : ConnectionAuditBucket) : ConnectionAuditBucket :=
  if 0 <? started then
    let d := Z.max 0 (milliseconds (time_Sub now started)) in
    let b := b<|ab_ClosedCount ::= Z.add 1|><|ab_DurationTotalMS ::= fun x => add64 x d|>
              <|ab_DurationMaxMS ::= fun x => if x <? d then d else x|> in
    if d <=? 1000 then b<|ab_LE1S ::= Z.add 1|>
    else if d <=? 5000 then b<|ab_LE5S ::= Z.add 1|>
    else if d <=? 20000 then b<|ab_LE20S ::= Z.add 1|>
    else b<|ab_GT20S ::= Z.add 1|>
  else b.

(** One open connection of the bucket less. *)
Definition count_end (key : string) (b : ConnectionAuditBucket) (a : connectionAudit) : ConnectionAuditBucket * connectionAudit :=
  if 0 <? ab_active b then
    (b<|ab_active ::= fun n => n - 1|>,
     let n := default 0 (cu_active a !! ab_activeIdentity b) in
     if 1 <? n then a<|cu_active ::= <[ab_activeIdentity b := n - 1]>|> else a<|cu_active ::= delete (ab_activeIdentity b)|>)
  else (b, a).

Definition recordConnectionEnd (now : Time) (h : handle) (a : connectionAudit) : connectionAudit :=
  let a :=
    match cu_buckets a !! hd_key h with
    | None => a
    | Some b =>
        let '(b, a) := count_end (hd_key h) b a in
        a<|cu_buckets ::= <[hd_key h := advanceAuditEnd now (count_closed (hd_started h) now b)]>|>
    end in
  if hd_admitted h then presence_end (hd_presence h) now a else a.

(** ** Drains *)

Definition refresh_presence (now : Time) (a : connectionAudit) (kp : string * connectionPresenceState) : connectionAudit :=
  let '(key, p) := kp in
  if (0 <? pe_ActiveConnections (ps_event p)) && (connectionPresenceRefresh <=? time_Sub now (ps_lastEmittedAt p)) then
    let '(p, a) := enqueuePresenceEvent "activity_refresh" now p a in a<|cu_presence ::= <[key := p]>|>
  else a.

Definition DrainConnectionPresenceEvents (now : Time) (a : connectionAudit) : (list ConnectionPresenceEvent * Z) * connectionAudit :=
  if negb (cu_enabled a) then (([], 0), a)
  else
    let a := fold_left (refresh_presence now) (map_to_list (cu_presence a)) a in
    ((cu_events a, cu_presenceDropped a), a<|cu_events := []|><|cu_presenceDropped := 0|>).

(** The item a bucket leaves in the report, if any. *)
Definition drain_item (started now : Time) (b : ConnectionAuditBucket) : list ConnectionAuditBucket :=
  if (0 <? ab_ConnectionCount b) || (0 <? ab_active b) then
    [normalizeAuditItemWindow started now
       (b<|ab_ActiveAtEnd := ab_active b|><|ab_active := 0|><|ab_EndedAt ::= fun e => if e =s "" then time_Format now else e|>)]
  else [].

(** A bucket with open connections starts the next window. *)
Definition next_bucket (now : Time) (sequence peak : Z) (b : ConnectionAuditBucket) : ConnectionAuditBucket :=
  mkAuditBucket (ab_source b) (ab_geo b) 0 0 0 0 0 0 "" "" 0 0 0 0 sequence peak 0 (time_Format now) (time_Format now)
    (ab_active b) (ab_activeIdentity b).

Definition drain_bucket (started now : Time) (acc : list ConnectionAuditBucket * connectionAudit)
    (kb : string * ConnectionAuditBucket) : list ConnectionAuditBucket * connectionAudit :=
  let '(items, a) := acc in
  let '(key, b) := kb in
  let items := items ++ drain_item started now b in
  if ab_active b =? 0 then (items, a<|cu_buckets ::= delete key|>)
  else
    let seq := cu_sequence a + 1 in
    (items, a<|cu_sequence := seq|>
             <|cu_buckets ::= <[key := next_bucket now seq (default 0 (cu_active a !! ab_activeIdentity b)) b]>|>).

Record ConnectionAuditDrain := mkAuditDrain {
  dr_Items : list ConnectionAuditBucket; dr_Generation : Z; dr_DroppedBucketCount : Z; dr_StartedAt : string; dr_EndedAt : string
}.

(** [DrainConnectionAuditSnapshot]; the items are in the order of the map, the
    source sorts them by user, source and network. *)
Definition DrainConnectionAuditSnapshot (now : Time) (a : connectionAudit) : ConnectionAuditDrain * connectionAudit :=
  if negb (cu_enabled a) then (mkAuditDrain [] 0 0 "" "", a)
  else
    let started := if IsZero (cu_windowStart a) || After (cu_windowStart a) now then now else cu_windowStart a in
    let '(items, a') := fold_left (drain_bucket started now) (map_to_list (cu_buckets a)) ([], a) in
    (mkAuditDrain items (cu_generation a) (cu_dropped a) (time_Format started) (time_Format now),
     a'<|cu_dropped := 0|><|cu_windowStart := now|>).

(** ** Switching *)

Definition SetConnectionAuditEnabled (now : Time) (enabled : bool) (a : connectionAudit) : connectionAudit :=
  if enabled then
    if cu_enabled a then a else a<|cu_enabled := true|><|cu_windowStart := now|><|cu_dropped := 0|>
  else
    a<|cu_enabled := false|><|cu_buckets := ∅|><|cu_active := ∅|><|cu_presence := ∅|><|cu_events := []|><|cu_presenceDropped := 0|>
     <|cu_generation ::= Z.add 1|><|cu_dropped := 0|><|cu_windowStart := time_zero|>.

(** [SetActivityCollection] on the connection audit. *)
Definition collect (p : CollectionPolicy) (a : connectionAudit) : bool * connectionAudit :=
  let stale := match cu_collection a with Some old => cp_Revision p <? cp_Revision old | None => false end in
  if negb (policy_Valid p) || stale then (false, a)
  else if bool_decide (cu_collection a = Some p) then (true, a)
  else
    (true, a<|cu_collection := Some p|><|cu_diagnostics := negb (cp_Mode p =s "light")|><|cu_buckets := ∅|><|cu_active := ∅|>
            <|cu_presence := ∅|><|cu_events := []|><|cu_generation ::= Z.add 1|>).

(** ** Sums over the buckets *)

Definition sum_of (f : ConnectionAuditBucket -> Z) (m : gmap string ConnectionAuditBucket) : Z := map_fold (fun _ b n => f b + n) 0 m.

Lemma sum_of_insert f m k b : m !! k = None -> sum_of f (<[k := b]> m) = f b + sum_of f m.
Proof. intros Hk. unfold sum_of. rewrite map_fold_insert_L; [done | intros; lia | done]. Qed.

Lemma sum_of_delete f m k b : m !! k = Some b -> sum_of f (delete k m) = sum_of f m - f b.
Proof.
  intros Hk. rewrite <- (insert_delete_id m k b Hk) at 2. rewrite sum_of_insert by apply lookup_delete_eq. lia.
Qed.

(** The bucket at a key, an absent one counting nothing, replaced. *)
Definition weight (f : ConnectionAuditBucket -> Z) (o : option ConnectionAuditBucket) : Z := match o with Some b => f b | None => 0 end.

Lemma sum_of_set f m k b : sum_of f (<[k := b]> m) = sum_of f m - weight f (m !! k) + f b.
Proof.
  destruct (m !! k) as [b0 |] eqn:E; cbn [weight]; [| rewrite sum_of_insert by done; lia].
  rewrite <- insert_delete_eq, sum_of_insert by apply lookup_delete_eq. rewrite (sum_of_delete _ _ _ b0 E). lia.
Qed.

Lemma sum_of_unset f m k : sum_of f (delete k m) = sum_of f m - weight f (m !! k).
Proof.
  destruct (m !! k) as [b0 |] eqn:E; cbn [weight]; [by apply sum_of_delete |]. rewrite delete_id by done. lia.
Qed.

Lemma sum_of_nonneg f m : map_Forall (fun _ b => 0 <= f b) m -> 0 <= sum_of f m.
Proof.
  intros H. induction m as [| k b m Hk IH] using map_ind; [done |]. rewrite sum_of_insert by done.
  apply map_Forall_insert in H as [Hb Hm]; [| done]. specialize (IH Hm). lia.
Qed.

Lemma sum_of_weight f m k : map_Forall (fun _ b => 0 <= f b) m -> weight f (m !! k) <= sum_of f m.
Proof.
  intros H. pose proof (sum_of_nonneg f (delete k m)) as Hn. rewrite sum_of_unset in Hn.
  specialize (Hn ltac:(intros i b Hb; apply lookup_delete_Some in Hb as [_ Hb]; eauto)). lia.
Qed.

(** Open connections of an identity. *)
Definition of_identity (i : string) (b : ConnectionAuditBucket) : Z := if ab_activeIdentity b =s i then ab_active b else 0.

(** ** The invariant *)

Record bucket_ok (b : ConnectionAuditBucket) : Prop := {
  bo_active : 0 <= ab_active b <= ab_ActivePeak b;
  bo_count : 0 <= ab_ConnectionCount b;
  bo_closed : ab_ClosedCount b = ab_LE1S b + ab_LE5S b + ab_LE20S b + ab_GT20S b
}.

(** The counts of open connections are those of the buckets. *)
Record counts_ok (active : gmap string Z) (buckets : gmap string ConnectionAuditBucket) : Prop := {
  co_exact : forall i, default 0 (active !! i) = sum_of (of_identity i) buckets;
  co_positive : map_Forall (fun _ n => 0 < n) active;
  co_buckets : map_Forall (fun _ b => bucket_ok b) buckets;
  co_bounded : (size buckets <= maxConnectionAuditBuckets)%nat
}.

(** The queue of events is bounded and in the order of its sequence numbers;
    a presence state has an open connection. *)
Record queue_ok (sequence : Z) (events : list ConnectionPresenceEvent) (presence : gmap string connectionPresenceState) : Prop := {
  qo_length : (List.length events <= maxConnectionPresenceEvents)%nat;
  qo_below : Forall (fun e => pe_Sequence e <= sequence) events;
  qo_ordered : StronglySorted (fun e e' => pe_Sequence e < pe_Sequence e') events;
  qo_present : map_Forall (fun _ p => 0 < pe_ActiveConnections (ps_event p)) presence
}.

Definition audit_ok (a : connectionAudit) : Prop :=
  counts_ok (cu_active a) (cu_buckets a) /\ queue_ok (cu_sequence a) (cu_events a) (cu_presence a).

(** *** Counts *)

Definition set_count (i : string) (n : Z) (m : gmap string Z) : gmap string Z := if 0 <? n then <[i := n]> m else delete i m.

Lemma set_count_same i (m : gmap string Z) : map_Forall (fun _ n => 0 < n) m -> set_count i (default 0 (m !! i)) m = m.
Proof.
  intros H. unfold set_count. destruct (m !! i) as [n |] eqn:E; cbn; [| by rewrite delete_id].
  specialize (H _ _ E). cbn in H. destruct (Z.ltb_spec 0 n); [by rewrite insert_id | lia].
Qed.

Lemma counts_active (m : gmap string ConnectionAuditBucket) : map_Forall (fun _ b => bucket_ok b) m -> forall i, map_Forall (fun _ b => 0 <= of_identity i b) m.
Proof. intros H i k b Hb. specialize (H _ _ Hb). unfold of_identity. destruct (_ =s _); [apply H | lia]. Qed.

(** A bucket is entered or replaced and the count of its identity follows. *)
Lemma counts_set act m k b n :
  counts_ok act m -> bucket_ok b -> (forall b0, m !! k = Some b0 -> ab_activeIdentity b0 = ab_activeIdentity b) ->
  (is_Some (m !! k) \/ (size m < maxConnectionAuditBuckets)%nat) ->
  n = default 0 (act !! ab_activeIdentity b) - weight ab_active (m !! k) + ab_active b ->
  counts_ok (set_count (ab_activeIdentity b) n act) (<[k := b]> m).
Proof.
  intros [He Hp Hb Hs] Hbo Hid Hroom Hn.
  assert (forall i, weight (of_identity i) (m !! k) = if ab_activeIdentity b =s i then weight ab_active (m !! k) else 0) as Hw.
  { intros i. destruct (m !! k) as [b0 |]; cbn; [| by destruct (_ =s _)]. unfold of_identity. by rewrite (Hid b0 eq_refl). }
  assert (0 <= n) as Hn0.
  { pose proof (sum_of_weight _ m k (counts_active m Hb (ab_activeIdentity b))) as Hle. rewrite Hw, str_eqb_refl, <- He in Hle.
    pose proof (bo_active _ Hbo). lia. }
  split.
  - intros i. rewrite sum_of_set, Hw, <- He. unfold of_identity, set_count. destruct (ab_activeIdentity b =s i) eqn:Ei.
    + apply str_eqb_eq in Ei as <-. destruct (Z.ltb_spec 0 n); [rewrite lookup_insert_eq | rewrite lookup_delete_eq]; cbn; lia.
    + apply str_eqb_neq in Ei. destruct (0 <? n); [rewrite lookup_insert_ne by done | rewrite lookup_delete_ne by done]; lia.
  - unfold set_count. destruct (Z.ltb_spec 0 n); [by apply map_Forall_insert_2 | by apply map_Forall_delete].
  - by apply map_Forall_insert_2.
  - rewrite map_size_insert. destruct (m !! k); [done |]. destruct Hroom as [[b0 Hb0] | Hlt]; [done | lia].
Qed.

(** The same bucket with other figures, its open connections unchanged. *)
Lemma counts_replace act m k b0 b :
  counts_ok act m -> m !! k = Some b0 -> bucket_ok b -> ab_activeIdentity b = ab_activeIdentity b0 -> ab_active b = ab_active b0 ->
  counts_ok act (<[k := b]> m).
Proof.
  intros Hc Hk Hb Hi Ha. rewrite <- (set_count_same (ab_activeIdentity b) act) by apply Hc.
  apply counts_set; [done | done | | left; eauto | rewrite Hk; cbn; lia].
  intros b1 Hb1. congruence.
Qed.

Lemma counts_remove act m k b0 : counts_ok act m -> m !! k = Some b0 -> ab_active b0 = 0 -> counts_ok act (delete k m).
Proof.
  intros [He Hp Hb Hs] Hk Ha. split; [| done | by apply map_Forall_delete |].
  - intros i. rewrite (sum_of_delete _ _ _ b0 Hk), He. unfold of_identity. destruct (_ =s _); lia.
  - rewrite map_size_delete, Hk. cbn. lia.
Qed.

Lemma counts_empty : counts_ok ∅ ∅.
Proof. split; [done | apply map_Forall_empty | apply map_Forall_empty | rewrite map_size_empty; lia]. Qed.

(** *** Events *)

Definition same_counts (a a' : connectionAudit) : Prop :=
  cu_buckets a' = cu_buckets a /\ cu_active a' = cu_active a /\ cu_enabled a' = cu_enabled a.

Lemma sorted_snoc {X} (R : X -> X -> Prop) l x : StronglySorted R l -> Forall (fun y => R y x) l -> StronglySorted R (l ++ [x]).
Proof.
  induction 1 as [| y l Hs IH Hy]; cbn; intros Hx; [repeat constructor |].
  apply Forall_cons in Hx as [Hxy Hx]. constructor; [by apply IH | apply Forall_app; auto].
Qed.

Lemma queue_sequence s s' ev pr : queue_ok s ev pr -> s <= s' -> queue_ok s' ev pr.
Proof. intros [Hl Hb Ho Hp] Hs. split; try done. eapply Forall_impl; [exact Hb |]. cbn. lia. Qed.

Lemma enqueue_queue event at_ p a p' a' :
  queue_ok (cu_sequence a) (cu_events a) (cu_presence a) -> enqueuePresenceEvent event at_ p a = (p', a') ->
  queue_ok (cu_sequence a') (cu_events a') (cu_presence a) /\ cu_presence a' = cu_presence a /\ same_counts a a' /\
  pe_ActiveConnections (ps_event p') = pe_ActiveConnections (ps_event p).
Proof.
  unfold enqueuePresenceEvent. intros Hq. pose proof (queue_sequence _ (cu_sequence a + 1) _ _ Hq ltac:(lia)) as Hq'.
  cbn [cu_events upd]. destruct (Nat.leb_spec maxConnectionPresenceEvents (List.length (cu_events a))); intros [= <- <-]; cbn.
  - done.
  - split_and!; try done. destruct Hq as [Hl Hb Ho Hp]. split; cbn.
    + rewrite length_app. cbn. lia.
    + apply Forall_app. split; [apply Hq' | constructor; [cbn; lia | constructor]].
    + apply sorted_snoc; [done |]. eapply Forall_impl; [exact Hb |]. cbn. lia.
    + done.
Qed.

Lemma queue_presence s ev pr key p : queue_ok s ev pr -> 0 < pe_ActiveConnections (ps_event p) -> queue_ok s ev (<[key := p]> pr).
Proof. intros [Hl Hb Ho Hp] H. split; try done. by apply map_Forall_insert_2. Qed.

(** What every presence operation keeps. *)
Definition presence_step (a a' : connectionAudit) : Prop :=
  queue_ok (cu_sequence a) (cu_events a) (cu_presence a) ->
  queue_ok (cu_sequence a') (cu_events a') (cu_presence a') /\ same_counts a a'.

Lemma presence_announce event at_ p a key :
  0 < pe_ActiveConnections (ps_event p) ->
  presence_step a (let '(p, a) := enqueuePresenceEvent event at_ p a in a<|cu_presence ::= <[key := p]>|>).
Proof.
  intros Hp Hq. destruct (enqueuePresenceEvent event at_ p a) as [p' a'] eqn:E.
  destruct (enqueue_queue _ _ _ _ _ _ Hq E) as (Hq' & Hpr & Hs & Hn). cbn. rewrite Hpr. split; [| done].
  apply queue_presence; [done | lia].
Qed.

Lemma presence_enter p a key : 0 < pe_ActiveConnections (ps_event p) -> presence_step a (a<|cu_presence ::= <[key := p]>|>).
Proof. intros Hp Hq. split; [by apply queue_presence | done]. Qed.

Lemma presence_start_step s admitted now a : presence_step a (presence_start s admitted now a).
Proof.
  intros Hq. unfold presence_start. destruct admitted.
  - set (p := default _ _). assert (0 <= pe_ActiveConnections (ps_event p)) as Hp.
    { unfold p. destruct (cu_presence a !! _) as [q |] eqn:E; cbn; [| lia]. pose proof (qo_present _ _ _ Hq _ _ E) as Hz. cbn in Hz. lia. }
    destruct (_ =? 1); [apply presence_announce | apply presence_enter]; try done; cbn; lia.
  - destruct (enqueuePresenceEvent _ _ _ _) as [p' a'] eqn:E. destruct (enqueue_queue _ _ _ _ _ _ Hq E) as (Hq' & Hpr & Hs & _).
    cbn. by rewrite Hpr.
Qed.

Lemma presence_payload_step key now a : presence_step a (presence_payload key now a).
Proof.
  intros Hq. unfold presence_payload. destruct (cu_presence a !! key) as [p |] eqn:E; [| done].
  pose proof (qo_present _ _ _ Hq _ _ E) as Hp. cbn in Hp.
  destruct (negb _); [by apply presence_announce | by apply presence_enter].
Qed.

Lemma presence_end_step key now a : presence_step a (presence_end key now a).
Proof.
  intros Hq. unfold presence_end. destruct (cu_presence a !! key) as [p |] eqn:E; [| done].
  pose proof (qo_present _ _ _ Hq _ _ E) as Hp. cbn in Hp. rewrite (proj2 (Z.ltb_lt _ _) Hp).
  destruct (Z.eqb_spec (pe_ActiveConnections (ps_event p) - 1) 0); [| apply presence_enter; cbn; [lia | done]].
  destruct (enqueuePresenceEvent _ _ _ _) as [p' a'] eqn:Ee. destruct (enqueue_queue _ _ _ _ _ _ Hq Ee) as (Hq' & Hpr & Hs & _).
  cbn. rewrite Hpr. split; [| done]. destruct Hq' as [Hl Hb Ho Hm]. split; try done. by apply map_Forall_delete.
Qed.

Lemma refresh_presence_step now a kp :
  0 < pe_ActiveConnections (ps_event (snd kp)) -> presence_step a (refresh_presence now a kp).
Proof.
  destruct kp as [key p]. cbn [snd]. intros Hp Hq. unfold refresh_presence. destruct (_ && _); [by apply presence_announce | done].
Qed.

(** *** Operations *)

Lemma bucket_ok_start b n : bucket_ok b -> ab_active b + 1 <= n ->
  bucket_ok (b<|ab_ConnectionCount ::= Z.add 1|><|ab_active ::= Z.add 1|><|ab_ActivePeak ::= fun p => if p <? n then n else p|>).
Proof. intros [Ha Hc Hd] Hn. split; cbn; [| lia | done]. destruct (Z.ltb_spec (ab_ActivePeak b) n); lia. Qed.

Lemma bucket_ok_advance now b : bucket_ok b -> bucket_ok (advanceAuditEnd now b).
Proof. intros [Ha Hc Hd]. by split. Qed.

Lemma bucket_ok_new s geo seq now : bucket_ok (new_bucket s geo seq now).
Proof. split; cbn; lia. Qed.

(** The count of an identity is at least that of each of its buckets. *)
Lemma counts_at_least act m k b : counts_ok act m -> m !! k = Some b -> ab_active b <= default 0 (act !! ab_activeIdentity b).
Proof.
  intros Hc Hk. rewrite (co_exact _ _ Hc).
  pose proof (sum_of_weight _ m k (counts_active m (co_buckets _ _ Hc) (ab_activeIdentity b))) as Hw.
  rewrite Hk in Hw. cbn in Hw. unfold of_identity in Hw at 1. by rewrite str_eqb_refl in Hw.
Qed.

Lemma counts_nonneg act m i : counts_ok act m -> 0 <= default 0 (act !! i).
Proof. intros Hc. destruct (act !! i) as [n |] eqn:E; cbn; [| done]. pose proof (co_positive _ _ Hc _ _ E) as H. cbn in H. lia. Qed.

Lemma count_start_counts key now b a :
  counts_ok (cu_active a) (cu_buckets a) ->
  cu_buckets a !! key = Some b \/
    (cu_buckets a !! key = None /\ ab_active b = 0 /\ bucket_ok b /\ (size (cu_buckets a) < maxConnectionAuditBuckets)%nat) ->
  counts_ok (cu_active (count_start key now b a)) (cu_buckets (count_start key now b a)).
Proof.
  intros Hc Hb. unfold count_start. cbn -[advanceAuditEnd]. set (n := default 0 (cu_active a !! ab_activeIdentity b) + 1).
  pose proof (counts_nonneg _ _ (ab_activeIdentity b) Hc) as Hnn.
  assert (bucket_ok b /\ ab_active b + 1 <= n /\ weight ab_active (cu_buckets a !! key) = ab_active b) as (Hbo & Hn & Hw).
  { destruct Hb as [Hb | (Hb & Ha & Hbo & _)]; rewrite Hb; cbn.
    - pose proof (counts_at_least _ _ _ _ Hc Hb). split_and!; [by apply (co_buckets _ _ Hc key) | lia | done].
    - split_and!; [done | lia | lia]. }
  set (b' := _<|ab_ActivePeak ::= _|>).
  assert (<[ab_activeIdentity b := n]> (cu_active a) = set_count (ab_activeIdentity (advanceAuditEnd now b')) n (cu_active a)) as ->.
  { unfold set_count. cbn. destruct (Z.ltb_spec 0 n); [done | lia]. }
  apply counts_set; [done | by apply bucket_ok_advance, bucket_ok_start | | | cbn; rewrite Hw; unfold n; lia].
  - intros b0 Hb0. destruct Hb as [Hb | (Hb & _)]; cbn; congruence.
  - destruct Hb as [Hb | (_ & _ & _ & Hs)]; eauto.
Qed.

Lemma start_ok now credential s geo admitted a :
  audit_ok a -> audit_ok (snd (recordConnectionStart now credential s geo admitted a)).
Proof.
  intros Hok. unfold recordConnectionStart. destruct (_ || _); [done |]. destruct (_ || _); [done |].
  set (key := bucket_key _ _ _).
  assert (forall b a0, counts_ok (cu_active a0) (cu_buckets a0) -> queue_ok (cu_sequence a0) (cu_events a0) (cu_presence a0) ->
    cu_buckets a0 !! key = Some b \/
    (cu_buckets a0 !! key = None /\ ab_active b = 0 /\ bucket_ok b /\ (size (cu_buckets a0) < maxConnectionAuditBuckets)%nat) ->
    audit_ok (presence_start s admitted now (count_start key now b a0))) as Hgo.
  { intros b a0 Hc Hq Hb. destruct (presence_start_step s admitted now (count_start key now b a0) Hq) as [Hq' (Hbk & Hac & _)].
    split; [rewrite Hbk, Hac; by apply count_start_counts | done]. }
  destruct Hok as [Hc Hq]. destruct (cu_buckets a !! key) as [b |] eqn:Eb; [apply Hgo; auto |].
  destruct (Nat.leb_spec maxConnectionAuditBuckets (size (cu_buckets a))); [done |]. cbn [snd].
  apply Hgo; [done | eapply queue_sequence; [exact Hq | cbn; lia] | right; split_and!; try done; apply bucket_ok_new].
Qed.

Lemma payload_ok now h upload download a : audit_ok a -> audit_ok (recordConnectionPayload now h upload download a).
Proof.
  intros [Hc Hq]. unfold recordConnectionPayload. destruct (_ || _ || _); [done |].
  destruct (cu_buckets a !! hd_key h) as [b |] eqn:Eb; [| done]. destruct (negb _); [done |].
  match goal with |- audit_ok (if _ then presence_payload _ _ ?x else _) => set (a1 := x) end.
  assert (audit_ok a1) as [Hc1 Hq1].
  { split; [| done]. eapply counts_replace; [done | exact Eb | | done | done].
    apply bucket_ok_advance. destruct (co_buckets _ _ Hc _ _ Eb). by split. }
  destruct (hd_admitted h); [| done]. destruct (presence_payload_step (hd_presence h) now a1 Hq1) as [Hq2 (Hb2 & Ha2 & _)].
  split; [by rewrite Hb2, Ha2 | done].
Qed.

Lemma bucket_ok_closed started now b : bucket_ok b -> bucket_ok (count_closed started now b).
Proof.
  intros [Ha Hc Hd]. unfold count_closed. destruct (0 <? started); [| done]. set (d := Z.max 0 _). clearbody d.
  destruct (d <=? 1000); [| destruct (d <=? 5000); [| destruct (d <=? 20000)]]; split; cbn; lia.
Qed.

Lemma count_closed_active started now b :
  ab_active (count_closed started now b) = ab_active b /\ ab_activeIdentity (count_closed started now b) = ab_activeIdentity b.
Proof.
  unfold count_closed. destruct (0 <? started); [| done]. set (d := Z.max 0 _). clearbody d.
  by destruct (d <=? 1000); [| destruct (d <=? 5000); [| destruct (d <=? 20000)]].
Qed.

Lemma end_ok now h a : audit_ok a -> audit_ok (recordConnectionEnd now h a).
Proof.
  intros [Hc Hq]. unfold recordConnectionEnd.
  match goal with |- audit_ok (if _ then presence_end _ _ ?x else _) => set (a1 := x) end.
  assert (audit_ok a1) as [Hc1 Hq1].
  { unfold a1. clear a1. destruct (cu_buckets a !! hd_key h) as [b |] eqn:Eb; [| done].
    pose proof (co_buckets _ _ Hc _ _ Eb) as Hb. cbn in Hb. unfold count_end.
    destruct (Z.ltb_spec 0 (ab_active b)) as [Hp | Hp].
    2: { split; [| done]. eapply counts_replace; [done | exact Eb | by apply bucket_ok_advance, bucket_ok_closed | apply count_closed_active..]. }
    set (b1 := b<|ab_active ::= _|>). assert (bucket_ok b1) as Hb1 by (destruct Hb; split; cbn; [lia | done | done]).
    pose proof (counts_at_least _ _ _ _ Hc Eb) as Hn. set (n := default 0 (cu_active a !! ab_activeIdentity b)) in *.
    set (b2 := advanceAuditEnd now _). destruct (count_closed_active (hd_started h) now b1) as [Ha2 Hi2].
    assert (ab_activeIdentity b2 = ab_activeIdentity b) as Hi by exact Hi2.
    assert (ab_active b2 = ab_active b - 1) as Ha by exact Ha2.
    assert (counts_ok (set_count (ab_activeIdentity b2) (n - 1) (cu_active a)) (<[hd_key h := b2]> (cu_buckets a))) as Hset.
    { apply counts_set; [done | by apply bucket_ok_advance, bucket_ok_closed | | left; eauto |].
      - intros b0 Hb0. congruence.
      - rewrite Hi, Ha, Eb. cbn [weight]. fold n. lia. }
    rewrite Hi in Hset. unfold set_count in Hset.
    destruct (Z.ltb_spec 1 n); destruct (Z.ltb_spec 0 (n - 1)); try lia; split; done. }
  destruct (hd_admitted h); [| done]. destruct (presence_end_step (hd_presence h) now a1 Hq1) as [Hq2 (Hb2 & Ha2 & _)].
  split; [by rewrite Hb2, Ha2 | done].
Qed.

(** *** Drains *)

Definition reported (items : list ConnectionAuditBucket) : Z := foldr (fun b n => ab_ConnectionCount b + n) 0 items.

Lemma reported_app l l' : reported (l ++ l') = reported l + reported l'.
Proof. unfold reported. induction l as [| b l IH]; cbn; [done |]. rewrite IH. lia. Qed.

Lemma normalize_count cs ce b : ab_ConnectionCount (normalizeAuditItemWindow cs ce b) = ab_ConnectionCount b.
Proof.
  unfold normalizeAuditItemWindow.
  destruct (time_Parse (ab_PayloadFirstAt b)), (time_Parse (ab_PayloadLastAt b)); try destruct (payload_window _ _ _ _ _) as [[? ?] ?]; done.
Qed.

Lemma drain_item_count started now b : bucket_ok b -> reported (drain_item started now b) = ab_ConnectionCount b.
Proof.
  intros Hb. unfold drain_item. destruct (_ || _) eqn:E; cbn [reported foldr].
  - rewrite normalize_count. cbn. lia.
  - apply orb_false_iff in E as [E _]. apply Z.ltb_ge in E. pose proof (bo_count _ Hb). lia.
Qed.

Lemma drain_bucket_ok started now items a k b :
  audit_ok a -> cu_buckets a !! k = Some b ->
  let '(items', a') := drain_bucket started now (items, a) (k, b) in
  audit_ok a' /\ cu_enabled a' = cu_enabled a /\ (forall k', k' <> k -> cu_buckets a' !! k' = cu_buckets a !! k') /\
  reported items' + sum_of ab_ConnectionCount (cu_buckets a') = reported items + sum_of ab_ConnectionCount (cu_buckets a).
Proof.
  intros [Hc Hq] Hk. pose proof (co_buckets _ _ Hc _ _ Hk) as Hb. cbn in Hb. unfold drain_bucket.
  destruct (Z.eqb_spec (ab_active b) 0) as [E | E]; cbn [cu_active cu_buckets cu_events cu_presence cu_sequence upd].
  - rewrite reported_app, drain_item_count by done. split_and!; [| done | |].
    + split; [| done]. by eapply counts_remove.
    + intros k' Hne. cbn. by rewrite lookup_delete_ne.
    + cbn. rewrite (sum_of_delete _ _ _ b Hk). lia.
  - rewrite reported_app, drain_item_count by done. split_and!; [| done | |].
    + split; [| eapply queue_sequence; [exact Hq | cbn; lia]].
      eapply counts_replace; [exact Hc | exact Hk | | done | done].
      pose proof (counts_at_least _ _ _ _ Hc Hk). destruct Hb. split; cbn; [lia | lia | done].
    + intros k' Hne. cbn. by rewrite lookup_insert_ne.
    + cbn. rewrite sum_of_set, Hk. cbn. lia.
Qed.

Lemma drain_fold_ok started now l items a :
  audit_ok a -> NoDup (map fst l) -> (forall k b, (k, b) ∈ l -> cu_buckets a !! k = Some b) ->
  let '(items', a') := fold_left (drain_bucket started now) l (items, a) in
  audit_ok a' /\ cu_enabled a' = cu_enabled a /\
  reported items' + sum_of ab_ConnectionCount (cu_buckets a') = reported items + sum_of ab_ConnectionCount (cu_buckets a).
Proof.
  revert items a. induction l as [| [k b] l IH]; intros items a Ha Hnd Hl; cbn [fold_left]; [done |].
  apply NoDup_cons in Hnd as [Hk Hnd].
  pose proof (drain_bucket_ok started now items a k b Ha (Hl k b ltac:(by left))) as Hd.
  destruct (drain_bucket started now (items, a) (k, b)) as [items1 a1]. destruct Hd as (Ha1 & He1 & Hother & Hsum).
  specialize (IH items1 a1 Ha1 Hnd). destruct (fold_left _ l (items1, a1)) as [items2 a2].
  destruct IH as (Ha2 & He2 & Hs2).
  { intros k' b' Hin. rewrite Hother; [apply Hl; by right |]. intros ->. apply Hk, list_elem_of_fmap. by exists (k, b'). }
  split_and!; [done | congruence | lia].
Qed.

Lemma drain_ok now a :
  audit_ok a ->
  let '(d, a') := DrainConnectionAuditSnapshot now a in
  audit_ok a' /\ cu_enabled a' = cu_enabled a /\
  reported (dr_Items d) + sum_of ab_ConnectionCount (cu_buckets a') = sum_of ab_ConnectionCount (cu_buckets a).
Proof.
  intros Ha. unfold DrainConnectionAuditSnapshot. destruct (negb _); [done |].
  set (started := if IsZero _ || _ then now else _). clearbody started.
  pose proof (drain_fold_ok started now (map_to_list (cu_buckets a)) [] a Ha) as Hd.
  destruct (fold_left _ _ _) as [items a']. apply Hd.
  - apply NoDup_fst_map_to_list.
  - intros k b Hin. by apply elem_of_map_to_list.
Qed.

Lemma refresh_fold now (l : list (string * connectionPresenceState)) a :
  Forall (fun kp : string * connectionPresenceState => 0 < pe_ActiveConnections (ps_event (snd kp))) l -> presence_step a (fold_left (refresh_presence now) l a).
Proof.
  revert a. induction l as [| kp l IH]; intros a Hl Hq; cbn [fold_left]; [done |]. apply Forall_cons in Hl as [Hp Hl].
  destruct (refresh_presence_step now a kp Hp Hq) as [Hq1 (Hb1 & Ha1 & He1)].
  destruct (IH _ Hl Hq1) as [Hq2 (Hb2 & Ha2 & He2)]. split; [done |]. unfold same_counts. by rewrite Hb2, Ha2, He2.
Qed.

Lemma drain_presence_ok now a :
  audit_ok a -> let '(r, a') := DrainConnectionPresenceEvents now a in
  audit_ok a' /\ same_counts a a' /\
  StronglySorted (fun e e' => pe_Sequence e < pe_Sequence e') (fst r) /\ (List.length (fst r) <= maxConnectionPresenceEvents)%nat.
Proof.
  intros [Hc Hq]. unfold DrainConnectionPresenceEvents.
  destruct (cu_enabled a); cbn [negb]; [| split_and!; try done; cbn; [constructor | lia]].
  assert (Forall (fun kp : string * connectionPresenceState => 0 < pe_ActiveConnections (ps_event (snd kp))) (map_to_list (cu_presence a))) as Hp.
  { apply Forall_forall. intros [k p] Hin. apply elem_of_map_to_list in Hin. exact (qo_present _ _ _ Hq _ _ Hin). }
  destruct (refresh_fold now _ a Hp Hq) as [Hq1 (Hb1 & Ha1 & He1)]. set (a1 := fold_left _ _ a) in *.
  destruct Hq1 as [Hl Hb Ho Hpr]. split_and!; try done. split; [cbn; by rewrite Hb1, Ha1 |].
  split; cbn; [lia | constructor | constructor | done].
Qed.

(** ** Runs *)

Inductive audit_op :=
| AStart (credential : string) (s : source) (geo : string) (admitted : bool)
| APayload (h : handle) (upload download : Z)
| AEnd (h : handle)
| ADrain
| ADrainPresence
| AEnable (enabled : bool)
| ACollect (p : CollectionPolicy).

Definition audit_step (a : connectionAudit) (o : Time * audit_op) : connectionAudit :=
  let '(now, o) := o in
  match o with
  | AStart credential s geo admitted => snd (recordConnectionStart now credential s geo admitted a)
  | APayload h upload download => recordConnectionPayload now h upload download a
  | AEnd h => recordConnectionEnd now h a
  | ADrain => snd (DrainConnectionAuditSnapshot now a)
  | ADrainPresence => snd (DrainConnectionPresenceEvents now a)
  | AEnable enabled => SetConnectionAuditEnabled now enabled a
  | ACollect p => snd (collect p a)
  end.

Definition no_audit : connectionAudit := mkConnectionAudit false false None 0 ∅ ∅ 0 0 time_zero ∅ [] 0.

Lemma queue_empty s : queue_ok s [] ∅.
Proof. split; cbn; [lia | constructor | constructor | apply map_Forall_empty]. Qed.

Lemma audit_step_ok a o : audit_ok a -> audit_ok (audit_step a o).
Proof.
  destruct o as [now []]; cbn -[recordConnectionStart DrainConnectionAuditSnapshot DrainConnectionPresenceEvents]; intros Ha.
  - by apply start_ok.
  - by apply payload_ok.
  - by apply end_ok.
  - pose proof (drain_ok now a Ha) as H. destruct (DrainConnectionAuditSnapshot now a). apply H.
  - pose proof (drain_presence_ok now a Ha) as H. destruct (DrainConnectionPresenceEvents now a). apply H.
  - unfold SetConnectionAuditEnabled. destruct enabled; [by destruct (cu_enabled a) |].
    split; [apply counts_empty | apply queue_empty].
  - unfold collect. destruct (_ || _); [done |]. destruct (bool_decide _); [done |]. split; [apply counts_empty | apply queue_empty].
Qed.

Lemma audit_run_ok ops a : audit_ok a -> audit_ok (fold_left audit_step ops a).
Proof. intros Ha. apply (fold_left_inv _ audit_ok); [done |]. intros. by apply audit_step_ok. Qed.

Lemma no_audit_ok : audit_ok no_audit.
Proof. split; [apply counts_empty | apply queue_empty]. Qed.

(** C31: after any sequence of starts, payloads, closes (repeated, forged or of
    an older generation), drains and policy changes the open connections the
    audit counts for an identity are the sum over its buckets, at most 4096
    buckets and 4096 queued events exist, the queued events are in the order
    of their sequence numbers, and every presence state has an open
    connection. *)
Theorem audit_counts_are_exact ops i :
  let a := fold_left audit_step ops no_audit in
  default 0 (cu_active a !! i) = sum_of (of_identity i) (cu_buckets a) /\
  (size (cu_buckets a) <= maxConnectionAuditBuckets)%nat /\ (List.length (cu_events a) <= maxConnectionPresenceEvents)%nat /\
  StronglySorted (fun e e' => pe_Sequence e < pe_Sequence e') (cu_events a) /\
  (forall k b, cu_buckets a !! k = Some b -> 0 <= ab_active b <= ab_ActivePeak b /\
     ab_ClosedCount b = ab_LE1S b + ab_LE5S b + ab_LE20S b + ab_GT20S b) /\
  (forall k p, cu_presence a !! k = Some p -> 0 < pe_ActiveConnections (ps_event p)).
Proof.
  cbn zeta. destruct (audit_run_ok ops no_audit no_audit_ok) as [Hc Hq]. split_and!.
  - apply Hc.
  - apply Hc.
  - apply Hq.
  - apply Hq.
  - intros k b Hb. destruct (co_buckets _ _ Hc _ _ Hb). done.
  - intros k p Hp. exact (qo_present _ _ _ Hq _ _ Hp).
Qed.

(** A run with the number of connections that got a handle and the number the
    drains reported. *)
Definition tally_step (st : (Z * Z) * connectionAudit) (o : Time * audit_op) : (Z * Z) * connectionAudit :=
  let '((started, counted), a) := st in
  let a' := audit_step a o in
  match o with
  | (now, AStart credential s geo admitted) =>
      match fst (recordConnectionStart now credential s geo admitted a) with
      | Some _ => ((started + 1, counted), a')
      | None => ((started, counted), a')
      end
  | (now, ADrain) => ((started, counted + reported (dr_Items (fst (DrainConnectionAuditSnapshot now a)))), a')
  | _ => ((started, counted), a')
  end.

(** Nothing discards the buckets. *)
Definition keeps_buckets (o : Time * audit_op) : Prop := match snd o with AEnable _ | ACollect _ => False | _ => True end.

Definition pending_starts (a : connectionAudit) : Z := sum_of ab_ConnectionCount (cu_buckets a).

Lemma start_pending now credential s geo admitted a :
  audit_ok a -> pending_starts (snd (recordConnectionStart now credential s geo admitted a)) =
  pending_starts a + match fst (recordConnectionStart now credential s geo admitted a) with Some _ => 1 | None => 0 end.
Proof.
  intros [Hc Hq]. unfold recordConnectionStart, pending_starts. destruct (_ || _); [cbn; lia |]. destruct (_ || _); [cbn; lia |].
  set (key := bucket_key _ _ _).
  assert (forall b a0, queue_ok (cu_sequence a0) (cu_events a0) (cu_presence a0) ->
    weight ab_ConnectionCount (cu_buckets a0 !! key) = ab_ConnectionCount b ->
    sum_of ab_ConnectionCount (cu_buckets (presence_start s admitted now (count_start key now b a0))) =
    sum_of ab_ConnectionCount (cu_buckets a0) + 1) as Hgo.
  { intros b a0 Hq0 Hw. destruct (presence_start_step s admitted now (count_start key now b a0) Hq0) as [_ (-> & _)].
    unfold count_start. cbn. rewrite sum_of_set, Hw. cbn. lia. }
  destruct (cu_buckets a !! key) as [b |] eqn:Eb; cbn [fst snd]; [apply Hgo; [done | by rewrite Eb] |].
  destruct (_ <=? _)%nat; cbn [fst snd]; [cbn; lia |].
  refine (Hgo (new_bucket s geo (cu_sequence a + 1) now) (a<|cu_sequence ::= Z.add 1|>) _ _); cbn; [eapply queue_sequence; [exact Hq | lia] | by rewrite Eb].
Qed.

Lemma payload_pending now h upload download a :
  audit_ok a -> pending_starts (recordConnectionPayload now h upload download a) = pending_starts a.
Proof.
  intros [Hc Hq]. unfold recordConnectionPayload, pending_starts. destruct (_ || _ || _); [done |].
  destruct (cu_buckets a !! hd_key h) as [b |] eqn:Eb; [| done]. destruct (negb _); [done |].
  match goal with |- context [if _ then presence_payload _ _ ?x else _] => set (a1 := x) end.
  assert (sum_of ab_ConnectionCount (cu_buckets a1) = sum_of ab_ConnectionCount (cu_buckets a)) as H1.
  { unfold a1. cbn. rewrite sum_of_set, Eb. cbn. lia. }
  destruct (hd_admitted h); [| done]. by destruct (presence_payload_step (hd_presence h) now a1 Hq) as [_ (-> & _)].
Qed.

Lemma end_pending now h a : audit_ok a -> pending_starts (recordConnectionEnd now h a) = pending_starts a.
Proof.
  intros [Hc Hq]. unfold recordConnectionEnd, pending_starts.
  match goal with |- context [if _ then presence_end _ _ ?x else _] => set (a1 := x) end.
  assert (sum_of ab_ConnectionCount (cu_buckets a1) = sum_of ab_ConnectionCount (cu_buckets a) /\
    queue_ok (cu_sequence a1) (cu_events a1) (cu_presence a1)) as [H1 Hq1].
  { unfold a1. clear a1. destruct (cu_buckets a !! hd_key h) as [b |] eqn:Eb; [| done].
    assert (forall b0, ab_ConnectionCount (count_closed (hd_started h) now b0) = ab_ConnectionCount b0) as Hcc.
    { intros b0. unfold count_closed. destruct (0 <? hd_started h); [| done]. set (d := Z.max 0 _). clearbody d.
      by destruct (d <=? 1000); [| destruct (d <=? 5000); [| destruct (d <=? 20000)]]. }
    unfold count_end. destruct (0 <? ab_active b).
    - destruct (1 <? _); (split; [cbn; rewrite sum_of_set, Eb; cbn; rewrite Hcc; cbn; lia | done]).
    - split; [cbn; rewrite sum_of_set, Eb; cbn; rewrite Hcc; lia | done]. }
  destruct (hd_admitted h); [| done]. by destruct (presence_end_step (hd_presence h) now a1 Hq1) as [_ (-> & _)].
Qed.

Lemma tally_step_balance st o :
  audit_ok (snd st) -> keeps_buckets o ->
  let '((started, counted), a) := st in
  let '((started', counted'), a') := tally_step st o in
  audit_ok a' /\ started' - counted' - pending_starts a' = started - counted - pending_starts a.
Proof.
  destruct st as [[started counted] a], o as [now []]; cbn [snd]; intros Ha Hk; try done;
    unfold tally_step; cbn [audit_step].
  - pose proof (start_pending now credential s geo admitted a Ha) as Hp. pose proof (start_ok now credential s geo admitted a Ha).
    destruct (recordConnectionStart now credential s geo admitted a) as [[h |] a']; cbn [fst snd] in *; split; [done | lia | done | lia].
  - split; [by apply payload_ok |]. rewrite payload_pending by done. lia.
  - split; [by apply end_ok |]. rewrite end_pending by done. lia.
  - pose proof (drain_ok now a Ha) as H. destruct (DrainConnectionAuditSnapshot now a) as [d a']. cbn [fst snd].
    destruct H as (Hok & _ & Hs). split; [done |]. unfold pending_starts. lia.
  - pose proof (drain_presence_ok now a Ha) as H. destruct (DrainConnectionPresenceEvents now a) as [r a']. cbn [fst snd].
    destruct H as (Hok & (Hb & _) & _). split; [done |]. unfold pending_starts. rewrite Hb. lia.
Qed.

(** While the audit stays enabled under one policy every connection that
    got a handle is counted in exactly one report: the connections started are
    those the drains reported and those still in the buckets. *)
Theorem starts_are_reported_once ops a started counted a' :
  audit_ok a -> pending_starts a = 0 -> Forall keeps_buckets ops ->
  fold_left tally_step ops ((0, 0), a) = ((started, counted), a') ->
  started = counted + pending_starts a'.
Proof.
  intros Ha Hz Hk.
  assert (forall ops st, audit_ok (snd st) -> Forall keeps_buckets ops ->
    fst (fst (fold_left tally_step ops st)) - snd (fst (fold_left tally_step ops st)) - pending_starts (snd (fold_left tally_step ops st)) =
    fst (fst st) - snd (fst st) - pending_starts (snd st)) as Hrun.
  { clear. induction ops as [| o ops IH]; intros st Hst Hk; cbn [fold_left]; [done |]. apply Forall_cons in Hk as [Ho Hk].
    pose proof (tally_step_balance st o Hst Ho) as Hb. destruct st as [[s c] a].
    destruct (tally_step (s, c, a) o) as [[s' c'] a'] eqn:E. destruct Hb as [Hok Hb].
    rewrite IH; [cbn in *; lia | done | done]. }
  intros Hf. specialize (Hrun ops ((0, 0), a) Ha Hk). rewrite Hf in Hrun. cbn in Hrun. lia.
Qed.

(** ** Windows *)

Definition ordered_window (cs ce : Time) (b : ConnectionAuditBucket) : Prop :=
  exists s e, time_Parse (ab_StartedAt b) = Some s /\ time_Parse (ab_EndedAt b) = Some e /\ cs <= s /\ s <= e <= ce /\
    forall f, time_Parse (ab_PayloadFirstAt b) = Some f ->
      exists l, time_Parse (ab_PayloadLastAt b) = Some l /\ s <= f /\ f <= l <= e.

Lemma payload_window_ordered started ended ce first last :
  started <= ce -> started <= ended ->
  let '(f, l, e) := payload_window started ended ce first last in started <= f /\ f <= l <= ce /\ l <= e /\ ended <= e.
Proof.
  intros Hs He. unfold payload_window, Before, After.
  repeat match goal with |- context [if ?x <? ?y then _ else _] => destruct (Z.ltb_spec x y) end; lia.
Qed.

Lemma format_between lo hi t : four_digit_year lo -> four_digit_year hi -> lo <= t <= hi -> time_Parse (time_Format t) = Some t.
Proof. intros Hl Hh Ht. apply time_Parse_Format. unfold four_digit_year in *. lia. Qed.

Lemma normalize_ordered cs ce b :
  cs <= ce -> four_digit_year cs -> four_digit_year ce -> ordered_window cs ce (normalizeAuditItemWindow cs ce b).
Proof.
  intros Hle Hcs Hce. unfold normalizeAuditItemWindow. set (s0 := if After _ ce then ce else _).
  assert (cs <= s0 <= ce) as Hs0.
  { unfold s0, After, Before. destruct (time_Parse (ab_StartedAt b)) as [s |];
      repeat match goal with |- context [if ?x <? ?y then _ else _] => destruct (Z.ltb_spec x y) end; lia. }
  clearbody s0. set (e0 := match time_Parse (ab_EndedAt b) with Some _ => _ | None => _ end).
  assert (s0 <= e0) as He0.
  { unfold e0, Before. destruct (time_Parse (ab_EndedAt b)) as [e |]; [| lia]. destruct (Z.ltb_spec e s0); lia. }
  clearbody e0.
  assert (forall b' e1, s0 <= e1 ->
    (forall f, time_Parse (ab_PayloadFirstAt b') = Some f -> exists l, time_Parse (ab_PayloadLastAt b') = Some l /\ s0 <= f /\ f <= l <= e1 /\ l <= ce) ->
    ordered_window cs ce
      (let ended := if After e1 ce then ce else e1 in
       let started := if Before ended s0 then ended else s0 in
       b'<|ab_StartedAt := time_Format started|><|ab_EndedAt := time_Format ended|>)) as Hend.
  { intros b' e1 He1 Hp. cbn zeta. unfold After, Before. set (e2 := if ce <? e1 then ce else e1).
    assert (s0 <= e2 <= ce /\ (forall l, l <= e1 -> l <= ce -> l <= e2)) as [He2 Hl2] by (unfold e2; destruct (Z.ltb_spec ce e1); split; lia).
    clearbody e2. destruct (Z.ltb_spec e2 s0); [lia |]. exists s0, e2. cbn [ab_StartedAt ab_EndedAt ab_PayloadFirstAt ab_PayloadLastAt upd].
    rewrite !(format_between cs ce) by (done || lia). split_and!; try done; try lia.
    intros f Hf. destruct (Hp f Hf) as (l & Hl & H1 & H2 & H3). exists l. split_and!; try done; try lia. apply Hl2; lia. }
  assert (forall first last, ordered_window cs ce
    (let '(b', e1) := (let '(f, l, e) := payload_window s0 e0 ce first last in
                       (b<|ab_PayloadFirstAt := time_Format f|><|ab_PayloadLastAt := time_Format l|>, e)) in
     let ended := if After e1 ce then ce else e1 in
     let started := if Before ended s0 then ended else s0 in
     b'<|ab_StartedAt := time_Format started|><|ab_EndedAt := time_Format ended|>)) as Hpay.
  { intros first last. pose proof (payload_window_ordered s0 e0 ce first last ltac:(lia) He0) as Hw.
    destruct (payload_window s0 e0 ce first last) as [[f l] e]. apply Hend; [lia |].
    cbn [ab_PayloadFirstAt ab_PayloadLastAt upd]. rewrite !(format_between cs ce) by (done || lia).
    intros f' [= <-]. exists l. split_and!; try done; lia. }
  destruct (time_Parse (ab_PayloadFirstAt b)) as [f |] eqn:Ef, (time_Parse (ab_PayloadLastAt b)) as [l |] eqn:El.
  - exact (Hpay f l).
  - exact (Hpay f f).
  - exact (Hpay l l).
  - apply (Hend b e0); [lia |]. intros f Hf. rewrite Ef in Hf. discriminate Hf.
Qed.

Lemma drain_items_ordered started now l items a :
  started <= now -> four_digit_year started -> four_digit_year now -> Forall (ordered_window started now) items ->
  Forall (ordered_window started now) (fst (fold_left (drain_bucket started now) l (items, a))).
Proof.
  intros Hle Hs Hn. revert items a. induction l as [| [k b] l IH]; intros items a Hi; cbn [fold_left]; [done |].
  assert (Forall (ordered_window started now) (items ++ drain_item started now b)) as Hi'.
  { apply Forall_app. split; [done |]. unfold drain_item. destruct (_ || _); [| constructor].
    constructor; [by apply normalize_ordered | constructor]. }
  unfold drain_bucket at 2. destruct (ab_active b =? 0); by apply IH.
Qed.

(** Every item a drain reports lies in the reported window in the order the
    Controller asks for: window start, first connection, first payload, last
    payload, end, window end; also when the logical clock stepped back. *)
Theorem drained_windows_are_ordered now a :
  cu_enabled a = true -> four_digit_year now -> four_digit_year (cu_windowStart a) ->
  exists cs, let d := fst (DrainConnectionAuditSnapshot now a) in
    time_Parse (dr_StartedAt d) = Some cs /\ time_Parse (dr_EndedAt d) = Some now /\ cs <= now /\
    Forall (ordered_window cs now) (dr_Items d).
Proof.
  intros He Hn Hw. unfold DrainConnectionAuditSnapshot. rewrite He. cbn [negb].
  set (cs := if IsZero _ || _ then now else _). exists cs.
  assert (cs <= now /\ four_digit_year cs) as [Hcs Hf].
  { unfold cs, After. destruct (IsZero _); cbn [orb]; [done |]. destruct (Z.ltb_spec now (cu_windowStart a)); [done | split; [lia | done]]. }
  clearbody cs. pose proof (drain_items_ordered cs now (map_to_list (cu_buckets a)) [] a Hcs Hf Hn ltac:(constructor)) as Hi.
  destruct (fold_left _ _ _) as [items a']. cbn [fst dr_Items dr_StartedAt dr_EndedAt] in *.
  rewrite !time_Parse_Format by done. done.
Qed.

(** ** Two departures from what the audit means to do *)

Definition some_source : source := mkSource 7 1 0 "" 0 "192.0.2.1" "tcp".
Definition standard_policy : CollectionPolicy := mkCollectionPolicy "standard" "" [] time_zero 1.
Definition open_audit : connectionAudit := snd (collect standard_policy (SetConnectionAuditEnabled (1704067200 * Second) true no_audit)).
Definition at_second (n : Z) : Time := (1704067200 + n) * Second.

Definition long_handle : handle :=
  default (mkHandle "" 0 "" false) (fst (recordConnectionStart (at_second 1) "c" some_source "" true open_audit)).

(** The close of a connection that outlives a drain is never reported: the
    bucket stays "so their eventual close is tracked", but a bucket without a
    new connection and without an open one leaves no item, so that the close,
    its duration and the bytes since the drain are dropped. *)
Theorem long_connection_close_is_lost :
  let a1 := snd (recordConnectionStart (at_second 1) "c" some_source "" true open_audit) in
  let '(d1, a2) := DrainConnectionAuditSnapshot (at_second 60) a1 in
  let a3 := recordConnectionEnd (at_second 90) long_handle (recordConnectionPayload (at_second 80) long_handle 1000 5000 a2) in
  let '(d2, a4) := DrainConnectionAuditSnapshot (at_second 120) a3 in
  map ab_ClosedCount (dr_Items d1) = [0] /\ map ab_ActiveAtEnd (dr_Items d1) = [1] /\
  dr_Items d2 = [] /\ cu_buckets a4 = ∅.
Proof. vm_compute. split_and!; reflexivity. Qed.

(** A connection from before a policy change that closes afterwards ends the
    presence of a live one: the event says that the last connection closed
    while the audit still counts one. *)
Theorem stale_close_ends_live_presence :
  let a1 := snd (recordConnectionStart (at_second 1) "c" some_source "" true open_audit) in
  let a2 := snd (collect (standard_policy<|cp_Revision := 2|>) a1) in
  let a3 := snd (recordConnectionStart (at_second 2) "c" some_source "" true a2) in
  let a4 := recordConnectionEnd (at_second 3) long_handle a3 in
  map pe_Event (cu_events a4) = ["first_authenticated"; "last_connection_closed"]%string /\
  cu_presence a4 = ∅ /\ sum_of ab_active (cu_buckets a4) = 1.
Proof. vm_compute. split_and!; reflexivity. Qed.

(** ** Witnesses *)

Lemma starts_are_reported_once_witness :
  exists started counted a',
    fold_left tally_step [(at_second 1, AStart "c" some_source "" true); (at_second 60, ADrain);
      (at_second 61, AStart "c" some_source "" true)] ((0, 0), open_audit) = ((started, counted), a') /\
    started = 2 /\ counted = 1 /\ started = counted + pending_starts a'.
Proof.
  destruct (fold_left tally_step _ _) as [[s c] a'] eqn:E. exists s, c, a'. split; [reflexivity |].
  pose proof (f_equal (fun x => fst x) E) as Ef. cbn [fst] in Ef. vm_compute in Ef. injection Ef as <- <-.
  split; [reflexivity |]. split; [reflexivity |].
  refine (starts_are_reported_once _ open_audit 2 1 a' _ _ _ E).
  - apply (audit_run_ok [(at_second 0, AEnable true); (at_second 0, ACollect standard_policy)]), no_audit_ok.
  - by_compute.
  - repeat constructor.
Defined.

Lemma drained_windows_are_ordered_witness :
  exists cs, time_Parse (dr_StartedAt (fst (DrainConnectionAuditSnapshot (at_second 60) open_audit))) = Some cs /\ cs <= at_second 60.
Proof.
  destruct (drained_windows_are_ordered (at_second 60) open_audit) as (cs & Hs & _ & Hle & _).
  - by_compute.
  - unfold four_digit_year. vm_compute. split; [discriminate | reflexivity].
  - unfold four_digit_year. vm_compute. split; [discriminate | reflexivity].
  - exists cs. split; [exact Hs | exact Hle].
Defined.
