(* ===== verification/AuditDelivery.v ===== *)
(** * AuditDelivery: presence deltas and audit reports of the agent

    internal/agent/presence.go and the reporting half of
    internal/agent/connection_audit.go. Once a second the agent drains the
    presence events of its own accumulator and of the kernel, numbers them and
    writes them to the Controller in messages of at most 500; what the
    connection does not take waits in a bounded queue. Audit items are drained
    from the kernel, named, saved, posted in batches of at most 200 and kept
    until an answer names them.

    Writes and posts are outcomes of each call; the state file is the interface
    [StateFiles]. *)

From S2P Require Import Prelude GoTime Stealth Files Json StateFile Window Quota Authorization Activity ActivityDelivery ConnectionAudit.

Definition connectionPresenceDeltaBatchSize : nat := 500.
Definition maxPendingPresenceEvents : nat := 4096.
Definition connectionPresenceEventMaxAge : Duration := 5 * Minute.
Definition connectionAuditReportBatchSize : nat := 200.

(** ** Presence *)

(** An event as it goes to the Controller; [ev_body] carries the fields of the
    drained event other than its number. *)
Record connectionPresenceEvent := mkWireEvent { we_Sequence : Z; we_ServerID : Z; we_body : ConnectionPresenceEvent }.

Record connectionPresenceDelta := mkDelta { pd_Events : list connectionPresenceEvent; pd_DroppedCount : Z }.

(** The presence fields of the Runner, with the messages written so far. *)
Record presenceQueue := mkQueue {
  pq_sequence : Z;
  pq_pending : list connectionPresenceEvent;
  pq_dropped : Z;
  pq_sent : list connectionPresenceDelta
}.
#[export] Instance eta_presenceQueue : Eta presenceQueue := fun q =>
  mkQueue (pq_sequence q) (pq_pending q) (pq_dropped q) (pq_sent q).

(** The wall clock in nanoseconds, as uint64, unless it is not ahead. *)
Definition nextConnectionPresenceSequence (now : Time) (current : Z) : Z :=
  let next := wrapu64 now in if next <=? current then wrapu64 (current + 1) else next.

(** The normalisation of a kernel event. *)
Definition from_core (e : ConnectionPresenceEvent) : ConnectionPresenceEvent :=
  e<|pe_source ::= fun s => mkSource (sr_UserID s) (sr_InboundID s) (sr_PathID s) (TrimSpace (sr_DeviceIDHash s))
       (sr_CredentialEpoch s) (TrimSpace (sr_SourceIP s)) (ToLower (TrimSpace (sr_Network s)))|>.

(** Each event with the instant its number is drawn at. *)
Fixpoint number (server : Z) (events : list (Time * ConnectionPresenceEvent)) (current : Z)
  : list connectionPresenceEvent * Z :=
  match events with
  | [] => ([], current)
  | (now, e) :: rest =>
      let seq := nextConnectionPresenceSequence now current in
      let '(l, last) := number server rest seq in (mkWireEvent seq server e :: l, last)
  end.

Definition expired (now : Time) (e : connectionPresenceEvent) : bool :=
  match time_Parse (TrimSpace (pe_At (we_body e))) with
  | None => true
  | Some at_ => connectionPresenceEventMaxAge <? time_Sub now at_
  end.

Definition dropExpiredPresenceEvents (events : list connectionPresenceEvent) (now : Time) : list connectionPresenceEvent * Z :=
  (List.filter (fun e => negb (expired now e)) events, Z.of_nat (List.length (List.filter (expired now) events))).

(** [collectConnectionPresenceDelta] while the audit is enabled: [own] and
    [core] are the drained events, each with the instant of its number, and
    the drop counts that came with them; a kernel that cannot be asked
    contributes none. *)
Definition collectConnectionPresenceDelta (server : Z) (now : Time) (own core : list (Time * ConnectionPresenceEvent)) (dropped : Z)
    (q : presenceQueue) : connectionPresenceDelta * presenceQueue :=
  let '(fresh, sequence) := number server (own ++ map (fun te => (fst te, from_core (snd te))) core) (pq_sequence q) in
  let '(kept, gone) := dropExpiredPresenceEvents (pq_pending q ++ fresh) now in
  (mkDelta kept (dropped + pq_dropped q + gone), mkQueue sequence [] 0 (pq_sent q)).

Definition discardPendingPresenceEvents (q : presenceQueue) : presenceQueue := q<|pq_pending := []|><|pq_dropped := 0|>.

Definition requeuePresenceEvents (events : list connectionPresenceEvent) (dropped : Z) (q : presenceQueue) : presenceQueue :=
  if (List.length events =? 0)%nat && (dropped =? 0) then q
  else
    let merged := events ++ pq_pending q in
    let overflow := (List.length merged - maxPendingPresenceEvents)%nat in
    q<|pq_dropped := pq_dropped q + dropped + Z.of_nat overflow|><|pq_pending := List.skipn overflow merged|>.

(** [sendConnectionPresenceDelta]; [writes] tells which message the connection
    accepts, and [fuel] bounds the messages of one delta. *)
Fixpoint send_chunks (fuel : nat) (writes : list bool) (events : list connectionPresenceEvent) (dropped : Z) (q : presenceQueue)
  : bool * presenceQueue :=
  match fuel with
  | O => (false, requeuePresenceEvents events dropped q)
  | S fuel =>
      let chunk := List.firstn connectionPresenceDeltaBatchSize events in
      match writes with
      | true :: writes =>
          let q := q<|pq_sent ::= fun l => l ++ [mkDelta chunk dropped]|> in
          match List.skipn connectionPresenceDeltaBatchSize events with
          | [] => (true, q)
          | rest => send_chunks fuel writes rest 0 q
          end
      | _ => (false, requeuePresenceEvents events dropped q)
      end
  end.

Definition sendConnectionPresenceDelta (writes : list bool) (d : connectionPresenceDelta) (q : presenceQueue) : bool * presenceQueue :=
  send_chunks (S (List.length (pd_Events d))) writes (pd_Events d) (pd_DroppedCount d) q.

(** One tick of the poll: nothing is written when there is nothing to say. *)
Record Poll := mkPoll {
  po_server : Z; po_now : Time; po_own : list (Time * ConnectionPresenceEvent); po_core : list (Time * ConnectionPresenceEvent);
  po_dropped : Z; po_writes : list bool
}.

Definition poll (q : presenceQueue) (p : Poll) : presenceQueue :=
  let '(d, q) := collectConnectionPresenceDelta (po_server p) (po_now p) (po_own p) (po_core p) (po_dropped p) q in
  if (List.length (pd_Events d) =? 0)%nat && (pd_DroppedCount d =? 0) then q
  else snd (sendConnectionPresenceDelta (po_writes p) d q).

(** ** Audit reports *)

(** An item as it goes to the Controller. *)
Record connectionAuditSnapshotItem := mkItem {
  it_bucket : ConnectionAuditBucket; it_Generation : Z; it_DroppedBucketCount : Z; it_StartedAt : string; it_EndedAt : string
}.
Record connectionAuditPendingReport := mkPending { pr_ReportID : string; pr_item : connectionAuditSnapshotItem }.
Record connectionAuditReportResponse := mkAnswer { an_Accepted : list string; an_Discarded : list string }.

(** The kernel, the reports in memory, the file, and the reports entered and
    named so far. *)
Record auditReports := mkReports {
  rp_kernel : connectionAudit;
  rp_pending : option (list connectionAuditPendingReport);
  rp_disk : disk;
  rp_entered : list connectionAuditPendingReport;
  rp_named : list string
}.
#[export] Instance eta_auditReports : Eta auditReports := fun w =>
  mkReports (rp_kernel w) (rp_pending w) (rp_disk w) (rp_entered w) (rp_named w).

(** What one round meets; the answer depends on the batch that is posted. *)
Record ReportEnv := mkReportEnv {
  re_now : Time;
  re_drain : outcome;
  re_own : list connectionAuditSnapshotItem;
  re_agent : string;
  re_nowID : Z;
  re_save : SaveEnv;
  re_answer : list connectionAuditPendingReport -> option connectionAuditReportResponse;
  re_save' : SaveEnv
}.

Definition report_le (a b : connectionAuditPendingReport) : Prop := string_le (pr_ReportID a) (pr_ReportID b).
#[export] Instance report_le_dec a b : Decision (report_le a b).
Proof. unfold report_le. apply _. Defined.

Definition by_id (l : list connectionAuditPendingReport) : list connectionAuditPendingReport := merge_sort report_le l.

Definition snapshot_item (d : ConnectionAuditDrain) (b : ConnectionAuditBucket) : connectionAuditSnapshotItem :=
  mkItem b (dr_Generation d) (dr_DroppedBucketCount d) (dr_StartedAt d) (dr_EndedAt d).

(** [coreConnectionAuditSnapshot]: the drain of the kernel takes effect when the
    call reaches it, also when the answer is lost. *)
Definition coreConnectionAuditSnapshot (e : ReportEnv) (w : auditReports)
  : result string (list connectionAuditSnapshotItem) * auditReports :=
  match re_drain e with
  | Lost => (Err "core connection audit"%string, w)
  | Unanswered => (Err "core connection audit"%string, w<|rp_kernel := snd (DrainConnectionAuditSnapshot (re_now e) (rp_kernel w))|>)
  | Answered =>
      let '(d, k) := DrainConnectionAuditSnapshot (re_now e) (rp_kernel w) in
      (Ok (map (snapshot_item d) (dr_Items d)), w<|rp_kernel := k|>)
  end.

Definition valid_item (i : connectionAuditSnapshotItem) : bool :=
  let s := ab_source (it_bucket i) in negb (sr_UserID s <=? 0) && negb (TrimSpace (sr_SourceIP s) =s "").

Definition report_id (agent : string) (nowID : Z) (index : nat) : string :=
  (agent +:+ "-connection-" +:+ pretty nowID +:+ "-" +:+ pretty (Z.of_nat index))%string.

(** Valid items become reports, named by their position among all items. *)
Fixpoint entries (agent : string) (nowID : Z) (index : nat) (items : list connectionAuditSnapshotItem) : list connectionAuditPendingReport :=
  match items with
  | [] => []
  | i :: items =>
      if valid_item i then mkPending (report_id agent nowID index) i :: entries agent nowID (S index) items
      else entries agent nowID (S index) items
  end.

Section Reports.
Context {F : StateFiles} {CP : Codec (list connectionAuditPendingReport)}.

(** [saveConnectionAuditState] sorts the reports in place and writes them. *)
Definition saveConnectionAuditState (e : SaveEnv) (l : list connectionAuditPendingReport) (w : auditReports)
  : option string * auditReports :=
  if sv_mkdir e then (Some "mkdir"%string, w<|rp_pending := Some l|>)
  else
    let l := by_id l in
    let w := w<|rp_pending := Some l|> in
    match json_Marshal l with
    | None => (Some "marshal"%string, w)
    | Some b =>
        let '(res, d) := sf_write (sv_env e) b (rp_disk w) in
        (match res with Ok _ => None | Err x => Some x end, w<|rp_disk := d|>)
    end.

(** [loadConnectionAuditState]: an unreadable file is an empty state. *)
Definition loadConnectionAuditState (w : auditReports) : list connectionAuditPendingReport :=
  match sf_read (rp_disk w) with Ok b => default [] (json_Unmarshal b) | Err _ => [] end.

Definition reportPendingConnectionAudits (e : ReportEnv) (l : list connectionAuditPendingReport) (w : auditReports)
  : option string * auditReports :=
  if (List.length l =? 0)%nat then (None, w)
  else
    match re_answer e (List.firstn connectionAuditReportBatchSize l) with
    | None => (Some "post"%string, w)
    | Some a =>
        let named := an_Accepted a ++ an_Discarded a in
        let w := w<|rp_named ::= fun n => n ++ named|> in
        saveConnectionAuditState (re_save' e) (List.filter (fun r => negb (existsb (fun i => i =s pr_ReportID r) named)) l) w
    end.

(** Save, then report: the two ends of [collectAndReportConnectionAudits]. *)
Definition save_and_report (e : ReportEnv) (l : list connectionAuditPendingReport) (w : auditReports) : option string * auditReports :=
  match saveConnectionAuditState (re_save e) l w with
  | (Some err, w) => (Some err, w)
  | (None, w) => reportPendingConnectionAudits e (by_id l) w
  end.

Definition collectAndReportConnectionAudits (e : ReportEnv) (w : auditReports) : option string * auditReports :=
  let pending := match rp_pending w with Some l => l | None => loadConnectionAuditState w end in
  let w := w<|rp_pending := Some pending|> in
  if negb (List.length pending =? 0)%nat then save_and_report e pending w
  else
    let '(core, w) := coreConnectionAuditSnapshot e w in
    let items := (match core with Ok l => l | Err _ => [] end) ++ re_own e in
    match core, items with
    | Err x, [] => (Some x, w)
    | _, [] => (None, w)
    | _, _ =>
        let reports := entries (re_agent e) (re_nowID e) 0 items in
        save_and_report e reports (w<|rp_entered ::= fun l => l ++ reports|>)
    end.

End Reports.

(** ** What becomes of presence events *)

Definition accounted (q : presenceQueue) : Z :=
  foldr (fun d n => Z.of_nat (List.length (pd_Events d)) + pd_DroppedCount d + n) 0 (pq_sent q) +
  Z.of_nat (List.length (pq_pending q)) + pq_dropped q.

Definition drained (p : Poll) : Z := Z.of_nat (List.length (po_own p)) + Z.of_nat (List.length (po_core p)) + po_dropped p.

Definition bounded (q : presenceQueue) : Prop :=
  (List.length (pq_pending q) <= maxPendingPresenceEvents)%nat /\
  Forall (fun d => (List.length (pd_Events d) <= connectionPresenceDeltaBatchSize)%nat) (pq_sent q).

Lemma number_length server l current : List.length (fst (number server l current)) = List.length l.
Proof.
  revert current. induction l as [| [now e] l IH]; intros current; cbn [number]; [done |].
  specialize (IH (nextConnectionPresenceSequence now current)). destruct (number _ _ _). cbn in *. by rewrite IH.
Qed.

Lemma filter_split {X} (p : X -> bool) l :
  (List.length (List.filter (fun x => negb (p x)) l) + List.length (List.filter p l) = List.length l)%nat.
Proof. induction l as [| x l IH]; cbn; [done |]. destruct (p x); cbn; lia. Qed.

Lemma requeue_accounted events dropped q :
  bounded q -> accounted (requeuePresenceEvents events dropped q) = accounted q + Z.of_nat (List.length events) + dropped /\
  bounded (requeuePresenceEvents events dropped q).
Proof.
  intros [Hp Hs]. unfold requeuePresenceEvents, accounted.
  destruct (_ && _) eqn:E; [apply andb_true_iff in E as [E1 E2]; zify_bool; apply Nat.eqb_eq in E1; split; [lia | done] |].
  cbn [pq_pending pq_dropped pq_sent upd]. unfold bounded. cbn [pq_pending pq_sent upd]. rewrite length_skipn, length_app.
  split; [lia | split; [lia | done]].
Qed.

Lemma sent_snoc d l : foldr (fun d n => Z.of_nat (List.length (pd_Events d)) + pd_DroppedCount d + n) 0 (l ++ [d]) =
  foldr (fun d n => Z.of_nat (List.length (pd_Events d)) + pd_DroppedCount d + n) 0 l + Z.of_nat (List.length (pd_Events d)) + pd_DroppedCount d.
Proof. induction l as [| x l IH]; cbn; [lia |]. rewrite IH. lia. Qed.

Lemma send_accounted fuel writes events dropped q :
  bounded q ->
  let q' := snd (send_chunks fuel writes events dropped q) in
  accounted q' = accounted q + Z.of_nat (List.length events) + dropped /\ bounded q'.
Proof.
  revert writes events dropped q. induction fuel as [| fuel IH]; intros writes events dropped q Hb; cbn [send_chunks].
  { by apply requeue_accounted. }
  destruct writes as [| [] writes]; [by apply requeue_accounted | | by apply requeue_accounted].
  set (chunk := List.firstn connectionPresenceDeltaBatchSize events). set (q1 := q<|pq_sent ::= _|>).
  pose proof (firstn_skipn connectionPresenceDeltaBatchSize events) as Hsplit. apply (f_equal (@List.length _)) in Hsplit.
  rewrite length_app in Hsplit. fold chunk in Hsplit.
  assert (bounded q1) as Hb1.
  { destruct Hb as [Hp Hs]. split; [done |]. unfold q1. cbn [pq_sent upd]. apply Forall_app. split; [done |].
    constructor; [| constructor]. cbn [pd_Events]. unfold chunk. rewrite length_firstn. apply Nat.le_min_l. }
  assert (accounted q1 = accounted q + Z.of_nat (List.length chunk) + dropped) as Ha1.
  { unfold accounted, q1. cbn [pq_sent pq_pending pq_dropped upd]. rewrite sent_snoc. cbn [pd_Events pd_DroppedCount]. fold chunk. lia. }
  destruct (List.skipn _ events) as [| x rest] eqn:Er; clearbody chunk.
  - cbn [snd List.length] in *. split; [lia | done].
  - destruct (IH writes (x :: rest) 0 q1 Hb1) as [H1 H2]. split; [lia | done].
Qed.

Lemma poll_accounted q p : bounded q -> accounted (poll q p) = accounted q + drained p /\ bounded (poll q p).
Proof.
  intros Hb. unfold poll, collectConnectionPresenceDelta.
  pose proof (number_length (po_server p) (po_own p ++ map (fun te => (fst te, from_core (snd te))) (po_core p)) (pq_sequence q)) as Hn.
  destruct (number _ _ _) as [fresh sequence]. cbn [fst] in Hn. rewrite length_app, length_map in Hn.
  unfold dropExpiredPresenceEvents. pose proof (filter_split (expired (po_now p)) (pq_pending q ++ fresh)) as Hf.
  rewrite length_app in Hf. set (kept := List.filter (fun e => negb _) _) in *. set (gone := List.filter _ _) in *.
  set (d := po_dropped p + pq_dropped q + _). cbn [pd_Events pd_DroppedCount].
  set (q1 := mkQueue sequence [] 0 (pq_sent q)). assert (bounded q1) as Hb1 by (destruct Hb; split; [cbn; lia | done]).
  assert (accounted q1 + Z.of_nat (List.length kept) + d = accounted q + drained p) as Heq.
  { unfold accounted, drained, d, q1. cbn [pq_sent pq_pending pq_dropped List.length]. lia. }
  destruct (_ && _) eqn:E.
  - apply andb_true_iff in E as [E1 E2]. apply Nat.eqb_eq in E1. zify_bool. split; [lia | done].
  - destruct (send_accounted (S (List.length kept)) (po_writes p) kept d q1 Hb1) as [H1 H2].
    unfold sendConnectionPresenceDelta. cbn [pd_Events pd_DroppedCount]. split; [lia | done].
Qed.

(** No presence event disappears uncounted: whatever writes fail and however
    long the link is down, the events and drops the polls drained are those of
    the messages written, the queue and its drop count; a message never has
    more than 500 events and the queue never more than 4096. *)
Theorem presence_events_are_accounted polls :
  let q := fold_left poll polls (mkQueue 0 [] 0 []) in
  accounted q = foldr (fun p n => drained p + n) 0 polls /\
  (List.length (pq_pending q) <= maxPendingPresenceEvents)%nat /\
  Forall (fun d => (List.length (pd_Events d) <= connectionPresenceDeltaBatchSize)%nat) (pq_sent q).
Proof.
  assert (forall l q, bounded q -> accounted (fold_left poll l q) = accounted q + foldr (fun p n => drained p + n) 0 l /\
    bounded (fold_left poll l q)) as H.
  { intros l. induction l as [| p l IH]; intros q Hb; cbn [fold_left foldr]; [split; [lia | done] |].
    destruct (poll_accounted q p Hb) as [H1 Hb1]. destruct (IH _ Hb1) as [H2 Hb2]. split; [lia | done]. }
  destruct (H polls (mkQueue 0 [] 0 [])) as [Ha Hb]; [split; [apply Nat.le_0_l | constructor] |].
  cbn zeta. rewrite Ha. destruct Hb. by split_and!.
Qed.

(** *** Order *)

Definition before (e e' : connectionPresenceEvent) : Prop := we_Sequence e < we_Sequence e'.

(** The events the Controller has got or may still get, in the order it gets
    them. *)
Definition stream (q : presenceQueue) : list connectionPresenceEvent := concat (map pd_Events (pq_sent q)) ++ pq_pending q.

Lemma sorted_sublist {X} (R : X -> X -> Prop) l l' : l `sublist_of` l' -> StronglySorted R l' -> StronglySorted R l.
Proof.
  induction 1 as [| x l l' Hs IH | x l l' Hs IH]; intros Hl; [constructor | |]; apply StronglySorted_inv in Hl as [Hl Hx].
  - constructor; [by apply IH |]. apply Forall_forall. intros y Hy. rewrite Forall_forall in Hx. apply Hx.
    eapply elem_of_submseteq; [exact Hy | by apply sublist_submseteq].
  - by apply IH.
Qed.

Lemma filter_sublist {X} (p : X -> bool) l : List.filter p l `sublist_of` l.
Proof. induction l as [| x l IH]; cbn; [constructor |]. destruct (p x); by constructor. Qed.

Lemma requeue_stream events dropped q :
  pq_pending q = [] -> stream (requeuePresenceEvents events dropped q) `sublist_of` concat (map pd_Events (pq_sent q)) ++ events.
Proof.
  intros Hp. unfold requeuePresenceEvents, stream. destruct (_ && _).
  - rewrite Hp. apply sublist_app; [done | apply sublist_nil_l].
  - cbn [pq_sent pq_pending upd]. rewrite Hp, app_nil_r. apply sublist_app; [done | apply sublist_drop].
Qed.

Lemma send_stream fuel writes events dropped q :
  pq_pending q = [] ->
  stream (snd (send_chunks fuel writes events dropped q)) `sublist_of` concat (map pd_Events (pq_sent q)) ++ events /\
  pq_sequence (snd (send_chunks fuel writes events dropped q)) = pq_sequence q.
Proof.
  assert (forall events dropped q, pq_sequence (requeuePresenceEvents events dropped q) = pq_sequence q) as Hseq
    by (intros; unfold requeuePresenceEvents; by destruct (_ && _)).
  revert writes events dropped q. induction fuel as [| fuel IH]; intros writes events dropped q Hp; cbn [send_chunks snd].
  { split; [by apply requeue_stream | apply Hseq]. }
  destruct writes as [| [] writes]; cbn [snd]; [split; [by apply requeue_stream | apply Hseq] | | split; [by apply requeue_stream | apply Hseq]].
  pose proof (firstn_skipn connectionPresenceDeltaBatchSize events) as Hsplit.
  set (chunk := List.firstn connectionPresenceDeltaBatchSize events) in *. set (q1 := q<|pq_sent ::= _|>).
  assert (concat (map pd_Events (pq_sent q1)) = concat (map pd_Events (pq_sent q)) ++ chunk) as Hc.
  { unfold q1. cbn [pq_sent upd]. rewrite map_app, concat_app. cbn. by rewrite app_nil_r. }
  destruct (List.skipn _ events) as [| x rest] eqn:Er; clearbody chunk.
  - cbn [snd]. rewrite app_nil_r in Hsplit. subst chunk. split; [| done]. unfold stream. rewrite Hc.
    change (pq_pending q1) with (pq_pending q). by rewrite Hp, app_nil_r.
  - destruct (IH writes (x :: rest) 0 q1 Hp) as [H1 H2]. split; [| exact H2]. by rewrite Hc, <- app_assoc, Hsplit in H1.
Qed.

Definition clock_limit : Z := 2 ^ 62.

Lemma number_sorted server l current n :
  0 <= current <= clock_limit + n -> 0 <= n -> n + Z.of_nat (List.length l) <= clock_limit ->
  Forall (fun te => 0 <= fst te <= clock_limit) l ->
  let '(fresh, last) := number server l current in
  StronglySorted before fresh /\ Forall (fun e => current < we_Sequence e <= last) fresh /\
  current <= last <= clock_limit + n + Z.of_nat (List.length l).
Proof.
  unfold clock_limit. revert current n. induction l as [| [now e] l IH]; intros current n Hc Hn Hl Ht; cbn [number].
  { split; [constructor |]. split; [constructor |]. cbn. lia. }
  apply Forall_cons in Ht as [Hnow Ht]. cbn [fst List.length] in *.
  assert (current < nextConnectionPresenceSequence now current <= 2 ^ 62 + (n + 1)) as Hs.
  { unfold nextConnectionPresenceSequence, wrapu64. rewrite (Z.mod_small now) by lia.
    destruct (Z.leb_spec now current); [rewrite Z.mod_small by lia |]; lia. }
  set (s := nextConnectionPresenceSequence now current) in *. specialize (IH s (n + 1)). destruct (number server l s) as [fresh last].
  destruct IH as (Hso & Hf & Hla); [lia | lia | lia | done |].
  split_and!; [| | lia | lia].
  - constructor; [done |]. eapply Forall_impl; [exact Hf |]. unfold before. cbn. lia.
  - constructor; [cbn; lia |]. eapply Forall_impl; [exact Hf |]. cbn. lia.
Qed.

(** The instants the events of a poll are numbered at, within the range. *)
Definition clocked_poll (p : Poll) : Prop := Forall (fun te : Time * ConnectionPresenceEvent => 0 <= fst te <= clock_limit) (po_own p ++ po_core p).

Definition events_of (p : Poll) : Z := Z.of_nat (List.length (po_own p ++ po_core p)).

Definition in_sequence (n : Z) (q : presenceQueue) : Prop :=
  StronglySorted before (stream q) /\ Forall (fun e => we_Sequence e <= pq_sequence q) (stream q) /\ 0 <= pq_sequence q <= clock_limit + n.

Lemma poll_in_sequence n q p :
  0 <= n -> n + events_of p <= clock_limit -> clocked_poll p -> in_sequence n q -> in_sequence (n + events_of p) (poll q p).
Proof.
  intros Hn Hlim Hcl (Hso & Hbe & Hr). unfold poll, collectConnectionPresenceDelta.
  set (l := po_own p ++ map _ _).
  assert (List.length l = List.length (po_own p ++ po_core p)) as Hlen by (unfold l; by rewrite !length_app, length_map).
  pose proof (number_sorted (po_server p) l (pq_sequence q) n Hr Hn) as Hnum. unfold events_of in *.
  destruct (number (po_server p) l (pq_sequence q)) as [fresh last]. rewrite Hlen in Hnum.
  destruct Hnum as (Hfs & Hff & Hla); [lia | |].
  { unfold l, clocked_poll in *. apply Forall_app in Hcl as [H1 H2]. apply Forall_app. split; [done |].
    apply Forall_map. eapply Forall_impl; [exact H2 |]. done. }
  assert (StronglySorted before (stream q ++ fresh) /\ Forall (fun e => we_Sequence e <= last) (stream q ++ fresh)) as [Hall Hbound].
  { split.
    - clear -Hso Hbe Hfs Hff. induction (stream q) as [| e s IH]; [done |]. apply StronglySorted_inv in Hso as [Hso He].
      apply Forall_cons in Hbe as [Hle Hbe]. cbn. constructor; [by apply IH |]. apply Forall_app. split; [done |].
      eapply Forall_impl; [exact Hff |]. unfold before. cbn. lia.
    - apply Forall_app. split; [eapply Forall_impl; [exact Hbe |] | eapply Forall_impl; [exact Hff |]]; cbn; lia. }
  unfold dropExpiredPresenceEvents. set (kept := List.filter (fun e => negb _) _). cbn [pd_Events pd_DroppedCount].
  set (q1 := mkQueue last [] 0 (pq_sent q)).
  assert (concat (map pd_Events (pq_sent q1)) ++ kept `sublist_of` stream q ++ fresh) as Hsub.
  { unfold stream. rewrite <- app_assoc. apply sublist_app; [done | apply filter_sublist]. }
  assert (forall q', stream q' `sublist_of` concat (map pd_Events (pq_sent q1)) ++ kept -> pq_sequence q' = last ->
    in_sequence (n + Z.of_nat (List.length (po_own p ++ po_core p))) q') as Hfin.
  { intros q' Hs Hq. assert (stream q' `sublist_of` stream q ++ fresh) as Hs' by (by etransitivity).
    split_and!; [by eapply sorted_sublist | | rewrite Hq; lia | rewrite Hq; lia].
    apply Forall_forall. intros e He. rewrite Forall_forall in Hbound. rewrite Hq. apply Hbound.
    by eapply elem_of_submseteq; [exact He | apply sublist_submseteq]. }
  destruct (_ && _).
  - apply Hfin; [| done]. unfold stream. apply sublist_app; [done | apply sublist_nil_l].
  - destruct (send_stream (S (List.length kept)) (po_writes p) kept (po_dropped p + pq_dropped q + Z.of_nat (List.length (List.filter (expired (po_now p)) (pq_pending q ++ fresh)))) q1 eq_refl) as [Hs Hq].
    by apply Hfin.
Qed.

(** The Controller gets presence events in the order of their numbers and
    none twice: the numbers of the events written, followed by those that wait,
    are strictly increasing, however often the wall clock steps back and the
    link fails (clocks below 2^62 nanoseconds and fewer than 2^62 events). *)
Theorem presence_events_stay_in_order polls :
  Forall clocked_poll polls -> foldr (fun p n => events_of p + n) 0 polls <= clock_limit ->
  let q := fold_left poll polls (mkQueue 0 [] 0 []) in StronglySorted before (stream q).
Proof.
  assert (forall l n q, 0 <= n -> n + foldr (fun p n => events_of p + n) 0 l <= clock_limit -> Forall clocked_poll l ->
    in_sequence n q -> StronglySorted before (stream (fold_left poll l q))) as H.
  { intros l. induction l as [| p l IH]; intros n q Hn Hlim Hc Hq; cbn [fold_left foldr] in *; [apply Hq |].
    apply Forall_cons in Hc as [Hp Hc].
    assert (0 <= foldr (fun p n => events_of p + n) 0 l) by (clear; induction l; cbn; [lia | unfold events_of in *; lia]).
    apply (IH (n + events_of p)); [unfold events_of; lia | lia | done |].
    apply poll_in_sequence; [done | lia | done | done]. }
  intros Hc Hlim. apply (H polls 0); [lia | lia | done |]. split; [constructor |]. split; [constructor |]. cbn. unfold clock_limit. lia.
Qed.

(** ** What becomes of audit reports *)

Section ReportFacts.
Context {F : StateFiles} {CP : Codec (list connectionAuditPendingReport)}.

Definition in_memory (w : auditReports) : list connectionAuditPendingReport := default [] (rp_pending w).

(** Every report entered waits in memory or was named by an answer. *)
Definition waiting (w : auditReports) : Prop :=
  forall r, r ∈ rp_entered w -> r ∈ in_memory w \/ pr_ReportID r ∈ rp_named w.

Lemma by_id_perm l : by_id l ≡ₚ l.
Proof. apply merge_sort_Permutation. Qed.

Lemma save_memory e l w err w' :
  saveConnectionAuditState e l w = (err, w') ->
  in_memory w' ≡ₚ l /\ rp_entered w' = rp_entered w /\ rp_named w' = rp_named w /\
  (err = None -> in_memory w' = by_id l).
Proof.
  unfold saveConnectionAuditState. destruct (sv_mkdir e); [intros [= <- <-]; done |].
  pose proof (by_id_perm l) as Hp.
  destruct (json_Marshal (by_id l)) as [b |]; [| intros [= <- <-]; by split_and!].
  destruct (sf_write _ _ _) as [res d]. intros [= <- <-]. by split_and!.
Qed.

Lemma not_named r named : existsb (fun i => i =s pr_ReportID r) named = false -> pr_ReportID r ∉ named.
Proof.
  intros H Hin. apply not_true_iff_false in H. apply H, existsb_exists. exists (pr_ReportID r).
  split; [by apply list_elem_of_In | apply str_eqb_refl].
Qed.

Lemma save_and_report_waiting e l w err w' :
  (forall r, r ∈ rp_entered w -> r ∈ l \/ pr_ReportID r ∈ rp_named w) ->
  save_and_report e l w = (err, w') -> waiting w' /\ rp_entered w' = rp_entered w.
Proof.
  intros Hw. unfold save_and_report. destruct (saveConnectionAuditState (re_save e) l w) as [[x |] w1] eqn:E1;
    destruct (save_memory _ _ _ _ _ E1) as (Hm & He & Hn & Hs).
  { intros [= <- <-]. split; [| done]. intros r Hr. rewrite He in Hr. rewrite Hm, Hn. by apply Hw. }
  specialize (Hs eq_refl). unfold reportPendingConnectionAudits.
  assert (waiting w1) as Hw1 by (intros r Hr; rewrite He in Hr; rewrite Hm, Hn; by apply Hw).
  destruct (_ =? 0)%nat; [intros [= <- <-]; done |].
  destruct (re_answer e _) as [a |]; [| intros [= <- <-]; done].
  intros E2. apply save_memory in E2 as (Hm2 & He2 & Hn2 & _). cbn in He2, Hn2. split; [| by rewrite He2].
  intros r Hr. rewrite He2 in Hr. rewrite Hm2, Hn2. destruct (Hw1 r Hr) as [Hin | Hin]; [| right; apply elem_of_app; by left].
  destruct (existsb (fun i => i =s pr_ReportID r) (an_Accepted a ++ an_Discarded a)) eqn:Ex.
  - right. apply elem_of_app. right. apply existsb_exists in Ex as (i & Hi & Hii). apply str_eqb_eq in Hii as <-. by apply list_elem_of_In.
  - left. apply list_elem_of_In, filter_In. split; [| by rewrite Ex].
    apply list_elem_of_In. by rewrite by_id_perm, <- Hm.
Qed.

Lemma round_waiting e w err w' :
  waiting w -> collectAndReportConnectionAudits e w = (err, w') -> waiting w' /\ (exists new, rp_entered w' = rp_entered w ++ new).
Proof.
  intros Hw. unfold collectAndReportConnectionAudits. set (pending := match rp_pending w with Some l => l | None => _ end).
  assert (forall r, r ∈ rp_entered w -> r ∈ pending \/ pr_ReportID r ∈ rp_named w) as Hp.
  { intros r Hr. destruct (Hw r Hr) as [H | H]; [left | by right]. unfold in_memory, pending in *.
    destruct (rp_pending w); [done | by apply not_elem_of_nil in H]. }
  destruct (List.length pending =? 0)%nat eqn:El; cbn [negb].
  2: { intros E. apply save_and_report_waiting in E as [H1 H2]; [| done]. split; [done |]. exists []. by rewrite H2, app_nil_r. }
  apply Nat.eqb_eq, nil_length_inv in El. rewrite El in *.
  assert (forall w1, rp_entered w1 = rp_entered w -> rp_named w1 = rp_named w -> waiting w1) as Hall.
  { intros w1 H1 H2 r Hr. rewrite H1 in Hr. right. rewrite H2. destruct (Hp r Hr) as [H | H]; [by apply not_elem_of_nil in H | done]. }
  destruct (coreConnectionAuditSnapshot e _) as [core w1] eqn:Ec.
  assert (rp_entered w1 = rp_entered w /\ rp_named w1 = rp_named w) as [He Hn].
  { unfold coreConnectionAuditSnapshot in Ec. destruct (re_drain e).
    - by injection Ec as _ <-.
    - by injection Ec as _ <-.
    - destruct (DrainConnectionAuditSnapshot _ _). by injection Ec as _ <-. }
  set (items := _ ++ re_own e).
  assert (forall l, save_and_report e l (w1<|rp_entered ::= fun x => x ++ l|>) = (err, w') ->
    waiting w' /\ exists new, rp_entered w' = rp_entered w ++ new) as Hsave.
  { intros l E. apply save_and_report_waiting in E as [H1 H2]; [| cbn].
    - split; [done |]. exists l. rewrite H2. cbn. by rewrite He.
    - intros r Hr. rewrite He in Hr. rewrite Hn. apply elem_of_app in Hr as [Hr | Hr]; [| by left].
      right. destruct (Hp r Hr) as [H | H]; [by apply not_elem_of_nil in H | done]. }
  destruct core as [items0 | x], items as [| i items1]; [| by apply Hsave | | by apply Hsave];
    intros [= <- <-]; (split; [by apply Hall | exists []; by rewrite He, app_nil_r]).
Qed.


(** What a completed save leaves in the file is what a restarted agent takes
    up: the reports in memory, in the order they were saved. *)
Theorem saved_reports_survive_restart {FL : StateFilesLaws F} {LP : CodecLaws CP} e l w w' :
  sf_env_ok (sv_env e) -> (forall b, json_Marshal (by_id l) = Some b -> sf_data_ok b) ->
  saveConnectionAuditState e l w = (None, w') -> loadConnectionAuditState w' = in_memory w' /\ in_memory w' ≡ₚ l.
Proof.
  intros He Hd. unfold saveConnectionAuditState, loadConnectionAuditState. destruct (sv_mkdir e); [done |].
  destruct (json_Marshal (by_id l)) as [b |] eqn:Eb; [| done].
  destruct (sf_write _ _ _) as [[[] | x] d] eqn:Ew; [| done]. intros [= <-]. cbn [rp_disk upd].
  rewrite (sf_written _ _ _ _ He (Hd b eq_refl) Ew), (json_roundtrip _ _ Eb). split; [done | apply by_id_perm].
Qed.

End ReportFacts.

(** ** Witnesses *)

Section Witnesses.
#[local] Existing Instance profile_text.
#[local] Instance audit_file : StateFiles := runner_files plain_runner "/var/lib/oboard/connection-audit-state.json".
#[local] Instance reports_codec : Codec (list connectionAuditPendingReport) := {| json_Marshal _ := Some []; json_Unmarshal _ := None |}.

Definition first_seen : ConnectionPresenceEvent :=
  mkPresence 1 some_source "first_authenticated" "active" 1 false "" (time_Format (at_second 1)).

(** The clock steps back between the polls and the first write fails. *)
Definition two_polls : list Poll :=
  [mkPoll 3 (at_second 2) [(at_second 2, first_seen)] [] 0 [false]; mkPoll 3 (at_second 3) [(at_second 1, first_seen)] [] 0 [true]].

Lemma presence_events_stay_in_order_witness :
  StronglySorted before (stream (fold_left poll two_polls (mkQueue 0 [] 0 []))) /\
  List.length (stream (fold_left poll two_polls (mkQueue 0 [] 0 []))) = 2%nat.
Proof.
  split; [| by_compute]. apply (presence_events_stay_in_order two_polls).
  - repeat constructor; vm_compute; discriminate.
  - vm_compute. discriminate.
Defined.

(** The kernel has one connection; the first post fails, the second names the
    report. *)
Definition busy_kernel : connectionAudit := snd (recordConnectionStart (at_second 1) "c" some_source "" true open_audit).
Definition post_env (answer : option connectionAuditReportResponse) : ReportEnv :=
  mkReportEnv (at_second 60) Answered [] "a" 5 quiet_save (fun _ => answer) quiet_save.
Definition first_round : auditReports :=
  fold_left (fun w e => snd (collectAndReportConnectionAudits e w)) [post_env None] (mkReports busy_kernel None ∅ [] []).


End Witnesses.
