(* ===== verification/RemoteExec.v ===== *)
(** * RemoteExec: commands the Controller has run

    Model of internal/agent/remote_exec.go and remote_exec_journal.go: the checks
    on a command, the search for shells behind wrappers, the bounded output
    buffers, and the journal that keeps a request from being executed twice.

    The journal is a directory of files with their modification times; which
    system call fails is an argument. The process itself is the list of what it
    writes and how it ended. Cancelling, the environment of the process and the
    fixed operations ([runRemoteOperation]) are left out. *)

From S2P Require Import Prelude GoTime Stealth Files Json.

(** ** Requests *)

Definition remoteExecDefaultTimeout : Duration := 30 * Second.
Definition remoteExecMaxTimeout : Duration := 300 * Second.
Definition remoteExecDefaultOutput : Z := Z.shiftl 1 20.
Definition remoteExecMaxOutput : Z := Z.shiftl 4 20.
Definition remoteExecMaxArgv : nat := 64.
Definition remoteExecMaxArgBytes : Z := 4096.
Definition remoteExecMaxArgvTotal : Z := Z.shiftl 32 10.
Definition remoteExecMaxShell : Z := Z.shiftl 32 10.
Definition remoteExecMaxCwd : Z := 4096.

Record RemoteExecCommand := mkCommand { rc_Mode : string; rc_Argv : list string; rc_Shell : string; rc_Cwd : string }.
Record RemoteExecLimits := mkExecLimits { rl_TimeoutSeconds : Z; rl_StdoutBytes : Z; rl_StderrBytes : Z }.
Record RemoteExecTaskPayload := mkExecPayload {
  rp_RequestID : string; rp_Origin : string; rp_ServerID : Z; rp_ExpiresAt : Time; rp_Command : RemoteExecCommand; rp_Limits : RemoteExecLimits
}.
Record RemoteExecResult := mkExecResult {
  rr_ExitCode : Z; rr_DurationMS : Z; rr_StdoutBytes : Z; rr_StderrBytes : Z; rr_StdoutSHA256 : string; rr_StderrSHA256 : string;
  rr_StdoutTruncated : bool; rr_StderrTruncated : bool; rr_Cancelled : bool; rr_Error : string; rr_Stdout : bytes; rr_Stderr : bytes
}.
#[export] Instance eta_RemoteExecResult : Eta RemoteExecResult := fun r =>
  mkExecResult (rr_ExitCode r) (rr_DurationMS r) (rr_StdoutBytes r) (rr_StderrBytes r) (rr_StdoutSHA256 r) (rr_StderrSHA256 r)
    (rr_StdoutTruncated r) (rr_StderrTruncated r) (rr_Cancelled r) (rr_Error r) (rr_Stdout r) (rr_Stderr r).

(** ** Paths *)

(** The parts of a path between slashes. *)
Fixpoint split_slash (l : list ascii) : list (list ascii) :=
  match l with
  | [] => [[]]
  | c :: l =>
      if Ascii.eqb c "/" then [] :: split_slash l
      else match split_slash l with part :: rest => (c :: part) :: rest | [] => [[c]] end
  end.

(** [filepath.Base]: the last part that is not empty. *)
Definition Base (s : string) : string :=
  let l := list_ascii_of_string s in
  match l with
  | [] => "."%string
  | _ =>
      match rev (filter (fun part => part <> []) (split_slash l)) with
      | [] => "/"%string
      | part :: _ => string_of_list_ascii part
      end
  end.

(** [filepath.Clean] of an absolute path without dot-dot. *)
Definition clean_abs (s : string) : string :=
  let parts := filter (fun part => part <> [] /\ part <> ["."%char]) (split_slash (list_ascii_of_string s)) in
  match parts with
  | [] => "/"%string
  | _ => string_of_list_ascii (concat (map (fun part => "/"%char :: part) parts))
  end.

(** ** Shells *)

Definition remoteExecArgvBase (arg : string) : string := ToLower (Base (TrimSpace arg)).

Definition one_of (names : list string) (s : string) : bool := existsb (fun n => s =s n) names.

Definition shell_names : list string :=
  ["sh"; "bash"; "dash"; "ash"; "zsh"; "ksh"; "csh"; "tcsh"; "fish"; "busybox"; "script"; "su"; "runuser"; "login"]%string.
Definition wrapper_names : list string :=
  ["env"; "nice"; "nohup"; "timeout"; "stdbuf"; "ionice"; "chrt"; "time"; "watch"; "xargs"; "sudo"; "doas"; "flock"; "setpriv"; "capsh";
   "unshare"; "nsenter"; "setsid"]%string.

Definition remoteExecArgvIsShellName (arg : string) : bool := one_of shell_names (remoteExecArgvBase arg).
Definition remoteExecArgvIsFind (arg : string) : bool := remoteExecArgvBase arg =s "find".
Definition remoteExecArgvIsCommandWrapper (arg : string) : bool := one_of wrapper_names (remoteExecArgvBase arg).

(** [remoteExecLooksLikeTimeoutDuration]: digits and dots, then perhaps a unit. *)
Fixpoint duration_loop (first : bool) (digits : nat) (l : list ascii) : bool :=
  match l with
  | [] => (0 <? digits)%nat
  | c :: l =>
      let n := nat_of_ascii c in
      if ((48 <=? n) && (n <=? 57))%nat || Ascii.eqb c "." then duration_loop false (S digits) l
      else negb first && (Ascii.eqb c "s" || Ascii.eqb c "m" || Ascii.eqb c "h" || Ascii.eqb c "d") &&
           match l with [] => true | _ => false end && (0 <? digits)%nat
  end.
Definition remoteExecLooksLikeTimeoutDuration (arg : string) : bool := duration_loop true 0 (list_ascii_of_string arg).

(** The arguments the search for the wrapped command passes over. *)
Definition passed_over (wrapper arg : string) : bool :=
  (arg =s "") || HasPrefix arg "-" ||
  ((wrapper =s "env") && str_Contains arg "=" && negb (HasPrefix arg "/")) ||
  ((wrapper =s "timeout") && remoteExecLooksLikeTimeoutDuration arg).

Fixpoint split_wrapped (wrapper : string) (args : list string) : option (string * list string) :=
  match args with
  | [] => None
  | raw :: rest =>
      let arg := TrimSpace raw in
      if arg =s "--" then match rest with [] => None | cmd :: rest => Some (cmd, rest) end
      else if passed_over wrapper arg then split_wrapped wrapper rest
      else Some (arg, rest)
  end.

Definition remoteExecSplitWrappedCommand (argv : list string) : option (string * list string) :=
  match argv with
  | [] => None
  | wrapper :: args => split_wrapped (remoteExecArgvBase wrapper) args
  end.

Fixpoint remoteExecFindExecArgv (rest : list string) : list string :=
  match rest with
  | [] => []
  | arg :: rest => if (arg =s ";") || (arg =s "+") then [] else arg :: remoteExecFindExecArgv rest
  end.

Definition exec_flags : list string := ["-exec"; "-execdir"; "-ok"; "-okdir"]%string.

(** The commands a find runs. *)
Fixpoint find_commands (args : list string) : list (list string) :=
  match args with
  | [] => []
  | arg :: rest => if one_of exec_flags (TrimSpace arg) then remoteExecFindExecArgv rest :: find_commands rest else find_commands rest
  end.

(** [remoteExecArgvInvokesShellDepth], with [remoteExecFindInvokesShell] in it:
    [fuel] is 9 minus the depth, so that it ends where the code gives up with
    [true]. *)
Fixpoint invokes_shell (fuel : nat) (argv : list string) : bool :=
  match argv with
  | [] => false
  | arg0 :: args =>
      match fuel with
      | O => true
      | S fuel =>
          if remoteExecArgvIsShellName arg0 then true
          else if remoteExecArgvIsFind arg0 && existsb (invokes_shell fuel) (find_commands args) then true
          else if negb (remoteExecArgvIsCommandWrapper arg0) then false
          else match remoteExecSplitWrappedCommand argv with
               | None => false
               | Some (cmd, rest) => invokes_shell fuel (cmd :: rest)
               end
      end
  end.

Definition remoteExecArgvInvokesShell (argv : list string) : bool := invokes_shell 9 argv.

(** ** Validation *)

Definition nul_byte : string := String "000"%char "".

Fixpoint check_args (args : list string) : option string :=
  match args with
  | [] => None
  | arg :: args =>
      if str_len arg =? 0 then Some "argv item is empty"%string
      else if remoteExecMaxArgBytes <? str_len arg then Some "argv item exceeds limit"%string
      else if str_Contains arg nul_byte then Some "argv item contains null byte"%string
      else check_args args
  end.

Definition total_bytes (args : list string) : Z := fold_right (fun arg n => str_len arg + n) 0 args.

Definition validateRemoteExecPayload (serverID : Z) (now : Time) (p : RemoteExecTaskPayload) : option string :=
  let c := rp_Command p in
  if negb (rp_Origin p =s "mcp") && negb (rp_Origin p =s "panel") then Some "remote exec requires an MCP or panel origin"%string
  else if TrimSpace (rp_RequestID p) =s "" then Some "request_id is required"%string
  else if 128 <? str_len (rp_RequestID p) then Some "request_id exceeds limit"%string
  else if negb (rp_ServerID p =? serverID) && negb (serverID =? 0) then Some "payload server_id does not match enrolled server"%string
  else if negb (IsZero (rp_ExpiresAt p)) && After now (rp_ExpiresAt p) then Some "remote exec payload expired"%string
  else
    let cwd := if TrimSpace (rc_Cwd c) =s "" then "/"%string else TrimSpace (rc_Cwd c) in
    if remoteExecMaxCwd <? str_len cwd then Some "cwd exceeds limit"%string
    else if negb (HasPrefix cwd "/") then Some "cwd must be an absolute path"%string
    else if str_Contains cwd ".." then Some "cwd must not contain dot-dot segments"%string
    else if negb (clean_abs cwd =s cwd) then Some "cwd must be a cleaned absolute path"%string
    else if rc_Mode c =s "argv" then
      if (List.length (rc_Argv c) =? 0)%nat || (remoteExecMaxArgv <? List.length (rc_Argv c))%nat then Some "argv count out of range"%string
      else
        match check_args (rc_Argv c) with
        | Some e => Some e
        | None =>
            if remoteExecMaxArgvTotal <? total_bytes (rc_Argv c) then Some "argv total exceeds limit"%string
            else if remoteExecArgvInvokesShell (rc_Argv c) then Some "structured exec cannot invoke a shell"%string
            else None
        end
    else if rc_Mode c =s "shell" then
      let shell := TrimSpace (rc_Shell c) in
      if shell =s "" then Some "shell command is required"%string
      else if remoteExecMaxShell <? str_len shell then Some "shell command exceeds limit"%string
      else if str_Contains shell nul_byte then Some "shell command contains null byte"%string
      else None
    else Some "unsupported remote exec mode"%string.

(** ** Running *)

Record limitedBuffer := mkBuffer { lb_buf : bytes; lb_n : Z; lb_limit : Z; lb_truncated : bool }.
#[export] Instance eta_limitedBuffer : Eta limitedBuffer := fun b => mkBuffer (lb_buf b) (lb_n b) (lb_limit b) (lb_truncated b).

Definition buffer_Write (b : limitedBuffer) (p : bytes) : limitedBuffer :=
  let remain := lb_limit b - lb_n b in
  if remain <=? 0 then b<|lb_truncated := true|>
  else if remain <? Z.of_nat (List.length p) then
    b<|lb_truncated := true|><|lb_buf ::= fun buf => buf ++ take (Z.to_nat remain) p|><|lb_n ::= fun n => n + remain|>
  else b<|lb_buf ::= fun buf => buf ++ p|><|lb_n ::= fun n => n + Z.of_nat (List.length p)|>.

Definition run_timeout (l : RemoteExecLimits) : Duration :=
  let timeout := mul64 (rl_TimeoutSeconds l) Second in
  let timeout := if timeout <=? 0 then remoteExecDefaultTimeout else timeout in
  if remoteExecMaxTimeout <? timeout then remoteExecMaxTimeout else timeout.

Definition output_limit (n : Z) : Z :=
  let limit := if n <=? 0 then remoteExecDefaultOutput else n in
  if remoteExecMaxOutput <? limit then remoteExecMaxOutput else limit.

Inductive ending := Exited | TimedOut | Cancelled.

(** A process: what it writes to its two outputs, its exit code, how long it
    took and how it ended. *)
Record Process := mkProcess { pc_stdout : list bytes; pc_stderr : list bytes; pc_code : Z; pc_ms : Z; pc_end : ending; pc_windows : bool }.

Definition no_result : RemoteExecResult := mkExecResult 0 0 0 0 "" "" false false false "" [] [].

Section Exec.
Context (sha256hex : bytes -> string).

(** [runRemoteExec]: the result and the error. *)
Definition runRemoteExec (p : RemoteExecTaskPayload) (c : Process) : RemoteExecResult * option string :=
  if (rc_Mode (rp_Command p) =s "shell") && pc_windows c then
    (no_result, Some "shell mode remote exec is not supported on Windows Agents yet; use argv mode"%string)
  else
    let stdout := fold_left buffer_Write (pc_stdout c) (mkBuffer [] 0 (output_limit (rl_StdoutBytes (rp_Limits p))) false) in
    let stderr := fold_left buffer_Write (pc_stderr c) (mkBuffer [] 0 (output_limit (rl_StderrBytes (rp_Limits p))) false) in
    let result := mkExecResult (pc_code c) (pc_ms c) (lb_n stdout) (lb_n stderr) (sha256hex (lb_buf stdout)) (sha256hex (lb_buf stderr))
      (lb_truncated stdout) (lb_truncated stderr) false "" (lb_buf stdout) (lb_buf stderr) in
    match pc_end c with
    | Exited => (result, None)
    | TimedOut => (result<|rr_Error := "remote_exec_timeout"%string|>, Some "context deadline exceeded"%string)
    | Cancelled => (result<|rr_Cancelled := true|><|rr_Error := "remote_exec_cancelled"%string|>, Some "context canceled"%string)
    end.

End Exec.

(** ** The journal *)

Definition remoteExecStateRunning : string := "running".
Definition remoteExecStateCompleted : string := "completed".
Definition remoteExecJournalKeep : nat := 100.
Definition remoteExecJournalTTL : Duration := 24 * Hour.

Record remoteExecJournalRecord := mkJournalRecord {
  jr_RequestID : string; jr_Digest : string; jr_State : string; jr_StartedAt : Time; jr_FinishedAt : Time; jr_ResultJSON : bytes
}.
#[export] Instance eta_journalRecord : Eta remoteExecJournalRecord := fun r =>
  mkJournalRecord (jr_RequestID r) (jr_Digest r) (jr_State r) (jr_StartedAt r) (jr_FinishedAt r) (jr_ResultJSON r).

(** The files of the directory, by name. *)
Record jfile := mkJFile { jf_raw : bytes; jf_mod : Time }.
Abbreviation journal := (gmap string jfile) (only parsing).

(** What one call meets: the clock, the system calls that fail, the nonce. A
    failing write leaves some bytes in the temporary file. *)
Record JournalEnv := mkJournalEnv {
  je_now : Time;
  je_mkdir : option string;
  je_listed : bool;
  je_removes : string -> bool;
  je_read : option string;
  je_nonce : option bytes;
  je_write : option nat;
  je_rename : option string
}.

Definition safe_rune (c : ascii) : bool :=
  let n := nat_of_ascii c in
  ((97 <=? n) && (n <=? 122) || (65 <=? n) && (n <=? 90) || (48 <=? n) && (n <=? 57) || (n =? 45) || (n =? 95))%nat.

Definition path (requestID : string) : string :=
  let safe := string_of_list_ascii (filter (fun c => Is_true (safe_rune c)) (list_ascii_of_string requestID)) in
  ((if safe =s "" then "invalid" else safe) +:+ ".json")%string.

Definition mod_le (a b : string * jfile) : Prop := jf_mod (snd a) <= jf_mod (snd b).
#[export] Instance mod_le_dec a b : Decision (mod_le a b).
Proof. unfold mod_le. apply _. Defined.

(** The records of the directory. *)
Definition records (j : journal) : journal := filter (fun kv => Is_true (HasSuffix (fst kv) ".json")) j.

Definition stale (now : Time) (kv : string * jfile) : bool := Before (jf_mod (snd kv)) (now - remoteExecJournalTTL).

(** [pruneLocked]: records beyond their time, then the oldest beyond the
    number that is kept. *)
Definition prune_names (now : Time) (j : journal) : list string :=
  let entries := map_to_list (records j) in
  let keep := merge_sort mod_le (List.filter (fun kv => negb (stale now kv)) entries) in
  map fst (List.filter (stale now) entries) ++
  map fst (take (List.length keep - remoteExecJournalKeep) keep).

Definition pruneLocked (e : JournalEnv) (j : journal) : journal :=
  if negb (je_listed e) then j
  else fold_left (fun j name => if je_removes e name then delete name j else j) (prune_names (je_now e) j) j.

Section Journal.
Context {A : AEAD} {CJ : Codec remoteExecJournalRecord} {CR : Codec RemoteExecResult}.
Context (key : bytes).

Definition sealed (raw : bytes) : bool := (0 <? List.length key)%nat && IsEncrypted raw.

Definition decode_file (raw : bytes) : result read_error remoteExecJournalRecord :=
  match (if sealed raw then Decrypt key raw else Ok raw) with
  | Err _ => Err (ReadFailed "decrypt")
  | Ok raw => match json_Unmarshal raw with None => Err (ReadFailed "json") | Some r => Ok r end
  end.

Definition readLocked (e : JournalEnv) (requestID : string) (j : journal) : result read_error remoteExecJournalRecord :=
  match je_read e with
  | Some m => Err (ReadFailed m)
  | None => match j !! path requestID with None => Err NotExist | Some f => decode_file (jf_raw f) end
  end.

Definition writeLocked (e : JournalEnv) (r : remoteExecJournalRecord) (j : journal) : option string * journal :=
  match json_Marshal r with
  | None => (Some "json"%string, j)
  | Some raw =>
      match (if (0 <? List.length key)%nat then Encrypt key (je_nonce e) raw else Ok raw) with
      | Err _ => (Some "stealth"%string, j)
      | Ok raw =>
          let tmp := (path (jr_RequestID r) +:+ ".tmp")%string in
          match je_write e with
          | Some n => (Some "write"%string, <[tmp := mkJFile (take n raw) (je_now e)]> j)
          | None =>
              match je_rename e with
              | Some m => (Some m, <[tmp := mkJFile raw (je_now e)]> j)
              | None => (None, <[path (jr_RequestID r) := mkJFile raw (je_now e)]> (delete tmp j))
              end
          end
      end
  end.

Inductive begin_error := ErrRemoteExecRunning | ErrRemoteExecConflict | ErrJournal (e : string).

(** [Begin]: [Ok None] when the command is to be run. *)
Definition journal_Begin (e : JournalEnv) (requestID digest : string) (j : journal)
  : result begin_error (option remoteExecJournalRecord) * journal :=
  match je_mkdir e with
  | Some m => (Err (ErrJournal m), j)
  | None =>
      let j := pruneLocked e j in
      match readLocked e requestID j with
      | Ok record =>
          if negb (jr_Digest record =s digest) then (Err ErrRemoteExecConflict, j)
          else if jr_State record =s remoteExecStateRunning then (Err ErrRemoteExecRunning, j)
          else (Ok (Some record), j)
      | Err (ReadFailed m) => (Err (ErrJournal m), j)
      | Err NotExist =>
          match writeLocked e (mkJournalRecord requestID digest remoteExecStateRunning (je_now e) time_zero []) j with
          | (Some m, j) => (Err (ErrJournal m), j)
          | (None, j) => (Ok None, j)
          end
      end
  end.

Definition journal_Complete (e : JournalEnv) (requestID digest : string) (result : bytes) (j : journal) : option string * journal :=
  let started := match readLocked e requestID j with Ok existing => jr_StartedAt existing | Err _ => je_now e end in
  writeLocked e (mkJournalRecord requestID digest remoteExecStateCompleted started (je_now e) result) j.

(** ** The task *)

Context (sha256hex : bytes -> string) (payload_digest : RemoteExecTaskPayload -> string).

(** What a task does once its checks are done. *)
Inductive decision := Refused (code : string) | Replayed (result : bytes) | Run.

Definition begin_code (e : begin_error) : string :=
  match e with ErrRemoteExecRunning => "already_running" | _ => "request_id_conflict" end.

(** The part of [executeRemoteExecTask] before the command runs; [gate] is the
    local security policy. *)
Definition start_task (serverID : Z) (gate : bool) (e : JournalEnv) (p : RemoteExecTaskPayload) (j : journal) : decision * journal :=
  match validateRemoteExecPayload serverID (je_now e) p with
  | Some _ => (Refused "invalid_input", j)
  | None =>
      if negb gate then (Refused "agent_local_gate_denied", j)
      else
        match journal_Begin e (rp_RequestID p) (payload_digest p) j with
        | (Err err, j) => (Refused (begin_code err), j)
        | (Ok (Some record), j) =>
            (if jr_State record =s remoteExecStateCompleted then Replayed (jr_ResultJSON record) else Run, j)
        | (Ok None, j) => (Run, j)
        end
  end.

(** The status and the encoded result of a run; [json.Marshal] of a result
    does not fail. *)
Definition result_of (p : RemoteExecTaskPayload) (c : Process) : string * bytes :=
  let '(result, runErr) := runRemoteExec sha256hex p c in
  let result := match runErr with Some m => if rr_Error result =s "" then result<|rr_Error := m|> else result | None => result end in
  (if rr_Error result =s "" then "succeeded"%string else "failed"%string, default [] (json_Marshal result)).

(** The part after the command. *)
Definition finish_task (e : JournalEnv) (p : RemoteExecTaskPayload) (c : Process) (j : journal) : string * bytes * journal :=
  let '(status, encoded) := result_of p c in
  (status, encoded, snd (journal_Complete e (rp_RequestID p) (payload_digest p) encoded j)).

Definition executeRemoteExecTask (serverID : Z) (gate : bool) (e e' : JournalEnv) (p : RemoteExecTaskPayload) (c : Process) (j : journal)
  : string * bytes * journal :=
  match start_task serverID gate e p j with
  | (Refused code, j) => ("failed"%string, list_ascii_of_string code, j)
  | (Replayed result, j) => ("succeeded"%string, result, j)
  | (Run, j) => finish_task e' p c j
  end.

End Journal.

(** ** Shells behind wrappers *)

(** The command lines that run a shell: directly, behind a wrapper whose
    arguments before the command are passed over, behind a wrapper and --, or as
    a command of find. *)
Inductive hides_shell : list string -> Prop :=
| hs_shell arg0 args : remoteExecArgvIsShellName arg0 = true -> hides_shell (arg0 :: args)
| hs_wrapper w opts cmd args :
    remoteExecArgvIsCommandWrapper w = true ->
    Forall (fun o => TrimSpace o <> "--"%string /\ passed_over (remoteExecArgvBase w) (TrimSpace o) = true) opts ->
    TrimSpace cmd <> "--"%string -> passed_over (remoteExecArgvBase w) (TrimSpace cmd) = false ->
    hides_shell (TrimSpace cmd :: args) -> hides_shell (w :: opts ++ cmd :: args)
| hs_dashes w opts dashes cmd args :
    remoteExecArgvIsCommandWrapper w = true ->
    Forall (fun o => TrimSpace o <> "--"%string /\ passed_over (remoteExecArgvBase w) (TrimSpace o) = true) opts ->
    TrimSpace dashes = "--"%string -> hides_shell (cmd :: args) -> hides_shell (w :: opts ++ dashes :: cmd :: args)
| hs_find f args flag rest :
    remoteExecArgvIsFind f = true -> one_of exec_flags (TrimSpace flag) = true ->
    hides_shell (remoteExecFindExecArgv rest) -> hides_shell (f :: args ++ flag :: rest).

Lemma split_wrapped_opts w opts rest :
  Forall (fun o => TrimSpace o <> "--"%string /\ passed_over w (TrimSpace o) = true) opts -> split_wrapped w (opts ++ rest) = split_wrapped w rest.
Proof.
  induction 1 as [| o opts [Hd Hp] _ IH]; [done |]. cbn [app split_wrapped]. apply str_eqb_neq in Hd. by rewrite Hd, Hp.
Qed.

Lemma find_commands_in args flag rest :
  one_of exec_flags (TrimSpace flag) = true -> In (remoteExecFindExecArgv rest) (find_commands (args ++ flag :: rest)).
Proof.
  intros Hf. induction args as [| a args IH]; cbn [app find_commands]; [rewrite Hf; apply in_eq |]. destruct (one_of exec_flags (TrimSpace a)); [by apply in_cons | done].
Qed.

Lemma hides_shell_found argv : hides_shell argv -> forall fuel, invokes_shell fuel argv = true.
Proof.
  induction 1 as [arg0 args Hs | w opts cmd args Hw Ho Hd Hp _ IH | w opts dashes cmd args Hw Ho Hd _ IH | f args flag rest Hf Hx _ IH];
    intros [| fuel]; cbn [invokes_shell]; [done | by rewrite Hs | done | | done | | done |].
  - destruct (remoteExecArgvIsShellName w); [done |]. destruct (remoteExecArgvIsFind w && _); [done |]. rewrite Hw. cbn [negb].
    unfold remoteExecSplitWrappedCommand. rewrite (split_wrapped_opts _ _ _ Ho). cbn [split_wrapped].
    apply str_eqb_neq in Hd. rewrite Hd, Hp. apply IH.
  - destruct (remoteExecArgvIsShellName w); [done |]. destruct (remoteExecArgvIsFind w && _); [done |]. rewrite Hw. cbn [negb].
    unfold remoteExecSplitWrappedCommand. rewrite (split_wrapped_opts _ _ _ Ho). cbn [split_wrapped].
    rewrite Hd, str_eqb_refl. apply IH.
  - destruct (remoteExecArgvIsShellName f); [done |]. rewrite Hf. cbn [andb].
    assert (existsb (invokes_shell fuel) (find_commands (args ++ flag :: rest)) = true) as ->; [| done].
    apply existsb_exists. eexists. split; [by apply find_commands_in | apply IH].
Qed.

(** A structured command that is accepted is no shell, nor one behind any
    number of wrappers, options and -exec clauses as the code reads them. *)
Theorem accepted_argv_hides_no_shell serverID now p :
  validateRemoteExecPayload serverID now p = None -> rc_Mode (rp_Command p) = "argv"%string -> ~ hides_shell (rc_Argv (rp_Command p)).
Proof.
  intros Hv Hm Hh. pose proof (hides_shell_found _ Hh 9) as Hi. unfold validateRemoteExecPayload in Hv. rewrite Hm in Hv.
  rewrite str_eqb_refl in Hv. unfold remoteExecArgvInvokesShell in Hv. rewrite Hi in Hv. cbv zeta in Hv.
  repeat match type of Hv with (if ?c then Some _ else _) = None => destruct c; [done |] end.
  destruct (check_args _); [done |]. by destruct (_ <? _).
Qed.

(** An option of a wrapper that takes its value as the next argument hides
    a shell from the search: the value is taken for the command. *)
Theorem option_value_hides_shell :
  remoteExecArgvInvokesShell ["nice"; "sh"]%string = true /\ remoteExecArgvInvokesShell ["nice"; "-n"; "10"; "sh"; "-c"; "id"]%string = false /\
  remoteExecArgvInvokesShell ["sudo"; "-u"; "root"; "bash"]%string = false.
Proof. by_compute. Qed.

(** ** Bounds of a run *)

Lemma buffer_prefix ws b :
  0 < lb_limit b -> lb_n b = Z.of_nat (List.length (lb_buf b)) -> lb_n b <= lb_limit b -> Forall (fun w => w <> []) ws ->
  let b' := fold_left buffer_Write ws b in
  lb_buf b' = take (Z.to_nat (lb_limit b)) (lb_buf b ++ concat ws) /\ lb_n b' = Z.of_nat (List.length (lb_buf b')) /\
  lb_truncated b' = lb_truncated b || (lb_limit b <? Z.of_nat (List.length (lb_buf b ++ concat ws))).
Proof.
  cbv zeta. intros Hl Hn Hle Hw. revert b Hl Hn Hle. induction Hw as [| w ws Hne _ IH]; intros b Hl Hn Hle.
  { cbn. rewrite app_nil_r, take_ge by lia. split_and!; [done | done |]. destruct (Z.ltb_spec (lb_limit b) (Z.of_nat (List.length (lb_buf b)))); [lia | by rewrite orb_false_r]. }
  cbn [fold_left concat]. rewrite app_assoc. remember (buffer_Write b w) as b1 eqn:E. unfold buffer_Write in E. cbv zeta in E.
  assert (0 < List.length w)%nat as Hlw by (destruct w; [done | cbn; lia]).
  destruct (Z.leb_spec (lb_limit b - lb_n b) 0) as [Hr | Hr]; [| destruct (Z.ltb_spec (lb_limit b - lb_n b) (Z.of_nat (List.length w))) as [Hc | Hc]];
    subst b1.
  - set (b1 := _<|lb_truncated := true|>). destruct (IH b1 Hl Hn Hle) as (H1 & H2 & H3). cbn in H1, H3. split_and!; [| exact H2 |].
    + rewrite H1, <- app_assoc. rewrite (take_app_le (lb_buf b) (concat ws)), (take_app_le (lb_buf b) (w ++ concat ws)) by lia. done.
    + rewrite H3. destruct (Z.ltb_spec (lb_limit b) (Z.of_nat (List.length ((lb_buf b ++ w) ++ concat ws)))) as [H | H]; [by rewrite orb_true_r |].
      rewrite !length_app in H. lia.
  - set (b1 := _<|lb_n ::= _|>). assert (List.length (lb_buf b1) = Z.to_nat (lb_limit b)) as Hb1
      by (cbn; rewrite length_app, length_take; lia).
    destruct (IH b1) as (H1 & H2 & H3); [done | rewrite Hb1; cbn; lia | cbn; lia |]. change (lb_limit b1) with (lb_limit b) in *. split_and!; [| exact H2 |].
    + rewrite H1, take_app_le by lia. rewrite take_ge by lia. cbn.
      rewrite <- app_assoc, take_app_ge by lia. f_equal. rewrite take_app_le by lia. f_equal. lia.
    + rewrite H3. cbn. rewrite !length_app. destruct (Z.ltb_spec (lb_limit b) (Z.of_nat (List.length (lb_buf b) + List.length w + List.length (concat ws)))); [by rewrite orb_true_r | lia].
  - set (b1 := _<|lb_n ::= _|>). destruct (IH b1) as (H1 & H2 & H3); [done | cbn; rewrite length_app; lia | cbn; lia |].
    split_and!; [exact H1 | exact H2 | exact H3].
Qed.

Lemma run_timeout_bounds l : 0 < run_timeout l <= remoteExecMaxTimeout.
Proof.
  unfold run_timeout, remoteExecMaxTimeout, remoteExecDefaultTimeout, Second. generalize (mul64 (rl_TimeoutSeconds l) 1000000000). intros x.
  destruct (Z.leb_spec x 0); [destruct (Z.ltb_spec (300 * 1000000000) (30 * 1000000000)); lia |].
  destruct (Z.ltb_spec (300 * 1000000000) x); lia.
Qed.

Lemma output_limit_bounds n : 0 < output_limit n <= remoteExecMaxOutput.
Proof.
  unfold output_limit, remoteExecMaxOutput, remoteExecDefaultOutput. change (Z.shiftl 4 20) with 4194304. change (Z.shiftl 1 20) with 1048576.
  repeat split_if; zify_bool; lia.
Qed.

(** A run is bounded and its output is what the process wrote first:
    whatever limits are asked for, the time-out is positive and at most five
    minutes, the limits are positive and at most 4 MiB, each output is exactly the
    prefix of what was written that fits, with its length, and is marked
    truncated exactly if something is missing. *)
Theorem run_output_is_a_bounded_prefix sha256hex p c res err :
  runRemoteExec sha256hex p c = (res, err) -> rc_Mode (rp_Command p) <> "shell"%string \/ pc_windows c = false ->
  Forall (fun w => w <> []) (pc_stdout c) -> Forall (fun w => w <> []) (pc_stderr c) ->
  let out := output_limit (rl_StdoutBytes (rp_Limits p)) in
  let errs := output_limit (rl_StderrBytes (rp_Limits p)) in
  0 < run_timeout (rp_Limits p) <= remoteExecMaxTimeout /\ 0 < out <= remoteExecMaxOutput /\ 0 < errs <= remoteExecMaxOutput /\
  rr_Stdout res = take (Z.to_nat out) (concat (pc_stdout c)) /\ rr_StdoutBytes res = Z.of_nat (List.length (rr_Stdout res)) /\
  rr_StdoutTruncated res = (out <? Z.of_nat (List.length (concat (pc_stdout c)))) /\
  rr_Stderr res = take (Z.to_nat errs) (concat (pc_stderr c)) /\ rr_StderrBytes res = Z.of_nat (List.length (rr_Stderr res)) /\
  rr_StderrTruncated res = (errs <? Z.of_nat (List.length (concat (pc_stderr c)))).
Proof.
  cbv zeta. intros Hrun Hos Ho He. split; [apply run_timeout_bounds |].
  pose proof (output_limit_bounds (rl_StdoutBytes (rp_Limits p))) as Hlo. pose proof (output_limit_bounds (rl_StderrBytes (rp_Limits p))) as Hle.
  do 2 (split; [done |]). set (bo := mkBuffer [] 0 (output_limit (rl_StdoutBytes (rp_Limits p))) false).
  set (be := mkBuffer [] 0 (output_limit (rl_StderrBytes (rp_Limits p))) false).
  destruct (buffer_prefix (pc_stdout c) bo ltac:(cbn; lia) eq_refl ltac:(cbn; lia) Ho) as (H1 & H2 & H3).
  destruct (buffer_prefix (pc_stderr c) be ltac:(cbn; lia) eq_refl ltac:(cbn; lia) He) as (H4 & H5 & H6).
  cbn [lb_buf lb_limit lb_truncated bo be app orb] in H1, H3, H4, H6.
  unfold runRemoteExec in Hrun. assert ((rc_Mode (rp_Command p) =s "shell") && pc_windows c = false) as Hn.
  { destruct Hos as [Hm | ->]; [| by rewrite andb_false_r]. apply str_eqb_neq in Hm. by rewrite Hm. }
  rewrite Hn in Hrun. fold bo be in Hrun. cbv zeta in Hrun. destruct (pc_end c); injection Hrun as <- _; cbn [rr_Stdout rr_StdoutBytes rr_StdoutTruncated rr_Stderr rr_StderrBytes rr_StderrTruncated upd]; by split_and!.
Qed.

(** ** The journal keeps a command from running twice *)

Lemma list_ascii_app (a b : string) : list_ascii_of_string (a +:+ b) = list_ascii_of_string a ++ list_ascii_of_string b.
Proof. induction a as [| c a IH]; [done |]. change (c :: list_ascii_of_string (a +:+ b) = c :: (list_ascii_of_string a ++ list_ascii_of_string b)). by rewrite IH. Qed.

Lemma path_suffix id : HasSuffix (path id) ".json" = true.
Proof. unfold path, HasSuffix. by rewrite list_ascii_app, rev_app_distr. Qed.

Lemma tmp_suffix id : HasSuffix (path id +:+ ".tmp") ".json" = false.
Proof. unfold HasSuffix. by rewrite list_ascii_app, rev_app_distr. Qed.

Lemma tmp_path id id' : (path id +:+ ".tmp")%string <> path id'.
Proof. intros H. pose proof (tmp_suffix id) as Ht. rewrite H, path_suffix in Ht. done. Qed.

Section JournalFacts.
Context {A : AEAD} {L : AEADLaws A} {CJ : Codec remoteExecJournalRecord} {LJ : CodecLaws CJ} {CR : Codec RemoteExecResult}.
Context (key : bytes) (sha256hex : bytes -> string) (payload_digest : RemoteExecTaskPayload -> string).

Definition whole_nonce_of (e : JournalEnv) : Prop := match je_nonce e with Some n => List.length n = nonceLen | None => True end.

(** A completed result that was finished, by digest. *)
Abbreviation finished := (list (string * bytes)) (only parsing).

Definition genuine (done_ : finished) (r : remoteExecJournalRecord) : Prop :=
  jr_State r = remoteExecStateRunning \/ (jr_State r = remoteExecStateCompleted /\ (jr_Digest r, jr_ResultJSON r) ∈ done_).

(** Every record is no older than [t0] and reads as a command that runs or was
    finished; there are at most [k] of them. *)
Record journal_ok (t0 : Time) (k : nat) (done_ : finished) (j : journal) : Prop := {
  jo_file : forall name f, j !! name = Some f -> HasSuffix name ".json" = true ->
    t0 <= jf_mod f /\ exists r, decode_file key (jf_raw f) = Ok r /\ genuine done_ r;
  jo_size : (size (records j) <= k)%nat
}.

Lemma prune_nothing t0 k done_ j now :
  journal_ok t0 k done_ j -> (k <= remoteExecJournalKeep)%nat -> now <= t0 + remoteExecJournalTTL -> prune_names now j = [].
Proof.
  intros [Hf Hs] Hk Hn. unfold prune_names. set (l := map_to_list (records j)).
  assert (List.filter (stale now) l = []) as ->.
  { assert (forall kv, kv ∈ l -> stale now kv = false) as Hst.
    { intros [name f] Hin%elem_of_map_to_list. apply map_lookup_filter_Some in Hin as [Hin Hsuf].
      destruct (Hf name f Hin) as [Hm _]; [by apply Is_true_true |]. unfold stale, Before. cbn. apply Z.ltb_ge. lia. }
    clearbody l. induction l as [| kv l IH]; [done |]. cbn. rewrite Hst by apply list_elem_of_here.
    apply IH. intros. apply Hst. by apply list_elem_of_further. }
  set (keep := merge_sort _ _). assert (List.length keep <= remoteExecJournalKeep)%nat as Hl.
  { unfold keep. rewrite (Permutation_length (merge_sort_Permutation mod_le _)). transitivity (List.length l); [apply filter_length_le |].
    unfold l. rewrite length_map_to_list. lia. }
  cbn [map app]. by replace (List.length keep - remoteExecJournalKeep)%nat with 0%nat by lia.
Qed.

Lemma journal_ok_weaken t0 k k' done_ done' j :
  journal_ok t0 k done_ j -> (k <= k')%nat -> (forall x, x ∈ done_ -> x ∈ done') -> journal_ok t0 k' done' j.
Proof.
  intros [Hf Hs] Hk Hd. split; [| lia]. intros name f Hn Hsuf. destruct (Hf name f Hn Hsuf) as (Hm & r & Hr & Hg).
  split; [done |]. exists r. split; [done |]. destruct Hg as [Hg | [Hg Hin]]; [by left | right; auto].
Qed.

(** What a file written for a record reads as. *)
Lemma decode_written e r raw stored :
  whole_nonce_of e -> json_Marshal r = Some raw ->
  (if (0 <? List.length key)%nat then Encrypt key (je_nonce e) raw else Ok raw) = Ok stored -> decode_file key stored = Ok r.
Proof.
  unfold decode_file, sealed, whole_nonce_of. intros Hn Hm. destruct (0 <? _)%nat; cbn [andb].
  - intros He. destruct (je_nonce e) as [nn |]; [| unfold Encrypt in He; destruct (_ <? _); [done |]; by destruct (gcm _)].
    destruct (Decrypt_Encrypt _ _ _ _ Hn He) as [-> ->]. by rewrite (json_roundtrip _ _ Hm).
  - intros [= <-]. by rewrite (json_roundtrip _ _ Hm).
Qed.

Lemma records_other j name f : HasSuffix name ".json" = false -> records (<[name := f]> j) = records j /\ records (delete name j) = records j.
Proof.
  intros Hs. unfold records. split; apply map_eq; intros i; apply option_eq; intros x; rewrite !map_lookup_filter_Some; cbn;
    (destruct (decide (i = name)) as [-> | Hne]; [rewrite Hs; naive_solver |]).
  - by rewrite lookup_insert_ne by congruence.
  - by rewrite lookup_delete_ne by congruence.
Qed.

Lemma write_ok t0 k done_ e r j err j' :
  journal_ok t0 k done_ j -> whole_nonce_of e -> t0 <= je_now e -> genuine done_ r -> writeLocked key e r j = (err, j') ->
  journal_ok t0 (S k) done_ j' /\ (forall name, HasSuffix name ".json" = true -> is_Some (j !! name) -> is_Some (j' !! name)) /\
  (err = None -> is_Some (j' !! path (jr_RequestID r))).
Proof.
  intros Hj Hn Ht Hg. assert (journal_ok t0 (S k) done_ j) as Hj' by (apply (journal_ok_weaken t0 k (S k) done_ done_ j Hj); [lia | auto]).
  unfold writeLocked. destruct (json_Marshal r) as [raw |] eqn:Em; [| by intros [= <- <-]].
  destruct (if (0 <? _)%nat then _ else _) as [stored |] eqn:Ee; [| by intros [= <- <-]].
  set (tmp := (path (jr_RequestID r) +:+ ".tmp")%string). pose proof (tmp_suffix (jr_RequestID r)) as Hsuf. fold tmp in Hsuf.
  assert (forall f, journal_ok t0 (S k) done_ (<[tmp := f]> j) /\
    (forall name, HasSuffix name ".json" = true -> is_Some (j !! name) -> is_Some (<[tmp := f]> j !! name))) as Htmp.
  { intros f. split.
    - split; [| rewrite (proj1 (records_other j tmp f Hsuf)); apply Hj'].
      intros name g Hl Hs. rewrite lookup_insert_ne in Hl by (intros <-; congruence). exact (jo_file _ _ _ _ Hj' _ _ Hl Hs).
    - intros name Hs Hi. by rewrite lookup_insert_ne by (intros <-; congruence). }
  destruct (je_write e); [intros [= <- <-]; by split_and!; try apply Htmp |].
  destruct (je_rename e); [intros [= <- <-]; by split_and!; try apply Htmp |]. intros [= <- <-]. split_and!.
  - split.
    + intros name f Hl Hs. destruct (decide (name = path (jr_RequestID r))) as [-> | Hne].
      * rewrite lookup_insert_eq in Hl. injection Hl as <-. cbn. split; [done |]. exists r. split; [by eapply decode_written | done].
      * rewrite lookup_insert_ne, lookup_delete_ne in Hl by (congruence || (intros <-; congruence)). exact (jo_file _ _ _ _ Hj' _ _ Hl Hs).
    + unfold records. rewrite map_filter_insert. cbn. rewrite decide_True by (apply Is_true_true, path_suffix).
      etransitivity; [apply size_insert_le |]. fold (records (delete tmp j)). rewrite (proj2 (records_other j tmp (mkJFile [] 0) Hsuf)).
      apply le_n_S, Hj.
  - intros name Hs Hi. destruct (decide (name = path (jr_RequestID r))) as [-> | Hne]; [by rewrite lookup_insert_eq |].
    by rewrite lookup_insert_ne, lookup_delete_ne by (congruence || (intros <-; congruence)).
  - intros _. by rewrite lookup_insert_eq.
Qed.

(** ** Traces *)

(** A command is started or finished; in between the agent does anything else,
    and one that dies never finishes. *)
Inductive jevent :=
| JStart (serverID : Z) (gate : bool) (e : JournalEnv) (p : RemoteExecTaskPayload)
| JFinish (e : JournalEnv) (p : RemoteExecTaskPayload) (c : Process).

Definition env_of (ev : jevent) : JournalEnv := match ev with JStart _ _ e _ | JFinish e _ _ => e end.

Definition jstep (ev : jevent) (j : journal) : option decision * journal :=
  match ev with
  | JStart serverID gate e p => let '(d, j) := start_task key payload_digest serverID gate e p j in (Some d, j)
  | JFinish e p c => (None, snd (finish_task key sha256hex payload_digest e p c j))
  end.

(** How often a trace runs a command whose record has the name [q]. *)
Fixpoint runs (q : string) (evs : list jevent) (j : journal) : nat :=
  match evs with
  | [] => 0
  | ev :: evs =>
      let '(d, j) := jstep ev j in
      (match ev, d with
       | JStart _ _ _ p, Some Run => if path (rp_RequestID p) =s q then 1 else 0
       | _, _ => 0
       end + runs q evs j)%nat
  end.

(** The results that were finished, newest first. *)
Definition results (ev : jevent) : finished :=
  match ev with JFinish _ p c => [(payload_digest p, snd (result_of sha256hex p c))] | JStart _ _ _ _ => [] end.

Definition in_time (t0 : Time) (ev : jevent) : Prop :=
  t0 <= je_now (env_of ev) <= t0 + remoteExecJournalTTL /\ whole_nonce_of (env_of ev).

Lemma start_step t0 k done_ serverID gate e p j d j' :
  journal_ok t0 k done_ j -> (k <= remoteExecJournalKeep)%nat -> in_time t0 (JStart serverID gate e p) ->
  start_task key payload_digest serverID gate e p j = (d, j') ->
  journal_ok t0 (S k) done_ j' /\ (forall name, HasSuffix name ".json" = true -> is_Some (j !! name) -> is_Some (j' !! name)) /\
  (d = Run -> j !! path (rp_RequestID p) = None /\ is_Some (j' !! path (rp_RequestID p))) /\
  (forall b, d = Replayed b -> (payload_digest p, b) ∈ done_).
Proof.
  intros Hj Hk [Ht Hn]. cbn in Ht, Hn. assert (journal_ok t0 (S k) done_ j) as Hj' by (apply (journal_ok_weaken t0 k (S k) done_ done_ j Hj); [lia | auto]).
  unfold start_task. destruct (validateRemoteExecPayload _ _ _); [by intros [= <- <-] |]. destruct (negb gate); [by intros [= <- <-] |].
  unfold journal_Begin. destruct (je_mkdir e); [by intros [= <- <-] |].
  assert (pruneLocked e j = j) as ->.
  { unfold pruneLocked. destruct (negb _); [done |]. by rewrite (prune_nothing t0 k done_ j (je_now e) Hj Hk ltac:(lia)). }
  unfold readLocked. destruct (je_read e); [by intros [= <- <-] |].
  destruct (j !! path (rp_RequestID p)) as [f |] eqn:Ef.
  - destruct (jo_file _ _ _ _ Hj _ _ Ef (path_suffix _)) as (_ & r & -> & Hg).
    destruct (jr_Digest r =s payload_digest p) eqn:Ed; cbn [negb]; [| by intros [= <- <-]]. apply str_eqb_eq in Ed.
    destruct (jr_State r =s remoteExecStateRunning) eqn:Es; [by intros [= <- <-] |].
    destruct Hg as [Hg | [Hg Hin]]; [rewrite Hg, str_eqb_refl in Es; done |]. rewrite Hg, str_eqb_refl.
    intros [= <- <-]. split_and!; [done | done | done |]. intros b [= <-]. by rewrite <- Ed.
  - set (r := mkJournalRecord _ _ _ _ _ _). assert (genuine done_ r) as Hg by (by left).
    destruct (writeLocked key e r j) as [[m |] j1] eqn:Ew;
      destruct (write_ok _ _ _ _ _ _ _ _ Hj Hn (proj1 Ht) Hg Ew) as (H1 & H2 & H3); intros [= <- <-]; split_and!; try done.
    intros _. split; [done |]. by apply H3.
Qed.

Lemma finish_step t0 k done_ e p c j :
  journal_ok t0 k done_ j -> in_time t0 (JFinish e p c) ->
  let j' := snd (finish_task key sha256hex payload_digest e p c j) in
  journal_ok t0 (S k) (results (JFinish e p c) ++ done_) j' /\
  (forall name, HasSuffix name ".json" = true -> is_Some (j !! name) -> is_Some (j' !! name)).
Proof.
  intros Hj [Ht Hn]. cbn in Ht, Hn. cbv zeta. unfold finish_task, results. destruct (result_of sha256hex p c) as [status encoded]. cbn [snd].
  unfold journal_Complete. set (r := mkJournalRecord _ _ _ _ _ _). destruct (writeLocked key e r j) as [err j1] eqn:Ew.
  assert (genuine ((payload_digest p, encoded) :: done_) r) as Hg by (right; split; [done | apply list_elem_of_here]).
  pose proof (journal_ok_weaken _ _ k _ ((payload_digest p, encoded) :: done_) _ Hj (le_n k) (fun x Hx => list_elem_of_further _ _ _ Hx)) as Hj'.
  destruct (write_ok _ _ _ _ _ _ _ _ Hj' Hn (proj1 Ht) Hg Ew) as (H1 & H2 & _). done.
Qed.

Lemma step_ok t0 k done_ ev j :
  journal_ok t0 k done_ j -> (k <= remoteExecJournalKeep)%nat -> in_time t0 ev ->
  let j' := snd (jstep ev j) in
  journal_ok t0 (S k) (results ev ++ done_) j' /\
  (forall name, HasSuffix name ".json" = true -> is_Some (j !! name) -> is_Some (j' !! name)).
Proof.
  intros Hj Hk Ht. destruct ev as [serverID gate e p | e p c]; [| by apply finish_step]. cbv zeta. cbn [jstep results app].
  destruct (start_task _ _ _ _ _ _ _) as [d j'] eqn:Es. cbn [snd].
  destruct (start_step _ _ _ _ _ _ _ _ _ _ Hj Hk Ht Es) as (H1 & H2 & _). done.
Qed.

Lemma runs_bound t0 q evs : forall k done_ j,
  journal_ok t0 k done_ j -> (k + List.length evs <= remoteExecJournalKeep)%nat -> Forall (in_time t0) evs -> HasSuffix q ".json" = true ->
  (runs q evs j <= 1)%nat /\ (is_Some (j !! q) -> runs q evs j = 0%nat).
Proof.
  induction evs as [| ev evs IH]; intros k done_ j Hj Hk Ht Hq; [cbn; split; [lia | done] |].
  apply Forall_cons in Ht as [Ht Hts]. cbn [List.length] in Hk. destruct (step_ok t0 k done_ ev j Hj ltac:(lia) Ht) as [Hj' Hstay].
  cbn [runs]. destruct (jstep ev j) as [d j'] eqn:Es. cbn [snd] in Hj', Hstay.
  destruct (IH (S k) _ j' Hj' ltac:(lia) Hts Hq) as [Hle Hz].
  destruct ev as [serverID gate e p | e p c].
  2:{ destruct d; (split; [exact Hle | intros Hi; exact (Hz (Hstay q Hq Hi))]). }
  cbn [jstep] in Es. destruct (start_task _ _ _ _ _ _ _) as [d0 j0] eqn:Est. injection Es as <- <-.
  destruct (start_step _ _ _ _ _ _ _ _ _ _ Hj ltac:(lia) Ht Est) as (_ & _ & Hrun & _).
  destruct d0; [split; [exact Hle | intros Hi; exact (Hz (Hstay q Hq Hi))] | split; [exact Hle | intros Hi; exact (Hz (Hstay q Hq Hi))] |].
  destruct (Hrun eq_refl) as [Hnone Hsome]. destruct (path (rp_RequestID p) =s q) eqn:Eq.
  - apply str_eqb_eq in Eq. subst q. split; [rewrite (Hz Hsome); lia |]. intros [f Hf]. congruence.
  - split; [exact Hle | intros Hi; exact (Hz (Hstay q Hq Hi))].
Qed.

(** C19: a command runs at most once. In any trace of starts and ends of
    commands, redelivered, overlapping, interrupted by crashes or failing to
    write, no record is started twice, as long as the trace fits the horizon of
    the journal: a day and a hundred events. *)
Theorem commands_run_at_most_once t0 evs q :
  (List.length evs <= remoteExecJournalKeep)%nat -> Forall (in_time t0) evs -> (runs (path q) evs ∅ <= 1)%nat.
Proof.
  intros Hl Ht. assert (journal_ok t0 0 [] ∅) as H0.
  { split; [intros name f Hf; by rewrite lookup_empty in Hf |]. unfold records. rewrite map_filter_empty, map_size_empty. done. }
  by apply (runs_bound t0 (path q) evs 0 [] ∅ H0 Hl Ht (path_suffix q)).
Qed.

(** The journal after a trace. *)
Definition after (evs : list jevent) : journal := fold_left (fun j ev => snd (jstep ev j)) evs ∅.

Lemma after_ok t0 evs : (List.length evs <= S remoteExecJournalKeep)%nat -> Forall (in_time t0) evs ->
  journal_ok t0 (List.length evs) (concat (map results (rev evs))) (after evs).
Proof.
  induction evs as [| ev evs IH] using rev_ind; intros Hl Ht.
  { change (after []) with (∅ : journal). split; [intros name f Hf; by rewrite lookup_empty in Hf |].
    unfold records. rewrite map_filter_empty, map_size_empty. done. }
  rewrite length_app in Hl. cbn in Hl. apply Forall_app in Ht as [Ht Hev]. apply (proj1 (Forall_singleton _ _)) in Hev.
  unfold after. rewrite fold_left_app, rev_app_distr, length_app. cbn [fold_left rev app map concat]. fold (after evs).
  rewrite Nat.add_1_r. exact (proj1 (step_ok t0 _ _ ev (after evs) (IH ltac:(lia) Ht) ltac:(lia) Hev)).
Qed.

(** A result that is replayed is that of the same request: the payload has
    the digest of one whose command was finished with exactly this result. *)
Theorem replayed_results_are_genuine t0 evs serverID gate e p b :
  (List.length evs <= remoteExecJournalKeep)%nat -> Forall (in_time t0) evs -> in_time t0 (JStart serverID gate e p) ->
  fst (jstep (JStart serverID gate e p) (after evs)) = Some (Replayed b) ->
  exists e' p' c, JFinish e' p' c ∈ evs /\ payload_digest p' = payload_digest p /\ b = snd (result_of sha256hex p' c).
Proof.
  intros Hl Ht Hp. pose proof (after_ok t0 evs ltac:(lia) Ht) as Hj. cbn [jstep].
  destruct (start_task _ _ _ _ _ _ _) as [d j'] eqn:Es. cbn [fst]. intros [= ->].
  destruct (start_step _ _ _ _ _ _ _ _ _ _ Hj Hl Hp Es) as (_ & _ & _ & Hr). specialize (Hr b eq_refl).
  apply list_elem_of_In, in_concat in Hr as (l & Hin & Hb). apply in_map_iff in Hin as (ev & <- & Hev). apply in_rev in Hev.
  destruct ev as [| e' p' c]; [done |]. destruct Hb as [Hb | []]. exists e', p', c. split; [by apply list_elem_of_In |]. by injection Hb.
Qed.

End JournalFacts.

(** ** Witnesses *)

Section Witnesses.
#[local] Instance record_eq_dec : EqDecision remoteExecJournalRecord.
Proof. solve_decision. Defined.
#[local] Instance record_countable : Countable remoteExecJournalRecord :=
  inj_countable' (fun r => (jr_RequestID r, jr_Digest r, jr_State r, jr_StartedAt r, jr_FinishedAt r, jr_ResultJSON r))
    (fun '(i, d, s, a, f, b) => mkJournalRecord i d s a f b) (fun r => match r with mkJournalRecord _ _ _ _ _ _ => eq_refl end).
#[local] Instance record_codec : Codec remoteExecJournalRecord := countable_codec.
#[local] Instance result_codec : Codec RemoteExecResult :=
  {| json_Marshal r := Some (list_ascii_of_string (rr_Error r) ++ rr_Stdout r); json_Unmarshal _ := None |}.

Definition uptime : RemoteExecTaskPayload :=
  mkExecPayload "r1" "mcp" 3 time_zero (mkCommand "argv" ["/usr/bin/uptime"%string] "" "/") (mkExecLimits 0 0 0).
Definition first_day : Time := 1704067200 * Second.
Definition quiet_journal : JournalEnv := mkJournalEnv first_day None true (fun _ => true) None None None None.
Definition printed_up (fin : ending) : Process := mkProcess [list_ascii_of_string "up 1 day"] [] 0 12 fin false.
Definition plain_digest (b : bytes) : string := string_of_list_ascii b.
Definition request_digest (p : RemoteExecTaskPayload) : string := rp_RequestID p.

Definition uptime_start : jevent := JStart 3 true quiet_journal uptime.
Definition uptime_end : jevent := JFinish quiet_journal uptime (printed_up Exited).

Lemma uptime_in_time ev : ev = uptime_start \/ ev = uptime_end -> in_time first_day ev.
Proof. intros [-> | ->]; (split; [split; by_compute | done]). Qed.

Lemma accepted_argv_hides_no_shell_witness :
  validateRemoteExecPayload 3 first_day uptime = None /\ ~ hides_shell ["/usr/bin/uptime"%string].
Proof.
  assert (validateRemoteExecPayload 3 first_day uptime = None) as H by by_compute.
  split; [exact H |]. exact (accepted_argv_hides_no_shell 3 first_day uptime H eq_refl).
Defined.

Lemma run_output_is_a_bounded_prefix_witness :
  exists res, runRemoteExec plain_digest uptime (printed_up Exited) = (res, None) /\ rr_Stdout res = list_ascii_of_string "up 1 day".
Proof.
  destruct (runRemoteExec plain_digest uptime (printed_up Exited)) as [res err] eqn:E.
  assert (err = None) as -> by (apply (f_equal snd) in E; cbn [snd] in E; rewrite <- E; by_compute).
  exists res. split; [reflexivity |].
  destruct (run_output_is_a_bounded_prefix plain_digest uptime (printed_up Exited) res None E (or_intror eq_refl)) as (_ & _ & _ & H & _).
  - by apply Forall_singleton.
  - by apply Forall_nil.
  - rewrite H. by_compute.
Defined.

(** The request is delivered, finished and delivered again. *)
Lemma commands_run_at_most_once_witness :
  runs [] plain_digest request_digest (path "r1") [uptime_start; uptime_end; uptime_start] ∅ = 1%nat /\
  (runs [] plain_digest request_digest (path "r1") [uptime_start; uptime_end; uptime_start] ∅ <= 1)%nat.
Proof.
  split; [by_compute |].
  apply (commands_run_at_most_once [] plain_digest request_digest (LJ := countable_codec_laws) first_day
    [uptime_start; uptime_end; uptime_start] "r1"); [cbn; unfold remoteExecJournalKeep; lia |].
  apply Forall_forall. intros ev Hev. apply uptime_in_time. apply list_elem_of_In in Hev. destruct Hev as [<- | [<- | [<- | []]]]; auto.
Defined.

Lemma replayed_results_are_genuine_witness :
  exists b, fst (jstep [] plain_digest request_digest uptime_start (after [] plain_digest request_digest [uptime_start; uptime_end])) = Some (Replayed b) /\
    exists e' p' c, JFinish e' p' c ∈ [uptime_start; uptime_end] /\ request_digest p' = "r1"%string /\ b = snd (result_of plain_digest p' c).
Proof.
  exists (list_ascii_of_string "up 1 day").
  assert (fst (jstep [] plain_digest request_digest uptime_start (after [] plain_digest request_digest [uptime_start; uptime_end])) =
    Some (Replayed (list_ascii_of_string "up 1 day"))) as H by by_compute.
  split; [exact H |].
  apply (replayed_results_are_genuine [] plain_digest request_digest (LJ := countable_codec_laws) first_day [uptime_start; uptime_end]
    3 true quiet_journal uptime (list_ascii_of_string "up 1 day")); [cbn; unfold remoteExecJournalKeep; lia | | | exact H].
  - apply Forall_forall. intros ev Hev. apply uptime_in_time. apply list_elem_of_In in Hev. destruct Hev as [<- | [<- | []]]; auto.
  - apply uptime_in_time. by left.
Defined.

(** A command that failed is reported as succeeded when the task is
    delivered again. *)
Theorem replay_reports_success :
  let run j := executeRemoteExecTask [] plain_digest request_digest 3 true quiet_journal quiet_journal uptime (printed_up TimedOut) j in
  fst (fst (run ∅)) = "failed"%string /\ fst (fst (run (snd (run ∅)))) = "succeeded"%string /\
  snd (fst (run (snd (run ∅)))) = snd (fst (run ∅)).
Proof. by_compute. Qed.

End Witnesses.
