(* ===== verification/Resources.v ===== *)
(** * Resources: the memory budget of the kernel

    Model of kernel/oboard-sb/internal/minibox/resources.go (the budget of the
    Go heap), memory_reclaimer.go (when pages are given back) and
    socket_governor.go (the ceiling of the TCP buffers, lowered under load and
    raised after a calm while).

    Memory sizes are 64-bit naturals. What the system reports and whether the
    ceiling could be written are arguments; detecting the virtualisation and
    reading the control files are left out. *)

From S2P Require Import Prelude GoTime.

Definition MiB : Z := 1048576.
Definition GiB : Z := 1073741824.

(** ** The Go heap *)

Definition kernelLargeMemoryThreshold : Z := 512 * MiB.

Inductive ResourceProfile := ProfileAuto | ProfileSmall | ProfileLarge.

Record RuntimeTuning := mkTuning {
  tn_Profile : ResourceProfile; tn_MemoryClass : string; tn_SystemMemoryBytes : Z; tn_CgroupMemoryLimitBytes : Z;
  tn_EffectiveMemoryBytes : Z; tn_GOMAXPROCS : Z; tn_GCPercent : Z; tn_MemoryLimitBytes : Z
}.
#[export] Instance eta_RuntimeTuning : Eta RuntimeTuning := fun t =>
  mkTuning (tn_Profile t) (tn_MemoryClass t) (tn_SystemMemoryBytes t) (tn_CgroupMemoryLimitBytes t) (tn_EffectiveMemoryBytes t)
    (tn_GOMAXPROCS t) (tn_GCPercent t) (tn_MemoryLimitBytes t).

Record hostReserves := mkReserves { hr_agent : Z; hr_socket : Z; hr_os : Z }.
Definition reserves_total (r : hostReserves) : Z := wrapu64 (hr_agent r + hr_socket r + hr_os r).

Definition classifyHostReserves (memory : Z) : hostReserves :=
  if memory <=? 96 * MiB then mkReserves (12 * MiB) (20 * MiB) (8 * MiB)
  else if memory <=? 128 * MiB then mkReserves (16 * MiB) (36 * MiB) (12 * MiB)
  else if memory <=? 192 * MiB then mkReserves (20 * MiB) (48 * MiB) (16 * MiB)
  else if memory <=? 256 * MiB then mkReserves (24 * MiB) (64 * MiB) (20 * MiB)
  else if memory <? 512 * MiB then mkReserves (32 * MiB) (80 * MiB) (24 * MiB)
  else if memory <? 1 * GiB then mkReserves (64 * MiB) (96 * MiB) (32 * MiB)
  else if memory <? 2 * GiB then mkReserves (96 * MiB) (128 * MiB) (48 * MiB)
  else if memory <? 4 * GiB then mkReserves (128 * MiB) (192 * MiB) (96 * MiB)
  else mkReserves (128 * MiB) (256 * MiB) (memory / 16).

Definition saturatedUint64ToInt64 (value : Z) : Z := if max_int64 <? value then max_int64 else value.

Definition fillableGoLimit (memory floor ceiling : Z) : Z :=
  if memory =? 0 then floor
  else
    let reserves := classifyHostReserves memory in
    if memory <=? reserves_total reserves then clamp floor ceiling (saturatedUint64ToInt64 (wrapu64 (memory * 75) / 100))
    else clamp floor ceiling (saturatedUint64ToInt64 (memory - reserves_total reserves)).

(** The class, the number of threads, the GC percentage and the limit. *)
Definition smallKernelBudget (memory cpuCount : Z) : string * Z * Z * Z :=
  let cpuCount := if cpuCount <? 1 then 1 else cpuCount in
  if (0 <? memory) && (memory <=? 96 * MiB) then ("micro"%string, 1, 50, fillableGoLimit memory (20 * MiB) (48 * MiB))
  else if (0 <? memory) && (memory <=? 128 * MiB) then ("micro"%string, 1, 70, fillableGoLimit memory (40 * MiB) (72 * MiB))
  else if (0 <? memory) && (memory <=? 192 * MiB) then ("compact"%string, 1, 70, fillableGoLimit memory (48 * MiB) (120 * MiB))
  else if (0 <? memory) && (memory <=? 256 * MiB) then ("compact"%string, 1, 80, fillableGoLimit memory (64 * MiB) (160 * MiB))
  else if 0 <? memory then ("small"%string, if 2 <=? cpuCount then 2 else 1, 90, fillableGoLimit memory (80 * MiB) (280 * MiB))
  else ("unknown"%string, 1, 70, 40 * MiB).

Definition largeKernelBudget (memory cpuCount : Z) : string * Z * Z * Z :=
  let procs := if cpuCount <? 1 then 1 else cpuCount in
  if 4 * GiB <=? memory then ("high"%string, procs, 150, fillableGoLimit memory (192 * MiB) (4 * GiB))
  else if 2 * GiB <=? memory then ("performance"%string, Z.min procs 8, 120, fillableGoLimit memory (192 * MiB) (2 * GiB))
  else if 1 * GiB <=? memory then ("performance"%string, Z.min procs 6, 100, fillableGoLimit memory (192 * MiB) (1536 * MiB))
  else ("standard"%string, Z.min procs 2, 100, fillableGoLimit memory (192 * MiB) (512 * MiB)).

Definition selectResourceProfile (memory : Z) : ResourceProfile :=
  if (0 <? memory) && (memory <? kernelLargeMemoryThreshold) then ProfileSmall
  else if memory =? 0 then ProfileSmall else ProfileLarge.

Definition effectiveMemory (systemMemory cgroupLimit : Z) : Z :=
  if systemMemory =? 0 then cgroupLimit
  else if (0 <? cgroupLimit) && (cgroupLimit <? systemMemory) then cgroupLimit
  else systemMemory.

Definition kernelRuntimeTuning (cpuCount : Z) (info : RuntimeTuning) : RuntimeTuning :=
  let budget := match tn_Profile info with ProfileSmall => smallKernelBudget | _ => largeKernelBudget end in
  let '(memoryClass, procs, gc, limit) := budget (tn_EffectiveMemoryBytes info) cpuCount in
  info<|tn_MemoryClass := memoryClass|><|tn_GOMAXPROCS := procs|><|tn_GCPercent := gc|><|tn_MemoryLimitBytes := limit|>.

(** [ApplyRuntimeDefaults] once the profile that was asked for is known; the
    two overrides are positive or absent. *)
Definition ApplyRuntimeDefaults (requested : ResourceProfile) (systemMemory cgroupLimit cpuCount gomaxprocs memoryLimit : Z) : RuntimeTuning :=
  let effective := effectiveMemory systemMemory cgroupLimit in
  let detected := selectResourceProfile effective in
  let profile :=
    match requested, detected with
    | ProfileAuto, _ => detected
    | ProfileLarge, ProfileSmall => detected
    | _, _ => requested
    end in
  let tuning := kernelRuntimeTuning cpuCount (mkTuning profile "" systemMemory cgroupLimit effective 0 0 0) in
  let tuning := if 0 <? gomaxprocs then tuning<|tn_GOMAXPROCS := gomaxprocs|> else tuning in
  if 0 <? memoryLimit then tuning<|tn_MemoryLimitBytes := memoryLimit|> else tuning.

Definition cgroupQuotaToProcs (quota period : Z) : Z :=
  if (quota <=? 0) || (period <=? 0) then 0
  else
    let procs := Z.quot (wrap64 (quota + period - 1)) period in
    if procs <? 1 then 1 else procs.

(** ** Giving pages back *)

Definition memoryReclaimThreshold (t : RuntimeTuning) : Z :=
  let limit := tn_CgroupMemoryLimitBytes t in
  if (limit =? 0) || (1 * GiB <=? limit) then 0
  else if (match tn_Profile t with ProfileSmall => false | _ => true end) && (1 * GiB <=? tn_EffectiveMemoryBytes t) then 0
  else
    let share percent := wrapu64 (limit * percent) / 100 in
    if tn_MemoryClass t =s "micro" then share 85
    else if tn_MemoryClass t =s "compact" then share 88
    else if tn_MemoryClass t =s "small" then share 90
    else if tn_MemoryClass t =s "standard" then share 90
    else 0.

Record MemoryReclaimer := mkReclaimer {
  mr_enabled : bool; mr_thresholdBytes : Z; mr_lastCurrent : Z; mr_lastAfter : Z; mr_reclaimCount : Z; mr_lastReclaimed : Z
}.
#[export] Instance eta_MemoryReclaimer : Eta MemoryReclaimer := fun r =>
  mkReclaimer (mr_enabled r) (mr_thresholdBytes r) (mr_lastCurrent r) (mr_lastAfter r) (mr_reclaimCount r) (mr_lastReclaimed r).

Definition StartMemoryReclaimer (t : RuntimeTuning) : MemoryReclaimer :=
  let threshold := memoryReclaimThreshold t in mkReclaimer (0 <? threshold) threshold 0 0 0 0.

Definition reclaim_checkInterval (r : MemoryReclaimer) : Duration :=
  if (0 <? mr_thresholdBytes r) && (mr_thresholdBytes r <=? 128 * MiB) then 250 * Millisecond
  else if mr_thresholdBytes r <=? 256 * MiB then 500 * Millisecond
  else Second.

(** Times of the reclaimer are nanoseconds since the epoch. *)
Definition reclaimReady (r : MemoryReclaimer) (now : Time) : bool :=
  (mr_lastReclaimed r =? 0) || (5 * Second <=? time_Sub now (mr_lastReclaimed r)).

(** One tick of [run]: [now] is asked twice, before and after. *)
Definition reclaim_tick (current after : Z) (now now' : Time) (r : MemoryReclaimer) : MemoryReclaimer :=
  let r := r<|mr_lastCurrent := current|> in
  if (current <? mr_thresholdBytes r) || negb (reclaimReady r now) then r
  else r<|mr_lastAfter := after|><|mr_reclaimCount ::= fun n => wrapu64 (n + 1)|><|mr_lastReclaimed := now'|>.

(** ** The ceiling of the socket buffers *)

Record socketGovernorProfile := mkGovProfile {
  gp_peakCap : Z; gp_balancedCap : Z; gp_safeCap : Z; gp_balancedWatermark : Z; gp_highWatermark : Z; gp_checkInterval : Duration
}.
Definition no_profile : socketGovernorProfile := mkGovProfile 0 0 0 0 0 0.

Definition adaptiveSocketGovernorProfile (memory : Z) : socketGovernorProfile :=
  if memory =? 0 then no_profile
  else if memory <=? 96 * MiB then mkGovProfile 1677722 (512 * 1024) (128 * 1024) 3 6 (250 * Millisecond)
  else if memory <=? 128 * MiB then mkGovProfile 1677722 (768 * 1024) (256 * 1024) 6 12 (250 * Millisecond)
  else if memory <=? 192 * MiB then mkGovProfile (6 * MiB) (2 * MiB) (512 * 1024) 8 20 (500 * Millisecond)
  else if memory <=? 256 * MiB then mkGovProfile (8 * MiB) (2 * MiB) (1 * MiB) 12 32 (500 * Millisecond)
  else if memory <? 512 * MiB then mkGovProfile (12 * MiB) (4 * MiB) 1677722 20 64 Second
  else if memory <? 1 * GiB then mkGovProfile (16 * MiB) (4 * MiB) (2 * MiB) 32 128 Second
  else no_profile.

Record SocketBufferGovernor := mkGovernor {
  sg_enabled : bool; sg_profile : socketGovernorProfile; sg_pressureBytes : Z; sg_active : Z; sg_mode : string; sg_currentCap : Z;
  sg_stableSince : Time; sg_lastChanged : Time; sg_lastError : string
}.
#[export] Instance eta_SocketBufferGovernor : Eta SocketBufferGovernor := fun g =>
  mkGovernor (sg_enabled g) (sg_profile g) (sg_pressureBytes g) (sg_active g) (sg_mode g) (sg_currentCap g) (sg_stableSince g)
    (sg_lastChanged g) (sg_lastError g).

(** One change of the ceiling: the error of [setLinuxTCPBufferCap] and the
    clock. *)
Record CapEnv := mkCapEnv { ce_error : option string; ce_now : Time }.

Definition setMode (e : CapEnv) (mode : string) (capBytes : Z) (g : SocketBufferGovernor) : SocketBufferGovernor :=
  if negb (sg_enabled g) || ((sg_mode g =s mode) && (sg_currentCap g =? capBytes)) then g
  else
    match ce_error e with
    | Some m => g<|sg_lastError := m|>
    | None =>
        let g := g<|sg_mode := mode|><|sg_currentCap := capBytes|><|sg_lastChanged := ce_now e|><|sg_lastError := ""%string|> in
        if mode =s "peak" then g<|sg_stableSince := time_zero|> else g
    end.

Definition ObserveConnections (e : CapEnv) (active : Z) (g : SocketBufferGovernor) : SocketBufferGovernor :=
  if negb (sg_enabled g) then g
  else
    let active := if active <? 0 then 0 else active in
    let g := g<|sg_active := active|> in
    if gp_highWatermark (sg_profile g) <=? active then setMode e "safe" (gp_safeCap (sg_profile g)) g
    else if gp_balancedWatermark (sg_profile g) <=? active then setMode e "balanced" (gp_balancedCap (sg_profile g)) g
    else g.

(** Load or memory that calls for the lowest ceiling. *)
Definition pressed (currentMemory : Z) (g : SocketBufferGovernor) : bool :=
  (gp_highWatermark (sg_profile g) <=? sg_active g) || ((0 <? sg_pressureBytes g) && (sg_pressureBytes g <=? currentMemory)).
(** Memory close to that. *)
Definition near_pressure (currentMemory : Z) (g : SocketBufferGovernor) : bool :=
  (0 <? sg_pressureBytes g) && (wrapu64 (sg_pressureBytes g * 95) / 100 <? currentMemory).

Definition target (g : SocketBufferGovernor) : string * Z :=
  if gp_balancedWatermark (sg_profile g) <=? sg_active g then ("balanced"%string, gp_balancedCap (sg_profile g))
  else ("peak"%string, gp_peakCap (sg_profile g)).

Definition evaluate (e : CapEnv) (now : Time) (currentMemory : Z) (g : SocketBufferGovernor) : SocketBufferGovernor :=
  if pressed currentMemory g then setMode e "safe" (gp_safeCap (sg_profile g)) (g<|sg_stableSince := time_zero|>)
  else if near_pressure currentMemory g then g<|sg_stableSince := time_zero|>
  else
    let '(mode, cap) := target g in
    if (sg_mode g =s mode) && (sg_currentCap g =? cap) then g
    else if IsZero (sg_stableSince g) then g<|sg_stableSince := now|>
    else if 10 * Second <=? time_Sub now (sg_stableSince g) then setMode e mode cap g else g.

Definition StartAdaptiveSocketGovernor (e : CapEnv) (t : RuntimeTuning) : SocketBufferGovernor :=
  let profile := adaptiveSocketGovernorProfile (tn_EffectiveMemoryBytes t) in
  let g := mkGovernor ((0 <? gp_peakCap profile) && (0 <? gp_balancedCap profile) && (0 <? gp_safeCap profile)) profile
    (memoryReclaimThreshold t) 0 "" 0 time_zero time_zero "" in
  if sg_enabled g then setMode e "peak" (gp_peakCap profile) g else g.

(** ** The budget *)


Lemma reserves_fit m : in_uint64 m -> 40 * MiB < m ->
  0 <= hr_socket (classifyHostReserves m) /\ reserves_total (classifyHostReserves m) < m /\
  hr_socket (classifyHostReserves m) <= reserves_total (classifyHostReserves m).
Proof.
  intros Hm Hl. unfold in_uint64, max_uint64 in Hm.
  assert (forall a s o, a + s + o = reserves_total (mkReserves a s o) \/ 2 ^ 64 <= a + s + o \/ a + s + o < 0) as Hw.
  { intros a s o. unfold reserves_total, wrapu64. cbn.
    destruct (decide (0 <= a + s + o < 2 ^ 64)); [left; symmetry; apply Z.mod_small; lia | right; lia]. }
  unfold classifyHostReserves, MiB, GiB in *. change (2 ^ 64) with 18446744073709551616 in *.
  assert (0 <= m / 16 <= m /\ 16 * (m / 16) <= m) as Hd by (split; [split; [apply Z.div_pos; lia | apply Z.div_le_upper_bound; lia] | apply Z.mul_div_le; lia]).
  repeat (split_if; [| try (split_if; [|])]); zify_bool; cbn [hr_socket];
    match goal with |- context [reserves_total (mkReserves ?a ?s ?o)] => destruct (Hw a s o) as [<- | [? | ?]]; lia end.
Qed.

Lemma fillable_room m floor ceiling :
  in_uint64 m -> 40 * MiB < m -> 0 < floor -> floor <= ceiling -> floor + hr_socket (classifyHostReserves m) <= m ->
  0 < fillableGoLimit m floor ceiling /\ fillableGoLimit m floor ceiling + hr_socket (classifyHostReserves m) <= m.
Proof.
  intros Hm Hl Hf Hc Hs. destruct (reserves_fit m Hm Hl) as (H0 & H1 & H2). unfold fillableGoLimit, saturatedUint64ToInt64, clamp.
  unfold MiB in Hl. destruct (Z.eqb_spec m 0); [lia |]. destruct (Z.leb_spec m (reserves_total (classifyHostReserves m))); [lia |].
  generalize dependent (reserves_total (classifyHostReserves m)). generalize dependent (hr_socket (classifyHostReserves m)). intros s Hs H0 tot H1 H2 H.
  unfold max_int64. destruct (Z.ltb_spec (2 ^ 63 - 1) (m - tot)); repeat split_if; zify_bool; lia.
Qed.

(** The reserve for sockets of each class. *)
Lemma socket_reserve m :
  hr_socket (classifyHostReserves m) =
    if m <=? 96 * MiB then 20 * MiB else if m <=? 128 * MiB then 36 * MiB else if m <=? 192 * MiB then 48 * MiB
    else if m <=? 256 * MiB then 64 * MiB else if m <? 512 * MiB then 80 * MiB else if m <? 1 * GiB then 96 * MiB
    else if m <? 2 * GiB then 128 * MiB else if m <? 4 * GiB then 192 * MiB else 256 * MiB.
Proof. unfold classifyHostReserves. by repeat split_if. Qed.

Definition budget_limit (b : string * Z * Z * Z) : Z := snd b.

Lemma small_room m cpu : in_uint64 m -> 40 * MiB < m ->
  0 < budget_limit (smallKernelBudget m cpu) /\ budget_limit (smallKernelBudget m cpu) + hr_socket (classifyHostReserves m) <= m.
Proof.
  intros Hm Hl. unfold smallKernelBudget. destruct (Z.ltb_spec 0 m); [| unfold MiB in *; lia]. cbn [andb].
  repeat split_if; zify_bool; cbn [budget_limit snd]; apply fillable_room; try done; try (unfold MiB; lia);
    rewrite socket_reserve; unfold MiB, GiB in *; repeat split_if; zify_bool; lia.
Qed.

Lemma large_room m cpu : in_uint64 m -> 512 * MiB <= m ->
  0 < budget_limit (largeKernelBudget m cpu) /\ budget_limit (largeKernelBudget m cpu) + hr_socket (classifyHostReserves m) <= m.
Proof.
  intros Hm Hl. unfold largeKernelBudget.
  repeat split_if; zify_bool; cbn [budget_limit snd]; apply fillable_room; try done; try (unfold MiB, GiB in *; lia);
    rewrite socket_reserve; unfold MiB, GiB in *; repeat split_if; zify_bool; lia.
Qed.

(** The heap leaves room for the sockets: on every host with more than
    40 MiB, small or large, container or not, the soft limit of the Go heap and
    the reserve for socket pages fit into the memory together, whichever profile
    was asked for. *)
Theorem heap_leaves_socket_room requested systemMemory cgroupLimit cpuCount gomaxprocs :
  let t := ApplyRuntimeDefaults requested systemMemory cgroupLimit cpuCount gomaxprocs 0 in
  in_uint64 systemMemory -> in_uint64 cgroupLimit -> 40 * MiB < tn_EffectiveMemoryBytes t ->
  0 < tn_MemoryLimitBytes t /\ tn_MemoryLimitBytes t + hr_socket (classifyHostReserves (tn_EffectiveMemoryBytes t)) <= tn_EffectiveMemoryBytes t.
Proof.
  cbv zeta. unfold ApplyRuntimeDefaults. set (m := effectiveMemory systemMemory cgroupLimit). intros Hs Hc.
  assert (in_uint64 m) as Hm by (unfold m, effectiveMemory; by repeat split_if).
  set (profile := match requested with ProfileAuto => _ | ProfileSmall => _ | ProfileLarge => _ end).
  assert (profile = ProfileSmall \/ 512 * MiB <= m \/ m <= 0) as Hp.
  { unfold profile, selectResourceProfile, kernelLargeMemoryThreshold. destruct (Z.ltb_spec 0 m), (Z.ltb_spec m (512 * MiB)), requested;
      cbn [andb]; auto; destruct (m =? 0); auto. }
  set (info := mkTuning _ _ _ _ _ _ _ _). set (tn := kernelRuntimeTuning cpuCount info).
  assert (tn_EffectiveMemoryBytes tn = m /\ tn_MemoryLimitBytes tn =
    budget_limit ((match profile with ProfileSmall => smallKernelBudget | _ => largeKernelBudget end) m cpuCount)) as [He Hl].
  { unfold tn, kernelRuntimeTuning, info. cbn [tn_Profile tn_EffectiveMemoryBytes].
    destruct ((match profile with ProfileSmall => smallKernelBudget | _ => largeKernelBudget end) m cpuCount) as [[[c p] g] l]. done. }
  replace (0 <? 0) with false by done.
  assert (forall b : bool, tn_EffectiveMemoryBytes (if b then tn<|tn_GOMAXPROCS := gomaxprocs|> else tn) = m /\
    tn_MemoryLimitBytes (if b then tn<|tn_GOMAXPROCS := gomaxprocs|> else tn) = tn_MemoryLimitBytes tn) as Hg by (intros []; done).
  destruct (Hg (0 <? gomaxprocs)) as [-> ->]. rewrite Hl. intros Hbig.
  destruct Hp as [-> | [Hp | Hp]]; [by apply small_room | | unfold MiB in *; lia].
  destruct profile; [by apply large_room | by apply small_room | by apply large_room].
Qed.

Lemma heap_leaves_socket_room_witness :
  let t := ApplyRuntimeDefaults ProfileAuto (1024 * MiB) (128 * MiB) 4 0 0 in
  tn_MemoryLimitBytes t = 64 * MiB /\ tn_MemoryLimitBytes t + 36 * MiB <= 128 * MiB.
Proof.
  split; [by_compute |].
  pose proof (heap_leaves_socket_room ProfileAuto (1024 * MiB) (128 * MiB) 4 0 ltac:(split; by_compute) ltac:(split; by_compute) ltac:(by_compute)) as [_ H].
  exact H.
Defined.

(** ** The reclaimer *)

(** A tick returns pages only above the threshold and five seconds after the
    last time. *)
Lemma reclaim_is_paced current after now now' r :
  mr_reclaimCount (reclaim_tick current after now now' r) <> mr_reclaimCount r ->
  mr_thresholdBytes r <= current /\ (mr_lastReclaimed r = 0 \/ 5 * Second <= time_Sub now (mr_lastReclaimed r)) /\
  mr_lastReclaimed (reclaim_tick current after now now' r) = now'.
Proof.
  unfold reclaim_tick, reclaimReady. cbn [mr_thresholdBytes mr_lastReclaimed upd]. destruct (Z.ltb_spec current (mr_thresholdBytes r)); [done |].
  destruct (Z.eqb_spec (mr_lastReclaimed r) 0); cbn [negb orb]; [by intros _; split_and!; auto |].
  destruct (Z.leb_spec (5 * Second) (time_Sub now (mr_lastReclaimed r))); cbn [negb]; [intros _; by split_and!; auto | done].
Qed.

(** ** The governor *)

Inductive gov_event := GObserve (e : CapEnv) (active : Z) | GTick (e : CapEnv) (now : Time) (currentMemory : Z).

Definition calm (currentMemory : Z) (g : SocketBufferGovernor) : bool := negb (pressed currentMemory g) && negb (near_pressure currentMemory g).

(** The governor with the ticks it saw, newest first: when, and whether they
    found no pressure. *)
Definition gov_step (s : SocketBufferGovernor * list (Time * bool)) (ev : gov_event) : SocketBufferGovernor * list (Time * bool) :=
  let '(g, ticks) := s in
  match ev with
  | GObserve e active => (ObserveConnections e active g, ticks)
  | GTick e now memory => (evaluate e now memory g, (now, calm memory g) :: ticks)
  end.

Definition governed (e : CapEnv) (t : RuntimeTuning) (evs : list gov_event) : SocketBufferGovernor * list (Time * bool) :=
  fold_left gov_step evs (StartAdaptiveSocketGovernor e t, []).

(** Every tick since the one that started the calm found no pressure. *)
Definition calm_since (g : SocketBufferGovernor) (ticks : list (Time * bool)) : Prop :=
  IsZero (sg_stableSince g) = false ->
  exists post pre, ticks = post ++ (sg_stableSince g, true) :: pre /\ Forall (fun x => snd x = true) post.

Lemma setMode_stable e mode cap g : sg_stableSince (setMode e mode cap g) = sg_stableSince g \/ IsZero (sg_stableSince (setMode e mode cap g)) = true.
Proof.
  unfold setMode. destruct (_ || _); [by left |]. destruct (ce_error e); [by left |]. destruct (mode =s "peak"); [by right | by left].
Qed.

Lemma setMode_calm e mode cap g ticks : calm_since g ticks -> calm_since (setMode e mode cap g) ticks.
Proof. intros Hc Hz. destruct (setMode_stable e mode cap g) as [H | H]; [rewrite H in *; auto | congruence]. Qed.

Lemma calm_since_cons g ticks now : calm_since g ticks -> calm_since g ((now, true) :: ticks).
Proof. intros Hc Hz. destruct (Hc Hz) as (post & pre & -> & Hp). exists ((now, true) :: post), pre. split; [done |]. by apply Forall_cons. Qed.

Lemma zero_calm g ticks : IsZero (sg_stableSince g) = true -> calm_since g ticks.
Proof. intros H Hz. congruence. Qed.

Lemma gov_step_calm g ticks ev : calm_since g ticks -> let '(g', ticks') := gov_step (g, ticks) ev in calm_since g' ticks'.
Proof.
  intros Hc. destruct ev as [e active | e now memory]; cbn [gov_step].
  - unfold ObserveConnections. destruct (negb _); [done |]. cbv zeta. destruct (_ <=? _); [by apply setMode_calm |].
    destruct (_ <=? _); [by apply setMode_calm | exact Hc].
  - unfold evaluate, calm. destruct (pressed memory g); [by apply setMode_calm, zero_calm |].
    destruct (near_pressure memory g); [by apply zero_calm |]. cbn [negb andb]. destruct (target g) as [mode cap].
    destruct (_ && _); [by apply calm_since_cons |]. destruct (IsZero (sg_stableSince g)).
    + intros _. by exists [], ticks.
    + destruct (_ <=? _); [by apply setMode_calm, calm_since_cons | by apply calm_since_cons].
Qed.

Lemma governed_calm e t evs : calm_since (fst (governed e t evs)) (snd (governed e t evs)).
Proof.
  unfold governed. induction evs as [| ev evs IH] using rev_ind.
  - cbn [fold_left fst snd]. unfold StartAdaptiveSocketGovernor. destruct (sg_enabled _); [apply setMode_calm |]; by apply zero_calm.
  - rewrite fold_left_app. cbn [fold_left]. destruct (fold_left gov_step evs _) as [g ticks]. cbn [fst snd] in IH.
    pose proof (gov_step_calm g ticks ev IH) as H. by destruct (gov_step (g, ticks) ev).
Qed.

(** The ceiling follows the load. A tick that finds too many connections or
    memory under pressure lowers it to the safe one, unless the kernel refuses;
    a tick raises it only if it finds no pressure itself and every tick of the
    last ten seconds found none. *)
Theorem ceiling_rises_after_calm e t evs e' now memory :
  let '(g, ticks) := governed e t evs in
  let g' := evaluate e' now memory g in
  (pressed memory g = true -> sg_enabled g = true -> ce_error e' = None ->
     sg_mode g' = "safe"%string /\ sg_currentCap g' = gp_safeCap (sg_profile g)) /\
  (sg_currentCap g < sg_currentCap g' -> pressed memory g = false ->
     near_pressure memory g = false /\
     exists post since pre, ticks = post ++ (since, true) :: pre /\ Forall (fun x => snd x = true) post /\ 10 * Second <= time_Sub now since).
Proof.
  pose proof (governed_calm e t evs) as Hc. destruct (governed e t evs) as [g ticks]. cbn [fst snd] in Hc. cbv zeta. unfold evaluate. split.
  - intros -> He Hok. unfold setMode. cbn [sg_enabled sg_mode sg_currentCap upd]. rewrite He, Hok. cbn [negb orb].
    destruct ((sg_mode g =s "safe") && (sg_currentCap g =? gp_safeCap (sg_profile g))) eqn:E; [| by destruct ("safe" =s "peak")].
    apply andb_true_iff in E as [E1 E2]. apply str_eqb_eq in E1. apply Z.eqb_eq in E2. by split.
  - intros Hup Hpr. rewrite Hpr in Hup. destruct (near_pressure memory g); [cbn in Hup; lia |]. split; [done |]. destruct (target g) as [mode cap].
    destruct (_ && _); [lia |]. destruct (IsZero (sg_stableSince g)) eqn:Ez; [cbn in Hup; lia |].
    destruct (Z.leb_spec (10 * Second) (time_Sub now (sg_stableSince g))); [| lia].
    destruct (Hc Ez) as (post & pre & Ht & Hp). by exists post, (sg_stableSince g), pre.
Qed.

(** An observation undoes the ceiling that memory pressure asked for: with
    the connections between the two watermarks the next one that opens or closes
    raises it again at once. *)
Theorem observation_undoes_pressure :
  let ok := mkCapEnv None (1704067200 * Second) in
  let t := mkTuning ProfileSmall "micro" (128 * MiB) (128 * MiB) (128 * MiB) 1 70 (64 * MiB) in
  let g := evaluate ok (1704067200 * Second) (120 * MiB) (ObserveConnections ok 8 (StartAdaptiveSocketGovernor ok t)) in
  sg_mode g = "safe"%string /\ sg_mode (ObserveConnections ok 8 g) = "balanced"%string /\
  sg_currentCap g < sg_currentCap (ObserveConnections ok 8 g) /\ pressed (120 * MiB) (ObserveConnections ok 8 g) = true.
Proof. by_compute. Qed.
