(* ===== verification/VpngatePool.v ===== *)
(** * VpngatePool: the pool of OpenVPN tunnels

    Model of kernel/oboard-sb/internal/protocol/vpngatepool (pool.go): an exit
    that keeps an ordered set of OpenVPN servers, the active one and some hot
    standbys connected, chooses the tunnel of a new connection, takes members
    down that fail, and replaces the membership.

    A tunnel is a number. The pool records which ones it has closed, and which
    ones no longer work, for whatever reason. A member is a position in the
    list of members, where the source has a pointer. The goroutines are the
    sections they run under the lock, one event each; the channels that only
    wake them are left out, since any event may happen at any time. *)

From S2P Require Import Prelude GoTime.

Definition connectTimeout : Z := 20 * Second.
Definition healthFailureLimit : Z := 2.
Definition passiveFailureLimit : Z := 3.
Definition passiveWindow : Z := 10 * Second.
Definition drainPeriod : Z := 5 * Minute.
Definition minBackoff : Z := 15 * Second.
Definition maxBackoff : Z := 10 * Minute.
Definition maxErrorLength : nat := 256.
Definition maxHotStandby : Z := 2.
Definition MaxMembers : nat := 8.

Inductive member_phase := stateIdle | stateConnecting | stateUp | stateCooldown.

#[export] Instance member_phase_eq_dec : EqDecision member_phase.
Proof. solve_decision. Defined.

Section Pool.
(** The description of a server, its normal form and the digest of a list of
    members. *)
Context {Spec : Type}.

Record Member := mkMember { mb_ID : string; mb_Spec : Spec }.

Record memberState := mkMemberState {
  ms_member : Member; ms_digest : string; ms_state : member_phase; ms_session : option nat; ms_failures : Z;
  ms_healthFailures : Z; ms_passive : list Time; ms_nextAttempt : Time; ms_lastError : string; ms_handshake : Z; ms_rtt : Z;
  ms_lastChange : Time
}.

#[export] Instance eta_memberState : Eta memberState := fun m =>
  mkMemberState (ms_member m) (ms_digest m) (ms_state m) (ms_session m) (ms_failures m) (ms_healthFailures m) (ms_passive m)
    (ms_nextAttempt m) (ms_lastError m) (ms_handshake m) (ms_rtt m) (ms_lastChange m).

Definition ms_ID (m : memberState) : string := mb_ID (ms_member m).

(** The pool, with the tunnels opened for it so far ([pl_next] of them), the
    ones it closed, the ones that no longer work, and the connection attempts
    in flight. *)
Record Pool := mkPool {
  pl_hotStandby : Z; pl_revision : Z; pl_digest : string; pl_members : list memberState; pl_activeID : string;
  pl_draining : list (nat * Time); pl_cancelled : bool;
  pl_next : nat; pl_closed : gset nat; pl_dead : gset nat; pl_pending : list (string * string)
}.

#[export] Instance eta_Pool : Eta Pool := fun p =>
  mkPool (pl_hotStandby p) (pl_revision p) (pl_digest p) (pl_members p) (pl_activeID p) (pl_draining p) (pl_cancelled p)
    (pl_next p) (pl_closed p) (pl_dead p) (pl_pending p).

Definition newPool (hotStandby : Z) : Pool := mkPool hotStandby 0 "" [] "" [] false 0 ∅ ∅ [].

Definition Alive (p : Pool) (s : nat) : bool := negb (bool_decide (s ∈ pl_dead p)).
Definition close_session (s : nat) (p : Pool) : Pool := p<|pl_closed ::= fun c => {[s]} ∪ c|><|pl_dead ::= fun c => {[s]} ∪ c|>.
Definition close_held (s : option nat) (p : Pool) : Pool := match s with Some s => close_session s p | None => p end.

Definition set_member (i : nat) (f : memberState -> memberState) (p : Pool) : Pool := p<|pl_members ::= alter f i|>.

(** ** The choice of a tunnel *)

Definition usable (p : Pool) (m : memberState) : option nat :=
  match ms_session m with
  | Some s => if bool_decide (ms_state m = stateUp) && Alive p s then Some s else None
  | None => None
  end.

Fixpoint first_usable (p : Pool) (only : string -> bool) (ms : list memberState) : option (string * nat) :=
  match ms with
  | [] => None
  | m :: ms =>
      match usable p m with
      | Some s => if only (ms_ID m) then Some (ms_ID m, s) else first_usable p only ms
      | None => first_usable p only ms
      end
  end.

Definition selectActiveLocked (p : Pool) : option (string * nat) * Pool :=
  match (if pl_activeID p =s "" then None else first_usable p (fun id => id =s pl_activeID p) (pl_members p)) with
  | Some r => (Some r, p)
  | None =>
      match first_usable p (fun _ => true) (pl_members p) with
      | Some (id, s) => (Some (id, s), p<|pl_activeID := id|>)
      | None => (None, p<|pl_activeID := ""|>)
      end
  end.

Definition anyConnectingLocked (p : Pool) : bool := existsb (fun m => bool_decide (ms_state m = stateConnecting)) (pl_members p).

Definition memberLocked (id : string) (p : Pool) : option (nat * memberState) :=
  list_find (fun m => ms_ID m = id) (pl_members p).

(** ** Failures *)

Definition boundError (message : string) : string :=
  if Z.of_nat maxErrorLength <? str_len message then substring 0 maxErrorLength message else message.

Fixpoint double_delay (steps : nat) (delay : Z) : Z :=
  match steps with
  | O => delay
  | S steps => if delay <? maxBackoff then double_delay steps (delay * 2) else delay
  end.

Definition backoff (failures : Z) : Z :=
  if failures <=? 0 then minBackoff
  else let delay := double_delay (Z.to_nat (failures - 1)) minBackoff in if maxBackoff <? delay then maxBackoff else delay.

Definition down (now : Time) (reason : string) (m : memberState) : memberState :=
  m<|ms_session := None|><|ms_failures ::= Z.succ|><|ms_healthFailures := 0|><|ms_passive := []|><|ms_state := stateCooldown|>
   <|ms_lastError := boundError reason|><|ms_nextAttempt := now + backoff (ms_failures m + 1)|><|ms_lastChange := now|>.

Definition markDownLocked (now : Time) (reason : string) (i : nat) (p : Pool) : Pool :=
  match pl_members p !! i with
  | None => p
  | Some m =>
      let p := set_member i (down now reason) (close_held (ms_session m) p) in
      if pl_activeID p =s ms_ID m then p<|pl_activeID := ""|> else p
  end.

(** What a failed dial says of the tunnel. *)
Inductive dial_error := DialIPv6 | DialTimeout | DialTunnelClosed | DialOther.

Definition recordDialFailure (now : Time) (id : string) (s : nat) (err : dial_error) (p : Pool) : bool * Pool :=
  match err with
  | DialIPv6 => (false, p)
  | _ =>
      if Alive p s && match err with DialOther => true | _ => false end then (false, p)
      else
        match memberLocked id p with
        | None => (true, p)
        | Some (i, m) =>
            if negb (bool_decide (ms_session m = Some s)) then (true, p)
            else if negb (Alive p s) then (true, markDownLocked now "tunnel closed" i p)
            else
              let passive := List.filter (fun at_ => now - at_ <=? passiveWindow) (ms_passive m) ++ [now] in
              let p := set_member i (fun m => m<|ms_passive := passive|>) p in
              if passiveFailureLimit <=? Z.of_nat (List.length passive) then (true, markDownLocked now "repeated dial timeouts" i p)
              else (false, p)
        end
  end.

(** The result of a health check of the tunnel [s]. *)
Definition health_result (now : Time) (id : string) (s : nat) (res : result string Z) (p : Pool) : Pool :=
  match memberLocked id p with
  | None => p
  | Some (i, m) =>
      if negb (bool_decide (ms_session m = Some s)) then p
      else
        match res with
        | Ok rtt => set_member i (fun m => m<|ms_healthFailures := 0|><|ms_rtt := rtt|>) p
        | Err err =>
            let p := set_member i (fun m => m<|ms_healthFailures ::= Z.succ|><|ms_lastError := boundError err|>) p in
            if healthFailureLimit <=? ms_healthFailures m + 1 then markDownLocked now "health check failed" i p else p
        end
  end.

(** ** Keeping tunnels connected *)

Definition is_live (m : memberState) : bool := bool_decide (ms_state m = stateUp) || bool_decide (ms_state m = stateConnecting).

Fixpoint keep_draining (now : Time) (l : list (nat * Time)) (p : Pool) : list (nat * Time) * Pool :=
  match l with
  | [] => ([], p)
  | (s, until) :: l =>
      if (until <? now) || negb (Alive p s) then keep_draining now l (close_session s p)
      else let '(kept, p) := keep_draining now l p in ((s, until) :: kept, p)
  end.

(** The member at [i], taken down if its tunnel broke. *)
Definition check_member (now : Time) (p : Pool) (i : nat) : Pool :=
  match pl_members p !! i with
  | Some m =>
      match ms_session m with
      | Some s => if bool_decide (ms_state m = stateUp) && negb (Alive p s) then markDownLocked now "tunnel closed" i p else p
      | None => p
      end
  | None => p
  end.

Definition live_count (p : Pool) : Z := Z.of_nat (List.length (List.filter is_live (pl_members p))).

(** A connection attempt for the member at [i], if another one is wanted. *)
Definition connect_step (now : Time) (desired : Z) (acc : Pool * Z) (i : nat) : Pool * Z :=
  let '(p, live) := acc in
  match pl_members p !! i with
  | None => acc
  | Some m =>
      if desired <=? live then acc
      else if is_live m then acc
      else if bool_decide (ms_state m = stateCooldown) && (now <? ms_nextAttempt m) then acc
      else ((set_member i (fun m => m<|ms_state := stateConnecting|><|ms_lastChange := now|>) p)
              <|pl_pending ::= fun l => l ++ [(ms_ID m, ms_digest m)]|>, live + 1)
  end.

(** The member at [i] disconnected, if there is one too many. [None] is the
    nil dereference of a member that is up without a tunnel. *)
Definition trim_step (now : Time) (desired : Z) (acc : option (Pool * Z)) (i : nat) : option (Pool * Z) :=
  match acc with
  | None => None
  | Some (p, live) =>
      match pl_members p !! i with
      | None => acc
      | Some m =>
          if live <=? desired then acc
          else if negb (bool_decide (ms_state m = stateUp)) || (ms_ID m =s pl_activeID p) then acc
          else
            match ms_session m with
            | None => None
            | Some s =>
                Some (set_member i (fun m => m<|ms_session := None|><|ms_state := stateIdle|><|ms_lastChange := now|>) (close_session s p),
                      live - 1)
            end
      end
  end.

Definition indices (p : Pool) : list nat := seq 0 (List.length (pl_members p)).

Definition reconcile (now : Time) (p : Pool) : option Pool :=
  if pl_cancelled p then Some p
  else
    let '(kept, p) := keep_draining now (pl_draining p) p in
    let p := p<|pl_draining := kept|> in
    let desired := Z.min (1 + pl_hotStandby p) (Z.of_nat (List.length (pl_members p))) in
    let p := fold_left (check_member now) (indices p) p in
    let '(p, live) := fold_left (connect_step now desired) (indices p) (p, live_count p) in
    fst <$> fold_left (trim_step now desired) (rev (indices p)) (Some (p, live)).

(** What the closure of [NewOutbound] returns as a [session]. [openvpn.Connect]
    returns a pointer, and a nil pointer makes an interface that is not nil. *)
Inductive iface := NilInterface | NilTunnel | Tunnel (s : nat).

Definition connect (res : result string Z) (p : Pool) : iface * Pool :=
  match res with
  | Ok _ => (Tunnel (pl_next p), p<|pl_next ::= S|>)
  | Err _ => (NilTunnel, p)
  end.

(** [if sess != nil { sess.Close() }]; [None] is the nil dereference. *)
Definition close_iface (sess : iface) (p : Pool) : option Pool :=
  match sess with
  | NilInterface => Some p
  | NilTunnel => None
  | Tunnel s => Some (close_session s p)
  end.

(** The end of a connection attempt: the tunnel with the time its handshake
    took, or the error. *)
Definition connectMember (now : Time) (id digest : string) (res : result string Z) (p : Pool) : option Pool :=
  let '(sess, p) := connect res p in
  match memberLocked id p with
  | None => close_iface sess p
  | Some (i, m) =>
      if negb (ms_digest m =s digest) || negb (bool_decide (ms_state m = stateConnecting)) || pl_cancelled p then close_iface sess p
      else
        match res with
        | Err err =>
            Some (set_member i (fun m => m<|ms_failures ::= Z.succ|><|ms_state := stateCooldown|><|ms_lastError := boundError err|>
              <|ms_nextAttempt := now + backoff (ms_failures m + 1)|><|ms_lastChange := now|>) p)
        | Ok handshake =>
            Some (set_member i (fun m => m<|ms_session := match sess with Tunnel s => Some s | _ => None end|><|ms_state := stateUp|>
              <|ms_handshake := handshake|><|ms_healthFailures := 0|><|ms_passive := []|><|ms_lastError := ""|><|ms_lastChange := now|>) p)
        end
  end.

(** The watcher of a tunnel, once it is done. *)
Definition watch_session (now : Time) (id : string) (s : nat) (p : Pool) : Pool :=
  match memberLocked id p with
  | Some (i, m) => if bool_decide (ms_session m = Some s) then markDownLocked now "tunnel closed" i p else p
  | None => p
  end.

(** ** The membership *)

Record MembersUpdate := mkUpdate {
  mu_Revision : Z; mu_Digest : string; mu_HotStandby : option Z; mu_Members : list Member
}.

Inductive members_error := ErrStaleRevision | ErrRevisionConflict | ErrUpdate (e : string).

Context (Normalize : Spec -> result string Spec) (MembersDigest : list Member -> string).

Definition member_id_char (c : ascii) : bool :=
  let n := nat_of_ascii c in
  ((65 <=? n) && (n <=? 90) || (97 <=? n) && (n <=? 122) || (48 <=? n) && (n <=? 57))%nat ||
  existsb (Ascii.eqb c) [ "."%char; "_"%char; ":"%char; "-"%char ].

Definition memberIDPattern (id : string) : bool :=
  (1 <=? str_len id) && (str_len id <=? 64) && forallb member_id_char (list_ascii_of_string id).

(** The members in their normal form, with their digests. *)
Fixpoint normalize_members (seen : gset string) (ms : list Member) : result string (list (Member * string)) :=
  match ms with
  | [] => Ok []
  | m :: ms =>
      if negb (memberIDPattern (mb_ID m)) then Err "invalid member_id"%string
      else if bool_decide (mb_ID m ∈ seen) then Err "duplicate member_id"%string
      else
        let? spec := Normalize (mb_Spec m) in
        let m := mkMember (mb_ID m) spec in
        let? rest := normalize_members ({[mb_ID m]} ∪ seen) ms in
        Ok ((m, MembersDigest [m]) :: rest)
  end.

(** The members of the update: those that stay keep their state. *)
Definition next_member (now : Time) (old : list memberState) (md : Member * string) : memberState :=
  match List.find (fun c => (ms_ID c =s mb_ID md.1) && (ms_digest c =s md.2)) old with
  | Some c => c
  | None => mkMemberState md.1 md.2 stateIdle None 0 0 [] time_zero "" 0 0 now
  end.

Definition stays (ms : list (Member * string)) (c : memberState) : bool :=
  existsb (fun md => (mb_ID md.1 =s ms_ID c) && (md.2 =s ms_digest c)) ms.

Definition remove_member (now : Time) (p : Pool) (c : memberState) : Pool :=
  let p := match ms_session c with Some s => p<|pl_draining ::= fun l => l ++ [(s, now + drainPeriod)]|> | None => p end in
  if pl_activeID p =s ms_ID c then p<|pl_activeID := ""|> else p.

Definition SetMembers (now : Time) (u : MembersUpdate) (p : Pool) : option members_error * Pool :=
  if mu_Revision u <=? 0 then (Some (ErrUpdate "revision"), p)
  else if (MaxMembers <? List.length (mu_Members u))%nat then (Some (ErrUpdate "members"), p)
  else if match mu_HotStandby u with Some h => (h <? 0) || (maxHotStandby <? h) | None => false end then (Some (ErrUpdate "hot_standby"), p)
  else
    match normalize_members ∅ (mu_Members u) with
    | Err e => (Some (ErrUpdate e), p)
    | Ok ms =>
        let digest := if TrimSpace (mu_Digest u) =s "" then MembersDigest (map fst ms) else TrimSpace (mu_Digest u) in
        if 128 <? str_len digest then (Some (ErrUpdate "content_digest"), p)
        else if mu_Revision u <? pl_revision p then (Some ErrStaleRevision, p)
        else if mu_Revision u =? pl_revision p then
          (if digest =s pl_digest p then (None, p) else (Some ErrRevisionConflict, p))
        else
          let old := pl_members p in
          let p := fold_left (remove_member now) (List.filter (fun c => negb (stays ms c)) old) p in
          (None, p<|pl_members := map (next_member now old) ms|><|pl_hotStandby ::= fun h => default h (mu_HotStandby u)|>
                  <|pl_revision := mu_Revision u|><|pl_digest := digest|>)
    end.

(** [Close]: the pool stops, and so does every tunnel it holds. *)
Definition pool_Close (p : Pool) : Pool :=
  let p := p<|pl_cancelled := true|> in
  let p := fold_left (fun p m => close_held (ms_session m) p) (pl_members p) p in
  let p := p<|pl_members ::= map (fun m => m<|ms_session := None|>)|> in
  (fold_left (fun p d => close_session (fst d) p) (pl_draining p) p)<|pl_draining := []|>.

(** ** Dialling *)

(** [activeSession] without the time it may wait: it answers, refuses, or
    waits for a change while a member is connecting. *)
Inductive active_answer := ActiveTunnel (id : string) (s : nat) | NoHealthyMember | ActiveWaits.

Definition activeSession (p : Pool) : active_answer * Pool :=
  match selectActiveLocked p with
  | (Some (id, s), p) => (ActiveTunnel id s, p)
  | (None, p) => (if anyConnectingLocked p then ActiveWaits else NoHealthyMember, p)
  end.

(** ** Events *)

Inductive pool_event :=
| EvReconcile (now : Time)
| EvConnected (now : Time) (id digest : string) (res : result string Z)
| EvBreaks (s : nat)
| EvDone (now : Time) (id : string) (s : nat)
| EvHealth (now : Time) (id : string) (s : nat) (res : result string Z)
| EvDialFailed (now : Time) (id : string) (s : nat) (err : dial_error)
| EvSelect
| EvSetMembers (now : Time) (u : MembersUpdate)
| EvClose.

Inductive pool_step : Pool -> pool_event -> Pool -> Prop :=
| step_reconcile p now p' : reconcile now p = Some p' -> pool_step p (EvReconcile now) p'
| step_connected p now id digest res l1 l2 p' :
    pl_pending p = l1 ++ (id, digest) :: l2 -> connectMember now id digest res (p<|pl_pending := l1 ++ l2|>) = Some p' ->
    pool_step p (EvConnected now id digest res) p'
| step_breaks p s : (s < pl_next p)%nat -> pool_step p (EvBreaks s) (p<|pl_dead ::= fun c => {[s]} ∪ c|>)
| step_done p now id s : Alive p s = false -> pool_step p (EvDone now id s) (watch_session now id s p)
| step_health p now id s res : pool_step p (EvHealth now id s res) (health_result now id s res p)
| step_dial p now id s err : pool_step p (EvDialFailed now id s err) (snd (recordDialFailure now id s err p))
| step_select p : pool_step p EvSelect (snd (selectActiveLocked p))
| step_members p now u : pool_step p (EvSetMembers now u) (snd (SetMembers now u p))
| step_close p : pool_step p EvClose (pool_Close p).

Inductive reachable (hotStandby : Z) : Pool -> Prop :=
| reach_new : reachable hotStandby (newPool hotStandby)
| reach_step p ev p' : reachable hotStandby p -> pool_step p ev p' -> reachable hotStandby p'.

(** ** The tunnels of a pool *)

Definition sessions_of (ms : list memberState) : list nat := omap ms_session ms.
Definition held (p : Pool) : list nat := sessions_of (pl_members p) ++ map fst (pl_draining p).

Record pool_inv (p : Pool) : Prop := {
  pi_ids : NoDup (map ms_ID (pl_members p));
  pi_up : forall m, m ∈ pl_members p -> if pl_cancelled p then ms_session m = None else is_Some (ms_session m) <-> ms_state m = stateUp;
  pi_drained : pl_cancelled p = true -> pl_draining p = [];
  pi_held : NoDup (held p);
  pi_open : forall s, s ∈ held p <-> (s < pl_next p)%nat /\ s ∉ pl_closed p;
  pi_closed : forall s, s ∈ pl_closed p -> s ∈ pl_dead p /\ (s < pl_next p)%nat;
  pi_active : pl_cancelled p = false -> pl_activeID p <> "" ->
    exists m, m ∈ pl_members p /\ ms_ID m = pl_activeID p /\ ms_state m = stateUp;
  pi_connecting : forall m, m ∈ pl_members p -> pl_cancelled p = false -> ms_state m = stateConnecting -> (ms_ID m, ms_digest m) ∈ pl_pending p;
  pi_count : (List.length (pl_members p) <= MaxMembers)%nat
}.

Lemma split_at (ms : list memberState) i m :
  ms !! i = Some m -> exists l1 l2, ms = l1 ++ m :: l2 /\ forall f, alter f i ms = l1 ++ f m :: l2.
Proof.
  intros H. exists (take i ms), (drop (S i) ms). pose proof (take_drop_middle _ _ _ H) as E. split; [done |].
  intros f. rewrite <- E at 1. rewrite alter_app_r_alt; rewrite length_take_le by (apply lookup_lt_Some in H; lia); [| lia].
  by rewrite Nat.sub_diag.
Qed.

Lemma sessions_split l1 m l2 : sessions_of (l1 ++ m :: l2) = sessions_of l1 ++ option_list (ms_session m) ++ sessions_of l2.
Proof. unfold sessions_of. rewrite omap_app. cbn. by destruct (ms_session m). Qed.

Lemma in_middle (l1 l2 : list memberState) x y : x ∈ l1 ++ y :: l2 <-> x = y \/ x ∈ l1 ++ l2.
Proof. rewrite !elem_of_app, elem_of_cons. tauto. Qed.

(** A member replaced by [m'] of the same name, in a pool whose tunnels are
    accounted for. *)
Lemma inv_replace p p' l1 m m' l2 :
  pool_inv p -> pl_members p = l1 ++ m :: l2 -> pl_members p' = l1 ++ m' :: l2 ->
  ms_ID m' = ms_ID m -> ms_digest m' = ms_digest m -> pl_cancelled p = false -> pl_cancelled p' = false ->
  (is_Some (ms_session m') <-> ms_state m' = stateUp) ->
  NoDup (held p') -> (forall s, s ∈ held p' <-> (s < pl_next p')%nat /\ s ∉ pl_closed p') -> (forall s, s ∈ pl_closed p' -> s ∈ pl_dead p' /\ (s < pl_next p')%nat) ->
  (pl_activeID p' = "" \/ pl_activeID p' = pl_activeID p /\ (ms_ID m = pl_activeID p -> ms_state m = stateUp -> ms_state m' = stateUp)) ->
  (forall x, x ∈ pl_pending p -> x ∈ pl_pending p' \/ x = (ms_ID m, ms_digest m) /\ ms_state m' <> stateConnecting) ->
  (ms_state m' = stateConnecting -> (ms_ID m, ms_digest m) ∈ pl_pending p') ->
  pool_inv p'.
Proof.
  intros [H1 H2 H3 H4 H5 H6 H7 H8 H9] E E' Hid Hd Hc Hc' Hup Hnd Ho Hcl Hact Hpend Hcon.
  assert (Hne : forall x, x ∈ l1 ++ l2 -> ms_ID x <> ms_ID m).
  { rewrite E, map_app in H1. intros x Hx Hxm. cbn in H1. rewrite <- Permutation_middle, NoDup_cons in H1.
    apply (proj1 H1). rewrite <- map_app, <- Hxm. by apply (list_elem_of_fmap_2 ms_ID). }
  split; auto.
  - rewrite E'. rewrite E, map_app in H1. rewrite map_app. cbn. by rewrite Hid.
  - intros x. rewrite E', Hc', in_middle. intros [-> | Hx]; [done |]. specialize (H2 x). rewrite E, Hc, in_middle in H2. auto.
  - congruence.
  - intros _ Ha. destruct Hact as [? | [Ea Hm]]; [done |]. rewrite Ea in *. destruct (H7 Hc Ha) as (x & Hx & Hxid & Hxs).
    rewrite E, in_middle in Hx. destruct Hx as [-> | Hx].
    + exists m'. rewrite E', in_middle. split_and!; [by left | congruence | auto].
    + exists x. rewrite E', in_middle. auto.
  - intros x Hx _ Hxs. rewrite E', in_middle in Hx. destruct Hx as [-> | Hx]; [rewrite Hid, Hd; auto |].
    destruct (Hpend (ms_ID x, ms_digest x)) as [? | [[=] _]]; [| done | by apply Hne in Hx].
    apply H8; [rewrite E, in_middle; auto | done | done].
  - rewrite E'. rewrite E in H9. rewrite length_app in *. done.
Qed.

(** A member that changes without opening or closing a tunnel. *)
Lemma inv_touch p i m f pending :
  pool_inv p -> pl_cancelled p = false -> pl_members p !! i = Some m ->
  ms_ID (f m) = ms_ID m -> ms_digest (f m) = ms_digest m -> ms_session (f m) = ms_session m ->
  (ms_state (f m) = stateUp <-> ms_state m = stateUp) ->
  (forall x, x ∈ pl_pending p -> x ∈ pending \/ x = (ms_ID m, ms_digest m) /\ ms_state (f m) <> stateConnecting) ->
  (ms_state (f m) = stateConnecting -> (ms_ID m, ms_digest m) ∈ pending) ->
  pool_inv ((set_member i f p)<|pl_pending := pending|>).
Proof.
  intros Hi Hc Hm Hid Hd Hs Hst Hpend Hcon. destruct (split_at _ _ _ Hm) as (l1 & l2 & E & Ef). destruct Hi as [H1 H2 H3 H4 H5 H6 H7 H8 H9].
  assert (Hheld : held ((set_member i f p)<|pl_pending := pending|>) = held p).
  { unfold held. cbn. by rewrite Ef, E, !sessions_split, Hs. }
  eapply (inv_replace p _ l1 m (f m) l2); rewrite ?Hheld; cbn; auto; [by split | |].
  - specialize (H2 m). rewrite E, in_middle, Hc in H2. rewrite Hs, Hst. auto.
  - right. split; [done |]. intros _. by rewrite Hst.
Qed.

(** A tunnel closed by its holder: the member no longer has it. *)
Lemma inv_drop p i m s f active :
  pool_inv p -> pl_cancelled p = false -> pl_members p !! i = Some m -> ms_session m = Some s ->
  ms_ID (f m) = ms_ID m -> ms_digest (f m) = ms_digest m -> ms_session (f m) = None ->
  ms_state (f m) <> stateUp -> ms_state (f m) <> stateConnecting ->
  (active = "" \/ active = pl_activeID p /\ ms_ID m <> active) ->
  pool_inv ((set_member i f (close_session s p))<|pl_activeID := active|>).
Proof.
  intros Hi Hc Hm Hs Hid Hd Hn Hup Hcon Hact. destruct (split_at _ _ _ Hm) as (l1 & l2 & E & Ef).
  destruct (Hi) as [H1 H2 H3 H4 H5 H6 H7 H8 H9].
  set (p' := (set_member i f (close_session s p))<|pl_activeID := active|>).
  assert (Hheld : held p ≡ₚ s :: held p').
  { unfold held, p'. cbn. rewrite Ef, E, !sessions_split, Hs, Hn. cbn. by rewrite <- Permutation_middle. }
  rewrite Hheld in H4. apply NoDup_cons in H4 as [Hsn Hnd].
  eapply (inv_replace p p' l1 m (f m) l2); cbn; auto.
  - rewrite Hn. split; [by intros [? [=]] | done].
  - intros t. specialize (H5 t). rewrite Hheld, elem_of_cons in H5. split.
    + intros Ht. destruct (proj1 H5 (or_intror Ht)) as [H51 H52]. split; [done |]. rewrite elem_of_union, elem_of_singleton.
      intros [-> |]; done.
    + rewrite elem_of_union, elem_of_singleton. intros [H51 H52]. destruct (proj2 H5) as [-> | ?]; [split; tauto | tauto | done].
  - intros t. rewrite !elem_of_union, elem_of_singleton. intros [-> | Ht]; [| destruct (H6 t Ht); auto].
    split; [by left |]. apply (H5 s). rewrite Hheld. by left.
  - destruct Hact as [? | [-> Hne]]; [by left | right]. split; [done |]. congruence.
  - done.
Qed.

Lemma inv_markDown now reason i m s p :
  pool_inv p -> pl_cancelled p = false -> pl_members p !! i = Some m -> ms_session m = Some s ->
  pool_inv (markDownLocked now reason i p) /\ pl_cancelled (markDownLocked now reason i p) = false.
Proof.
  intros Hi Hc Hm Hs. unfold markDownLocked. rewrite Hm, Hs. cbn [close_held].
  pose proof (fun active => inv_drop p i m s (down now reason) active Hi Hc Hm Hs eq_refl eq_refl eq_refl ltac:(done) ltac:(done)) as H.
  destruct (_ =s _) eqn:Ea.
  - split; [apply H; by left | done].
  - apply str_eqb_neq in Ea. split; [| done]. specialize (H (pl_activeID p)). cbn in *. apply H. right. split; [done | congruence].
Qed.

Lemma member_found id p i m : memberLocked id p = Some (i, m) -> pl_members p !! i = Some m /\ ms_ID m = id.
Proof. unfold memberLocked. intros H. apply list_find_Some in H as (H1 & H2 & _). done. Qed.

Lemma has_session_running p i m s : pool_inv p -> pl_members p !! i = Some m -> ms_session m = Some s -> pl_cancelled p = false.
Proof.
  intros Hi Hm Hs. destruct (pl_cancelled p) eqn:Hc; [| done]. pose proof (pi_up _ Hi m (list_elem_of_lookup_2 _ _ _ Hm)) as H.
  rewrite Hc in H. congruence.
Qed.

Lemma pending_same p : p<|pl_pending := pl_pending p|> = p.
Proof. by destruct p. Qed.

Lemma inv_set p i m f :
  pool_inv p -> pl_cancelled p = false -> pl_members p !! i = Some m ->
  ms_ID (f m) = ms_ID m -> ms_digest (f m) = ms_digest m -> ms_session (f m) = ms_session m -> ms_state (f m) = ms_state m ->
  pool_inv (set_member i f p).
Proof.
  intros Hi Hc Hm Hid Hd Hs Hst. rewrite <- (pending_same (set_member i f p)). eapply inv_touch; eauto.
  - by rewrite Hst.
  - rewrite Hst. intros. by apply (pi_connecting _ Hi m); [eapply list_elem_of_lookup_2 | |].
Qed.

Lemma inv_watch now id s p : pool_inv p -> pool_inv (watch_session now id s p).
Proof.
  intros Hi. unfold watch_session. destruct (memberLocked id p) as [[i m] |] eqn:E; [| done]. apply member_found in E as [Hm _].
  case_bool_decide as Hs; [| done]. eapply inv_markDown; eauto. by eapply has_session_running.
Qed.

Lemma set_lookup i f p m : pl_members p !! i = Some m -> pl_members (set_member i f p) !! i = Some (f m).
Proof. intros H. cbn. by rewrite list_lookup_alter_eq, H. Qed.

Lemma inv_health now id s res p : pool_inv p -> pool_inv (health_result now id s res p).
Proof.
  intros Hi. unfold health_result. destruct (memberLocked id p) as [[i m] |] eqn:E; [| done]. apply member_found in E as [Hm _].
  case_bool_decide as Hs; [cbn [negb] | done]. pose proof (has_session_running _ _ _ _ Hi Hm Hs) as Hc.
  destruct res as [rtt | err]; [by eapply inv_set |].
  assert (pool_inv (set_member i (fun m => m<|ms_healthFailures ::= Z.succ|><|ms_lastError := boundError err|>) p)) as Hi'
    by (by eapply inv_set).
  destruct (_ <=? _); [| done]. eapply inv_markDown; [exact Hi' | done | by apply set_lookup | exact Hs].
Qed.

Lemma inv_dial now id s err p : pool_inv p -> pool_inv (snd (recordDialFailure now id s err p)).
Proof.
  intros Hi. unfold recordDialFailure. destruct err; [done | | |]; destruct (Alive p s) eqn:Ea; cbn [andb negb];
    try done; destruct (memberLocked id p) as [[i m] |] eqn:E; try done; apply member_found in E as [Hm _];
    case_bool_decide as Hs; try done; cbn [negb snd]; pose proof (has_session_running _ _ _ _ Hi Hm Hs) as Hc;
    try (by eapply inv_markDown).
  all: set (passive := _ ++ [now]);
    assert (pool_inv (set_member i (fun m => m<|ms_passive := passive|>) p)) as Hi' by (by eapply inv_set);
    destruct (_ <=? _); [| done]; eapply inv_markDown; [exact Hi' | done | by apply set_lookup | exact Hs].
Qed.

(** *** Reconciliation *)

Definition running (p : Pool) : Prop := pool_inv p /\ pl_cancelled p = false.

Lemma inv_close_draining p l1 s until l2 :
  pool_inv (p<|pl_draining := l1 ++ (s, until) :: l2|>) -> pool_inv ((close_session s p)<|pl_draining := l1 ++ l2|>).
Proof.
  intros [H1 H2 H3 H4 H5 H6 H7 H8 H9]. cbn in *.
  assert (Hheld : held (p<|pl_draining := l1 ++ (s, until) :: l2|>) ≡ₚ s :: held ((close_session s p)<|pl_draining := l1 ++ l2|>)).
  { unfold held. cbn. rewrite !map_app. cbn. rewrite !(app_assoc (sessions_of _)). by rewrite <- Permutation_middle. }
  rewrite Hheld in H4. apply NoDup_cons in H4 as [Hsn Hnd]. split; cbn; auto.
  - intros Hc. specialize (H3 Hc). by apply app_nil in H3 as [_ ?].
  - intros t. specialize (H5 t). rewrite Hheld, elem_of_cons in H5. split.
    + intros Ht. destruct (proj1 H5 (or_intror Ht)) as [H51 H52]. split; [done |]. rewrite elem_of_union, elem_of_singleton.
      intros [-> |]; done.
    + rewrite elem_of_union, elem_of_singleton. intros [H51 H52]. destruct (proj2 H5) as [-> | ?]; [split; tauto | tauto | done].
  - intros t. rewrite !elem_of_union, elem_of_singleton. intros [-> | Ht]; [| destruct (H6 t Ht); auto].
    split; [by left |]. apply (H5 s). rewrite Hheld. by left.
Qed.

Lemma inv_keep_draining now l : forall l1 p, running (p<|pl_draining := l1 ++ l|>) ->
  running ((snd (keep_draining now l p))<|pl_draining := l1 ++ fst (keep_draining now l p)|>).
Proof.
  induction l as [| [s until] l IH]; intros l1 p [Hi Hc]; [done |]. cbn [keep_draining].
  destruct (_ || _).
  - apply IH. split; [by apply inv_close_draining in Hi | done].
  - specialize (IH (l1 ++ [(s, until)]) p). destruct (keep_draining now l p) as [kept p'] eqn:E. cbn [fst snd] in *.
    rewrite <- !(app_assoc l1) in IH. by apply IH.
Qed.

Lemma inv_check now p i : running p -> running (check_member now p i).
Proof.
  intros [Hi Hc]. unfold check_member. destruct (pl_members p !! i) as [m |] eqn:Hm; [| done].
  destruct (ms_session m) as [s |] eqn:Hs; [| done]. destruct (_ && _); [| done]. by eapply inv_markDown.
Qed.

Lemma inv_connect_step now desired p live i : running p -> running (fst (connect_step now desired (p, live) i)).
Proof.
  intros [Hi Hc]. unfold connect_step. destruct (pl_members p !! i) as [m |] eqn:Hm; [| done].
  destruct (desired <=? live); [done |]. destruct (is_live m) eqn:El; [done |]. destruct (_ && _); [done |].
  unfold is_live in El. apply orb_false_iff in El as [Eu%bool_decide_eq_false Ec%bool_decide_eq_false].
  split; [| done]. eapply inv_touch; try done; cbn.
  - intros x Hx. left. rewrite elem_of_app. by left.
  - intros _. rewrite elem_of_app, list_elem_of_singleton. by right.
Qed.

Lemma inv_trim_step now desired p live i : running p ->
  exists p' live', trim_step now desired (Some (p, live)) i = Some (p', live') /\ running p'.
Proof.
  intros Hr. pose proof Hr as [Hi Hc]. unfold trim_step. destruct (pl_members p !! i) as [m |] eqn:Hm; [| by eexists _, _].
  destruct (live <=? desired); [by eexists _, _ |]. destruct (_ || _) eqn:Eo; [by eexists _, _ |].
  apply orb_false_iff in Eo as [Eu%negb_false_iff%bool_decide_eq_true Ea%str_eqb_neq].
  pose proof (pi_up _ Hi m (list_elem_of_lookup_2 _ _ _ Hm)) as Hup. rewrite Hc in Hup.
  destruct (ms_session m) as [s |] eqn:Hs; [| destruct (proj2 Hup Eu); congruence]. eexists _, _. split; [done |]. split; [| done].
  exact (inv_drop p i m s (fun m => m<|ms_session := None|><|ms_state := stateIdle|><|ms_lastChange := now|>) (pl_activeID p)
    Hi Hc Hm Hs ltac:(done) ltac:(done) ltac:(done) ltac:(done) ltac:(done) (or_intror (conj eq_refl Ea))).
Qed.

(** Reconciliation never dereferences a tunnel that is not there. *)
Lemma inv_reconcile now p : pool_inv p -> exists p', reconcile now p = Some p' /\ pool_inv p'.
Proof.
  intros Hi. unfold reconcile. destruct (pl_cancelled p) eqn:Hc; [by eauto |].
  pose proof (inv_keep_draining now (pl_draining p) [] p) as Hk. destruct (keep_draining now (pl_draining p) p) as [kept p1].
  cbn [fst snd app] in Hk. assert (running (p1<|pl_draining := kept|>)) as H1.
  { apply Hk. split; [by destruct p | done]. }
  set (desired := Z.min _ _). set (p2 := p1<|pl_draining := kept|>) in *.
  assert (running (fold_left (check_member now) (indices p2) p2)) as H2.
  { apply (fold_left_inv _ running); [done |]. intros q i _. apply inv_check. }
  set (p3 := fold_left (check_member now) (indices p2) p2) in *.
  assert (running (fst (fold_left (connect_step now desired) (indices p3) (p3, live_count p3)))) as H3.
  { apply (fold_left_inv _ (fun a : Pool * Z => running (fst a))); [done |]. intros [q live] i _. apply inv_connect_step. }
  destruct (fold_left (connect_step now desired) (indices p3) (p3, live_count p3)) as [p4 live]. cbn [fst] in H3.
  assert (exists p' live', fold_left (trim_step now desired) (rev (indices p4)) (Some (p4, live)) = Some (p', live') /\ running p')
    as (p' & live' & E & [H4 _]).
  { apply (fold_left_inv _ (fun a : option (Pool * Z) => exists p' live', a = Some (p', live') /\ running p')); [by eauto |].
    intros a i _ (q & l & -> & Hq). by apply inv_trim_step. }
  exists p'. by rewrite E.
Qed.

(** *** Connections *)

(** A tunnel nobody waits for any more. *)
Lemma inv_unwanted p pending :
  pool_inv p -> (forall m, m ∈ pl_members p -> pl_cancelled p = false -> ms_state m = stateConnecting -> (ms_ID m, ms_digest m) ∈ pending) ->
  pool_inv (close_session (pl_next p) (p<|pl_next ::= S|><|pl_pending := pending|>)).
Proof.
  intros [H1 H2 H3 H4 H5 H6 H7 H8 H9] Hp. split; cbn; auto;
    [| intros s; rewrite !elem_of_union, elem_of_singleton; intros [-> | Ht]; [auto | destruct (H6 s Ht); auto]].
  intros s. unfold held in *. cbn. rewrite H5, elem_of_union, elem_of_singleton. split; [intros []; split; [lia | intros [-> |]; [lia | done]] |].
  intros [Hlt Hn]. split; [| tauto]. assert (s <> pl_next p) by tauto. lia.
Qed.

(** The tunnel of the member that waits for it. *)
Lemma inv_connected p i m f pending :
  pool_inv p -> pl_cancelled p = false -> pl_members p !! i = Some m -> ms_state m = stateConnecting ->
  ms_ID (f m) = ms_ID m -> ms_digest (f m) = ms_digest m -> ms_session (f m) = Some (pl_next p) -> ms_state (f m) = stateUp ->
  (forall x, x ∈ pl_pending p -> x ∈ pending \/ x = (ms_ID m, ms_digest m)) ->
  pool_inv (set_member i f (p<|pl_next ::= S|><|pl_pending := pending|>)).
Proof.
  intros Hi Hc Hm Hst Hid Hd Hs Hup Hpend. destruct (split_at _ _ _ Hm) as (l1 & l2 & E & Ef).
  destruct (Hi) as [H1 H2 H3 H4 H5 H6 H7 H8 H9].
  assert (ms_session m = None) as Hn.
  { specialize (H2 m (list_elem_of_lookup_2 _ _ _ Hm)). rewrite Hc in H2. destruct (ms_session m) eqn:E0; [| done].
    rewrite (proj1 H2) in Hst; [done | by eexists]. }
  set (p' := set_member i f (p<|pl_next ::= S|><|pl_pending := pending|>)).
  assert (Hheld : held p' ≡ₚ pl_next p :: held p).
  { unfold held, p'. cbn. rewrite Ef, E, !sessions_split, Hs, Hn. cbn. by rewrite <- Permutation_middle. }
  assert (pl_closed p' = pl_closed p /\ pl_dead p' = pl_dead p /\ pl_next p' = S (pl_next p)) as (Ec & Ed & En) by done.
  eapply (inv_replace p p' l1 m (f m) l2); rewrite ?Hheld, ?Ec, ?Ed, ?En; auto.
  - apply Ef.
  - rewrite Hs. by split.
  - apply NoDup_cons. split; [| done]. rewrite H5. lia.
  - intros s. rewrite Hheld, elem_of_cons, H5. split; [| intros []; destruct (decide (s = pl_next p)); [by left | right; split; [lia | done]]].
    intros [-> | []]; [| split; [lia | done]]. split; [lia |]. by intros [_ ?%Nat.lt_irrefl]%H6.
  - intros s Hs'. destruct (H6 s Hs'). auto.
  - intros x Hx. destruct (Hpend x Hx) as [| ->]; [by left | right]. by rewrite Hup.
  - by rewrite Hup.
Qed.

Lemma member_unique p m i m' : pool_inv p -> m ∈ pl_members p -> pl_members p !! i = Some m' -> ms_ID m' = ms_ID m -> m' = m.
Proof.
  intros Hi Hm Hm' Hid. apply list_elem_of_lookup in Hm as [j Hj].
  pose proof (NoDup_lookup _ i j (ms_ID m) (pi_ids _ Hi)) as H. rewrite !list_lookup_fmap, Hm', Hj in H. cbn in H.
  rewrite Hid in H. specialize (H eq_refl eq_refl). subst. congruence.
Qed.

Lemma member_present p m id : m ∈ pl_members p -> ms_ID m = id -> exists i m', memberLocked id p = Some (i, m').
Proof.
  intros Hm Hid. unfold memberLocked. destruct (list_find _ _) as [[i m'] |] eqn:E; [by eauto |].
  apply list_find_None in E. rewrite Forall_forall in E. by destruct (E m Hm).
Qed.

Lemma inv_connect p id digest l1 l2 now res p' :
  pool_inv p -> pl_pending p = l1 ++ (id, digest) :: l2 -> connectMember now id digest res (p<|pl_pending := l1 ++ l2|>) = Some p' ->
  pool_inv p'.
Proof.
  intros Hi Hp. unfold connectMember.
  assert (Hleft : forall x, x ∈ pl_pending p -> x ∈ l1 ++ l2 \/ x = (id, digest)).
  { intros x. rewrite Hp, !elem_of_app, elem_of_cons. tauto. }
  assert (Hstale : (forall m, m ∈ pl_members p -> pl_cancelled p = false -> ms_state m = stateConnecting ->
      (ms_ID m, ms_digest m) <> (id, digest)) ->
    forall q, close_iface (fst (connect res (p<|pl_pending := l1 ++ l2|>))) (snd (connect res (p<|pl_pending := l1 ++ l2|>))) = Some q ->
    pool_inv q).
  { intros Hno q. destruct res as [h | err]; cbn; [| done]. intros [= <-]. apply (inv_unwanted p (l1 ++ l2) Hi).
    intros m Hm Hc Hs. destruct (Hleft _ (pi_connecting _ Hi m Hm Hc Hs)); [done |]. by destruct (Hno m Hm Hc Hs). }
  destruct (connect res (p<|pl_pending := l1 ++ l2|>)) as [sess q] eqn:Ec. cbn [fst snd] in Hstale.
  assert (Hq : memberLocked id q = memberLocked id p /\ pl_cancelled q = pl_cancelled p) by (destruct res; injection Ec as _ <-; done).
  destruct Hq as [Hq1 Hq2]. rewrite Hq1, Hq2. destruct (memberLocked id p) as [[i m] |] eqn:Em.
  2:{ apply Hstale. intros m Hm _ _ [= Hid _]. destruct (member_present _ _ _ Hm Hid) as (? & ? & ?). congruence. }
  apply member_found in Em as [Hm Hid]. destruct (_ || _ || _) eqn:Eo.
  - apply Hstale. intros m' Hm' Hc Hs [= Hid' Hd']. rewrite (member_unique _ _ _ _ Hi Hm' Hm) in Eo by congruence.
    rewrite Hd', str_eqb_refl, bool_decide_eq_true_2, Hc in Eo by done. done.
  - rewrite !orb_false_iff, !negb_false_iff, str_eqb_eq in Eo. destruct Eo as [[Hd Hst%bool_decide_eq_true] Hc]. clear Hstale.
    assert (Hpend : forall x, x ∈ pl_pending p -> x ∈ l1 ++ l2 \/ x = (ms_ID m, ms_digest m)) by (by rewrite Hid, Hd).
    destruct res as [h | err]; injection Ec as <- <-; intros [= <-].
    + by eapply (inv_connected p i m).
    + set (f := fun m : memberState => _). change (pool_inv ((set_member i f p)<|pl_pending := l1 ++ l2|>)).
      eapply inv_touch; try done; cbn; [by rewrite Hst |]. intros x Hx. destruct (Hpend x Hx); [by left | by right].
Qed.

(** *** The membership *)

Lemma normalize_nodup ms : forall seen out, normalize_members seen ms = Ok out ->
  NoDup (map (fun md => mb_ID md.1) out) /\ (forall md, md ∈ out -> mb_ID md.1 ∉ seen) /\ List.length out = List.length ms.
Proof.
  induction ms as [| m ms IH]; cbn; intros seen out.
  - intros [= <-]. split_and!; [constructor | | done]. intros ? []%elem_of_nil.
  - destruct (negb _); [done |]. case_bool_decide as Hseen; [done |]. destruct (Normalize (mb_Spec m)) as [spec |]; [| done]. cbn.
    destruct (normalize_members ({[mb_ID m]} ∪ seen) ms) as [rest |] eqn:E; [| done]. cbn. intros [= <-].
    destruct (IH _ _ E) as (H1 & H2 & H3). cbn. split_and!.
    + constructor; [| done]. intros (md & Hid & Hmd)%list_elem_of_fmap. apply (H2 md Hmd). rewrite <- Hid. set_solver.
    + intros md. rewrite elem_of_cons. intros [-> | Hmd]; [done |]. specialize (H2 md Hmd). set_solver.
    + by rewrite H3.
Qed.

Lemma find_stay old md c :
  List.find (fun c => (ms_ID c =s mb_ID md.1) && (ms_digest c =s md.2)) old = Some c ->
  c ∈ old /\ ms_ID c = mb_ID md.1 /\ ms_digest c = md.2.
Proof.
  intros [H1 H2]%find_some. apply andb_true_iff in H2 as [H2 H3]. rewrite str_eqb_eq in H2, H3. by rewrite list_elem_of_In.
Qed.

Lemma next_member_ID now old md : ms_ID (next_member now old md) = mb_ID md.1.
Proof. unfold next_member. destruct (List.find _ old) as [c |] eqn:E; [| done]. by apply find_stay in E as (_ & ? & _). Qed.

(** The members that stay, in the order of the update. *)
Definition staying (old : list memberState) (ms : list (Member * string)) : list memberState :=
  omap (fun md => List.find (fun c => (ms_ID c =s mb_ID md.1) && (ms_digest c =s md.2)) old) ms.

Lemma sessions_next now old ms : sessions_of (map (next_member now old) ms) = sessions_of (staying old ms).
Proof.
  induction ms as [| md ms IH]; [done |]. cbn [map staying omap list_omap]. unfold sessions_of in *. cbn [omap list_omap].
  unfold next_member at 1. destruct (List.find _ old) as [c |]; cbn; [destruct (ms_session c); [f_equal |] |]; exact IH.
Qed.

Lemma staying_elem old ms c : NoDup (map ms_ID old) -> c ∈ staying old ms <-> c ∈ old /\ stays ms c = true.
Proof.
  intros Hnd. unfold staying, stays. rewrite list_elem_of_omap, existsb_exists. split.
  - intros (md & Hmd & Hf). apply find_stay in Hf as (H1 & H2 & H3). split; [done |]. exists md. rewrite <- list_elem_of_In.
    split; [done |]. by rewrite H2, H3, !str_eqb_refl.
  - intros (Hc & md & Hmd%list_elem_of_In & [H1 H2]%andb_true_iff). rewrite str_eqb_eq in H1, H2. exists md. split; [done |].
    destruct (List.find _ old) as [c' |] eqn:Ef.
    + apply find_stay in Ef as (H3 & H4 & _). f_equal. apply list_elem_of_lookup in Hc as [i Hi], H3 as [j Hj].
      pose proof (NoDup_lookup _ i j (ms_ID c) Hnd) as H. rewrite !list_lookup_fmap, Hi, Hj in H. cbn in H.
      rewrite H4, H1 in H. specialize (H eq_refl eq_refl). congruence.
    + apply list_elem_of_In in Hc. pose proof (find_none _ _ Ef c Hc) as H. cbn in H. by rewrite H1, H2, !str_eqb_refl in H.
Qed.

Lemma staying_nodup old ms : NoDup (map (fun md => mb_ID md.1) ms) -> NoDup (staying old ms).
Proof.
  induction ms as [| md ms IH]; cbn; [constructor |]. intros [Hni Hnd]%NoDup_cons.
  destruct (List.find _ old) as [c |] eqn:Ef; [| auto]. apply find_stay in Ef as (_ & Hid & _). constructor; [| by apply IH].
  intros (md' & Hmd' & Ef')%list_elem_of_omap. apply find_stay in Ef' as (_ & Hid' & _). apply Hni.
  rewrite <- Hid, Hid'. by apply (list_elem_of_fmap_2 (fun md : Member * string => mb_ID md.1)).
Qed.

Definition expire (now : Time) (s : nat) : nat * Time := (s, now + drainPeriod).

Lemma fold_remove now l : forall p,
  fold_left (remove_member now) l p =
    p<|pl_draining := pl_draining p ++ map (expire now) (sessions_of l)|>
     <|pl_activeID := if existsb (fun c => pl_activeID p =s ms_ID c) l then "" else pl_activeID p|>.
Proof.
  induction l as [| c l IH]; intros p; cbn [fold_left existsb map sessions_of omap list_omap]; [by rewrite app_nil_r; destruct p |].
  rewrite IH. clear IH. unfold remove_member, sessions_of, upd. destruct (ms_session c); cbn; destruct (_ =s ms_ID c); cbn;
    rewrite <- ?app_assoc; by destruct (existsb _ l).
Qed.

Lemma filter_partition (f : memberState -> bool) l : l ≡ₚ List.filter f l ++ List.filter (fun c => negb (f c)) l.
Proof.
  induction l as [| c l IH]; [done |]. cbn. destruct (f c); cbn; [by rewrite <- IH |]. rewrite <- Permutation_middle. by rewrite <- IH.
Qed.

Lemma held_members p ms now active :
  pool_inv p -> NoDup (map (fun md => mb_ID md.1) ms) ->
  held (p<|pl_draining := pl_draining p ++ map (expire now) (sessions_of (List.filter (fun c => negb (stays ms c)) (pl_members p)))|>
         <|pl_activeID := active|><|pl_members := map (next_member now (pl_members p)) ms|>) ≡ₚ held p.
Proof.
  intros Hi Hnd. unfold held. cbn. rewrite sessions_next, map_app, map_map. cbn. rewrite map_id.
  assert (staying (pl_members p) ms ≡ₚ List.filter (stays ms) (pl_members p)) as E.
  { apply NoDup_Permutation; [by apply staying_nodup | |].
    - apply NoDup_ListNoDup, List.NoDup_filter, NoDup_ListNoDup. eapply NoDup_fmap_1, (pi_ids _ Hi).
    - intros c. rewrite (staying_elem _ _ _ (pi_ids _ Hi)), !list_elem_of_In, filter_In. done. }
  rewrite (Permutation_app_comm (map fst _)), app_assoc. f_equiv. unfold sessions_of at 1 2. rewrite <- omap_app. apply omap_Permutation.
  rewrite E. symmetry. apply filter_partition.
Qed.

Lemma staying_next now old ms c : c ∈ staying old ms -> c ∈ map (next_member now old) ms.
Proof.
  intros (md & Hmd & Ef)%list_elem_of_omap. apply list_elem_of_fmap. exists md. unfold next_member. by rewrite Ef.
Qed.

Lemma next_member_elem now old ms m : m ∈ map (next_member now old) ms ->
  m ∈ old \/ ms_session m = None /\ ms_state m = stateIdle.
Proof.
  intros (md & -> & _)%list_elem_of_fmap. unfold next_member. destruct (List.find _ old) as [c |] eqn:Ef; [| by right].
  left. by apply find_stay in Ef as (? & _).
Qed.

Lemma inv_members now u p : pool_inv p -> pool_inv (snd (SetMembers now u p)).
Proof.
  intros Hi. unfold SetMembers. destruct (_ <=? 0); [done |]. destruct (MaxMembers <? _)%nat eqn:El; [done |].
  destruct (match mu_HotStandby u with Some _ => _ | None => _ end); [done |].
  destruct (normalize_members ∅ (mu_Members u)) as [ms |] eqn:En; [| done]. destruct (128 <? _); [done |].
  destruct (_ <? _); [done |]. destruct (_ =? _); [by destruct (_ =s _) |]. cbn [snd]. apply Nat.ltb_ge in El.
  destruct (normalize_nodup _ _ _ En) as (Hnd & _ & Hlen). rewrite fold_remove.
  set (removed := List.filter _ (pl_members p)). set (active := if existsb _ removed then _ else _).
  pose proof (held_members p ms now active Hi Hnd) as Hheld. fold removed in Hheld.
  set (p' := (_<|pl_members := _|>)<|pl_hotStandby ::= _|><|pl_revision := _|><|pl_digest := _|>).
  change (held p' ≡ₚ held p) in Hheld. destruct (Hi) as [H1 H2 H3 H4 H5 H6 H7 H8 H9]. split.
  - cbn. rewrite map_map, (map_ext _ (fun md => mb_ID md.1)); [done | apply next_member_ID].
  - intros m [Hm | [Hs Hst]]%next_member_elem; [by apply H2 |]. cbn. rewrite Hs, Hst.
    destruct (pl_cancelled p); [done |]. split; [by intros [? [=]] | done].
  - cbn. intros Hc. rewrite (H3 Hc). cbn. assert (sessions_of removed = []) as ->; [| done].
    apply elem_of_nil_inv. intros s (c & Hcr & Hs)%list_elem_of_omap. apply list_elem_of_In, filter_In in Hcr as [Hcr%list_elem_of_In _].
    specialize (H2 c Hcr). rewrite Hc in H2. congruence.
  - by rewrite Hheld.
  - intros s. by rewrite Hheld, H5.
  - exact H6.
  - cbn. unfold active. intros Hc. destruct (existsb _ removed) eqn:Ex; [done |]. intros Ha.
    destruct (H7 Hc Ha) as (m & Hm & Hid & Hst). exists m. split_and!; [| done | done].
    destruct (stays ms m) eqn:Es; [by apply staying_next, staying_elem |]. exfalso.
    assert (m ∈ removed) as Hr by (apply list_elem_of_In, filter_In; rewrite <- list_elem_of_In, Es; done).
    apply list_elem_of_In in Hr. rewrite <- not_true_iff_false, existsb_exists in Ex. apply Ex. exists m. by rewrite Hid, str_eqb_refl.
  - intros m [Hm | [_ Hst]]%next_member_elem; [by apply H8 |]. by rewrite Hst.
  - cbn. rewrite length_map. lia.
Qed.

(** *** Closing *)

Lemma fold_close_closed l : forall p : Pool, let p' := fold_left (fun p s => close_session s p) l p in
  p' = p<|pl_closed := list_to_set l ∪ pl_closed p|><|pl_dead := list_to_set l ∪ pl_dead p|>.
Proof.
  induction l as [| s l IH]; intros p; cbn.
  - destruct p. unfold upd. cbn. f_equal; set_solver.
  - cbn in IH. rewrite IH. unfold close_session, upd. cbn. f_equal; set_solver.
Qed.

Lemma close_members ms : forall p : Pool,
  fold_left (fun p m => close_held (ms_session m) p) ms p = fold_left (fun p s => close_session s p) (sessions_of ms) p.
Proof.
  induction ms as [| m ms IH]; intros p; cbn; [done |]. rewrite IH. by destruct (ms_session m).
Qed.

Lemma close_draining (l : list (nat * Time)) : forall p : Pool,
  fold_left (fun p d => close_session (fst d) p) l p = fold_left (fun p s => close_session s p) (map fst l) p.
Proof. induction l as [| d l IH]; intros p; cbn; [done |]. apply IH. Qed.

Lemma sessions_cleared ms : sessions_of (map (fun m => m<|ms_session := None|>) ms) = [].
Proof. induction ms; cbn; done. Qed.

Lemma pool_Close_sessions p : held (pool_Close p) = [] /\ pl_closed (pool_Close p) = list_to_set (held p) ∪ pl_closed p /\
  pl_next (pool_Close p) = pl_next p /\ pl_members (pool_Close p) = map (fun m => m<|ms_session := None|>) (pl_members p) /\
  pl_dead (pool_Close p) = list_to_set (held p) ∪ pl_dead p.
Proof.
  unfold pool_Close, held. rewrite close_members, close_draining. cbn. rewrite !fold_close_closed. cbn.
  rewrite sessions_cleared. split_and!; try done; set_solver.
Qed.

Lemma inv_close p : pool_inv p -> pool_inv (pool_Close p) /\ pl_cancelled (pool_Close p) = true.
Proof.
  intros [H1 H2 H3 H4 H5 H6 H7 H8 H9]. destruct (pool_Close_sessions p) as (Eh & Ec & En & Em & Ed).
  assert (pl_cancelled (pool_Close p) = true) as Hc.
  { unfold pool_Close. rewrite close_members, close_draining. cbn. by rewrite !fold_close_closed. }
  split; [| done]. split; rewrite ?Eh, ?Ec, ?En, ?Em, ?Ed, ?Hc; try done.
  - by rewrite map_map.
  - intros m (x & -> & _)%list_elem_of_fmap. done.
  - constructor.
  - intros s. rewrite elem_of_nil, elem_of_union, elem_of_list_to_set, H5. split; [done |].
    intros [Hlt Hn]. apply Hn. destruct (decide (s ∈ pl_closed p)); [by right | by left].
  - intros s. rewrite !elem_of_union, elem_of_list_to_set. intros [Hs | Hs]; [| destruct (H6 s Hs); auto]. split; [by left |].
    by apply H5.
  - by rewrite length_map.
Qed.

(** *** Selection *)

Lemma first_usable_Some p only ms id s : first_usable p only ms = Some (id, s) ->
  exists m, m ∈ ms /\ ms_ID m = id /\ only id = true /\ ms_state m = stateUp /\ ms_session m = Some s /\ Alive p s = true.
Proof.
  induction ms as [| m ms IH]; [done |]. cbn. unfold usable. destruct (ms_session m) as [t |] eqn:Es.
  - case_bool_decide as Hst; cbn; [destruct (Alive p t) eqn:Ea; [destruct (only (ms_ID m)) eqn:Eo |] |].
    { intros [= <- <-]. exists m. rewrite elem_of_cons. auto 10. }
    all: intros H; destruct (IH H) as (x & Hx & Hrest); exists x; rewrite elem_of_cons; auto.
  - intros H. destruct (IH H) as (x & Hx & Hrest). exists x. rewrite elem_of_cons. auto.
Qed.

Lemma first_usable_None p only ms m s : first_usable p only ms = None -> m ∈ ms -> only (ms_ID m) = true ->
  ms_state m = stateUp -> ms_session m = Some s -> Alive p s = false.
Proof.
  induction ms as [| x ms IH]; cbn; [by intros _ []%elem_of_nil |]. intros H Hm Ho Hst Hs. apply elem_of_cons in Hm as [-> | Hm].
  - unfold usable in H. rewrite Hs, bool_decide_eq_true_2 in H by done. cbn in H. destruct (Alive p s); [| done]. by rewrite Ho in H.
  - apply IH; [| done..]. destruct (usable p x); [by destruct (only (ms_ID x)) | done].
Qed.

Lemma inv_active p active : pool_inv p ->
  (pl_cancelled p = false -> active <> "" -> exists m, m ∈ pl_members p /\ ms_ID m = active /\ ms_state m = stateUp) ->
  pool_inv (p<|pl_activeID := active|>).
Proof. intros [H1 H2 H3 H4 H5 H6 H7 H8 H9] Ha. split; auto. Qed.

Lemma inv_select p : pool_inv p -> pool_inv (snd (selectActiveLocked p)).
Proof.
  intros Hi. unfold selectActiveLocked. destruct (if _ : bool then None else _); [done |].
  destruct (first_usable p _ (pl_members p)) as [[id s] |] eqn:E; cbn; apply inv_active; try done.
  intros _ _. apply first_usable_Some in E as (m & ? & ? & _ & ? & _). by exists m.
Qed.

Lemma inv_step p ev p' : pool_inv p -> pool_step p ev p' -> pool_inv p'.
Proof.
  intros Hi H. destruct H; auto using inv_watch, inv_health, inv_dial, inv_select, inv_members.
  - destruct (inv_reconcile now p Hi) as (q & Hq & ?). congruence.
  - by eapply inv_connect.
  - destruct Hi as [H1 H2 H3 H4 H5 H6 H7 H8 H9]. split; auto. cbn. intros t Ht. destruct (H6 t Ht). set_solver.
  - by apply inv_close.
Qed.

Lemma new_inv h : pool_inv (newPool h).
Proof.
  split; cbn; try done; try (by intros ? []%elem_of_nil); try (by apply NoDup_nil).
  - intros s. unfold held. cbn. rewrite elem_of_nil. lia.
  - unfold MaxMembers. lia.
Qed.

Lemma pool_reachable_inv h p : reachable h p -> pool_inv p.
Proof. induction 1; [apply new_inv | by eapply inv_step]. Qed.

(** ** What the pool guarantees *)

(** C23: every tunnel is accounted for: in every reachable state each tunnel ever
    opened is either closed or held exactly once, by a member that is up or
    among the draining ones; a closed pool holds none, whatever connection
    attempts end later; and the reconciliation never closes a tunnel that is
    not there. *)
Theorem pool_accounts_for_tunnels h p :
  reachable h p ->
  NoDup (held p) /\ (forall s, (s < pl_next p)%nat -> s ∈ held p <-> s ∉ pl_closed p) /\
  (forall m, m ∈ pl_members p -> pl_cancelled p = false -> is_Some (ms_session m) <-> ms_state m = stateUp) /\
  (pl_cancelled p = true -> forall s, (s < pl_next p)%nat -> s ∈ pl_closed p) /\
  forall now, reconcile now p <> None.
Proof.
  intros Hi%pool_reachable_inv. pose proof Hi as [H1 H2 H3 H4 H5 H6 H7 H8 H9]. split_and!; [done | | | |].
  - intros s Hs. rewrite H5. tauto.
  - intros m Hm Hc. specialize (H2 m Hm). by rewrite Hc in H2.
  - intros Hc s Hs. destruct (decide (s ∈ pl_closed p)) as [| Hn]; [done |]. assert (s ∈ held p) as Hh by (by apply H5).
    unfold held in Hh. rewrite (H3 Hc), app_nil_r in Hh. apply list_elem_of_omap in Hh as (m & Hm & Hs').
    specialize (H2 m Hm). rewrite Hc in H2. congruence.
  - intros now. destruct (inv_reconcile now p Hi) as (p' & -> & _). done.
Qed.

(** New connections leave through a healthy member only: the tunnel chosen is
    a working one of a current member that is up, the active member keeps its
    role while it works, and none is chosen only when no member works. *)
Theorem traffic_stays_inside_the_pool h p :
  reachable h p ->
  match selectActiveLocked p with
  | (Some (id, s), p') =>
      (exists m, m ∈ pl_members p /\ ms_ID m = id /\ ms_state m = stateUp /\ ms_session m = Some s) /\
      Alive p s = true /\ s ∉ pl_closed p /\ pl_activeID p' = id /\
      (forall m t, m ∈ pl_members p -> ms_ID m = pl_activeID p -> pl_activeID p <> "" -> ms_state m = stateUp ->
         ms_session m = Some t -> Alive p t = true -> id = pl_activeID p)
  | (None, p') =>
      pl_activeID p' = "" /\
      forall m t, m ∈ pl_members p -> ms_state m = stateUp -> ms_session m = Some t -> Alive p t = false
  end.
Proof.
  intros Hi%pool_reachable_inv. unfold selectActiveLocked.
  assert (Hopen : forall s, Alive p s = true -> s ∉ pl_closed p).
  { intros s Ha Hs. apply (pi_closed _ Hi) in Hs as [Hs _]. unfold Alive in Ha. by rewrite bool_decide_eq_true_2 in Ha. }
  destruct (pl_activeID p =s "") eqn:E0; [apply str_eqb_eq in E0 | apply str_eqb_neq in E0;
    destruct (first_usable p (fun id => id =s pl_activeID p) (pl_members p)) as [[id s] |] eqn:E1].
  2:{ apply first_usable_Some in E1 as (m & Hm & Hid & Ho%str_eqb_eq & Hst & Hs & Ha). split_and!; eauto 10. }
  all: destruct (first_usable p (fun _ => true) (pl_members p)) as [[id s] |] eqn:E2; cbn.
  1, 3: apply first_usable_Some in E2 as (m & Hm & Hid & _ & Hst & Hs & Ha); split_and!; eauto 10.
  - done.
  - intros m' t Hm' Hid' _ Hst' Hs' Ha'. rewrite (first_usable_None _ _ _ m' t E1 Hm') in Ha';
      [done | by rewrite Hid', str_eqb_refl | done | done].
  - split; [done |]. intros. by eapply first_usable_None in E2.
  - split; [done |]. intros. by eapply first_usable_None in E2.
Qed.


Lemma keep_draining_keeps now l : forall p s until,
  NoDup (map fst l) -> (s, until) ∈ l -> Alive p s = true -> now <= until -> (s, until) ∈ fst (keep_draining now l p).
Proof.
  induction l as [| [t u] l IH]; intros p s until Hnd Hin Ha Hle; [by apply elem_of_nil in Hin |]. cbn in Hnd |- *.
  apply NoDup_cons in Hnd as [Hni Hnd]. apply elem_of_cons in Hin as [[= -> ->] | Hin].
  - rewrite Ha, (proj2 (Z.ltb_ge _ _) Hle). cbn. destruct (keep_draining now l p). cbn. by left.
  - destruct (_ || _).
    + apply IH; [done.. | | done]. unfold Alive in *. cbn. rewrite negb_true_iff, bool_decide_eq_false in *.
      rewrite elem_of_union, elem_of_singleton. intros [-> |]; [| done]. apply Hni. by apply (list_elem_of_fmap_2 fst _ (t, until)).
    + specialize (IH p s until Hnd Hin Ha Hle). destruct (keep_draining now l p). cbn in *. by right.
Qed.

Lemma markDown_draining now reason i p : pl_draining (markDownLocked now reason i p) = pl_draining p.
Proof.
  unfold markDownLocked. destruct (pl_members p !! i) as [m |]; [| done]. by destruct (ms_session m); cbn; destruct (_ =s _).
Qed.

Lemma check_draining now p i : pl_draining (check_member now p i) = pl_draining p.
Proof.
  unfold check_member. destruct (pl_members p !! i) as [m |]; [| done]. destruct (ms_session m); [| done].
  destruct (_ && _); [apply markDown_draining | done].
Qed.

Lemma connect_draining now desired p live i : pl_draining (fst (connect_step now desired (p, live) i)) = pl_draining p.
Proof.
  unfold connect_step. destruct (pl_members p !! i) as [m |]; [| done]. destruct (_ <=? _); [done |]. destruct (is_live m); [done |].
  by destruct (_ && _).
Qed.

Lemma trim_draining now desired a i (l : list (nat * Time)) :
  (forall p live, a = Some (p, live) -> pl_draining p = l) -> forall p live, trim_step now desired a i = Some (p, live) -> pl_draining p = l.
Proof.
  intros Ha p live. unfold trim_step. destruct a as [[q n] |]; [| done]. specialize (Ha q n eq_refl).
  destruct (pl_members q !! i) as [m |]; [| by intros [= <- _]]. destruct (_ <=? _); [by intros [= <- _] |].
  destruct (_ || _); [by intros [= <- _] |]. destruct (ms_session m); [| done]. by intros [= <- _].
Qed.

(** A draining tunnel is left alone until its time is over: no reconciliation
    before closes it while it works. *)
Theorem draining_tunnel_is_kept h p now p' s until :
  reachable h p -> (s, until) ∈ pl_draining p -> Alive p s = true -> now <= until -> reconcile now p = Some p' ->
  (s, until) ∈ pl_draining p' /\ s ∉ pl_closed p'.
Proof.
  intros Hi%pool_reachable_inv Hin Ha Hle E. assert ((s, until) ∈ pl_draining p') as Hin'.
  { revert E. unfold reconcile. destruct (pl_cancelled p); [by intros [= <-] |].
    assert (NoDup (map fst (pl_draining p))) as Hnd by (pose proof (pi_held _ Hi) as H; by apply NoDup_app in H as (_ & _ & ?)).
    pose proof (keep_draining_keeps now _ p s until Hnd Hin Ha Hle) as Hk.
    destruct (keep_draining now (pl_draining p) p) as [kept p1]. cbn [fst] in Hk. set (desired := Z.min _ _).
    set (p2 := p1<|pl_draining := kept|>). set (p3 := fold_left (check_member now) (indices p2) p2).
    assert (pl_draining p3 = kept) as H3.
    { apply (fold_left_inv _ (fun q => pl_draining q = kept)); [done |]. intros q i _ <-. apply check_draining. }
    assert (pl_draining (fst (fold_left (connect_step now desired) (indices p3) (p3, live_count p3))) = kept) as H4.
    { apply (fold_left_inv _ (fun a : Pool * Z => pl_draining (fst a) = kept)); [done |]. intros [q n] i _ <-. apply connect_draining. }
    destruct (fold_left (connect_step now desired) (indices p3) (p3, live_count p3)) as [p4 live]. cbn [fst] in H4.
    destruct (fold_left (trim_step now desired) _ _) as [[q n] |] eqn:Et; [| done]. intros [= <-]. cbn.
    assert (pl_draining q = kept) as ->; [| done]. revert q n Et.
    apply (fold_left_inv _ (fun a : option (Pool * Z) => forall q n, a = Some (q, n) -> pl_draining q = kept)); [by intros ? ? [= <- _] |].
    intros a i _ Hq. by apply trim_draining. }
  split; [done |]. destruct (inv_reconcile now p Hi) as (q & Hq & Hi'). replace q with p' in Hi' by congruence.
  apply (pi_open _ Hi'). unfold held. rewrite elem_of_app. right. by apply (list_elem_of_fmap_2 fst _ (s, until)).
Qed.

(** *** Standbys *)

Definition cooling (now : Time) (m : memberState) : Prop := ms_state m = stateCooldown /\ now < ms_nextAttempt m.

Lemma live_alter i f m (p : Pool) : pl_members p !! i = Some m ->
  live_count (set_member i f p) = live_count p - Z.b2z (is_live m) + Z.b2z (is_live (f m)).
Proof.
  intros Hm. destruct (split_at _ _ _ Hm) as (l1 & l2 & E & Ef). unfold live_count. cbn. rewrite Ef, E, !List.filter_app, !length_app. cbn.
  destruct (is_live m), (is_live (f m)); cbn [List.length Z.b2z]; lia.
Qed.

(** What both loops of the reconciliation keep. *)
Definition same_frame (p p' : Pool) : Prop :=
  List.length (pl_members p') = List.length (pl_members p) /\ pl_activeID p' = pl_activeID p.

Lemma other_member i j f (p : Pool) m : pl_members (set_member i f p) !! j = Some m -> j <> i -> pl_members p !! j = Some m.
Proof. cbn. intros H Hne. by rewrite list_lookup_alter_ne in H. Qed.

Lemma connect_loop now desired idx : forall p D,
  (forall j m, j ∈ D -> pl_members p !! j = Some m -> desired <= live_count p \/ is_live m = true \/ cooling now m) ->
  let '(p', live) := fold_left (connect_step now desired) idx (p, live_count p) in
  live = live_count p' /\ same_frame p p' /\
  forall j m, j ∈ D ++ idx -> pl_members p' !! j = Some m -> desired <= live \/ is_live m = true \/ cooling now m.
Proof.
  induction idx as [| i idx IH]; intros p D HD; cbn [fold_left]; [by rewrite app_nil_r |].
  assert (exists p1, connect_step now desired (p, live_count p) i = (p1, live_count p1) /\ same_frame p p1 /\
    forall j m, j ∈ D ++ [i] -> pl_members p1 !! j = Some m -> desired <= live_count p1 \/ is_live m = true \/ cooling now m)
    as (p1 & -> & [Hl Ha] & HD1).
  { unfold connect_step. destruct (pl_members p !! i) as [m |] eqn:Hm.
    2:{ exists p. split_and!; [done.. |]. intros j x [Hj | ->%list_elem_of_singleton]%elem_of_app; [by apply HD | congruence]. }
    destruct (Z.leb_spec desired (live_count p)); [exists p; split_and!; [done | done | by left] |].
    destruct (is_live m) eqn:El; [| destruct (_ && _) eqn:Ec].
    - exists p. split_and!; [done.. |]. intros j x [Hj | ->%list_elem_of_singleton]%elem_of_app; [by apply HD |]. right. left. congruence.
    - exists p. split_and!; [done.. |]. intros j x [Hj | ->%list_elem_of_singleton]%elem_of_app; [by apply HD |]. right. right.
      apply andb_true_iff in Ec as [Ec%bool_decide_eq_true En%Z.ltb_lt]. assert (x = m) as -> by congruence. by split.
    - set (f := fun m : memberState => _). set (p1 := (set_member i f p)<|pl_pending ::= _|>). exists p1.
      assert (live_count p1 = live_count p + 1) as El1.
      { change (live_count p1) with (live_count (set_member i f p)). rewrite (live_alter _ _ _ _ Hm), El.
        change (is_live (f m)) with true. cbn. lia. }
      split_and!; [by rewrite El1 | split; [apply length_alter | done] |].
      intros j x Hj Hx. destruct (decide (j = i)) as [-> | Hne].
      + right. left. change (pl_members (set_member i f p) !! i = Some x) in Hx. rewrite (set_lookup _ _ _ _ Hm) in Hx. by injection Hx as <-.
      + apply (other_member i j f p) in Hx; [| done]. apply elem_of_app in Hj as [Hj | ?%list_elem_of_singleton]; [| done].
        destruct (HD j x Hj Hx) as [? | ?]; [lia | by right]. }
  specialize (IH p1 (D ++ [i]) HD1). rewrite <- app_assoc in IH. cbn in IH.
  destruct (fold_left (connect_step now desired) idx (p1, live_count p1)) as [p' live]. destruct IH as (? & [? ?] & ?).
  split_and!; [done | split; congruence | done].
Qed.

Lemma trim_loop now desired idx : forall p D q n,
  (forall j m, j ∈ D -> pl_members p !! j = Some m -> live_count p <= desired \/ (ms_state m = stateUp -> ms_ID m = pl_activeID p)) ->
  fold_left (trim_step now desired) idx (Some (p, live_count p)) = Some (q, n) ->
  n = live_count q /\ same_frame p q /\ (q = p \/ desired <= live_count q) /\
  forall j m, j ∈ D ++ idx -> pl_members q !! j = Some m -> live_count q <= desired \/ (ms_state m = stateUp -> ms_ID m = pl_activeID q).
Proof.
  induction idx as [| i idx IH]; intros p D q n HD; cbn [fold_left]; [intros [= <- <-]; rewrite app_nil_r; split_and!; [done | done | by left | done] |].
  destruct (trim_step now desired (Some (p, live_count p)) i) as [[p1 n1] |] eqn:Et.
  2:{ intros H. exfalso. clear -H. induction idx as [| i idx IH]; [done |]. by apply IH. }
  assert (n1 = live_count p1 /\ same_frame p p1 /\ (p1 = p \/ desired <= live_count p1) /\
    forall j m, j ∈ D ++ [i] -> pl_members p1 !! j = Some m -> live_count p1 <= desired \/ (ms_state m = stateUp -> ms_ID m = pl_activeID p1))
    as (-> & [Hl Ha] & Hd & HD1).
  { revert Et. unfold trim_step. destruct (pl_members p !! i) as [m |] eqn:Hm.
    2:{ intros [= <- <-]. split_and!; [done | done | by left |]. intros j x [Hj | ->%list_elem_of_singleton]%elem_of_app; [by apply HD | congruence]. }
    destruct (Z.leb_spec (live_count p) desired); [intros [= <- <-]; split_and!; [done | done | by left | by left] |]. destruct (_ || _) eqn:Eo.
    - intros [= <- <-]. split_and!; [done | done | by left |]. intros j x [Hj | ->%list_elem_of_singleton]%elem_of_app; [by apply HD |]. right.
      assert (x = m) as -> by congruence. intros Hst. apply orb_true_iff in Eo as [Eo%negb_true_iff%bool_decide_eq_false | Eo%str_eqb_eq]; done.
    - apply orb_false_iff in Eo as [Eu%negb_false_iff%bool_decide_eq_true _]. destruct (ms_session m) as [t |]; [| done].
      set (f := fun m : memberState => _). intros [= <- <-]. set (p1 := set_member i f (close_session t p)).
      assert (live_count p1 = live_count p - 1) as El1.
      { change (live_count p1) with (live_count (set_member i f p)). rewrite (live_alter _ _ _ _ Hm).
        assert (is_live m = true) as -> by (unfold is_live; by rewrite Eu). change (is_live (f m)) with false. cbn. lia. }
      rewrite El1. split_and!; [done | split; [apply length_alter | done] | right; lia |].
      intros j x Hj Hx. destruct (decide (j = i)) as [-> | Hne].
      + right. change (pl_members (set_member i f p) !! i = Some x) in Hx. rewrite (set_lookup _ _ _ _ Hm) in Hx. by injection Hx as <-.
      + apply (other_member i j f p) in Hx; [| done]. apply elem_of_app in Hj as [Hj | ?%list_elem_of_singleton]; [| done].
        destruct (HD j x Hj Hx) as [? | ?]; [lia | by right]. }
  intros E. specialize (IH p1 (D ++ [i]) q n HD1 E). rewrite <- app_assoc in IH. cbn in IH. destruct IH as (? & [? ?] & Hq & ?).
  split_and!; [done | split; congruence | | done]. destruct Hq as [-> | ?]; auto.
Qed.

Lemma keep_draining_frame now l : forall p, pl_hotStandby (snd (keep_draining now l p)) = pl_hotStandby p /\
  pl_members (snd (keep_draining now l p)) = pl_members p.
Proof.
  induction l as [| [s until] l IH]; intros p; [done |]. cbn. destruct (_ || _); [exact (IH (close_session s p)) |].
  specialize (IH p). by destruct (keep_draining now l p).
Qed.

(** The pool keeps its tunnels at the wanted number: after a reconciliation
    the active member and the hot standbys are connected or connecting unless
    every other member is cooling down, and a surplus remains only when there
    is nothing to disconnect but the active member. *)
Theorem standbys_are_kept h p now p' :
  reachable h p -> pl_cancelled p = false -> reconcile now p = Some p' ->
  let desired := Z.min (1 + pl_hotStandby p) (Z.of_nat (List.length (pl_members p))) in
  (desired <= live_count p' \/ forall m, m ∈ pl_members p' -> is_live m = true \/ cooling now m) /\
  (live_count p' <= desired \/ forall m, m ∈ pl_members p' -> ms_state m = stateUp -> ms_ID m = pl_activeID p').
Proof.
  intros _ Hc. unfold reconcile. rewrite Hc. destruct (keep_draining_frame now (pl_draining p) p) as [Eh Em].
  destruct (keep_draining now (pl_draining p) p) as [kept p1]. cbn [snd] in Eh, Em. cbv zeta. cbn [pl_hotStandby pl_members upd].
  rewrite Eh, Em. set (desired := Z.min _ _). set (p2 := p1<|pl_draining := kept|>).
  set (p3 := fold_left (check_member now) (indices p2) p2).
  pose proof (connect_loop now desired (indices p3) p3 []) as Hl.
  destruct (fold_left (connect_step now desired) (indices p3) (p3, live_count p3)) as [p4 live].
  destruct Hl as (-> & [Hlen _] & H4); [by intros ? ? []%elem_of_nil |].
  destruct (fold_left (trim_step now desired) _ _) as [[q n] |] eqn:Et; [| done]. intros [= <-]. cbn [fst].
  apply (trim_loop now desired _ p4 [] q n) in Et as (_ & [Hlq _] & Hq & H5); [| by intros ? ? []%elem_of_nil]. cbn [app] in H4, H5.
  split.
  - destruct Hq as [-> | ?]; [| by left]. destruct (Z.le_gt_cases desired (live_count p4)) as [| Hlt]; [by left | right].
    intros m [i Hi]%list_elem_of_lookup. destruct (H4 i m) as [? | ?]; [| done | lia | done].
    apply elem_of_seq. apply lookup_lt_Some in Hi. lia.
  - destruct (Z.le_gt_cases (live_count q) desired) as [| Hlt]; [by left | right].
    intros m [i Hi]%list_elem_of_lookup. destruct (H5 i m) as [? | ?]; [| done | lia | done].
    apply list_elem_of_In, in_rev. rewrite rev_involutive. apply list_elem_of_In, elem_of_seq. apply lookup_lt_Some in Hi. lia.
Qed.

(** What only a new membership changes. *)
Definition meta (p : Pool) : Z * string * Z := (pl_revision p, pl_digest p, pl_hotStandby p).

Lemma markDown_meta now reason i p : meta (markDownLocked now reason i p) = meta p.
Proof.
  unfold markDownLocked. destruct (pl_members p !! i) as [m |]; [| done]. destruct (ms_session m); cbn; by destruct (_ =s _).
Qed.

Lemma keep_draining_meta now l : forall p, meta (snd (keep_draining now l p)) = meta p.
Proof.
  induction l as [| [s until] l IH]; intros p; [done |]. cbn. destruct (_ || _); [exact (IH (close_session s p)) |].
  specialize (IH p). by destruct (keep_draining now l p).
Qed.

Lemma check_meta now p i : meta (check_member now p i) = meta p.
Proof.
  unfold check_member. destruct (pl_members p !! i) as [m |]; [| done]. destruct (ms_session m); [| done].
  destruct (_ && _); [apply markDown_meta | done].
Qed.

Lemma connect_meta now desired p live i : meta (fst (connect_step now desired (p, live) i)) = meta p.
Proof.
  unfold connect_step. destruct (pl_members p !! i) as [m |]; [| done]. destruct (_ <=? _); [done |]. destruct (is_live m); [done |].
  by destruct (_ && _).
Qed.

Lemma trim_meta now desired a i x :
  (forall p live, a = Some (p, live) -> meta p = x) -> forall p live, trim_step now desired a i = Some (p, live) -> meta p = x.
Proof.
  intros Ha p live. unfold trim_step. destruct a as [[q n] |]; [| done]. specialize (Ha q n eq_refl).
  destruct (pl_members q !! i) as [m |]; [| by intros [= <- _]]. destruct (_ <=? _); [by intros [= <- _] |].
  destruct (_ || _); [by intros [= <- _] |]. destruct (ms_session m); [| done]. by intros [= <- _].
Qed.

Lemma reconcile_meta now p p' : reconcile now p = Some p' -> meta p' = meta p.
Proof.
  unfold reconcile. destruct (pl_cancelled p); [by intros [= <-] |].
  pose proof (keep_draining_meta now (pl_draining p) p) as H1. destruct (keep_draining now (pl_draining p) p) as [kept p1].
  cbn [snd] in H1. set (desired := Z.min _ _). set (p2 := p1<|pl_draining := kept|>). set (p3 := fold_left (check_member now) (indices p2) p2).
  assert (meta p3 = meta p) as H3.
  { apply (fold_left_inv _ (fun q => meta q = meta p)); [done |]. intros q i _ <-. apply check_meta. }
  assert (meta (fst (fold_left (connect_step now desired) (indices p3) (p3, live_count p3))) = meta p) as H4.
  { apply (fold_left_inv _ (fun a : Pool * Z => meta (fst a) = meta p)); [done |]. intros [q n] i _ <-. apply connect_meta. }
  destruct (fold_left (connect_step now desired) (indices p3) (p3, live_count p3)) as [p4 live]. cbn [fst] in H4.
  destruct (fold_left (trim_step now desired) _ _) as [[q n] |] eqn:Et; [| done]. intros [= <-]. cbn. revert q n Et.
  apply (fold_left_inv _ (fun a : option (Pool * Z) => forall q n, a = Some (q, n) -> meta q = meta p)); [by intros ? ? [= <- _] |].
  intros a i _ Hq. by apply trim_meta.
Qed.

Lemma connectMember_meta now id digest res p p' : connectMember now id digest res p = Some p' -> meta p' = meta p.
Proof.
  unfold connectMember. destruct res as [hs | err]; cbn [connect].
  - destruct (memberLocked id _) as [[i m] |]; [| by intros [= <-]]. by destruct (_ || _ || _); intros [= <-].
  - destruct (memberLocked id p) as [[i m] |]; [| done]. by destruct (_ || _ || _); intros [= <-].
Qed.

Lemma dial_meta now id s err p : meta (snd (recordDialFailure now id s err p)) = meta p.
Proof.
  unfold recordDialFailure. destruct err; [done | | |]; destruct (Alive p s); cbn [andb negb]; try done;
    destruct (memberLocked id p) as [[i m] |]; try done; case_bool_decide; try done; cbn [negb snd]; try apply markDown_meta;
    destruct (_ <=? _); cbn [snd]; rewrite ?markDown_meta; done.
Qed.

Lemma health_meta now id s res p : meta (health_result now id s res p) = meta p.
Proof.
  unfold health_result. destruct (memberLocked id p) as [[i m] |]; [| done]. case_bool_decide; [cbn [negb] | done].
  destruct res; [done |]. destruct (_ <=? _); rewrite ?markDown_meta; done.
Qed.

Lemma close_meta p : meta (pool_Close p) = meta p.
Proof. unfold pool_Close. rewrite close_members, close_draining. cbn. by rewrite !fold_close_closed. Qed.

(** The membership never goes back: every step keeps the revision or raises
    it, and at one revision the content it was set with stays. *)
Theorem pool_revision_never_goes_back p ev p' :
  pool_step p ev p' ->
  pl_revision p <= pl_revision p' /\ (pl_revision p' = pl_revision p -> pl_digest p' = pl_digest p /\ pl_hotStandby p' = pl_hotStandby p).
Proof.
  assert (forall q, meta q = meta p ->
    pl_revision p <= pl_revision q /\ (pl_revision q = pl_revision p -> pl_digest q = pl_digest p /\ pl_hotStandby q = pl_hotStandby p)) as Hsame.
  { intros q [= H1 H2 H3]. split; [lia | done]. }
  intros H. destruct H as [p now p' E | p now id digest res l1 l2 p' _ E | p s | p now id s | p now id s res | p now id s err | p | p now u | p].
  - by apply Hsame, (reconcile_meta now).
  - by apply Hsame; rewrite (connectMember_meta _ _ _ _ _ _ E).
  - by apply Hsame.
  - apply Hsame. unfold watch_session. destruct (memberLocked id p) as [[i m] |]; [| done]. case_bool_decide; [apply markDown_meta | done].
  - apply Hsame, health_meta.
  - apply Hsame, dial_meta.
  - apply Hsame. unfold selectActiveLocked. destruct (if _ : bool then None else _); [done |]. by destruct (first_usable p _ _) as [[] |].
  - unfold SetMembers. destruct (_ <=? 0); [by apply Hsame |]. destruct (MaxMembers <? _)%nat; [by apply Hsame |].
    destruct (match mu_HotStandby u with Some _ => _ | None => _ end); [by apply Hsame |].
    destruct (normalize_members ∅ (mu_Members u)) as [ms |]; [| by apply Hsame]. destruct (128 <? _); [by apply Hsame |].
    destruct (Z.ltb_spec (mu_Revision u) (pl_revision p)); [by apply Hsame |].
    destruct (Z.eqb_spec (mu_Revision u) (pl_revision p)); [destruct (_ =s _); by apply Hsame |]. cbn. lia.
  - apply Hsame, close_meta.
Qed.

(** *** Delays *)

Lemma double_delay_spec n : forall d, 0 < d <= 2 * maxBackoff ->
  Z.min maxBackoff (double_delay n d) = Z.min maxBackoff (d * 2 ^ Z.of_nat n).
Proof.
  induction n as [| n IH]; intros d Hd; cbn [double_delay]; [by rewrite Z.mul_1_r |].
  rewrite Nat2Z.inj_succ, Z.pow_succ_r by lia. pose proof (Z.pow_pos_nonneg 2 (Z.of_nat n) ltac:(lia) ltac:(lia)).
  destruct (Z.ltb_spec d maxBackoff).
  - rewrite IH by lia. f_equal. lia.
  - rewrite !Z.min_l; nia.
Qed.

(** The delay before another attempt doubles with every failure, from fifteen
    seconds up to ten minutes, where it stays. *)
Theorem backoff_doubles failures :
  backoff failures = if failures <=? 0 then minBackoff else Z.min maxBackoff (minBackoff * 2 ^ (failures - 1)).
Proof.
  unfold backoff. destruct (Z.leb_spec failures 0); [done |].
  pose proof (double_delay_spec (Z.to_nat (failures - 1)) minBackoff) as E. rewrite Z2Nat.id in E by lia.
  rewrite <- E by (vm_compute; split; [reflexivity | discriminate]).
  destruct (Z.ltb_spec maxBackoff (double_delay (Z.to_nat (failures - 1)) minBackoff)); lia.
Qed.

(** *** A crash *)

(** A connection attempt that fails after its member has gone, or after the
    pool was closed, takes the process down: the error is returned with a nil
    pointer inside an interface that is not nil, and closing it dereferences
    the pointer. Every other end of an attempt is handled. *)
Theorem unwanted_failure_crashes now id digest res p :
  connectMember now id digest res p = None <->
  (exists err, res = Err err) /\
  match memberLocked id p with
  | None => True
  | Some (_, m) => ms_digest m <> digest \/ ms_state m <> stateConnecting \/ pl_cancelled p = true
  end.
Proof.
  unfold connectMember. destruct res as [hs | err]; cbn [connect].
  - split; [| by intros [[? [=]] _]]. destruct (memberLocked id _) as [[i m] |]; [| done]. by destruct (_ || _ || _).
  - destruct (memberLocked id p) as [[i m] |]; cbn [close_iface]; [| by split; [split; [by eexists |] |]].
    destruct (ms_digest m =s digest) eqn:Ed; [apply str_eqb_eq in Ed | apply str_eqb_neq in Ed; cbn; split; [eauto | done]].
    case_bool_decide as Es; cbn; [| split; [eauto | done]]. destruct (pl_cancelled p); [split; [eauto | done] |].
    split; [done |]. intros [_ [? | [? | ?]]]; done.
Qed.

End Pool.

(** ** Examples *)

Section PoolWitness.

Definition ids_digest (ms : list (Member (Spec := unit))) : string := String.concat "," (map mb_ID ms).
Abbreviation set_w := (SetMembers (Spec := unit) (fun s => Ok s) ids_digest).
Abbreviation reach_w := (reachable (Spec := unit) (fun s => Ok s) ids_digest 1).

Definition two_servers : MembersUpdate (Spec := unit) := mkUpdate 1 "" None [mkMember "n1" tt; mkMember "n2" tt].
Definition one_server : MembersUpdate (Spec := unit) := mkUpdate 2 "" None [mkMember "n1" tt].
Definition at_second (n : Z) : Time := n * Second.

(** Both servers connected, then the second one removed. *)
Definition stocked : Pool := snd (set_w (at_second 1) two_servers (newPool 1)).
Definition connecting : Pool := default stocked (reconcile (at_second 2) stocked).
Definition half_up : Pool :=
  default connecting (connectMember (at_second 3) "n1" "n1" (Ok 870) (connecting<|pl_pending := [("n2"%string, "n2"%string)]|>)).
Definition both_up : Pool := default half_up (connectMember (at_second 4) "n2" "n2" (Ok 900) (half_up<|pl_pending := []|>)).
Definition reduced : Pool := snd (set_w (at_second 5) one_server both_up).

Lemma stocked_reachable : reach_w stocked.
Proof. eapply reach_step; [apply reach_new | apply step_members]. Qed.

Lemma connecting_reachable : reach_w connecting.
Proof. eapply reach_step; [apply stocked_reachable |]. apply (step_reconcile _ _ _ (at_second 2)). vm_compute. reflexivity. Qed.

Lemma both_up_reachable : reach_w both_up.
Proof.
  eapply reach_step; [eapply reach_step; [apply connecting_reachable |] |].
  - apply (step_connected _ _ connecting (at_second 3) "n1" "n1" (Ok 870) [] [("n2"%string, "n2"%string)] half_up); vm_compute; reflexivity.
  - apply (step_connected _ _ half_up (at_second 4) "n2" "n2" (Ok 900) [] [] both_up); vm_compute; reflexivity.
Qed.

Lemma reduced_reachable : reach_w reduced.
Proof. eapply reach_step; [apply both_up_reachable | apply step_members]. Qed.

Lemma pool_accounts_for_tunnels_witness : held reduced = [0%nat; 1%nat] /\ NoDup (held reduced).
Proof.
  split; [vm_compute; reflexivity |].
  exact (proj1 (pool_accounts_for_tunnels (fun s => Ok s) ids_digest 1 reduced reduced_reachable)).
Defined.

Lemma traffic_stays_inside_the_pool_witness :
  fst (selectActiveLocked both_up) = Some ("n1"%string, 0%nat) /\ 0%nat ∉ pl_closed both_up.
Proof.
  split; [vm_compute; reflexivity |].
  pose proof (traffic_stays_inside_the_pool (fun s => Ok s) ids_digest 1 both_up both_up_reachable) as H.
  destruct (selectActiveLocked both_up) as [[[id s] |] p'] eqn:E; [| vm_compute in E; discriminate E].
  assert (s = 0%nat) as -> by (vm_compute in E; congruence). apply H.
Defined.


Definition later : Pool := default reduced (reconcile (at_second 300) reduced).

Lemma draining_tunnel_is_kept_witness : pl_draining reduced = [(1%nat, at_second 305)] /\ 1%nat ∉ pl_closed later.
Proof.
  split; [vm_compute; reflexivity |].
  apply (draining_tunnel_is_kept (fun s => Ok s) ids_digest 1 reduced (at_second 300) later 1 (at_second 305) reduced_reachable).
  - vm_compute. left.
  - reflexivity.
  - vm_compute. discriminate.
  - vm_compute. reflexivity.
Defined.

Lemma standbys_are_kept_witness :
  live_count connecting = 2 /\ (2 <= live_count connecting \/ forall m, m ∈ pl_members connecting -> is_live m = true \/ cooling (at_second 2) m).
Proof.
  split; [vm_compute; reflexivity |].
  apply (standbys_are_kept (fun s => Ok s) ids_digest 1 stocked (at_second 2) connecting stocked_reachable eq_refl).
  vm_compute. reflexivity.
Defined.

Lemma pool_revision_never_goes_back_witness : pl_revision both_up = 1 /\ pl_revision both_up <= pl_revision reduced.
Proof.
  split; [vm_compute; reflexivity |].
  exact (proj1 (pool_revision_never_goes_back (fun s => Ok s) ids_digest both_up (EvSetMembers (at_second 5) one_server) reduced
    (step_members _ _ both_up (at_second 5) one_server))).
Defined.

(** Closing the pool while it connects ends in the crash: the attempt fails
    because the context is cancelled. *)
Theorem closing_while_connecting_crashes :
  let p := pool_Close connecting in
  reach_w p /\ pl_pending p = [("n1"%string, "n1"%string); ("n2"%string, "n2"%string)] /\
  connectMember (at_second 3) "n1" "n1" (Err "context canceled"%string) (p<|pl_pending := [("n2"%string, "n2"%string)]|>) = None.
Proof.
  split_and!; [| vm_compute; reflexivity | vm_compute; reflexivity].
  eapply reach_step; [apply connecting_reachable | apply step_close].
Qed.

End PoolWitness.
