(* ===== verification/VpngateLane.v ===== *)
(** * VpngateLane: memberships from the Controller to the pools

    internal/agent/vpngate.go with the handler of the kernel
    (cmd/oboard-sb/vpngate.go). The agent keeps a signed membership per pool,
    writes it to its state file before it hands it to the kernel, and installs
    it again whenever the kernel reports another revision. The file composes
    VpngatePool.v with the state files of the agent.

    The local API calls are outcomes; requests travel as values, with
    [request_bytes] the size of an encoded one. The health part of a pool
    status is left out. *)

From S2P Require Import Prelude GoTime Stealth Files Json StateFile Authorization AgentAuthorization RuntimeUsersInv VpngatePool.

Definition vpngateMaxPools : nat := 64.
Definition vpngateMaxMembers : nat := 8.
Definition vpngateMembersBodyLimit : Z := Z.shiftl 512 10.

Section Lane.
Context {Spec : Type} (Normalize : Spec -> result string Spec) (MembersDigest : list (Member (Spec := Spec)) -> string).

Record VPNGatePoolPlan := mkPlan {
  vp_PoolID : Z; vp_Tag : string; vp_Revision : Z; vp_ContentDigest : string; vp_HotStandby : Z; vp_Members : list (Member (Spec := Spec))
}.

Context {A : AEAD} {CP : Codec runtimeProfile} {CV : Codec (list VPNGatePoolPlan)}.
Context (r : Runner) (request_bytes : VPNGatePoolPlan -> Z).

(** ** Plans *)

Definition digit_char (c : ascii) : bool := let n := nat_of_ascii c in ((48 <=? n) && (n <=? 57))%nat.

(** [^vpngate-[1-9][0-9]{0,18}$] *)
Definition vpngateTagPattern (tag : string) : bool :=
  match strip_prefix (list_ascii_of_string "vpngate-") (list_ascii_of_string tag) with
  | Some (c :: rest) => digit_char c && negb (Ascii.eqb c "0"%char) && forallb digit_char rest && (List.length rest <=? 18)%nat
  | _ => false
  end.

Definition pool_tag (id : Z) : string := "vpngate-" +:+ pretty id.

Definition validateVPNGatePlan (plan : VPNGatePoolPlan) : option string :=
  if (vp_PoolID plan <=? 0) || negb (vp_Tag plan =s pool_tag (vp_PoolID plan)) || negb (vpngateTagPattern (vp_Tag plan))
  then Some "tag"%string
  else if vp_Revision plan <=? 0 then Some "revision"%string
  else if (TrimSpace (vp_ContentDigest plan) =s "") || (128 <? str_len (vp_ContentDigest plan)) then Some "content_digest"%string
  else if (vpngateMaxMembers <? List.length (vp_Members plan))%nat then Some "members"%string
  else if (vp_HotStandby plan <? 0) || (2 <? vp_HotStandby plan) then Some "hot_standby"%string
  else None.

Definition vpngatePath : string := rn_statePath r "vpngate-pools.json".

(** The plans of the agent, its disk, and the pools of the kernel by tag. *)
Record VpngateNode := mkVpngate {
  vn_plans : gmap string VPNGatePoolPlan; vn_disk : disk; vn_pools : gmap string (Pool (Spec := Spec))
}.

#[export] Instance eta_VpngateNode : Eta VpngateNode := fun n => mkVpngate (vn_plans n) (vn_disk n) (vn_pools n).

Definition load_plan (m : gmap string VPNGatePoolPlan) (plan : VPNGatePoolPlan) : gmap string VPNGatePoolPlan :=
  match validateVPNGatePlan plan with None => <[vp_Tag plan := plan]> m | Some _ => m end.

(** [vpngate()] at its first call. *)
Definition load_plans (d : disk) : gmap string VPNGatePoolPlan :=
  match stateReadPath r d vpngatePath with
  | Err _ => ∅
  | Ok raw => match json_Unmarshal raw with None => ∅ | Some plans => fold_left load_plan plans ∅ end
  end.

Definition plan_le (a b : VPNGatePoolPlan) : Prop := string_le (vp_Tag a) (vp_Tag b).
#[export] Instance plan_le_dec : RelDecision plan_le.
Proof. intros a b. unfold plan_le. apply _. Defined.

Definition sorted_plans (m : gmap string VPNGatePoolPlan) : list VPNGatePoolPlan := merge_sort plan_le (map snd (map_to_list m)).

Definition persistVPNGateLocked (mkdir : option string) (e : StateEnv) (m : gmap string VPNGatePoolPlan) (d : disk)
  : option string * disk :=
  match json_Marshal (sorted_plans m) with
  | None => (Some "json"%string, d)
  | Some data =>
      match mkdir with
      | Some err => (Some err, d)
      | None => match stateWritePath r e false vpngatePath data d with (Ok _, d) => (None, d) | (Err err, d) => (Some err, d) end
      end
  end.

(** ** The kernel *)

Definition update_of (plan : VPNGatePoolPlan) : MembersUpdate :=
  mkUpdate (vp_Revision plan) (vp_ContentDigest plan) (Some (vp_HotStandby plan)) (vp_Members plan).

(** POST /outbounds/vpngate/members. A successful answer carries the status,
    which chooses an active member. *)
Definition members_handler (now : Time) (plan : VPNGatePoolPlan) (pools : gmap string Pool) : Z * gmap string Pool :=
  if vpngateMembersBodyLimit <? request_bytes plan then (400, pools)
  else
    let tag := TrimSpace (vp_Tag plan) in
    match pools !! tag with
    | None => (404, pools)
    | Some p =>
        match SetMembers Normalize MembersDigest now (update_of plan) p with
        | (None, p) => (200, <[tag := snd (selectActiveLocked p)]> pools)
        | (Some ErrRevisionConflict, p) | (Some ErrStaleRevision, p) => (409, <[tag := p]> pools)
        | (Some (ErrUpdate _), p) => (400, <[tag := p]> pools)
        end
    end.

(** GET /outbounds/vpngate/status: tag, revision and digest of each pool in
    the order of their tags. *)
Record VPNGatePoolStatus := mkPoolStatus { ps_Tag : string; ps_Revision : Z; ps_ContentDigest : string }.

Definition pool_Status (tag : string) (p : Pool (Spec := Spec)) : VPNGatePoolStatus := mkPoolStatus tag (pl_revision p) (pl_digest p).

Definition Snapshot (pools : gmap string Pool) : list VPNGatePoolStatus * gmap string Pool :=
  let tags := sort_Strings (map fst (map_to_list pools)) in
  (omap (fun tag => pool_Status tag <$> pools !! tag) tags, (fun p => snd (selectActiveLocked p)) <$> pools).

(** ** Installing *)

Record VpngateEnv := mkVpngateEnv { ve_now : Time; ve_post : call; ve_mkdir : option string; ve_save : StateEnv }.

Inductive install_error := ErrPoolNotLoaded | ErrInstall (e : string).

Definition installVPNGatePlan (now : Time) (c : call) (plan : VPNGatePoolPlan) (pools : gmap string Pool)
  : option install_error * gmap string Pool :=
  match c with
  | CallLost => (Some (ErrInstall "unreachable"), pools)
  | CallUnanswered => (Some (ErrInstall "unreachable"), snd (members_handler now plan pools))
  | CallDone =>
      let '(code, pools) := members_handler now plan pools in
      if code =? 404 then (Some ErrPoolNotLoaded, pools)
      else if negb (code =? 200) then (Some (ErrInstall "rejected"), pools)
      else (None, pools)
  end.

(** The answer of the task: whether the kernel has the membership already. *)
Definition applyVPNGatePool (e : VpngateEnv) (plan : VPNGatePoolPlan) (n : VpngateNode) : result string bool * VpngateNode :=
  match validateVPNGatePlan plan with
  | Some err => (Err err, n)
  | None =>
      let refused :=
        match vn_plans n !! vp_Tag plan with
        | Some current =>
            if vp_Revision plan <? vp_Revision current then Some "older"%string
            else if (vp_Revision plan =? vp_Revision current) && negb (vp_ContentDigest plan =s vp_ContentDigest current) then Some "conflict"%string
            else None
        | None => if (vpngateMaxPools <=? size (vn_plans n))%nat then Some "pools"%string else None
        end in
      match refused with
      | Some err => (Err err, n)
      | None =>
          let plans := <[vp_Tag plan := plan]> (vn_plans n) in
          match persistVPNGateLocked (ve_mkdir e) (ve_save e) plans (vn_disk n) with
          | (Some err, d) => (Err err, n<|vn_plans := plans|><|vn_disk := d|>)
          | (None, d) =>
              let '(err, pools) := installVPNGatePlan (ve_now e) (ve_post e) plan (vn_pools n) in
              let n := mkVpngate plans d pools in
              match err with
              | Some ErrPoolNotLoaded => (Ok false, n)
              | Some (ErrInstall err) => (Err err, n)
              | None => (Ok true, n)
              end
          end
      end
  end.

(** [readVPNGateStatus]. *)
Definition readVPNGateStatus (c : call) (pools : gmap string Pool) : option (list VPNGatePoolStatus) * gmap string Pool :=
  match c with
  | CallLost => (None, pools)
  | CallUnanswered => (None, snd (Snapshot pools))
  | CallDone => let '(l, pools) := Snapshot pools in (Some (take vpngateMaxPools l), pools)
  end.

Definition reconcile_plan (envs : string -> Time * call) (loaded : gmap string VPNGatePoolStatus) (pools : gmap string Pool)
    (plan : VPNGatePoolPlan) : gmap string Pool :=
  match loaded !! vp_Tag plan with
  | None => pools
  | Some current =>
      if (ps_Revision current =? vp_Revision plan) && (ps_ContentDigest current =s vp_ContentDigest plan) then pools
      else if vp_Revision plan <? ps_Revision current then pools
      else let '(now, c) := envs (vp_Tag plan) in snd (installVPNGatePlan now c plan pools)
  end.

Definition loaded_by_tag (l : list VPNGatePoolStatus) : gmap string VPNGatePoolStatus :=
  fold_left (fun m s => <[ps_Tag s := s]> m) l ∅.

Definition reconcileVPNGate (advertised : bool) (status : call) (envs : string -> Time * call) (n : VpngateNode) : VpngateNode :=
  let plans := map snd (map_to_list (vn_plans n)) in
  if (List.length plans =? 0)%nat && negb advertised then n
  else
    match readVPNGateStatus status (vn_pools n) with
    | (None, pools) => n<|vn_pools := pools|>
    | (Some l, pools) => n<|vn_pools := fold_left (reconcile_plan envs (loaded_by_tag l)) plans pools|>
    end.

(** ** Tags *)

Definition starts_rune (ps : list (list ascii)) (c : ascii) : bool :=
  existsb (fun p => match p with x :: _ => Ascii.eqb x c | [] => true end) ps.

Lemma strip_none ps c t : starts_rune ps c = false -> strip_one_of ps (c :: t) = None.
Proof.
  induction ps as [| p ps IH]; cbn; [done |]. intros [H1 H2]%orb_false_iff. destruct p as [| x p]; [done |]. cbn. rewrite H1. by apply IH.
Qed.

Lemma trim_left_none ps c t : starts_rune ps c = false -> trim_left_bytes ps (c :: t) = c :: t.
Proof. intros H. unfold trim_left_bytes. cbn. by rewrite strip_none. Qed.

Lemma digit_no_space c : digit_char c = true -> starts_rune (map (@rev ascii) space_runes) c = false.
Proof. destruct c as [[] [] [] [] [] [] [] []]; vm_compute; congruence. Qed.

(** A tag of a pool has no space around it. *)
Lemma tag_trimmed tag : vpngateTagPattern tag = true -> TrimSpace tag = tag.
Proof.
  unfold vpngateTagPattern. destruct (strip_prefix _ _) as [[| c rest] |] eqn:E; [done | | done]. apply strip_prefix_Some in E.
  rewrite !andb_true_iff. intros [[[Hc _] Hr] _].
  assert (Forall (fun c => digit_char c = true) (c :: rest)) as Hd.
  { constructor; [done |]. rewrite forallb_forall in Hr. apply Forall_forall. intros x Hx. apply Hr. by apply list_elem_of_In. }
  destruct (exists_last (l := c :: rest)) as (l & d & El); [done |]. rewrite El in Hd, E. apply Forall_app in Hd as [_ Hd].
  apply Forall_cons in Hd as [Hd _]. unfold TrimSpace. rewrite E. cbn [list_ascii_of_string app].
  rewrite trim_left_none by reflexivity. rewrite !app_comm_cons, rev_app_distr. cbn [rev app].
  rewrite trim_left_none by (by apply digit_no_space).
  cbn [rev]. rewrite !rev_app_distr. cbn [rev app]. rewrite rev_involutive.
  transitivity (string_of_list_ascii (list_ascii_of_string tag)); [by rewrite E | apply string_of_list_ascii_of_string].
Qed.

Lemma valid_tag plan : validateVPNGatePlan plan = None -> TrimSpace (vp_Tag plan) = vp_Tag plan.
Proof.
  unfold validateVPNGatePlan. destruct (_ || _ || _) eqn:E; [done |]. intros _. apply tag_trimmed.
  rewrite !orb_false_iff, !negb_false_iff in E. tauto.
Qed.

(** ** The state file *)

Definition plans_ok (m : gmap string VPNGatePoolPlan) : Prop :=
  forall tag plan, m !! tag = Some plan -> vp_Tag plan = tag /\ validateVPNGatePlan plan = None.

Lemma load_fold l : forall m, Forall (fun p => validateVPNGatePlan p = None) l ->
  fold_left load_plan l m = list_to_map (map (fun p => (vp_Tag p, p)) (rev l)) ∪ m.
Proof.
  induction l as [| p l IH]; intros m Hv; [cbn; by rewrite (left_id_L ∅ (∪)) |]. apply Forall_cons in Hv as [Hp Hv].
  cbn. rewrite IH by done. unfold load_plan. rewrite Hp, map_app, list_to_map_app. cbn.
  rewrite <- (assoc_L (∪)). f_equal. by rewrite <- insert_union_l, (left_id_L ∅ (∪)).
Qed.

Lemma sorted_perm m : sorted_plans m ≡ₚ map snd (map_to_list m).
Proof. apply merge_sort_Permutation. Qed.

Lemma load_sorted m : plans_ok m -> fold_left load_plan (sorted_plans m) ∅ = m.
Proof.
  intros Hok. assert (Hin : forall p, p ∈ sorted_plans m -> m !! vp_Tag p = Some p /\ validateVPNGatePlan p = None).
  { intros p. rewrite sorted_perm. intros ([tag q] & -> & Hq%elem_of_map_to_list)%list_elem_of_fmap. cbn.
    destruct (Hok _ _ Hq) as [-> ?]. done. }
  rewrite load_fold by (apply Forall_forall; intros p Hp; by apply Hin). rewrite (right_id_L ∅ (∪)).
  assert (map (fun p => (vp_Tag p, p)) (rev (sorted_plans m)) ≡ₚ map_to_list m) as E.
  { rewrite <- Permutation_rev, sorted_perm, map_map. erewrite list_fmap_ext; [by rewrite list_fmap_id |].
    intros i [tag q] Hq%list_elem_of_lookup_2%elem_of_map_to_list. cbn. destruct (Hok _ _ Hq) as [-> _]. done. }
  rewrite (list_to_map_proper _ (map_to_list m)); [apply list_to_map_to_list | | done]. rewrite E. apply NoDup_fst_map_to_list.
Qed.

Context {AL : AEADLaws A} {LV : CodecLaws CV}.

(** The state file is an ordinary one and what is written to it is text. *)
Definition vpngate_files (e : StateEnv) : Prop :=
  runtimeStatePurpose r vpngatePath = ""%string /\ se_tmp e <> vpngatePath /\ nonce_ok (se_nonce e) /\
  forall x b, json_Marshal (A := list VPNGatePoolPlan) x = Some b -> plain_text b.

Lemma persist_loads mkdir e m d d' :
  vpngate_files e -> plans_ok m -> persistVPNGateLocked mkdir e m d = (None, d') -> load_plans d' = m.
Proof.
  intros (Hp & Ht & Hn & Hb) Hok. unfold persistVPNGateLocked. destruct (json_Marshal _) as [b |] eqn:Ej; [| done].
  destruct mkdir; [done |]. destruct (stateWritePath _ _ _ _ _ _) as [res d1] eqn:Ew.
  destruct (write_file _ _ _ _ _ _ Hp Ht Hn (Hb _ _ Ej) Ew) as [_ Hr]. destruct res; [| done]. intros [= <-].
  unfold load_plans. rewrite Hr, (json_roundtrip _ _ Ej). by apply load_sorted.
Qed.

(** ** The kernel *)

Abbreviation set_members := (SetMembers Normalize MembersDigest).

Lemma select_meta (p : Pool (Spec := Spec)) : meta (snd (selectActiveLocked p)) = meta p.
Proof. unfold selectActiveLocked. destruct (if _ : bool then None else _); [done |]. by destruct (first_usable p _ _) as [[] |]. Qed.

(** The membership a pool has. *)
Definition at_plan (plan : VPNGatePoolPlan) (p : Pool (Spec := Spec)) : Prop :=
  pl_revision p = vp_Revision plan /\ pl_digest p = TrimSpace (vp_ContentDigest plan).

Lemma set_members_ok now plan p p' :
  TrimSpace (vp_ContentDigest plan) <> "" -> set_members now (update_of plan) p = (None, p') -> at_plan plan p'.
Proof.
  intros Hd. unfold SetMembers. cbn [mu_Revision mu_Digest mu_HotStandby mu_Members update_of].
  destruct (_ <=? 0); [done |]. destruct (MaxMembers <? _)%nat; [done |]. destruct (_ || _); [done |].
  destruct (normalize_members _ _ ∅ (vp_Members plan)) as [ms |]; [| done]. rewrite (proj2 (str_eqb_neq _ _) Hd).
  destruct (128 <? _); [done |]. destruct (_ <? _); [done |]. destruct (Z.eqb_spec (vp_Revision plan) (pl_revision p)).
  - destruct (_ =s _) eqn:E; [apply str_eqb_eq in E | done]. by intros [= <-].
  - by intros [= <-].
Qed.

Lemma members_handler_ok now plan pools pools' :
  validateVPNGatePlan plan = None -> members_handler now plan pools = (200, pools') ->
  exists p p', pools !! vp_Tag plan = Some p /\ pools' = <[vp_Tag plan := p']> pools /\ at_plan plan p'.
Proof.
  intros Hv. unfold members_handler. destruct (_ <? _); [done |]. rewrite (valid_tag _ Hv).
  destruct (pools !! vp_Tag plan) as [p |] eqn:Ep; [| done].
  destruct (set_members now (update_of plan) p) as [[[] |] p1] eqn:Es; [done.. |]. intros [= <-].
  exists p, (snd (selectActiveLocked p1)). split_and!; [done | done |].
  apply set_members_ok in Es.
  - pose proof (select_meta p1) as [= H1 H2 _]. unfold at_plan. by rewrite H1, H2.
  - unfold validateVPNGatePlan in Hv. destruct (_ || _ || _); [done |]. destruct (_ <=? 0); [done |].
    destruct (_ || _) eqn:E in Hv; [done |]. apply orb_false_iff in E as [E%str_eqb_neq _]. done.
Qed.

(** A membership the task accepted is kept: the agent holds it, a restarted
    agent reads exactly the plans it held, and when the task reports it
    installed the pool of the kernel has its revision and identity; it is
    reported pending only while the kernel has no such pool. *)
Theorem accepted_membership_is_kept e plan n installed n' :
  plans_ok (vn_plans n) -> vpngate_files (ve_save e) -> applyVPNGatePool e plan n = (Ok installed, n') ->
  plans_ok (vn_plans n') /\ vn_plans n' = <[vp_Tag plan := plan]> (vn_plans n) /\ load_plans (vn_disk n') = vn_plans n' /\
  (forall current, vn_plans n !! vp_Tag plan = Some current -> vp_Revision current <= vp_Revision plan) /\
  if installed then exists p, vn_pools n' !! vp_Tag plan = Some p /\ at_plan plan p
  else vn_pools n' = vn_pools n /\ vn_pools n !! vp_Tag plan = None.
Proof.
  intros Hok Hf. unfold applyVPNGatePool. destruct (validateVPNGatePlan plan) eqn:Hv; [done |].
  set (refused := match vn_plans n !! vp_Tag plan with Some _ => _ | None => _ end). destruct refused eqn:Er; [done |].
  set (plans := <[vp_Tag plan := plan]> (vn_plans n)).
  assert (plans_ok plans) as Hok'.
  { intros tag q. unfold plans. rewrite lookup_insert_Some. intros [[<- <-] | [_ Hq]]; [done | by apply Hok]. }
  destruct (persistVPNGateLocked _ _ plans _) as [[err |] d] eqn:Ep; [done |]. apply (persist_loads _ _ _ _ _ Hf Hok') in Ep.
  destruct (installVPNGatePlan _ _ plan _) as [err pools] eqn:Ei. intros H.
  assert (vn_plans n' = plans /\ vn_disk n' = d /\ vn_pools n' = pools) as (-> & -> & ->) by (by destruct err as [[|] |]; simplify_eq).
  split_and!; [done | done | done | |].
  - intros current Hc. unfold refused in Er. rewrite Hc in Er. destruct (Z.ltb_spec (vp_Revision plan) (vp_Revision current)); [done | lia].
  - revert Ei. unfold installVPNGatePlan. destruct (ve_post e); [by intros [= <- <-] | | by intros [= <- <-]].
    destruct (members_handler (ve_now e) plan (vn_pools n)) as [code pools1] eqn:Em.
    destruct (Z.eqb_spec code 404) as [-> |].
    + intros [= <- <-]. injection H as <- _. revert Em. unfold members_handler. destruct (_ <? _); [done |]. rewrite (valid_tag _ Hv).
      destruct (vn_pools n !! vp_Tag plan); [by destruct (set_members _ _ _) as [[[] |] ?] | by intros [= <-]].
    + destruct (Z.eqb_spec code 200) as [-> |]; cbn [negb]; intros [= <- <-]; [| done]. injection H as <- _.
      destruct (members_handler_ok _ _ _ _ Hv Em) as (p & p' & _ & -> & Hp'). exists p'. by rewrite lookup_insert_eq.
Qed.

(** ** Reconciliation *)

Lemma loaded_fold (pools : gmap string (Pool (Spec := Spec))) tags tag : forall m : gmap string VPNGatePoolStatus,
  fold_left (fun m s => <[ps_Tag s := s]> m) (omap (fun t => pool_Status t <$> pools !! t) tags) m !! tag =
  match pools !! tag with
  | Some p => if decide (tag ∈ tags) then Some (pool_Status tag p) else m !! tag
  | None => m !! tag
  end.
Proof.
  induction tags as [| t tags IH]; intros m; cbn.
  - by destruct (pools !! tag).
  - destruct (pools !! t) as [q |] eqn:Eq; cbn; rewrite IH; destruct (pools !! tag) as [p |] eqn:Ep; try done.
    + destruct (decide (tag ∈ tags)); [by rewrite decide_True by set_solver |].
      destruct (decide (t = tag)) as [-> | Hne]; [rewrite decide_True by set_solver; rewrite lookup_insert_eq; congruence |].
      rewrite decide_False by set_solver. by rewrite lookup_insert_ne.
    + by rewrite lookup_insert_ne by congruence.
    + destruct (decide (tag ∈ tags)); [by rewrite decide_True by set_solver |]. rewrite decide_False; [done |]. set_solver.
Qed.

Lemma omap_short {X Y} (f : X -> option Y) l : (List.length (omap f l) <= List.length l)%nat.
Proof. induction l as [| x l IH]; cbn; [done |]. destruct (f x); cbn; lia. Qed.

Lemma snapshot_loaded (pools : gmap string (Pool (Spec := Spec))) tag p :
  (size pools <= vpngateMaxPools)%nat -> pools !! tag = Some p ->
  loaded_by_tag (take vpngateMaxPools (fst (Snapshot pools))) !! tag = Some (pool_Status tag p).
Proof.
  intros Hs Hp. unfold Snapshot. cbn [fst]. set (tags := sort_Strings _).
  assert (tags ≡ₚ map fst (map_to_list pools)) as Ht by apply merge_sort_Permutation.
  rewrite take_ge.
  2:{ etransitivity; [| exact Hs]. rewrite <- length_map_to_list, <- (length_map fst), <- Ht. apply omap_short. }
  unfold loaded_by_tag. rewrite loaded_fold, Hp, decide_True; [done |]. rewrite Ht. apply list_elem_of_fmap. exists (tag, p).
  split; [done |]. by apply elem_of_map_to_list.
Qed.

Lemma handler_other now plan pools tag : vp_Tag plan <> tag -> validateVPNGatePlan plan = None ->
  snd (members_handler now plan pools) !! tag = pools !! tag.
Proof.
  intros Hne Hv. unfold members_handler. destruct (_ <? _); [done |]. rewrite (valid_tag _ Hv). destruct (pools !! vp_Tag plan); [| done].
  by destruct (set_members _ _ _) as [[[] |] ?]; cbn; rewrite lookup_insert_ne.
Qed.

Lemma install_other now c plan pools tag : vp_Tag plan <> tag -> validateVPNGatePlan plan = None ->
  snd (installVPNGatePlan now c plan pools) !! tag = pools !! tag.
Proof.
  intros Hne Hv. pose proof (handler_other now plan pools tag Hne Hv) as H. unfold installVPNGatePlan.
  destruct c; [done | | done]. destruct (members_handler now plan pools) as [code pools1]. cbn in H.
  destruct (code =? 404); [done |]. by destruct (negb _).
Qed.

Lemma reconcile_other envs loaded pools plan tag : vp_Tag plan <> tag -> validateVPNGatePlan plan = None ->
  reconcile_plan envs loaded pools plan !! tag = pools !! tag.
Proof.
  intros Hne Hv. unfold reconcile_plan. destruct (loaded !! vp_Tag plan); [| done]. destruct (_ && _); [done |].
  destruct (_ <? _); [done |]. destruct (envs (vp_Tag plan)). by apply install_other.
Qed.

Lemma reconcile_others envs loaded tag l : forall pools,
  Forall (fun plan => vp_Tag plan <> tag /\ validateVPNGatePlan plan = None) l ->
  fold_left (reconcile_plan envs loaded) l pools !! tag = pools !! tag.
Proof.
  induction l as [| plan l IH]; intros pools Hl; [done |]. apply Forall_cons in Hl as [[Hne Hv] Hl]. cbn. rewrite IH by done.
  by apply reconcile_other.
Qed.

(** The step of one plan, on the pool of its tag. *)
Lemma reconcile_self envs loaded pools plan now p p0 :
  validateVPNGatePlan plan = None -> request_bytes plan <= vpngateMembersBodyLimit ->
  envs (vp_Tag plan) = (now, CallDone) -> loaded !! vp_Tag plan = Some (pool_Status (vp_Tag plan) p0) -> meta p = meta p0 ->
  pools !! vp_Tag plan = Some p ->
  exists p', reconcile_plan envs loaded pools plan !! vp_Tag plan = Some p' /\
    (vp_Revision plan < pl_revision p -> p' = p) /\
    (pl_revision p <= vp_Revision plan -> fst (set_members now (update_of plan) p) = None -> at_plan plan p').
Proof.
  intros Hv Hb He Hl [= Hm1 Hm2 _] Hp. assert (TrimSpace (vp_ContentDigest plan) <> "") as Hd.
  { unfold validateVPNGatePlan in Hv. destruct (_ || _ || _); [done |]. destruct (_ <=? 0); [done |].
    destruct (_ || _) eqn:E in Hv; [done |]. by apply orb_false_iff in E as [E%str_eqb_neq _]. }
  unfold reconcile_plan. rewrite Hl, He. cbn [ps_Revision ps_ContentDigest pool_Status]. rewrite <- Hm1, <- Hm2.
  destruct (set_members now (update_of plan) p) as [err q] eqn:Es. cbn [fst].
  destruct (_ && _) eqn:Esame.
  - apply andb_true_iff in Esame as [Er%Z.eqb_eq _]. exists p. split_and!; [done | done |]. intros _ ->.
    pose proof (set_members_ok _ _ _ _ Hd Es) as Hq. unfold SetMembers in Es. cbn [mu_Revision update_of] in Es.
    destruct (_ <=? 0); [done |]. destruct (MaxMembers <? _)%nat; [done |]. cbn in Es. destruct (_ || _) in Es; [done |].
    destruct (normalize_members _ _ _ _) in Es; [| done]. destruct (128 <? _) in Es; [done |].
    rewrite Er, Z.ltb_irrefl, Z.eqb_refl in Es. destruct (_ =s pl_digest p) in Es; [| done]. by injection Es as <-.
  - destruct (Z.ltb_spec (vp_Revision plan) (pl_revision p)); [exists p; split_and!; [done | done | lia] |].
    unfold installVPNGatePlan, members_handler. rewrite (proj2 (Z.ltb_ge _ _) Hb), (valid_tag _ Hv), Hp, Es.
    destruct err as [[] |]; cbn; rewrite lookup_insert_eq; eexists; (split_and!; [done | lia | done || intros _ _]).
    apply set_members_ok in Es; [| done]. pose proof (select_meta q) as [= H1 H2 _]. unfold at_plan. by rewrite H1, H2.
Qed.

(** C25: a restarted kernel gets its memberships back: after one reconciliation
    with a working local API every loaded pool has the revision and identity
    of its plan, provided the pool accepts it, and a pool that is already
    ahead of its plan is left alone. *)
Theorem reconciliation_restores_memberships advertised envs n tag plan p now :
  plans_ok (vn_plans n) -> (size (vn_pools n) <= vpngateMaxPools)%nat ->
  vn_plans n !! tag = Some plan -> vn_pools n !! tag = Some p ->
  envs tag = (now, CallDone) -> request_bytes plan <= vpngateMembersBodyLimit ->
  exists p', vn_pools (reconcileVPNGate advertised CallDone envs n) !! tag = Some p' /\
    (vp_Revision plan < pl_revision p -> meta p' = meta p) /\
    (pl_revision p <= vp_Revision plan -> fst (set_members now (update_of plan) (snd (selectActiveLocked p))) = None -> at_plan plan p').
Proof.
  intros Hok Hs Hplan Hp He Hb. destruct (Hok _ _ Hplan) as [<- Hv]. unfold reconcileVPNGate.
  apply elem_of_map_to_list in Hplan as Hin. apply list_elem_of_split in Hin as (l1 & l2 & El). rewrite El, map_app. cbn [map snd].
  assert ((List.length (map snd l1 ++ plan :: map snd l2) =? 0)%nat = false) as ->.
  { rewrite length_app. cbn. apply Nat.eqb_neq. lia. }
  cbn [andb readVPNGateStatus]. pose proof (snapshot_loaded _ _ _ Hs Hp) as Hl. destruct (Snapshot (vn_pools n)) as [l pools] eqn:Esn.
  assert (pools !! vp_Tag plan = Some (snd (selectActiveLocked p))) as Hp1.
  { unfold Snapshot in Esn. injection Esn as _ <-. by rewrite lookup_fmap, Hp. }
  cbn [fst vn_pools upd] in *. rewrite fold_left_app. cbn [fold_left].
  assert (Hothers : forall l, (forall x, x ∈ l -> x ∈ l1 \/ x ∈ l2) ->
    Forall (fun q => vp_Tag q <> vp_Tag plan /\ validateVPNGatePlan q = None) (map snd l)).
  { intros l0 Hl0. apply Forall_forall. intros q ([t q'] & -> & Hq)%list_elem_of_fmap. cbn.
    assert ((t, q') ∈ map_to_list (vn_plans n)) as Hq' by (rewrite El, elem_of_app, elem_of_cons; destruct (Hl0 _ Hq); auto).
    apply elem_of_map_to_list in Hq'. destruct (Hok _ _ Hq') as [Ht Hq2]. split; [| done]. intros Heq.
    pose proof (NoDup_fst_map_to_list (vn_plans n)) as Hnd. rewrite El in Hnd. change (fst <$> ?x) with (map fst x) in Hnd.
    rewrite map_app in Hnd. cbn in Hnd. rewrite <- Permutation_middle, NoDup_cons in Hnd. apply (proj1 Hnd).
    rewrite <- map_app. apply list_elem_of_fmap. exists (t, q'). cbn. split; [congruence |]. rewrite elem_of_app. by apply Hl0. }
  rewrite reconcile_others by (apply Hothers; auto).
  set (loaded := loaded_by_tag (take vpngateMaxPools l)) in *.
  assert (fold_left (reconcile_plan envs loaded) (map snd l1) pools !! vp_Tag plan = Some (snd (selectActiveLocked p))) as Hp2
    by (rewrite reconcile_others by (apply Hothers; auto); done).
  destruct (reconcile_self envs loaded _ plan now _ p Hv Hb He Hl (select_meta p) Hp2) as (p' & H1 & H2 & H3).
  exists p'. pose proof (select_meta p) as E. injection E as E1 E2 E3. rewrite E1 in H2, H3. split_and!; [done | | done].
  intros Hlt. rewrite (H2 Hlt). apply select_meta.
Qed.

End Lane.

(** ** Examples *)

Section LaneWitness.
#[local] Existing Instance profile_codec.

Definition plan_w : VPNGatePoolPlan (Spec := unit) := mkPlan 3 "vpngate-3" 1 "abc" 1 [mkMember "n1" tt; mkMember "n2" tt].

#[local] Instance member_eq_dec : EqDecision (Member (Spec := unit)).
Proof. solve_decision. Defined.
#[local] Instance plan_eq_dec : EqDecision (VPNGatePoolPlan (Spec := unit)).
Proof. solve_decision. Defined.

Definition plan_texts : list (list (VPNGatePoolPlan (Spec := unit)) * bytes) := [([plan_w], list_ascii_of_string "[plan]")].

#[local] Instance plans_codec : Codec (list (VPNGatePoolPlan (Spec := unit))) :=
  {| json_Marshal x := text_of plan_texts x; json_Unmarshal b := value_of plan_texts b |}.
#[local] Instance plans_codec_laws : CodecLaws plans_codec.
Proof. intros x b. apply (text_value plan_texts). by apply (bool_decide_unpack _). Qed.

Lemma vpngate_files_w : vpngate_files plain_runner plain_env.
Proof.
  split_and!; [done | done | done |]. intros x b Hb. assert (b = list_ascii_of_string "[plan]") as ->.
  { unfold json_Marshal, plans_codec, text_of, plan_texts in Hb. cbn [List.find fst snd] in Hb. case_bool_decide; cbn in Hb; [by injection Hb as <- | done]. }
  split_and!; by_compute.
Qed.

Definition tiny_plan (q : VPNGatePoolPlan (Spec := unit)) : Z := 900.
Definition empty_node : VpngateNode (Spec := unit) := mkVpngate ∅ ∅ {["vpngate-3"%string := newPool 1]}.
Definition vpngate_env_w : VpngateEnv := mkVpngateEnv (at_second 1) CallDone None plain_env.
Definition accepted_w : result string bool * VpngateNode :=
  applyVPNGatePool (fun s => Ok s) ids_digest plain_runner tiny_plan vpngate_env_w plan_w empty_node.

Lemma accepted_membership_is_kept_witness :
  fst accepted_w = Ok true /\ exists p, vn_pools (snd accepted_w) !! "vpngate-3"%string = Some p /\ at_plan plan_w p.
Proof.
  split; [vm_compute; reflexivity |].
  apply (accepted_membership_is_kept (fun s => Ok s) ids_digest plain_runner tiny_plan vpngate_env_w plan_w empty_node true (snd accepted_w)).
  - intros tag q [=].
  - exact vpngate_files_w.
  - apply (pair_with accepted_w). vm_compute. reflexivity.
Defined.

(** The kernel restarts with an empty pool. *)
Definition emptied_node : VpngateNode := (snd accepted_w)<|vn_pools := {["vpngate-3"%string := newPool 1]}|>.
Definition envs_w (tag : string) : Time * call := (at_second 20, CallDone).

Lemma reconciliation_restores_memberships_witness :
  exists p, vn_pools (reconcileVPNGate (fun s => Ok s) ids_digest tiny_plan true CallDone envs_w emptied_node) !! "vpngate-3"%string = Some p /\
    at_plan plan_w p.
Proof.
  destruct (reconciliation_restores_memberships (fun s => Ok s) ids_digest tiny_plan true envs_w emptied_node "vpngate-3" plan_w
    (newPool 1) (at_second 20)) as (p & H1 & _ & H2).
  - change (plans_ok {["vpngate-3"%string := plan_w]}). intros tag q [<- <-]%lookup_singleton_Some. split; [reflexivity | vm_compute; reflexivity].
  - vm_compute. lia.
  - reflexivity.
  - reflexivity.
  - reflexivity.
  - vm_compute. discriminate.
  - exists p. split; [exact H1 |]. apply H2; [vm_compute; discriminate | vm_compute; reflexivity].
Defined.

End LaneWitness.
