(* ===== verification/SelfUpdate.v ===== *)
(** * SelfUpdate: signed releases

    Model of internal/agent/self_update.go, release_verify.go,
    runtime_security_integrity.go and internal/security/release.go: a release
    is downloaded with resumption, verified against its signed manifest,
    checked against the running configuration, staged beside the binaries it
    replaces, committed by renames with a rollback, and its manifest is kept
    as evidence for later inspections.

    Every exchange with the server and every system call that may fail is an
    argument. SHA-256, Ed25519 and the JSON encodings are parameters. Temporary
    names are arguments too; the model is of the builds without an executable
    suffix. *)

From S2P Require Import Prelude GoTime Stealth Files Json StateFile.

Definition maxReleaseManifestBytes : Z := Z.shiftl 1 20.
Definition maxReleaseSignatureBytes : Z := Z.shiftl 16 10.
Definition maxReleaseBinaryBytes : Z := Z.shiftl 256 20.
Definition corePreflightMinHeadroomBytes : Z := Z.shiftl 96 20.

Record ReleaseManifestFile := mkReleaseFile {
  rf_Name : string; rf_Component : string; rf_OS : string; rf_Arch : string; rf_SHA256 : string; rf_Size : Z
}.

Record ReleaseManifest := mkManifest {
  rm_Version : string; rm_Build : string; rm_Commit : string; rm_Date : string; rm_Repo : string; rm_Files : list ReleaseManifestFile
}.

Definition blen (b : bytes) : Z := Z.of_nat (List.length b).
Definition path_join (dir name : string) : string := dir +:+ "/" +:+ name.

Section Release.
Context (sha256hex : bytes -> string).

(** ** Downloads *)

(** How the copy of a body ended: all of it, the connection broke, the file
    could not be written. *)
Inductive copy_end := CopyDone | CopyNet | CopyFile.

Record Response := mkResponse {
  rs_status : Z; rs_range : string; rs_length : Z; rs_body : bytes; rs_end : copy_end; rs_open : option string; rs_close : option string
}.

(** No answer, for good or for another try; or a response with what was
    received of its body. *)
Inductive asset_exchange := XRefused (fatal : bool) | XResponse (r : Response).

(** One attempt, whether the context is over after it, and whether it ends
    during the wait for the next one. *)
Record Attempt := mkAttempt { at_exchange : asset_exchange; at_ctx : bool; at_wait : bool }.

Definition range_text (start total : Z) : string :=
  "bytes " +:+ pretty start +:+ "-" +:+ pretty (total - 1) +:+ "/" +:+ pretty total.

(** The numbers are read with [Sscanf] and printed again for the comparison,
    which leaves one text. *)
Definition validReleaseContentRange (value : string) (start total : Z) : bool := TrimSpace value =s range_text start total.

Definition retryableReleaseStatus (status : Z) : bool :=
  (status =? 408) || (status =? 425) || (status =? 429) || (500 <=? status).

(** Where the file is resumed; a file that is no prefix of the expected one is
    removed. *)
Definition resume_point (expected : option ReleaseManifestFile) (path : string) (d : disk) : result string (Z * disk) :=
  match expected with
  | None => Ok (0, d)
  | Some f =>
      match d !! path with
      | None => Ok (0, d)
      | Some (Regular b) => if rf_Size f <=? blen b then Ok (0, delete path d) else Ok (blen b, d)
      | Some Special => Ok (0, delete path d)
      | Some (Unreadable e) => Err e
      end
  end.

Definition content (d : disk) (path : string) : bytes := match d !! path with Some (Regular b) => b | _ => [] end.

(** What is read of the body at most. *)
Definition read_limit (maxBytes resumeAt : Z) (expected : option ReleaseManifestFile) : Z :=
  match expected with
  | Some f => if rf_Size f <? maxBytes - resumeAt then rf_Size f - resumeAt else maxBytes - resumeAt
  | None => maxBytes - resumeAt
  end.

(** The body into the file, from [resumeAt] on. *)
Definition receive (maxBytes resumeAt : Z) (expected : option ReleaseManifestFile) (path : string) (r : Response) (d : disk)
  : (bool * option string) * disk :=
  match rs_open r with
  | Some e => ((false, Some e), d)
  | None =>
      let limit := read_limit maxBytes resumeAt expected in
      let room := Z.to_nat (limit + 1) in
      let got := take room (rs_body r) in
      let ended := if (List.length (rs_body r) <? room)%nat then rs_end r else CopyDone in
      let written := blen got in
      let d := <[path := Regular ((if 0 <? resumeAt then content d path else []) ++ got)]> d in
      let short := match expected with Some f => resumeAt + written <? rf_Size f | None => false end in
      let leave (keep : bool) := if keep then d else delete path d in
      match ended with
      | CopyNet => ((true, Some "copy"%string), leave short)
      | CopyFile => ((false, Some "copy"%string), leave false)
      | CopyDone =>
          match rs_close r with
          | Some e => ((false, Some e), leave false)
          | None =>
              if (limit <? written) && match expected with Some _ => true | None => false end then ((true, Some "exceeds signed size"%string), leave false)
              else if maxBytes <? written then ((false, Some "exceeds size limit"%string), leave false)
              else if (0 <=? rs_length r) && negb (written =? rs_length r) then ((true, Some "short body"%string), leave short)
              else
                match expected with
                | None => ((false, None), d)
                | Some f =>
                    if resumeAt + written <? rf_Size f then ((true, Some "short file"%string), d)
                    else if negb (blen (content d path) =? rf_Size f) || negb (sha256hex (content d path) =s rf_SHA256 f)
                    then ((true, Some "checksum"%string), leave false)
                    else ((false, None), d)
                end
          end
      end
  end.

(** Whether to try again, the error, the disk. *)
Definition downloadReleaseAssetOnce (maxBytes : Z) (expected : option ReleaseManifestFile) (path : string) (x : asset_exchange) (d : disk)
  : (bool * option string) * disk :=
  match resume_point expected path d with
  | Err e => ((false, Some e), d)
  | Ok (resumeAt, d) =>
      match x with
      | XRefused fatal => ((negb fatal, Some "transport"%string), d)
      | XResponse r =>
          let partial := (0 <? resumeAt) && (rs_status r =? 206) in
          if negb (rs_status r =? 200) && negb partial then ((retryableReleaseStatus (rs_status r), Some "status"%string), d)
          else if partial && negb (validReleaseContentRange (rs_range r) resumeAt (match expected with Some f => rf_Size f | None => 0 end))
          then ((true, Some "range"%string), delete path d)
          else
            let resumeAt := if partial then resumeAt else 0 in
            if maxBytes <? rs_length r then ((false, Some "exceeds size limit"%string), d)
            else if match expected with Some f => (0 <=? rs_length r) && negb (rs_length r =? rf_Size f - resumeAt) | None => false end
            then ((true, Some "length"%string), d)
            else receive maxBytes resumeAt expected path r d
      end
  end.

(** [downloadReleaseAssetWithPolicy]: [more] attempts after this one, which is
    number [k]. A failure leaves no file. *)
Fixpoint download_attempts (maxBytes : Z) (expected : option ReleaseManifestFile) (path : string) (attempts : nat -> Attempt)
    (more k : nat) (d : disk) : option string * disk :=
  let a := attempts k in
  let '((retryable, err), d) := downloadReleaseAssetOnce maxBytes expected path (at_exchange a) d in
  match err with
  | None => (None, d)
  | Some e =>
      if at_ctx a || negb retryable then (Some e, delete path d)
      else
        match more with
        | O => (Some e, delete path d)
        | S more => if at_wait a then (Some e, delete path d) else download_attempts maxBytes expected path attempts more (S k) d
        end
  end.

Definition releaseDownloadAttempts : nat := 3.

(** [policy] is the number of attempts. *)
Definition downloadReleaseAssetWithPolicy (policy : nat) (maxBytes : Z) (expected : option ReleaseManifestFile) (path : string)
    (attempts : nat -> Attempt) (d : disk) : option string * disk :=
  download_attempts maxBytes expected path attempts ((if (policy <? 1)%nat then 1 else policy) - 1) 0 d.

(** The sources of an asset: the first one, whether the context is over when it
    failed, and the Controller as the other source where the URL allows it. *)
Record AssetEnv := mkAsset { ae_first : nat -> Attempt; ae_ctx : bool; ae_second : option (nat -> Attempt) }.

Definition downloadReleaseAssetUsingPolicy (policy : nat) (maxBytes : Z) (expected : option ReleaseManifestFile) (path : string) (e : AssetEnv)
    (d : disk) : option string * disk :=
  match downloadReleaseAssetWithPolicy policy maxBytes expected path (ae_first e) d, expected, ae_second e with
  | (Some err, d), Some _, Some second =>
      if ae_ctx e then (Some err, d) else downloadReleaseAssetWithPolicy policy maxBytes expected path second (delete path d)
  | res, _, _ => res
  end.

(** ** Verification *)

Context {CM : Codec ReleaseManifest} (ed25519 : string -> bytes -> string -> bool) (ReleasePublicKey : string).
(** A development build that may install unsigned releases. *)
Context (unsigned_allowed : bool) (GOOS GOARCH : string).

Definition VerifyReleaseManifest (m : ReleaseManifest) (signature key : string) : bool :=
  negb (key =s "") && match json_Marshal m with Some payload => ed25519 key payload signature | None => false end.

(** [bytesTrimSpace] of release_verify.go. *)
Definition blanks : list (list ascii) := map (map ascii_of_nat) [[32]; [10]; [13]; [9]]%nat.
Definition bytesTrimSpace (b : bytes) : bytes := rev (trim_left_bytes blanks (rev (trim_left_bytes blanks b))).

(** The manifest and the signature of two files. *)
Definition read_signed (trim : bytes -> string) (manifestPath signaturePath : string) (d : disk) : result string (ReleaseManifest * string) :=
  match ReadFile d manifestPath with
  | Err _ => Err "manifest"%string
  | Ok b =>
      match json_Unmarshal b with
      | None => Err "manifest"%string
      | Some m => match ReadFile d signaturePath with Err _ => Err "signature"%string | Ok sig => Ok (m, trim sig) end
      end
  end.

Definition signed (m : ReleaseManifest) (signature : string) : bool :=
  if (ReleasePublicKey =s "") || (signature =s "") then unsigned_allowed else VerifyReleaseManifest m signature ReleasePublicKey.

Definition verifyDownloadedManifest (manifestPath signaturePath repo expectedBuild : string) (d : disk) : result string ReleaseManifest :=
  let? ms := read_signed (fun sig => TrimSpace (string_of_list_ascii sig)) manifestPath signaturePath d in
  let '(m, signature) := ms in
  if negb (signed m signature) then Err "signature"%string
  else if negb (repo =s "") && negb (rm_Repo m =s repo) then Err "repo"%string
  else if negb (expectedBuild =s "") && negb (rm_Build m =s expectedBuild) then Err "build"%string
  else Ok m.

Definition here (f : ReleaseManifestFile) : bool := (rf_OS f =s GOOS) && (rf_Arch f =s GOARCH).

Definition validateManifestBinary (m : ReleaseManifest) (name component : string) : result string ReleaseManifestFile :=
  match List.find (fun f => (rf_Name f =s name) && here f) (rm_Files m) with
  | None => Err "not contained"%string
  | Some f =>
      if negb (rf_Component f =s component) || (rf_Size f <=? 0) || (maxReleaseBinaryBytes <? rf_Size f) then Err "metadata"%string else Ok f
  end.

(** The entry [byName] ends up with: the last one of the name. *)
Definition by_name (m : ReleaseManifest) (name : string) : option ReleaseManifestFile :=
  List.find (fun f => (rf_Name f =s name) && here f) (rev (rm_Files m)).

Definition base_name (name : string) : bool := negb (name =s "") && negb (str_Contains name "/") && negb (name =s ".") && negb (name =s "..").

Fixpoint verify_release_files (m : ReleaseManifest) (baseDir : string) (names : list string) (d : disk) : option string :=
  match names with
  | [] => None
  | name :: names =>
      if negb (base_name name) then Some "name"%string
      else
        match by_name m name with
        | None => Some "not contained"%string
        | Some f =>
            match ReadFile d (path_join baseDir name) with
            | Err _ => Some "unreadable"%string
            | Ok b => if negb (sha256hex b =s rf_SHA256 f) || negb (blen b =? rf_Size f) then Some "checksum"%string else verify_release_files m baseDir names d
            end
        end
  end.

Definition VerifyReleaseFiles (manifestPath signaturePath baseDir : string) (names : list string) (d : disk) : option string :=
  match read_signed (fun sig => string_of_list_ascii (bytesTrimSpace sig)) manifestPath signaturePath d with
  | Err e => Some e
  | Ok (m, signature) => if negb (signed m signature) then Some "signature"%string else verify_release_files m baseDir names d
  end.

(** ** Preflight *)

Definition corePreflightMemoryVerdict (limit usage : Z) : bool :=
  if limit <=? 0 then true
  else if (usage =? 0) || (limit <=? usage) then false
  else negb (limit - usage <? corePreflightMinHeadroomBytes).

Inductive run_end := RunOk | RunExit | RunOther.

Record PreflightEnv := mkPreflight { pf_chmod : option string; pf_limit : Z; pf_usage : Z; pf_run : run_end }.

Inductive preflight_state := PreflightValidated | PreflightNotDeployed | PreflightSkipped.

Definition preflightStagedCore (e : PreflightEnv) (configPath : string) (d : disk) : preflight_state * bool :=
  if TrimSpace configPath =s "" then (PreflightNotDeployed, true)
  else
    match d !! TrimSpace configPath with
    | None | Some (Regular []) => (PreflightNotDeployed, true)
    | Some _ =>
        match pf_chmod e with
        | Some _ => (PreflightSkipped, true)
        | None =>
            if negb (corePreflightMemoryVerdict (pf_limit e) (pf_usage e)) then (PreflightSkipped, true)
            else match pf_run e with RunOk => (PreflightValidated, true) | RunExit => (PreflightSkipped, false) | RunOther => (PreflightSkipped, true) end
        end
    end.

(** The space of the file system as total and available bytes, if known. *)
Definition update_reserve (total available : Z) : Z :=
  let floor := if (total <=? Z.shiftl 1 30) || (available <=? Z.shiftl 256 20) then Z.shiftl 32 20
               else if (total <=? Z.shiftl 4 30) || (available <=? Z.shiftl 1 30) then Z.shiftl 64 20 else Z.shiftl 128 20 in
  if floor <? total / 20 then total / 20 else floor.

Definition checkUpdateDiskBudget (stats : option (Z * Z)) (sizes : list Z) : bool :=
  match stats with
  | None => true
  | Some (total, available) =>
      let required := fold_left (fun t s => if 0 <? s then wrap64 (t + s) else t) sizes 0 in
      negb (available <? wrapu64 (wrapu64 required + update_reserve total available))
  end.

End Release.

(** ** Installation *)

Record stagedReleaseFile := mkStaged {
  sf_source : string; sf_target : string; sf_stage : string; sf_backup : string; sf_hadOld : bool; sf_linked : bool
}.

#[export] Instance eta_stagedReleaseFile : Eta stagedReleaseFile := fun f =>
  mkStaged (sf_source f) (sf_target f) (sf_stage f) (sf_backup f) (sf_hadOld f) (sf_linked f).

Definition release_item (source target : string) : stagedReleaseFile := mkStaged source target "" "" false false.

(** What the installation of one file meets: the temporary names it is given
    and the calls that fail, among them the renames that undo it. *)
Record ItemEnv := mkItem {
  ie_mkdir : option string; ie_stage : result string string; ie_stat : option string; ie_backup : result string string; ie_link : bool;
  ie_out : option string; ie_in : option string; ie_back : option string; ie_restore : option string
}.

Definition rename (fail : option string) (a b : string) (d : disk) : option string * disk :=
  match fail, d !! a with
  | None, Some x => (None, <[b := x]> (delete a d))
  | Some e, _ => (Some e, d)
  | None, None => (Some "no such file"%string, d)
  end.

(** [copyReleaseFileBeside]. *)
Definition copyReleaseFileBeside (source : string) (stage : result string string) (d : disk) : result string string * disk :=
  match ReadFile d source, stage with
  | Ok b, Ok name => (Ok name, <[name := Regular b]> d)
  | Err _, _ => (Err "source"%string, d)
  | _, Err e => (Err e, d)
  end.

Definition preserveExistingReleaseFile (e : ItemEnv) (it : stagedReleaseFile) (d : disk) : option string * stagedReleaseFile * disk :=
  match d !! sf_target it with
  | None => (None, it, d)
  | Some old =>
      match ie_stat e with
      | Some err => (Some err, it, d)
      | None =>
          match ie_backup e with
          | Err err => (Some err, it, d)
          | Ok backup =>
              let it := it<|sf_backup := backup|><|sf_hadOld := true|> in
              if ie_link e then (None, it<|sf_linked := true|>, <[backup := old]> d) else (None, it, d)
          end
      end
  end.

Definition cleanup_item (d : disk) (it : stagedReleaseFile) : disk :=
  let d := if sf_stage it =s "" then d else delete (sf_stage it) d in
  if sf_backup it =s "" then d else delete (sf_backup it) d.

Definition cleanupStagedReleaseFiles (its : list (ItemEnv * stagedReleaseFile)) (d : disk) : disk :=
  fold_left (fun d x => cleanup_item d (snd x)) its d.

(** The staging loop; a directory that cannot be made ends it without a
    clean-up. *)
Fixpoint stage_items (ready todo : list (ItemEnv * stagedReleaseFile)) (d : disk)
  : option string * list (ItemEnv * stagedReleaseFile) * disk :=
  match todo with
  | [] => (None, ready, d)
  | (e, it) :: todo =>
      match ie_mkdir e with
      | Some err => (Some err, ready ++ (e, it) :: todo, d)
      | None =>
          match copyReleaseFileBeside (sf_source it) (ie_stage e) d with
          | (Err err, d) => (Some err, ready ++ (e, it) :: todo, cleanupStagedReleaseFiles (ready ++ (e, it) :: todo) d)
          | (Ok stage, d) =>
              match preserveExistingReleaseFile e (it<|sf_stage := stage|>) d with
              | (Some err, it, d) => (Some err, ready ++ (e, it) :: todo, cleanupStagedReleaseFiles (ready ++ (e, it) :: todo) d)
              | (None, it, d) => stage_items (ready ++ [(e, it)]) todo d
              end
          end
      end
  end.

Definition commitStagedReleaseFile (e : ItemEnv) (it : stagedReleaseFile) (d : disk) : option string * stagedReleaseFile * disk :=
  let moved := sf_hadOld it && negb (sf_linked it) in
  match (if moved then rename (ie_out e) (sf_target it) (sf_backup it) d else (None, d)) with
  | (Some err, d) => (Some err, it, d)
  | (None, d) =>
      match rename (ie_in e) (sf_stage it) (sf_target it) d with
      | (Some err, d) => (Some err, it, if moved then snd (rename (ie_back e) (sf_backup it) (sf_target it) d) else d)
      | (None, d) => (None, it<|sf_stage := ""|>, d)
      end
  end.

Definition restore_item (d : disk) (x : ItemEnv * stagedReleaseFile) : disk :=
  let '(e, it) := x in
  if sf_hadOld it then snd (rename (ie_restore e) (sf_backup it) (sf_target it) d) else delete (sf_target it) d.

Definition restoreStagedReleaseFiles (its : list (ItemEnv * stagedReleaseFile)) (d : disk) : disk := fold_left restore_item its d.

Fixpoint commitStagedReleaseFiles (ready todo : list (ItemEnv * stagedReleaseFile)) (d : disk)
  : option string * list (ItemEnv * stagedReleaseFile) * disk :=
  match todo with
  | [] => (None, ready, d)
  | (e, it) :: todo =>
      match commitStagedReleaseFile e it d with
      | (Some err, it, d) => (Some err, ready ++ (e, it) :: todo, restoreStagedReleaseFiles ready d)
      | (None, it, d) => commitStagedReleaseFiles (ready ++ [(e, it)]) todo d
      end
  end.

(** The sidecars of an earlier update in a directory. *)
Definition stale_sidecar (dir prefix path : string) : bool :=
  existsb (fun p => HasPrefix path (path_join dir p))
    ([(prefix +:+ "-new.")%string; (prefix +:+ "-backup.")%string] ++
     if prefix =s ".oboard-update" then [] else [".oboard-update-new."; ".oboard-update-backup."]%string).

(** [removeStaleReleaseSidecars] of an absolute directory, as the targets have
    one; [dir_of] is [filepath.Dir]. *)
Definition removeStaleReleaseSidecars (dir_of : string -> string) (dir prefix : string) (d : disk) : disk :=
  filter (fun pe => ~ (dir_of pe.1 = dir /\ stale_sidecar dir prefix pe.1 = true)) d.

Definition installVerifiedReleaseFiles (dir_of : string -> string) (prefix : string) (its : list (ItemEnv * stagedReleaseFile)) (d : disk)
  : option string * disk :=
  let d := fold_left (fun d dir => removeStaleReleaseSidecars dir_of dir prefix d) (remove_dups (map (fun x => dir_of (sf_target (snd x))) its)) d in
  match stage_items [] its d with
  | (Some err, _, d) => (Some err, d)
  | (None, its, d) =>
      match commitStagedReleaseFiles [] its d with
      | (err, its, d) => (err, cleanupStagedReleaseFiles its d)
      end
  end.

(** *** All or nothing *)

Definition ok_list (r : result string string) : list string := match r with Ok x => [x] | Err _ => [] end.
Definition tmp_names (e : ItemEnv) : list string := ok_list (ie_stage e) ++ ok_list (ie_backup e).

(** The names one file of the release may touch. *)
Definition own (x : ItemEnv * stagedReleaseFile) : list string := sf_target (snd x) :: tmp_names (fst x).

(** The names an item has been given. *)
Definition named (x : ItemEnv * stagedReleaseFile) : Prop :=
  (sf_stage (snd x) = "" \/ ie_stage (fst x) = Ok (sf_stage (snd x))) /\ (sf_backup (snd x) = "" \/ ie_backup (fst x) = Ok (sf_backup (snd x))).

Lemma named_in x p : named x -> p <> "" -> p = sf_stage (snd x) \/ p = sf_backup (snd x) -> p ∈ tmp_names (fst x).
Proof.
  intros [H1 H2] Hp Hor. unfold tmp_names. rewrite elem_of_app. destruct Hor as [-> | ->].
  - destruct H1 as [? | ->]; [done |]. left. by left.
  - destruct H2 as [? | ->]; [done |]. right. by left.
Qed.

Lemma cleanup_item_frame d x p : named x -> p ∉ tmp_names (fst x) -> cleanup_item d (snd x) !! p = d !! p.
Proof.
  intros Hn Hp. unfold cleanup_item.
  assert (forall q (d : disk), q = sf_stage (snd x) \/ q = sf_backup (snd x) -> (if q =s "" then d else delete q d) !! p = d !! p) as H.
  { intros q d' Hq. destruct (q =s "") eqn:E; [done |]. apply str_eqb_neq in E. apply lookup_delete_ne. intros ->.
    apply Hp. by apply named_in. }
  rewrite !H; auto.
Qed.

Lemma cleanup_frame its p : forall d, Forall named its -> p ∉ concat (map (fun x => tmp_names (fst x)) its) ->
  cleanupStagedReleaseFiles its d !! p = d !! p.
Proof.
  induction its as [| x its IH]; intros d Hn Hp; [done |]. apply Forall_cons in Hn as [Hx Hn]. cbn in Hp. rewrite elem_of_app in Hp.
  cbn. rewrite IH by tauto. apply cleanup_item_frame; tauto.
Qed.

(** A file that is staged: its new content waits beside the target, and what
    the target held is known. *)
Definition staged (d0 d : disk) (x : ItemEnv * stagedReleaseFile) : Prop :=
  named x /\ sf_stage (snd x) <> "" /\ d !! sf_stage (snd x) = Some (Regular (content d0 (sf_source (snd x)))) /\
  d !! sf_target (snd x) = d0 !! sf_target (snd x) /\
  if sf_hadOld (snd x) then sf_backup (snd x) <> "" /\ is_Some (d0 !! sf_target (snd x)) /\
    (sf_linked (snd x) = true -> d !! sf_backup (snd x) = d0 !! sf_target (snd x))
  else d0 !! sf_target (snd x) = None.

(** A file that is committed: the target has the new content, the backup the
    old one. *)
Definition committed (d0 d : disk) (x : ItemEnv * stagedReleaseFile) : Prop :=
  named x /\ d !! sf_target (snd x) = Some (Regular (content d0 (sf_source (snd x)))) /\
  if sf_hadOld (snd x) then sf_backup (snd x) <> "" /\ is_Some (d0 !! sf_target (snd x)) /\ d !! sf_backup (snd x) = d0 !! sf_target (snd x)
  else d0 !! sf_target (snd x) = None.

Lemma own_target x : sf_target (snd x) ∈ own x.
Proof. by left. Qed.
Lemma own_tmp x p : p ∈ tmp_names (fst x) -> p ∈ own x.
Proof. by right. Qed.

Lemma staged_frame d0 d d' x : staged d0 d x -> (forall p, p ∈ own x -> d' !! p = d !! p) -> staged d0 d' x.
Proof.
  intros (Hn & Hs & H1 & H2 & H3) Hf. split_and!; [done | done | | |].
  - rewrite Hf; [done |]. apply own_tmp, named_in; auto.
  - rewrite Hf; [done | apply own_target].
  - destruct (sf_hadOld (snd x)); [| done]. destruct H3 as (Hb & ? & H3). split_and!; [done | done |]. intros Hl.
    rewrite Hf; [auto |]. apply own_tmp, named_in; auto.
Qed.

Lemma committed_frame d0 d d' x : committed d0 d x -> (forall p, p ∈ own x -> d' !! p = d !! p) -> committed d0 d' x.
Proof.
  intros (Hn & H1 & H2) Hf. split_and!; [done | rewrite Hf; [done | apply own_target] |].
  destruct (sf_hadOld (snd x)); [| done]. destruct H2 as (Hb & ? & H2). split_and!; [done | done |].
  rewrite Hf; [done |]. apply own_tmp, named_in; auto.
Qed.

Lemma rename_ok a b d x : d !! a = Some x -> rename None a b d = (None, <[b := x]> (delete a d)).
Proof. intros H. unfold rename. by rewrite H. Qed.

Lemma rename_frame fail a b d p : p <> a -> p <> b -> snd (rename fail a b d) !! p = d !! p.
Proof.
  intros Ha Hb. unfold rename. destruct fail, (d !! a); cbn; try done. by rewrite lookup_insert_ne, lookup_delete_ne by done.
Qed.

(** Lookups after a chain of renames between distinct names. *)
Ltac at_disk :=
  repeat first [rewrite lookup_insert_eq | rewrite lookup_insert_ne by congruence | rewrite lookup_delete_eq
               | rewrite lookup_delete_ne by congruence].

(** The names of a staged file differ. *)
Lemma staged_names d0 d e it : NoDup (own (e, it)) -> staged d0 d (e, it) ->
  sf_stage it ∈ tmp_names e /\ sf_stage it <> sf_target it /\
  (sf_hadOld it = true -> sf_backup it ∈ tmp_names e /\ sf_backup it <> sf_target it /\ sf_stage it <> sf_backup it).
Proof.
  intros [Hni Hnd]%NoDup_cons (Hn & Hs & _ & _ & H3). cbn [fst snd] in *.
  assert (Hst : sf_stage it ∈ tmp_names e) by (apply (named_in (e, it)); auto).
  split_and!; [done | by intros Eq; rewrite Eq in Hst |]. intros Ho. rewrite Ho in H3. destruct H3 as (Hb & _ & _).
  assert (Hbt : sf_backup it ∈ tmp_names e) by (apply (named_in (e, it)); auto).
  split_and!; [done | by intros Eq; rewrite Eq in Hbt |].
  destruct Hn as [[? | Hn1] [? | Hn2]]; try done. cbn in Hn1, Hn2. unfold tmp_names in Hnd. rewrite Hn1, Hn2 in Hnd. cbn in Hnd.
  apply NoDup_cons in Hnd as [Hne _]. intros Eq. apply Hne. rewrite Eq. by left.
Qed.

(** One commit, and one that fails and is undone. *)
Lemma commit_item_spec d0 d e it err it' d' :
  NoDup (own (e, it)) -> staged d0 d (e, it) -> commitStagedReleaseFile e it d = (err, it', d') ->
  sf_target it' = sf_target it /\ sf_source it' = sf_source it /\ named (e, it') /\ (forall p, p ∉ own (e, it) -> d' !! p = d !! p) /\
  match err with None => committed d0 d' (e, it') | Some _ => ie_back e = None -> d' !! sf_target it = d0 !! sf_target it end.
Proof.
  intros Hnd Hst E. destruct (staged_names _ _ _ _ Hnd Hst) as (Ht & Htne & Hbk). destruct Hst as (Hn & Hs & H1 & H2 & H3).
  cbn [fst snd] in *. assert (Hout : forall p, p ∉ own (e, it) -> p <> sf_target it /\ p <> sf_stage it /\ (sf_hadOld it = true -> p <> sf_backup it)).
  { intros p Hp. split_and!; [intros ->; by apply Hp, (own_target (e, it)) | | intros Ho; destruct (Hbk Ho) as (? & _)];
      intros ->; by apply Hp, (own_tmp (e, it)). }
  unfold commitStagedReleaseFile, rename in E.
  destruct (sf_hadOld it) eqn:Ho; [destruct H3 as (Hb & [old Hold] & H3); destruct (Hbk eq_refl) as (Hbt & Hbne & Hsb) |];
    [destruct (sf_linked it) eqn:El |]; cbn [andb negb] in E; rewrite ?H2, ?Hold in E.
  2:{ destruct (ie_out e) as [er |]; [injection E as <- <- <-; split_and!; auto; by rewrite H2 |].
      assert (<[sf_backup it := old]> (delete (sf_target it) d) !! sf_stage it = Some (Regular (content d0 (sf_source it)))) as H1'
        by (by at_disk). rewrite H1' in E.
      destruct (ie_in e) as [er |]; [rewrite lookup_insert_eq in E; destruct (ie_back e) |]; injection E as <- <- <-; cbn; (split_and!; [done | done | | |]);
        try done; try (split; [by left | apply Hn]);
        try (intros p Hp; destruct (Hout p Hp) as (? & ? & Hx); specialize (Hx eq_refl); by at_disk).
      - intros _. at_disk. congruence.
      - split_and!; cbn; [split; [by left | apply Hn] | by at_disk |]. rewrite Ho. split_and!; [done | by eexists |]. at_disk. congruence. }
  all: destruct (ie_in e) as [er |]; [| rewrite H1 in E]; injection E as <- <- <-; cbn; (split_and!; [done | done | | |]); try done;
    try (split; [by left | apply Hn]);
    try (by intros p Hp; destruct (Hout p Hp) as (? & ? & _); at_disk);
    (split_and!; cbn; [split; [by left | apply Hn] | by at_disk | rewrite Ho]).
  - split_and!; [done | by eexists |]. at_disk. auto.
  - done.
Qed.

Lemma restore_item_spec d0 d e it :
  NoDup (own (e, it)) -> committed d0 d (e, it) ->
  (ie_restore e = None -> restore_item d (e, it) !! sf_target it = d0 !! sf_target it) /\ forall p, p ∉ own (e, it) -> restore_item d (e, it) !! p = d !! p.
Proof.
  intros Hnd (Hn & H1 & H2). cbn [fst snd] in *. unfold restore_item. destruct (sf_hadOld it).
  - destruct H2 as (Hb & [old Hold] & H2). split.
    + intros Hr. rewrite Hr. rewrite Hold in H2 |- *. rewrite (rename_ok _ _ _ _ H2). cbn. by at_disk.
    + intros p Hp. assert (sf_backup it ∈ tmp_names e) by (apply (named_in (e, it)); auto).
      apply rename_frame; intros ->; apply Hp; [by apply (own_tmp (e, it)) | apply (own_target (e, it))].
  - rewrite H2. split; [intros _; by at_disk |]. intros p Hp. assert (p <> sf_target it) by (intros ->; by apply Hp, (own_target (e, it))). by at_disk.
Qed.

Abbreviation item := (ItemEnv * stagedReleaseFile)%type.

Lemma in_owns (l : list item) y p : y ∈ l -> p ∈ own y -> p ∈ concat (map own l).
Proof.
  intros Hy Hp. induction l as [| x l IH]; [by apply elem_of_nil in Hy |]. cbn [map concat]. rewrite elem_of_app.
  apply elem_of_cons in Hy as [-> | Hy]; auto.
Qed.

Lemma owns_split (l1 : list item) x l2 : NoDup (concat (map own (l1 ++ x :: l2))) ->
  NoDup (own x) /\ NoDup (concat (map own l1)) /\ (forall y p, y ∈ l1 ++ l2 -> p ∈ own y -> p ∉ own x) /\
  (forall y p, y ∈ x :: l2 -> p ∈ own y -> p ∉ concat (map own l1)).
Proof.
  rewrite map_app, concat_app. cbn [map concat]. intros (H1 & H12 & (H2 & H23 & H3)%NoDup_app)%NoDup_app.
  split_and!; [done | done | |].
  - intros y p [Hy | Hy]%elem_of_app Hp Hx.
    + apply (H12 p); [by apply (in_owns _ y) | rewrite elem_of_app; by left].
    + apply (H23 p); [done | by apply (in_owns _ y)].
  - intros y p Hy Hp Hc. apply (H12 p Hc). rewrite elem_of_app. apply elem_of_cons in Hy as [-> | Hy]; [by left | right].
    by apply (in_owns _ y).
Qed.

Lemma restore_spec d0 l : forall d, NoDup (concat (map own l)) -> Forall (committed d0 d) l ->
  (Forall (fun x => ie_restore (fst x) = None) l ->
   Forall (fun x => restoreStagedReleaseFiles l d !! sf_target (snd x) = d0 !! sf_target (snd x)) l) /\
  forall p, p ∉ concat (map own l) -> restoreStagedReleaseFiles l d !! p = d !! p.
Proof.
  induction l as [| [e it] l IH]; intros d Hnd Hc; [by split; [constructor |] |].
  destruct (owns_split [] (e, it) l Hnd) as (Hx & _ & Hdis & _). cbn [app] in Hdis.
  apply Forall_cons in Hc as [Hc1 Hc]. destruct (restore_item_spec d0 d e it Hx Hc1) as [Ht Hf].
  cbn [map concat] in *. apply NoDup_app in Hnd as (_ & Hd & Hnd).
  destruct (IH (restore_item d (e, it))) as [H1 H2]; [done | |].
  { rewrite Forall_forall in *. intros y Hy. eapply committed_frame; [by apply Hc |]. intros p Hp. apply Hf. by apply (Hdis y). }
  cbn [restoreStagedReleaseFiles fold_left] in *. split.
  - intros [Hr1 Hr]%Forall_cons. constructor; [| by apply H1]. cbn [snd]. rewrite H2; [by apply Ht |]. apply Hd. apply (own_target (e, it)).
  - intros p Hp. rewrite elem_of_app in Hp. rewrite H2 by tauto. apply Hf. tauto.
Qed.

Definition ends (x : item) : string * string := (sf_target (snd x), sf_source (snd x)).

Lemma own_same (x y : item) : fst x = fst y -> sf_target (snd x) = sf_target (snd y) -> own x = own y.
Proof. unfold own. by intros -> ->. Qed.

(** The renames that undo others succeed. *)
Definition undoable (x : item) : Prop := ie_back (fst x) = None /\ ie_restore (fst x) = None.

Lemma commit_spec d0 todo : forall ready d err its d',
  NoDup (concat (map own (ready ++ todo))) -> Forall (committed d0 d) ready -> Forall (staged d0 d) todo ->
  commitStagedReleaseFiles ready todo d = (err, its, d') ->
  map fst its = map fst (ready ++ todo) /\ map ends its = map ends (ready ++ todo) /\ Forall named its /\
  (forall p, p ∉ concat (map own (ready ++ todo)) -> d' !! p = d !! p) /\
  match err with
  | None => Forall (committed d0 d') its
  | Some _ => Forall undoable (ready ++ todo) -> Forall (fun x => d' !! sf_target (snd x) = d0 !! sf_target (snd x)) its
  end.
Proof.
  induction todo as [| [e it] todo IH]; intros ready d err its d' Hnd Hc Hs E; cbn [commitStagedReleaseFiles] in E.
  { injection E as <- <- <-. rewrite app_nil_r in *. split_and!; auto. eapply Forall_impl; [exact Hc |]. by intros x (? & _). }
  destruct (owns_split ready (e, it) todo Hnd) as (Hx & Hready & Hdis & Hafter). apply Forall_cons in Hs as [Hs1 Hs].
  destruct (commitStagedReleaseFile e it d) as [[err1 it1] d1] eqn:E1.
  destruct (commit_item_spec _ _ _ _ _ _ _ Hx Hs1 E1) as (Ht & Hsrc & Hn1 & Hf & Hres).
  assert (Hc1 : Forall (committed d0 d1) ready).
  { rewrite Forall_forall in *. intros y Hy. eapply committed_frame; [by apply Hc |]. intros p Hp. apply Hf, (Hdis y); [set_solver | done]. }
  assert (Hs' : Forall (staged d0 d1) todo).
  { rewrite Forall_forall in *. intros y Hy. eapply staged_frame; [by apply Hs |]. intros p Hp. apply Hf, (Hdis y); [set_solver | done]. }
  assert (Hown : own (e, it1) = own (e, it)) by (by apply own_same).
  destruct err1 as [er |].
  - injection E as <- <- <-.
    destruct (restore_spec d0 ready d1 Hready Hc1) as [Hr1 Hr2].
    split_and!; [by rewrite !map_app | rewrite !map_app; cbn [map]; unfold ends at 2 5; cbn [snd]; by rewrite Ht, Hsrc | | |].
    + apply Forall_app. split; [eapply Forall_impl; [exact Hc1 |]; by intros x (? & _) |]. constructor; [done |].
      eapply Forall_impl; [exact Hs' |]. by intros x (? & _).
    + intros p Hp. rewrite map_app, concat_app in Hp. cbn [map concat] in Hp. rewrite !elem_of_app in Hp.
      rewrite Hr2 by tauto. apply Hf. tauto.
    + intros [Hu1 [[Hback _] _]%Forall_cons]%Forall_app. apply Forall_app. split; [apply Hr1; eapply Forall_impl; [exact Hu1 |]; by intros x [] |]. constructor.
      * cbn [snd]. rewrite Ht, Hr2; [by apply Hres |]. apply (Hafter (e, it)); [by left | apply (own_target (e, it))].
      * rewrite Forall_forall in Hs' |- *. intros y Hy. rewrite Hr2; [by apply Hs' |]. apply (Hafter y); [by right | apply own_target].
  - specialize (IH (ready ++ [(e, it1)]) d1 err its d'). rewrite <- app_assoc in IH. cbn [app] in IH.
    assert (map own (ready ++ (e, it1) :: todo) = map own (ready ++ (e, it) :: todo)) as Eo by (rewrite !map_app; cbn [map]; by rewrite Hown).
    rewrite Eo in IH. destruct IH as (H1 & H2 & H3 & H4 & H5); [done | | done | done |].
    + apply Forall_app. split; [done |]. by constructor.
    + split_and!; [| | done | |]; [| | | destruct err; [| done]].
      * rewrite H1, !map_app. done.
      * rewrite H2, !map_app. cbn [map]. unfold ends at 2 4. cbn [snd]. by rewrite Ht, Hsrc.
      * intros p Hp. rewrite H4 by done. apply Hf. intros Hin. apply Hp. by apply (in_owns _ (e, it)); [set_solver |].
      * intros [Hu1 [Hu2 Hu3]%Forall_cons]%Forall_app. apply H5, Forall_app. split; [done |]. by constructor.
Qed.

(** A file nothing has been done about yet. *)
Definition untouched (x : item) : Prop := snd x = release_item (sf_source (snd x)) (sf_target (snd x)) /\ "" ∉ tmp_names (fst x).

Definition tmps (l : list item) : list string := concat (map (fun x => tmp_names (fst x)) l).

Lemma tmps_app l1 l2 : tmps (l1 ++ l2) = tmps l1 ++ tmps l2.
Proof. unfold tmps. by rewrite map_app, concat_app. Qed.

Lemma tmps_fst l1 l2 : map fst l1 = map fst l2 -> tmps l1 = tmps l2.
Proof. intros H. unfold tmps. by rewrite <- (map_map fst tmp_names l1), <- (map_map fst tmp_names l2), H. Qed.

Lemma tmps_owns l p : p ∈ tmps l -> exists x, x ∈ l /\ p ∈ tmp_names (fst x).
Proof.
  unfold tmps. induction l as [| x l IH]; [by intros ?%elem_of_nil |]. cbn. intros [? | ?]%elem_of_app; [exists x; split; [by left | done] |].
  destruct IH as (y & ? & ?); [done |]. exists y. split; [by right | done].
Qed.

(** The copy beside the target and the preservation of what is there. *)
Lemma stage_item_spec d0 d e it stage d1 err it' d' :
  untouched (e, it) -> NoDup (own (e, it)) -> d !! sf_source it = d0 !! sf_source it -> d !! sf_target it = d0 !! sf_target it ->
  copyReleaseFileBeside (sf_source it) (ie_stage e) d = (Ok stage, d1) ->
  preserveExistingReleaseFile e (it<|sf_stage := stage|>) d1 = (err, it', d') ->
  ends (e, it') = ends (e, it) /\ named (e, it') /\ (forall p, p ∉ tmp_names e -> d' !! p = d !! p) /\ (err = None -> staged d0 d' (e, it')).
Proof.
  intros [Hit Hne] [Hni Hnd]%NoDup_cons Hsrc Htgt E1 E2. cbn [fst snd] in *. rewrite Hit in *. unfold release_item, ends in *. cbn in *.
  unfold copyReleaseFileBeside, ReadFile in E1. rewrite Hsrc in E1.
  destruct (d0 !! sf_source it) as [[b | |] |] eqn:Es; try done. destruct (ie_stage e) as [name |] eqn:En; [| done]. injection E1 as -> <-.
  assert (Hin : stage ∈ tmp_names e) by (unfold tmp_names; rewrite En; by left).
  assert (Hs : stage <> "" /\ stage <> sf_target it) by (split; intros ->; done). destruct Hs as [Hs0 Hst].
  unfold preserveExistingReleaseFile in E2. cbn in E2. rewrite lookup_insert_ne, Htgt in E2 by done.
  assert (Hf : forall p, p ∉ tmp_names e -> <[stage := Regular b]> d !! p = d !! p) by (intros p Hp; apply lookup_insert_ne; by intros ->).
  assert (Hreg : content d0 (sf_source it) = b) by (unfold content; by rewrite Es).
  destruct (d0 !! sf_target it) as [old |] eqn:Et; [| injection E2 as <- <- <-; split_and!; [done | split; cbn; auto | done |]].
  2:{ intros _. split_and!; cbn; [split; cbn; auto | done | rewrite lookup_insert_eq; by rewrite Hreg | by rewrite lookup_insert_ne, Htgt, Et by done | done]. }
  destruct (ie_stat e); [injection E2 as <- <- <-; split_and!; [done | split; cbn; auto | done | done] |].
  destruct (ie_backup e) as [backup |] eqn:Eb; [| injection E2 as <- <- <-; split_and!; [done | split; cbn; auto | done | done]].
  assert (Hbin : backup ∈ tmp_names e) by (unfold tmp_names; rewrite Eb; apply elem_of_app; right; by left).
  assert (Hb : backup <> "" /\ backup <> sf_target it) by (split; intros ->; done). destruct Hb as [Hb0 Hbt].
  assert (Hsb : stage <> backup).
  { unfold tmp_names in Hnd. rewrite En, Eb in Hnd. cbn in Hnd. apply NoDup_cons in Hnd as [Hx _]. intros ->. apply Hx. by left. }
  destruct (ie_link e); injection E2 as <- <- <-; (split_and!; [done | split; cbn; auto | |]).
  - intros p Hp. rewrite lookup_insert_ne by (by intros ->). auto.
  - intros _. split_and!; cbn; [split; cbn; auto | done | at_disk; by rewrite Hreg | at_disk; by rewrite Htgt, Et |]. unfold upd. cbn.
    split_and!; [done | by rewrite Et; eexists |]. intros _. by at_disk.
  - done.
  - intros _. split_and!; cbn; [split; cbn; auto | done | at_disk; by rewrite Hreg | at_disk; by rewrite Htgt, Et |]. unfold upd. cbn.
    split_and!; [done | by rewrite Et; eexists | done].
Qed.

Lemma cleanup_tmps its its0 p d : Forall named its -> map fst its = map fst its0 -> p ∉ tmps its0 ->
  cleanupStagedReleaseFiles its d !! p = d !! p.
Proof. intros Hn Hm Hp. apply cleanup_frame; [done |]. change (p ∉ tmps its). by rewrite (tmps_fst its its0). Qed.

Lemma untouched_named x : untouched x -> named x.
Proof. intros [H _]. split; left; by rewrite H. Qed.

Lemma stage_spec d0 todo : forall ready d err its d',
  NoDup (concat (map own (ready ++ todo))) -> Forall (staged d0 d) ready -> Forall untouched todo ->
  (forall x, x ∈ todo -> sf_source (snd x) ∉ tmps (ready ++ todo)) -> (forall p, p ∉ tmps ready -> d !! p = d0 !! p) ->
  stage_items ready todo d = (err, its, d') ->
  map fst its = map fst (ready ++ todo) /\ map ends its = map ends (ready ++ todo) /\ (err = None -> Forall (staged d0 d') its) /\
  (forall p, p ∉ tmps (ready ++ todo) -> d' !! p = d0 !! p).
Proof.
  induction todo as [| [e it] todo IH]; intros ready d err its d' Hnd Hs Hu Hsrc Hd E; cbn [stage_items] in E.
  { injection E as <- <- <-. rewrite app_nil_r in *. auto. }
  destruct (owns_split ready (e, it) todo Hnd) as (Hx & Hready & Hdis & Hafter). apply Forall_cons in Hu as [Hu1 Hu].
  assert (Hnr : Forall named ready) by (eapply Forall_impl; [exact Hs |]; by intros x (? & _)).
  assert (Hnt : Forall named todo) by (eapply Forall_impl; [exact Hu |]; apply untouched_named).
  assert (Hdr : forall p, p ∉ tmps (ready ++ (e, it) :: todo) -> d !! p = d0 !! p) by (intros p Hp; apply Hd; rewrite tmps_app in Hp; set_solver).
  destruct (ie_mkdir e); [by injection E as <- <- <- |].
  destruct (copyReleaseFileBeside (sf_source it) (ie_stage e) d) as [[stage | er] d1] eqn:E1.
  2:{ assert (d1 = d) as -> by (unfold copyReleaseFileBeside in E1; repeat case_match; by simplify_eq). injection E as <- <- <-.
      split_and!; [done | done | done |]. intros p Hp. rewrite (cleanup_tmps _ (ready ++ (e, it) :: todo)); [auto | | done | done].
      apply Forall_app. split; [done |]. constructor; [by apply untouched_named | done]. }
  destruct (preserveExistingReleaseFile e _ d1) as [[err2 it2] d2] eqn:E2.
  assert (Htr : sf_target it ∉ tmps ready).
  { intros (y & Hy & Hp)%tmps_owns. apply (Hdis y (sf_target it)); [set_solver | by apply own_tmp | apply (own_target (e, it))]. }
  assert (Hsr : sf_source it ∉ tmps ready) by (specialize (Hsrc (e, it)); rewrite tmps_app in Hsrc; cbn in Hsrc; set_solver).
  destruct (stage_item_spec d0 d e it stage d1 err2 it2 d2 Hu1 Hx (Hd _ Hsr) (Hd _ Htr) E1 E2) as (He & Hn2 & Hf & Hst).
  assert (Hmf : map fst (ready ++ (e, it2) :: todo) = map fst (ready ++ (e, it) :: todo)) by (by rewrite !map_app).
  assert (Hme : map ends (ready ++ (e, it2) :: todo) = map ends (ready ++ (e, it) :: todo)) by (rewrite !map_app; cbn [map]; by rewrite He).
  destruct err2 as [er |].
  - injection E as <- <- <-. split_and!; [done | done | done |]. intros p Hp.
    rewrite (cleanup_tmps _ (ready ++ (e, it) :: todo)); [| | done | done].
    + rewrite tmps_app in Hp. rewrite Hf by (cbn in Hp; set_solver). apply Hd. set_solver.
    + apply Forall_app. split; [done |]. by constructor.
  - specialize (IH (ready ++ [(e, it2)]) d2 err its d'). rewrite <- app_assoc in IH. cbn [app] in IH.
    rewrite Hmf, Hme, (tmps_fst _ _ Hmf) in IH. apply IH; [| | done | | | done].
    + rewrite map_app. cbn [map]. rewrite (own_same (e, it2) (e, it)), <- (map_cons own (e, it)), <- map_app by (done || by injection He). done.
    + apply Forall_app. split; [| constructor; [auto | done]]. rewrite Forall_forall in *. intros y Hy. eapply staged_frame; [by apply Hs |].
      intros p Hp. apply Hf. intros Hin. apply (Hdis y p); [set_solver | done | by apply (own_tmp (e, it))].
    + intros x Hin. apply Hsrc. by right.
    + intros p Hp. rewrite tmps_app in Hp. rewrite Hf by (cbn in Hp; set_solver). apply Hd. set_solver.
Qed.

(** A name the sweep of stale sidecars removes. *)
Definition swept (dir_of : string -> string) (prefix : string) (its : list item) (p : string) : Prop :=
  exists x, x ∈ its /\ dir_of p = dir_of (sf_target (snd x)) /\ stale_sidecar (dir_of (sf_target (snd x))) prefix p = true.

Lemma sweep_frame dir_of prefix dirs p : (forall dir, dir ∈ dirs -> ~ (dir_of p = dir /\ stale_sidecar dir prefix p = true)) ->
  forall d, fold_left (fun d dir => removeStaleReleaseSidecars dir_of dir prefix d) dirs d !! p = d !! p.
Proof.
  induction dirs as [| dir dirs IH]; intros H d; [done |]. cbn [fold_left]. rewrite IH by (intros; apply H; by right).
  unfold removeStaleReleaseSidecars. destruct (d !! p) eqn:E.
  - apply map_lookup_filter_Some. split; [done |]. apply H. by left.
  - apply map_lookup_filter_None. by left.
Qed.

(** What an installation needs of its arguments: files nothing was done about
    yet, temporary names that are all different and differ from the targets and
    sources, and no target or source among the stale sidecars. *)
Definition well_laid (dir_of : string -> string) (prefix : string) (its : list item) : Prop :=
  Forall untouched its /\ NoDup (concat (map own its)) /\
  Forall (fun x => sf_source (snd x) ∉ tmps its /\ ~ swept dir_of prefix its (sf_source (snd x)) /\ ~ swept dir_of prefix its (sf_target (snd x))) its.

Lemma targets_not_tmps its x : NoDup (concat (map own its)) -> x ∈ its -> sf_target (snd x) ∉ tmps its.
Proof.
  intros Hnd Hx (y & Hy & Hp)%tmps_owns. apply list_elem_of_split in Hx as (l1 & l2 & ->).
  destruct (owns_split l1 x l2 Hnd) as (Hx & _ & Hdis & _). apply elem_of_app in Hy as [Hy | [-> | Hy]%elem_of_cons].
  - apply (Hdis y (sf_target (snd x))); [set_solver | by apply own_tmp | apply own_target].
  - by apply NoDup_cons in Hx as [? _].
  - apply (Hdis y (sf_target (snd x))); [set_solver | by apply own_tmp | apply own_target].
Qed.

Lemma same_owns its : forall its', map fst its' = map fst its -> map ends its' = map ends its -> map own its' = map own its.
Proof.
  induction its as [| x l IH]; intros [| y l'] H1 H2; try done. cbn in *. injection H1 as ? ?. injection H2 as ? ? ?.
  f_equal; [by apply own_same | by apply IH].
Qed.

Lemma same_undoable its : forall its', map fst its' = map fst its -> Forall undoable its -> Forall undoable its'.
Proof.
  induction its as [| x l IH]; intros [| y l'] H1; try done. cbn in *. injection H1 as Ex ?. intros [? ?]%Forall_cons.
  constructor; [unfold undoable; by rewrite Ex | by apply IH].
Qed.

Lemma install_spec dir_of prefix its d err d' :
  well_laid dir_of prefix its -> installVerifiedReleaseFiles dir_of prefix its d = (err, d') ->
  (err = None -> forall x, x ∈ its -> d' !! sf_target (snd x) = Some (Regular (content d (sf_source (snd x))))) /\
  (err <> None -> Forall undoable its -> forall x, x ∈ its -> d' !! sf_target (snd x) = d !! sf_target (snd x)) /\
  (forall p, ~ swept dir_of prefix its p -> p ∉ concat (map own its) -> d' !! p = d !! p).
Proof.
  intros (Hu & Hnd & Hsep) E. unfold installVerifiedReleaseFiles in E. rewrite Forall_forall in Hsep.
  set (d0 := fold_left _ (remove_dups _) d) in E.
  assert (Hd0 : forall p, ~ swept dir_of prefix its p -> d0 !! p = d !! p).
  { intros p Hp. apply sweep_frame. intros dir (x & -> & Hx)%elem_of_remove_dups%list_elem_of_fmap [Hd Hst]. apply Hp. by exists x. }
  assert (Htmp : forall p, p ∈ tmps its -> p ∈ concat (map own its)) by (intros p (x & ? & ?)%tmps_owns; apply (in_owns _ x); [done | by apply own_tmp]).
  destruct (stage_items [] its d0) as [[err1 its1] d1] eqn:E1.
  destruct (stage_spec d0 its [] d0 err1 its1 d1) as (Hf1 & He1 & Hs1 & Hd1); [done | done | done | by intros x (? & _)%Hsep | done | done |].
  cbn [app] in *. destruct err1 as [er |].
  { injection E as <- <-. split_and!; [done | |].
    - intros _ _ x Hx. rewrite Hd1, Hd0; [done | by apply Hsep | by apply targets_not_tmps].
    - intros p Hp Ho. rewrite Hd1, Hd0; auto. }
  assert (Hown : map own its1 = map own its) by (by apply same_owns).
  destruct (commitStagedReleaseFiles [] its1 d1) as [[err2 its2] d2] eqn:E2. injection E as <- <-.
  destruct (commit_spec d0 its1 [] d1 err2 its2 d2) as (Hf2 & He2 & Hn2 & Hd2 & Hres);
    [cbn [app]; by rewrite Hown | done | auto | done |].
  cbn [app] in *. assert (Hf : map fst its2 = map fst its) by (by rewrite Hf2). assert (He : map ends its2 = map ends its) by (by rewrite He2).
  assert (Hin : forall x, x ∈ its -> exists y, y ∈ its2 /\ sf_target (snd x) = sf_target (snd y) /\ sf_source (snd x) = sf_source (snd y)).
  { intros x Hx. assert (ends x ∈ map ends its2) as (y & Hxy & Hy)%list_elem_of_fmap by (rewrite He; by apply list_elem_of_fmap_2).
    injection Hxy as Ht Hs. eauto. }
  split_and!.
  - intros -> x Hx. rewrite (cleanup_tmps _ its); [| done | done | by apply targets_not_tmps]. destruct (Hin x Hx) as (y & Hy & Ht & Hs).
    destruct (Hsep x Hx) as (_ & H1 & _). unfold content. rewrite <- Hd0 by done. rewrite Ht, Hs. by apply (proj1 (Forall_forall _ _) Hres y).
  - intros Hne Hun x Hx. rewrite (cleanup_tmps _ its); [| done | done | by apply targets_not_tmps]. destruct (Hin x Hx) as (y & Hy & Ht & Hs).
    destruct (Hsep x Hx) as (_ & _ & H2). rewrite <- Hd0 by done. rewrite Ht. destruct err2; [| done].
    by apply (proj1 (Forall_forall _ _) (Hres (same_undoable its its1 Hf1 Hun)) y).
  - intros p Hp Ho. rewrite (cleanup_tmps _ its); [| done | done | auto]. rewrite Hd2 by (by rewrite Hown). rewrite Hd1, Hd0; auto.
Qed.

(** Either every file of the release is in place with the content that was
    verified, or - where the renames that undo the others succeed - every
    target is as it was, whatever call failed; no other file changes. *)
Theorem install_is_all_or_nothing dir_of prefix its d err d' :
  well_laid dir_of prefix its -> installVerifiedReleaseFiles dir_of prefix its d = (err, d') ->
  match err with
  | None => forall x, x ∈ its -> d' !! sf_target (snd x) = Some (Regular (content d (sf_source (snd x))))
  | Some _ => Forall undoable its -> forall x, x ∈ its -> d' !! sf_target (snd x) = d !! sf_target (snd x)
  end /\
  (forall p, ~ swept dir_of prefix its p -> p ∉ concat (map own its) -> d' !! p = d !! p).
Proof. intros Hw E. destruct (install_spec _ _ _ _ _ _ Hw E) as (H1 & H2 & H3). split; [destruct err; auto | done]. Qed.

(** *** Downloads are authentic *)

Section Downloads.
Context (sha256hex : bytes -> string).

(** What is left at the path of a file: its signed content. *)
Definition authentic (f : ReleaseManifestFile) (d : disk) (path : string) : Prop :=
  exists b, d !! path = Some (Regular b) /\ blen b = rf_Size f /\ sha256hex b = rf_SHA256 f.

Lemma receive_spec maxBytes resumeAt f path r d rt err d' :
  receive sha256hex maxBytes resumeAt (Some f) path r d = ((rt, err), d') ->
  (forall p, p <> path -> d' !! p = d !! p) /\ (err = None -> authentic f d' path).
Proof.
  unfold receive. set (d1 := <[path := _]> d).
  assert (H1 : forall p, p <> path -> d1 !! p = d !! p) by (intros; by apply lookup_insert_ne).
  assert (H2 : forall p, p <> path -> delete path d1 !! p = d !! p) by (intros; rewrite lookup_delete_ne by congruence; auto).
  assert (H3 : content d1 path = content d1 path -> exists b, d1 !! path = Some (Regular b) /\ content d1 path = b).
  { intros _. eexists. unfold content, d1. rewrite lookup_insert_eq. done. }
  intros E. repeat case_match; simplify_eq; (split; [auto | intros Heq; try done]).
  all: destruct (H3 eq_refl) as (b & Hb & Hc); exists b; rewrite Hc in *; split; [done |];
    match goal with H : negb _ || negb _ = false |- _ => apply orb_false_iff in H as [Hz Hs] end;
    rewrite negb_false_iff in Hz, Hs; apply str_eqb_eq in Hs; apply Z.eqb_eq in Hz; done.
Qed.

Lemma once_spec maxBytes f path x d rt err d' :
  downloadReleaseAssetOnce sha256hex maxBytes (Some f) path x d = ((rt, err), d') ->
  (forall p, p <> path -> d' !! p = d !! p) /\ (err = None -> authentic f d' path).
Proof.
  unfold downloadReleaseAssetOnce. destruct (resume_point (Some f) path d) as [[at_ d1] | e] eqn:Er; [| by intros [= <- <- <-]].
  assert (H1 : forall p, p <> path -> d1 !! p = d !! p).
  { intros p Hp. unfold resume_point in Er. repeat case_match; simplify_eq; try done; by rewrite lookup_delete_ne by congruence. }
  intros E. destruct x as [fatal | r]; [by injection E as <- <- <- |].
  repeat (match type of E with context [if ?c then _ else _] => destruct c end; [injection E as <- <- <-; split; [intros p Hp | done];
    try rewrite lookup_delete_ne by congruence; auto |]).
  all: apply receive_spec in E as [E1 E2]; split; [intros p Hp; rewrite E1 by done; auto | done].
Qed.

Lemma attempts_spec maxBytes f path attempts more : forall k d err d',
  download_attempts sha256hex maxBytes (Some f) path attempts more k d = (err, d') ->
  (forall p, p <> path -> d' !! p = d !! p) /\ match err with None => authentic f d' path | Some _ => d' !! path = None end.
Proof.
  induction more as [| more IH]; intros k d err d'; cbn [download_attempts];
    destruct (downloadReleaseAssetOnce _ _ _ _ _ d) as [[rt er] d1] eqn:E; destruct (once_spec _ _ _ _ _ _ _ _ E) as [Hf Ha];
    destruct er as [er |]; try (intros [= <- <-]; auto);
    assert (Hd : forall p, p <> path -> delete path d1 !! p = d !! p) by (intros; rewrite lookup_delete_ne by congruence; auto);
    destruct (at_ctx _ || _); try (intros [= <- <-]; split; [done | apply lookup_delete_eq]).
  destruct (at_wait _); [intros [= <- <-]; split; [done | apply lookup_delete_eq] |].
  intros H. destruct (IH _ _ _ _ H) as [H1 H2]. split; [intros p Hp; rewrite H1 by done; auto | done].
Qed.

(** C26: whatever the servers answer, however transfers break and resume: a download
    that succeeds leaves exactly a file of the signed size and checksum, one
    that fails leaves no file, and no other file is touched. *)
Theorem download_is_authentic policy maxBytes f path e d :
  let '(err, d') := downloadReleaseAssetUsingPolicy sha256hex policy maxBytes (Some f) path e d in
  match err with None => authentic f d' path | Some _ => d' !! path = None end /\ forall p, p <> path -> d' !! p = d !! p.
Proof.
  unfold downloadReleaseAssetUsingPolicy, downloadReleaseAssetWithPolicy.
  destruct (download_attempts _ _ _ _ _ _ _ d) as [err d1] eqn:E. destruct (attempts_spec _ _ _ _ _ _ _ _ _ E) as [Hf Hr].
  destruct err as [er |]; [| done]. destruct (ae_second e) as [second |]; [| done]. destruct (ae_ctx e); [done |].
  destruct (download_attempts _ _ _ _ _ _ _ (delete path d1)) as [err d2] eqn:E2. destruct (attempts_spec _ _ _ _ _ _ _ _ _ E2) as [Hf2 Hr2].
  split; [done |]. intros p Hp. rewrite Hf2, lookup_delete_ne by congruence. auto.
Qed.

(** A server that sends a file in pieces: each transfer but the last one breaks,
    and the next one is asked for the rest. *)
Definition received (pieces : list bytes) (k : nat) : bytes := concat (take k pieces).

Definition in_pieces (b : bytes) (pieces : list bytes) (ranges : nat -> string) (k : nat) : Attempt :=
  let at_ := blen (received pieces k) in
  mkAttempt (XResponse (mkResponse (if at_ =? 0 then 200 else 206) (ranges k) (blen b - at_) (nth k pieces [])
    (if (S k =? List.length pieces)%nat then CopyDone else CopyNet) None None)) false false.

Lemma received_S pieces k : received pieces (S k) = received pieces k ++ nth k pieces [].
Proof.
  unfold received. revert k. induction pieces as [| p pieces IH]; intros k; [by destruct k |].
  destruct k; cbn; [by rewrite app_nil_r | by rewrite <- app_assoc, <- IH].
Qed.

Lemma blen_app a b : blen (a ++ b) = blen a + blen b.
Proof. unfold blen. rewrite length_app. lia. Qed.

Lemma received_le pieces k : blen (received pieces k) <= blen (concat pieces).
Proof. unfold received. rewrite <- (take_drop k pieces) at 2. rewrite concat_app, blen_app. unfold blen. lia. Qed.

Section Pieces.
Context (maxBytes : Z) (f : ReleaseManifestFile) (path : string) (b : bytes) (pieces : list bytes) (ranges : nat -> string).
Context (Hsize : rf_Size f = blen b) (Hsum : sha256hex b = rf_SHA256 f) (Hmax : blen b <= maxBytes) (Hb : concat pieces = b).
Context (Hlast : forall k, (k < List.length pieces)%nat -> blen (received pieces k) < blen b).
Context (Hranges : forall k, validReleaseContentRange (ranges k) (blen (received pieces k)) (blen b) = true).

Definition holds (k : nat) (d : disk) : Prop :=
  d !! path = Some (Regular (received pieces k)) \/ d !! path = None /\ received pieces k = [].

(** Transfer number [k], for which all the transfers before it are on disk. *)
Lemma receive_piece k d status : (k < List.length pieces)%nat -> holds k d ->
  let at_ := blen (received pieces k) in
  let r := mkResponse status (ranges k) (blen b - at_) (nth k pieces []) (if (S k =? List.length pieces)%nat then CopyDone else CopyNet) None None in
  exists rt e, receive sha256hex maxBytes at_ (Some f) path r d = ((rt, e), <[path := Regular (received pieces (S k))]> d) /\
    if (S k =? List.length pieces)%nat then e = None else rt = true /\ e <> None.
Proof.
  intros Hk Hh at_ r. pose proof (Hlast k Hk) as Hlt. fold at_ in Hlt. assert (Hat : 0 <= at_) by (unfold at_, blen; lia).
  assert (Hc : (if 0 <? at_ then content d path else []) = received pieces k).
  { unfold content. destruct Hh as [-> | [-> ->]]; [| by destruct (0 <? at_)]. destruct (Z.ltb_spec 0 at_); [done |].
    assert (List.length (received pieces k) = 0)%nat as Hz by (unfold at_, blen in *; lia). by apply nil_length_inv in Hz. }
  assert (Hsum' : at_ + blen (nth k pieces []) = blen (received pieces (S k))) by (unfold at_; by rewrite received_S, blen_app).
  assert (Hpart : blen (received pieces (S k)) <= blen b) by (rewrite <- Hb; apply received_le).
  assert (Hlim : blen (nth k pieces []) <= read_limit maxBytes at_ (Some f)) by (unfold read_limit; rewrite Hsize; destruct (Z.ltb_spec (blen b) (maxBytes - at_)); lia).
  unfold receive, r. cbn [rs_open rs_body rs_end rs_close rs_length].
  assert (Htake : take (Z.to_nat (read_limit maxBytes at_ (Some f) + 1)) (nth k pieces []) = nth k pieces []) by (apply take_ge; unfold blen in *; lia).
  rewrite Htake, Hc, <- received_S.
  destruct (Nat.ltb_spec (List.length (nth k pieces [])) (Z.to_nat (read_limit maxBytes at_ (Some f) + 1))) as [_ | Hbad]; [| unfold blen in *; lia].
  destruct (Nat.eqb_spec (S k) (List.length pieces)) as [Hl | Hl].
  - assert (Hall : received pieces (S k) = b) by (unfold received; rewrite take_ge by lia; exact Hb).
    rewrite Hall in Hsum' |- *. replace (blen (nth k pieces [])) with (blen b - at_) in * by lia.
    destruct (Z.ltb_spec (read_limit maxBytes at_ (Some f)) (blen b - at_)) as [? | _]; [lia |]. cbn [andb].
    destruct (Z.ltb_spec maxBytes (blen b - at_)) as [? | _]; [lia |]. rewrite Z.eqb_refl, andb_false_r, Hsize.
    destruct (Z.ltb_spec (at_ + (blen b - at_)) (blen b)) as [? | _]; [lia |]. unfold content. rewrite lookup_insert_eq, Z.eqb_refl, Hsum, str_eqb_refl.
    cbn [negb orb]. eauto.
  - assert (blen (received pieces (S k)) < blen b) by (apply Hlast; lia). rewrite Hsize.
    destruct (Z.ltb_spec (at_ + blen (nth k pieces [])) (blen b)) as [_ | ?]; [| lia]. eauto.
Qed.

Lemma piece_spec k d : (k < List.length pieces)%nat -> holds k d ->
  exists rt e, downloadReleaseAssetOnce sha256hex maxBytes (Some f) path (at_exchange (in_pieces b pieces ranges k)) d =
    ((rt, e), <[path := Regular (received pieces (S k))]> d) /\ if (S k =? List.length pieces)%nat then e = None else rt = true /\ e <> None.
Proof.
  intros Hk Hh. destruct (receive_piece k d (if blen (received pieces k) =? 0 then 200 else 206) Hk Hh) as (rt & e & Hrec & Hres).
  pose proof (Hranges k) as Hrg. set (at_ := blen (received pieces k)) in *. pose proof (Hlast k Hk) as Hlt. fold at_ in Hlt.
  assert (Hat : 0 <= at_) by (unfold at_, blen; lia).
  assert (Hrp : resume_point (Some f) path d = Ok (at_, d)).
  { unfold resume_point. destruct Hh as [-> | [-> Hnil]]; [| unfold at_; by rewrite Hnil].
    rewrite Hsize. by destruct (Z.leb_spec (blen b) (blen (received pieces k))); [unfold at_ in *; lia |]. }
  exists rt, e. split; [| done]. unfold downloadReleaseAssetOnce. rewrite Hrp. unfold in_pieces. fold at_. cbn [at_exchange rs_status rs_range rs_length].
  rewrite Hsize. destruct (Z.eqb_spec at_ 0) as [Hz | Hz].
  - rewrite Hz in *. cbn [Z.ltb Z.compare andb negb Z.eqb Pos.eqb]. replace (blen b - 0) with (blen b) in * by lia.
    destruct (Z.ltb_spec maxBytes (blen b)) as [? | _]; [lia |]. rewrite Z.eqb_refl, andb_false_r. exact Hrec.
  - destruct (Z.ltb_spec 0 at_) as [_ | ?]; [| lia]. cbn [andb negb Z.eqb Pos.eqb]. rewrite Hrg. cbn [negb].
    destruct (Z.ltb_spec maxBytes (blen b - at_)) as [? | _]; [lia |]. rewrite Z.eqb_refl, andb_false_r. exact Hrec.
Qed.

Lemma pieces_spec more : forall k d, (k < List.length pieces <= k + S more)%nat -> holds k d ->
  download_attempts sha256hex maxBytes (Some f) path (in_pieces b pieces ranges) more k d = (None, <[path := Regular b]> d).
Proof.
  induction more as [| more IH]; intros k d Hk Hh; cbn [download_attempts]; destruct (piece_spec k d) as (rt & e & -> & He); [lia | done | | lia | done |];
    destruct (Nat.eqb_spec (S k) (List.length pieces)) as [Hl | Hl]; try lia.
  - rewrite He. unfold received. rewrite take_ge by lia. by rewrite Hb.
  - rewrite He. unfold received. rewrite take_ge by lia. by rewrite Hb.
  - destruct He as [-> He]. destruct e; [| done]. cbn [in_pieces at_ctx at_wait negb orb]. rewrite IH; [| lia | left; apply lookup_insert_eq].
    by rewrite insert_insert_eq.
Qed.

End Pieces.

(** A file that arrives in as many pieces as there are attempts, because the
    connection breaks between them, is put together from them and is complete. *)
Theorem broken_download_resumes policy maxBytes f path b pieces ranges d :
  rf_Size f = blen b -> sha256hex b = rf_SHA256 f -> blen b <= maxBytes -> concat pieces = b ->
  (0 < List.length pieces <= policy)%nat -> nth (List.length pieces - 1) pieces [] <> [] ->
  (forall k, validReleaseContentRange (ranges k) (blen (received pieces k)) (blen b) = true) -> d !! path = None ->
  downloadReleaseAssetWithPolicy sha256hex policy maxBytes (Some f) path (in_pieces b pieces ranges) d = (None, <[path := Regular b]> d).
Proof.
  intros Hs Hsum Hm Hb Hn Hl Hr Hd. 
  unfold downloadReleaseAssetWithPolicy. destruct (Nat.ltb_spec policy 1) as [? | _]; [lia |].
  apply pieces_spec; try done; [| lia | by right].
  intros k Hk. assert (Hle : forall n m, (n <= m)%nat -> blen (received pieces n) <= blen (received pieces m)).
  { intros n m Hnm. unfold received. replace m with (n + (m - n))%nat by lia. rewrite <- take_take_drop, concat_app, blen_app. unfold blen. lia. }
  assert (received pieces (List.length pieces) = b) as Hall by (unfold received; by rewrite take_ge by lia).
  destruct (List.length pieces) as [| n] eqn:El; [lia |]. rewrite received_S in Hall. apply (f_equal blen) in Hall. rewrite blen_app in Hall.
  specialize (Hle k n ltac:(lia)). replace (S n - 1)%nat with n in Hl by lia. destruct (nth n pieces []) as [| c l]; [done |].
  assert (0 < blen (c :: l)) by (unfold blen; cbn; lia). lia.
Qed.

End Downloads.

(** *** An undo that fails *)

Definition bin (name : string) : string := "/usr/local/bin/" +:+ name.

(** On a file system without hard links, with a rename that fails and whose
    undo fails as well. *)
Definition stuck_item : ItemEnv :=
  mkItem None (Ok (bin ".oboard-update-new.1")) None (Ok (bin ".oboard-update-backup.1")) false None (Some "EIO"%string) (Some "EIO"%string) None.

(** When the rename into place fails and the rename that undoes the preceding
    one fails too, the clean-up deletes the reserved path with the old
    executable: no file holds it any more. *)
Theorem failed_undo_deletes_executable old new :
  installVerifiedReleaseFiles (fun _ => "/usr/local/bin"%string) ".oboard-update" [(stuck_item, release_item "/tmp/oboard-agent" (bin "oboard-agent"))]
    {[bin "oboard-agent" := old; "/tmp/oboard-agent"%string := Regular new]} =
  (Some "EIO"%string, {["/tmp/oboard-agent"%string := Regular new]}).
Proof. by_compute. Qed.

(** ** Witnesses *)

Definition good_item (n : string) (link : bool) : ItemEnv :=
  mkItem None (Ok (bin (".oboard-update-new." +:+ n))) None (Ok (bin (".oboard-update-backup." +:+ n))) link None None None None.

Definition release_items : list item :=
  [(good_item "1" true, release_item "/tmp/u/agent" (bin "oboard-agent"));
   (good_item "2" false, release_item "/tmp/u/sb" (bin "oboard-sb"));
   ((mkItem None (Ok (bin ".oboard-update-new.3")) None (Ok (bin ".oboard-update-backup.3")) false None (Some "EIO"%string) None None),
    release_item "/tmp/u/realm" (bin "oboard-realm"))].

Definition text (s : string) : entry := Regular (list_ascii_of_string s).

Definition release_disk : disk :=
  {[bin "oboard-agent" := text "agent 1"; bin "oboard-sb" := text "sb 1"; bin "oboard-realm" := text "realm 1";
    "/tmp/u/agent"%string := text "agent 2"; "/tmp/u/sb"%string := text "sb 2"; "/tmp/u/realm"%string := text "realm 2";
    bin ".oboard-update-new.0" := text "stale"]}.

Definition one_dir (p : string) : string := if HasPrefix p "/tmp/u/" then "/tmp/u"%string else "/usr/local/bin"%string.

(** Targets in one directory, sources elsewhere, no target with the name of a
    sidecar. *)
Lemma laid_in_dir dir_of prefix dir its :
  Forall untouched its -> NoDup (concat (map own its)) ->
  Forall (fun x => dir_of (sf_target (snd x)) = dir /\ sf_source (snd x) ∉ tmps its /\ dir_of (sf_source (snd x)) <> dir /\
    stale_sidecar dir prefix (sf_target (snd x)) = false) its -> well_laid dir_of prefix its.
Proof.
  intros Hu Hnd Hall. split_and!; [done | done |]. rewrite Forall_forall in *. intros x Hx. destruct (Hall x Hx) as (H1 & H2 & H3 & H4).
  split_and!; [done | |]; intros (y & Hy & Hd & Hs); destruct (Hall y Hy) as (Hdir & _); rewrite Hdir in *; congruence.
Qed.

Lemma release_laid l : l = take 2 release_items \/ l = release_items -> well_laid one_dir ".oboard-update" l.
Proof.
  assert (Hu : Forall untouched release_items) by (repeat constructor; cbn; set_solver).
  intros [-> | ->]; (apply (laid_in_dir _ _ "/usr/local/bin"); [exact Hu || by apply Forall_take | |]);
    (apply (bool_decide_unpack _); vm_compute; exact I).
Qed.

(** The first two files are installed; with the third one, whose rename fails,
    all of them stay as they were. *)
Lemma install_is_all_or_nothing_witness :
  (exists d', installVerifiedReleaseFiles one_dir ".oboard-update" (take 2 release_items) release_disk = (None, d') /\ d' !! bin "oboard-sb" = Some (text "sb 2")) /\
  (exists d', installVerifiedReleaseFiles one_dir ".oboard-update" release_items release_disk = (Some "EIO"%string, d') /\ d' !! bin "oboard-sb" = Some (text "sb 1")).
Proof.
  split.
  - destruct (installVerifiedReleaseFiles one_dir ".oboard-update" (take 2 release_items) release_disk) as [err d'] eqn:E.
    assert (err = None) as -> by (change err with (fst (err, d')); rewrite <- E; by_compute). exists d'. split; [done |].
    apply (proj1 (install_is_all_or_nothing one_dir ".oboard-update" (take 2 release_items) release_disk None d'
      (release_laid _ (or_introl eq_refl)) E) (good_item "2" false, release_item "/tmp/u/sb" (bin "oboard-sb"))).
    right. by left.
  - destruct (installVerifiedReleaseFiles one_dir ".oboard-update" release_items release_disk) as [err d'] eqn:E.
    assert (err = Some "EIO"%string) as -> by (change err with (fst (err, d')); rewrite <- E; by_compute). exists d'. split; [done |].
    apply (proj1 (install_is_all_or_nothing one_dir ".oboard-update" release_items release_disk _ d'
      (release_laid _ (or_intror eq_refl)) E) ltac:(repeat constructor) (good_item "2" false, release_item "/tmp/u/sb" (bin "oboard-sb"))).
    right. by left.
Defined.

(** Seven bytes in three transfers. *)
Definition piece_list : list bytes := map list_ascii_of_string ["oboa"; ""; "rd2"]%string.
Definition whole_file : bytes := list_ascii_of_string "oboard2".
Definition length_sum (b : bytes) : string := pretty (blen b).

Lemma broken_download_resumes_witness :
  downloadReleaseAssetWithPolicy length_sum releaseDownloadAttempts maxReleaseBinaryBytes (Some (mkReleaseFile "a" "agent" "linux" "amd64" "7" 7)) "/tmp/u/a"
    (in_pieces whole_file piece_list (fun k => if (k =? 0)%nat then "bytes 0-6/7" else if (k <? 3)%nat then "bytes 4-6/7" else "bytes 7-6/7")%string) ∅ =
  (None, <["/tmp/u/a"%string := Regular whole_file]> ∅).
Proof.
  apply (broken_download_resumes length_sum); [done | by_compute | done | done | cbn; unfold releaseDownloadAttempts; lia | done | | done].
  intros [| [| [| [| k]]]]; by_compute.
Defined.
