(* ===== verification/ReleaseUpdate.v ===== *)
(** * ReleaseUpdate: installing a signed release

    Model of the update task on top of SelfUpdate.v: the two ways a release is
    fetched (self_update.go over HTTP, agentlink_transport.go over the binary
    transport), the checks before anything is replaced, the installation with
    its evidence and its rollback (runtime_security_integrity.go), the
    inspection of the installed binaries, and the choice of source and
    repository in agent.go.

    The steps share a small monad over the disk and the cached inspection. The
    theorems: only what a signed manifest names gets installed, a failed update
    leaves binaries and evidence alone, and an inspection after an update
    passes. *)

From S2P Require Import Prelude GoTime Stealth Files Json StateFile SelfUpdate.

(** ** State and steps *)

Record RuntimeSecurityCheck := mkCheck { ck_ID : string; ck_Status : string }.

(** The disk and [runtimeSecurityIntegrity], the cached inspection. *)
Record Release := mkRelease { rl_disk : disk; rl_integrity : option (list RuntimeSecurityCheck) }.

#[export] Instance eta_Release : Eta Release := fun n => mkRelease (rl_disk n) (rl_integrity n).

Inductive task_error := UpdateFailed (e : string) | RollbackFailed (e : string).

Definition M (X : Type) : Type := Release -> result task_error X * Release.

Definition ret {X} (x : X) : M X := fun n => (Ok x, n).
Definition fail {X} (e : string) : M X := fun n => (Err (UpdateFailed e), n).
Definition bind {X Y} (m : M X) (k : X -> M Y) : M Y :=
  fun n => match m n with (Ok x, n) => k x n | (Err e, n) => (Err e, n) end.
Definition guard (b : bool) (e : string) : M unit := if b then ret tt else fail e.
Definition reads {X} (f : disk -> result string X) : M X :=
  fun n => match f (rl_disk n) with Ok x => (Ok x, n) | Err e => (Err (UpdateFailed e), n) end.
Definition on_disk (f : disk -> option string * disk) : M unit :=
  fun n => let '(err, d) := f (rl_disk n) in
           (match err with None => Ok tt | Some e => Err (UpdateFailed e) end, n<|rl_disk := d|>).

Notation "'let!' x := m 'in' k" := (bind m (fun x => k)) (at level 200, x name, m at level 100, k at level 200).
Notation "m ;; k" := (bind m (fun _ => k)) (at level 100, right associativity).

Record runtimeReleaseProof := mkProof { pr_Manifest : ReleaseManifest; pr_Signature : string }.
Definition runtimeReleaseProofFile : string := "runtime-release-proof.json".
Definition defaultUpdateRepo : string := "obrdx/oboard-agent".

Record signedReleaseTargets := mkTargets { tg_Agent : string; tg_Core : string; tg_Realm : string; tg_ActiveConfig : string }.

(** ** Fetching over the transport *)

(** One answer of the session: an error, or the bytes of a chunk. *)
Inductive chunk_reply := ChunkErr (e : string) | Chunk (b : bytes).

Definition chunkSize : Z := Z.shiftl 512 10.

(** The loop of [transportDownload] over the answers; a session that gives no
    more of them has failed. *)
Fixpoint chunks (expectedSize maxBytes : Z) (path : string) (replies : list chunk_reply) (offset : Z) (d : disk) : option string * disk :=
  let want := if (0 <? expectedSize) && (expectedSize <? offset + chunkSize) then expectedSize - offset else chunkSize in
  if want <=? 0 then (None, d)
  else
    match replies with
    | [] => (Some "closed"%string, d)
    | ChunkErr e :: _ => (Some e, d)
    | Chunk [] :: _ => (None, d)
    | Chunk b :: replies =>
        let offset' := offset + blen b in
        if (maxBytes <? offset') || ((0 <? expectedSize) && (expectedSize <? offset')) then (Some "exceeded"%string, d)
        else
          let d := <[path := Regular (take (Z.to_nat offset) (content d path) ++ b ++ drop (Z.to_nat offset') (content d path))]> d in
          if (0 <? expectedSize) && (expectedSize <=? offset') then (None, d) else chunks expectedSize maxBytes path replies offset' d
    end.

(** [open_] is the failure of opening the file; the size on disk decides where
    it goes on. *)
Definition transportDownload (open_ : option string) (replies : list chunk_reply) (expectedSize maxBytes : Z) (path : string) (d : disk)
  : option string * disk :=
  if (0 <? expectedSize) && match d !! path with Some (Regular b) => blen b =? expectedSize | _ => false end then (None, d)
  else
    match open_, d !! path with
    | Some e, _ => (Some e, d)
    | None, (Some Special | Some (Unreadable _)) => (Some "open"%string, d)
    | None, x =>
        let b := match x with Some (Regular b) => b | _ => [] end in
        let d := <[path := Regular b]> d in
        if (0 <? blen b) && ((expectedSize <=? 0) || (blen b <? expectedSize)) then chunks expectedSize maxBytes path replies (blen b) d
        else if (0 <? expectedSize) && (expectedSize <? blen b) then chunks expectedSize maxBytes path replies 0 (<[path := Regular []]> d)
        else chunks expectedSize maxBytes path replies 0 d
    end.

Section Update.
Context (sha256hex : bytes -> string) {CM : Codec ReleaseManifest} (ed25519 : string -> bytes -> string -> bool) (ReleasePublicKey : string).
Context (unsigned_allowed : bool) (GOOS GOARCH : string).
Context {A : AEAD} {CP : Codec runtimeProfile} {CF : Codec runtimeReleaseProof}.
(** [filepath.Dir], the node and the [UpdateRepo] of its configuration. *)
Context (dir_of : string -> string) (r : Runner) (UpdateRepo : string).

(** ** Evidence *)

Definition proofPath : string := rn_statePath r runtimeReleaseProofFile.

Definition configured_repo : string := if TrimSpace UpdateRepo =s "" then defaultUpdateRepo else TrimSpace UpdateRepo.

Definition verifyRuntimeReleaseProof (p : runtimeReleaseProof) : bool :=
  (rm_Repo (pr_Manifest p) =s configured_repo) && VerifyReleaseManifest ed25519 (pr_Manifest p) (pr_Signature p) ReleasePublicKey.

Definition loadRuntimeReleaseProof (manifestPath signaturePath : string) (d : disk) : result string runtimeReleaseProof :=
  match securefile_Read d manifestPath (Z.shiftl 1 20) with
  | Err _ => Err "manifest"%string
  | Ok raw =>
      match json_Unmarshal raw with
      | None => Err "invalid release evidence"%string
      | Some m =>
          match securefile_Read d signaturePath 4096 with
          | Err _ => Err "signature"%string
          | Ok sig =>
              let p := mkProof m (TrimSpace (string_of_list_ascii sig)) in
              if verifyRuntimeReleaseProof p then Ok p else Err "unexpected release identity"%string
          end
      end
  end.

Definition write_state (e : StateEnv) (path : string) (b : bytes) (d : disk) : option string * disk :=
  let '(res, d) := stateWritePath r e true path b d in (match res with Ok _ => None | Err x => Some x end, d).

Definition forget_inspection : M unit := fun n => (Ok tt, n<|rl_integrity := None|>).

Definition RecordReleaseProof (e : StateEnv) (manifestPath signaturePath : string) : M unit :=
  let! p := reads (loadRuntimeReleaseProof manifestPath signaturePath) in
  match json_Marshal p with
  | None => fail "marshal"
  | Some raw => on_disk (write_state e proofPath raw);; forget_inspection
  end.

(** How the removal of a file ends. *)
Inductive removal := Removed | RemoveFailed (e : string) | RemovedUnsynced (e : string).

Definition remove_file (m : removal) (path : string) (d : disk) : option string * disk :=
  match m, d !! path with
  | Removed, _ => (None, delete path d)
  | RemoveFailed e, _ => (Some e, d)
  | RemovedUnsynced _, None => (None, d)
  | RemovedUnsynced e, Some _ => (Some e, delete path d)
  end.

(** The evidence the update found, put back. *)
Definition restore_proof (e : StateEnv) (m : removal) (old : result state_error bytes) (d : disk) : option string * disk :=
  match old with
  | Ok b => write_state e proofPath b d
  | Err _ => remove_file m proofPath d
  end.

Definition installVerifiedReleaseWithProof (prefix manifestPath signaturePath : string) (its : list item) (eproof erestore : StateEnv) (m : removal)
  : M unit :=
  fun n =>
  let old := stateReadPath r (rl_disk n) proofPath in
  match old with
  | Err (StateFailed _) => (Err (UpdateFailed "release evidence unavailable"), n)
  | _ =>
      match RecordReleaseProof eproof manifestPath signaturePath n with
      | (Err e, n) => (Err e, n)
      | (Ok _, n) =>
          let '(err, d) := installVerifiedReleaseFiles dir_of prefix its (rl_disk n) in
          match err with
          | None => (Ok tt, n<|rl_disk := d|>)
          | Some e =>
              let '(restoreErr, d) := restore_proof erestore m old d in
              (Err (match restoreErr with None => UpdateFailed e | Some _ => RollbackFailed e end), n<|rl_disk := d|><|rl_integrity := None|>)
          end
      end
  end.

(** ** Inspection *)

(** [securefile.Digest] under the limit; [unfinished] is a context that ended
    or a file that changed meanwhile. *)
Definition Digest (unfinished : bool) (path : string) (limit : Z) (d : disk) : option (string * Z) :=
  match d !! path with
  | Some (Regular b) => if unfinished || (limit <? blen b) then None else Some (sha256hex b, blen b)
  | _ => None
  end.

Definition component_entries (m : ReleaseManifest) (component : string) : list ReleaseManifestFile :=
  List.filter (fun f => (rf_Component f =s component) && here GOOS GOARCH f) (rm_Files m).

(** One binary against the manifest. *)
Definition inspect_target (m : ReleaseManifest) (d : disk) (t : string * option string * bool) : RuntimeSecurityCheck :=
  let '(component, path, unfinished) := t in
  let id := ("binary_" +:+ component)%string in
  match path with
  | None | Some ""%string => mkCheck id "unknown"
  | Some path =>
      match component_entries m component with
      | [f] =>
          if (rf_Size f <=? 0) || (maxReleaseBinaryBytes <? rf_Size f) then mkCheck id "unknown"
          else
            match Digest unfinished path maxReleaseBinaryBytes d with
            | None => mkCheck id "unknown"
            | Some (digest, size) => if negb (digest =s rf_SHA256 f) || negb (size =? rf_Size f) then mkCheck id "failed" else mkCheck id "passed"
            end
      | _ => mkCheck id "unknown"
      end
  end.

Definition inspection (targets : list (string * option string * bool)) (d : disk) : list RuntimeSecurityCheck :=
  let raw := stateReadPath r d proofPath in
  if match raw with Err StateNotExist => true | _ => false end || (ReleasePublicKey =s "") then [mkCheck "release_proof" "unknown"]
  else
    match raw with
    | Err _ => [mkCheck "release_proof" "failed"]
    | Ok raw =>
        match json_Unmarshal raw with
        | Some p => if verifyRuntimeReleaseProof p then map (inspect_target (pr_Manifest p) d) targets else [mkCheck "release_proof" "failed"]
        | None => [mkCheck "release_proof" "failed"]
        end
    end.

Definition inspectRuntimeIntegrity (targets : list (string * option string * bool)) (n : Release) : list RuntimeSecurityCheck * Release :=
  match rl_integrity n with
  | Some checks => (checks, n)
  | None => let checks := inspection targets (rl_disk n) in (checks, n<|rl_integrity := Some checks|>)
  end.
(** ** The update *)

(** [RemoveAll] of the private directory. *)
Definition remove_tree (dir : string) (d : disk) : disk := filter (fun pe => HasPrefix pe.1 (dir +:+ "/") = false) d.

(** [preflightRuntimeSecurityUpdate]; [check] is the answer of the staged kernel
    under the enhanced profile. *)
Definition preflightRuntimeSecurityUpdate (check : bool) (d : disk) : bool :=
  match stateReadPath r d (rn_statePath r runtimeSecurityFile) with
  | Err StateNotExist => true
  | Err _ => false
  | Ok raw =>
      match json_Unmarshal raw with
      | None => false
      | Some p => if rp_Mode p =s "enhanced" then check else rp_Mode p =s "standard"
      end
  end.

Record UpdateEnv := mkUpdate {
  uv_tmp : result string string; uv_ctx1 : bool; uv_ctx2 : bool; uv_stats : option (Z * Z); uv_security : bool; uv_preflight : PreflightEnv;
  uv_items : ItemEnv * ItemEnv * ItemEnv; uv_proof : StateEnv; uv_restore : StateEnv; uv_removal : removal
}.

Definition platform (name : string) : string := name +:+ "-" +:+ GOOS +:+ "-" +:+ GOARCH.
Definition manifest_in (tmp : string) : string := path_join tmp "release-manifest.json".
Definition signature_in (tmp : string) : string := path_join tmp "release-manifest.json.sig".

Definition release_names : list string := map platform ["oboard-agent"; "oboard-sb"; "oboard-realm"]%string.

Definition release_files (tmp : string) (e : UpdateEnv) (t : signedReleaseTargets) : list item :=
  let '(e1, e2, e3) := uv_items e in
  [(e1, release_item (path_join tmp (platform "oboard-agent")) (tg_Agent t));
   (e2, release_item (path_join tmp (platform "oboard-sb")) (tg_Core t));
   (e3, release_item (path_join tmp (platform "oboard-realm")) (tg_Realm t))].

(** How one asset gets to its path: the limit, what is expected of it, its
    name, its path. *)
Context (fetch : Z -> option ReleaseManifestFile -> string -> string -> disk -> option string * disk).

Definition fetch_file (tmp : string) (f : ReleaseManifestFile) : M unit :=
  on_disk (fetch maxReleaseBinaryBytes (Some f) (rf_Name f) (path_join tmp (rf_Name f))).

(** The steps in the private directory. *)
Definition update_in (tmp : string) (e : UpdateEnv) (repo expectedBuild : string) (t : signedReleaseTargets) (prefix : string) : M ReleaseManifest :=
  on_disk (fetch maxReleaseManifestBytes None "release-manifest.json" (manifest_in tmp));;
  on_disk (fetch maxReleaseSignatureBytes None "release-manifest.json.sig" (signature_in tmp));;
  let! m := reads (verifyDownloadedManifest ed25519 ReleasePublicKey unsigned_allowed (manifest_in tmp) (signature_in tmp) (TrimSpace repo) (TrimSpace expectedBuild)) in
  let! agentFile := reads (fun _ => validateManifestBinary GOOS GOARCH m (platform "oboard-agent") "agent") in
  let! coreFile := reads (fun _ => validateManifestBinary GOOS GOARCH m (platform "oboard-sb") "sb") in
  let! realmFile := reads (fun _ => validateManifestBinary GOOS GOARCH m (platform "oboard-realm") "realm") in
  fetch_file tmp agentFile;; fetch_file tmp coreFile;; fetch_file tmp realmFile;;
  guard (negb (uv_ctx1 e)) "stopped before verification";;
  reads (fun d => match VerifyReleaseFiles sha256hex ed25519 ReleasePublicKey unsigned_allowed GOOS GOARCH (manifest_in tmp) (signature_in tmp) tmp release_names d with
                  | None => Ok tt | Some err => Err err end);;
  guard (negb (uv_ctx2 e)) "stopped before installation";;
  guard (checkUpdateDiskBudget (uv_stats e) [rf_Size agentFile; rf_Size coreFile; rf_Size realmFile]) "insufficient disk space";;
  let! secure := reads (fun d => Ok (preflightRuntimeSecurityUpdate (uv_security e) d)) in
  guard secure "security preflight";;
  let! accepted := reads (fun d => Ok (snd (preflightStagedCore (uv_preflight e) (tg_ActiveConfig t) d))) in
  guard accepted "rejected the active configuration";;
  installVerifiedReleaseWithProof prefix (manifest_in tmp) (signature_in tmp) (release_files tmp e t) (uv_proof e) (uv_restore e) (uv_removal e);;
  ret m.

Definition download_and_install (e : UpdateEnv) (repo expectedBuild : string) (t : signedReleaseTargets) (prefix : string) : M ReleaseManifest :=
  fun n =>
  match uv_tmp e with
  | Err err => (Err (UpdateFailed err), n)
  | Ok tmp => let '(res, n) := update_in tmp e repo expectedBuild t prefix n in (res, n<|rl_disk ::= remove_tree tmp|>)
  end.

End Update.

(** ** The two ways *)

Section Ways.
Context (sha256hex : bytes -> string) {CM : Codec ReleaseManifest} (ed25519 : string -> bytes -> string -> bool) (ReleasePublicKey : string).
Context (unsigned_allowed : bool) (GOOS GOARCH : string).
Context {A : AEAD} {CP : Codec runtimeProfile} {CF : Codec runtimeReleaseProof}.
Context (dir_of : string -> string) (r : Runner) (UpdateRepo : string).

Definition absolute (p : string) : bool := HasPrefix p "/".

(** Over HTTP: [url_ok] is a base URL with a host and the scheme http or https;
    [assets] gives the exchanges for each asset. *)
Definition downloadAndInstallSignedReleaseWithPolicy (url_ok : bool) (policy : nat) (assets : string -> AssetEnv) (e : UpdateEnv)
    (repo expectedBuild : string) (t : signedReleaseTargets) (prefix : string) : M ReleaseManifest :=
  guard url_ok "invalid release base URL";;
  guard (forallb absolute [tg_Agent t; tg_Core t; tg_Realm t]) "release install targets must be absolute";;
  download_and_install sha256hex ed25519 ReleasePublicKey unsigned_allowed GOOS GOARCH dir_of r UpdateRepo
    (fun limit expected name path => downloadReleaseAssetUsingPolicy sha256hex policy limit expected path (assets name)) e repo expectedBuild t prefix.

(** Over the transport, once the session stands: [assets] gives the opening of
    the file and the answers for each asset. *)
Definition downloadAndInstallSignedReleaseOverTransport (dialled : bool) (assets : string -> option string * list chunk_reply) (e : UpdateEnv)
    (repo expectedBuild : string) (t : signedReleaseTargets) (prefix : string) : M ReleaseManifest :=
  guard dialled "dial";;
  download_and_install sha256hex ed25519 ReleasePublicKey unsigned_allowed GOOS GOARCH dir_of r UpdateRepo
    (fun limit expected name path => transportDownload (fst (assets name)) (snd (assets name)) (match expected with Some f => rf_Size f | None => 0 end) limit path)
    e repo expectedBuild t prefix.

(** *** The task *)

(** [allowlist] are the entries of OBOARD_UPDATE_REPO_ALLOWLIST. *)
Definition updateRepoAllowed (allowlist : list string) (repo : string) : bool :=
  (TrimSpace repo =s defaultUpdateRepo) || (TrimSpace repo =s "OboardProject/oboard-agent") ||
  existsb (fun x => negb (TrimSpace x =s "") && (TrimSpace x =s TrimSpace repo)) allowlist.

(** The repository of a task: its own, the configured one, the default. *)
Definition task_repo (GitHubRepo : string) : string :=
  if negb (TrimSpace GitHubRepo =s "") then TrimSpace GitHubRepo
  else if negb (TrimSpace UpdateRepo =s "") then TrimSpace UpdateRepo else defaultUpdateRepo.

Record UpdateAgentTaskPayload := mkPayload {
  pl_Source : string; pl_GitHubRepo : string; pl_ControllerURL : string; pl_ExpectedBuild : string; pl_AutoUpdate : bool
}.

(** [UpdateSource], [ControllerURL] and [AllowPanelUpdate] of the
    configuration, and whether this is a development build. *)
Context (UpdateSource ControllerURL : string) (AllowPanelUpdate isDev : bool).

Definition trim_slashes (s : string) : string := string_of_list_ascii (rev (trim_left_bytes [["/"%char]] (rev (list_ascii_of_string s)))).

Definition update_source (p : UpdateAgentTaskPayload) : string :=
  let source := ToLower (TrimSpace (pl_Source p)) in
  let source := if (source =s "") || (source =s "auto") then ToLower (TrimSpace UpdateSource) else source in
  if source =s "" then (if isDev then "panel" else "github") else source.

(** The URL of the release; [valid_url] is [ValidateControllerURL]. *)
Definition release_base (valid_url : string -> bool) (p : UpdateAgentTaskPayload) : result string string :=
  let url := trim_slashes (TrimSpace (pl_ControllerURL p)) in
  let url := if url =s "" then trim_slashes (TrimSpace ControllerURL) else url in
  if update_source p =s "panel" then
    if url =s "" then Err "controller_url missing"%string
    else if negb AllowPanelUpdate && negb isDev then Err "panel updates are not allowed"%string
    else if valid_url url then Ok (url +:+ "/downloads")%string else Err "controller_url"%string
  else if update_source p =s "github" then if valid_url url then Ok (url +:+ "/downloads/github")%string else Err "controller_url"%string
  else Err "unsupported update source"%string.

(** [updateAgentBinary] up to the result of the task: [lock] is the host lock,
    [targets] the resolved paths, [transport] the session of a stealth node. *)
Definition updateAgentBinary (allowlist : list string) (valid_url url_ok : string -> bool) (lock : bool) (targets : result string signedReleaseTargets)
    (transport : option (bool * (string -> option string * list chunk_reply))) (assets : string -> AssetEnv) (prefix : string) (e : UpdateEnv)
    (p : UpdateAgentTaskPayload) : M ReleaseManifest :=
  let repo := task_repo (pl_GitHubRepo p) in
  guard (updateRepoAllowed allowlist repo) "github repo is not allowed";;
  let! base := reads (fun _ => release_base valid_url p) in
  guard lock "agent update deferred";;
  let! t := reads (fun _ => targets) in
  match transport with
  | Some (dialled, replies) => downloadAndInstallSignedReleaseOverTransport dialled replies e repo (pl_ExpectedBuild p) t prefix
  | None =>
      downloadAndInstallSignedReleaseWithPolicy (url_ok base) (if pl_AutoUpdate p then releaseDownloadAttempts else 1) assets e repo
        (pl_ExpectedBuild p) t prefix
  end.

End Ways.

(** ** Steps that leave files alone *)

Definition fetch_local (fetch : Z -> option ReleaseManifestFile -> string -> string -> disk -> option string * disk) : Prop :=
  forall limit expected name path d p, p <> path -> snd (fetch limit expected name path d) !! p = d !! p.

Ltac path_frame := cbn; repeat first [rewrite lookup_delete_ne by congruence | rewrite lookup_insert_ne by congruence]; try done.

Lemma receive_frame sha maxBytes at_ expected path rs d p : p <> path -> snd (receive sha maxBytes at_ expected path rs d) !! p = d !! p.
Proof. intros Hp. unfold receive. repeat case_match; path_frame. Qed.

Lemma once_frame sha maxBytes expected path x d p : p <> path -> snd (downloadReleaseAssetOnce sha maxBytes expected path x d) !! p = d !! p.
Proof.
  intros Hp. unfold downloadReleaseAssetOnce. destruct (resume_point expected path d) as [[at_ d1] |] eqn:E; [| done].
  assert (d1 !! p = d !! p) as <- by (unfold resume_point in E; repeat case_match; simplify_eq; path_frame).
  destruct x; [done |]. repeat (match goal with |- context [if ?c then _ else _] => destruct c end; try (by path_frame)).
  all: by apply receive_frame.
Qed.

Lemma attempts_frame sha maxBytes expected path attempts more p : p <> path -> forall k d,
  snd (download_attempts sha maxBytes expected path attempts more k d) !! p = d !! p.
Proof.
  intros Hp. induction more as [| more IH]; intros k d; cbn [download_attempts];
    pose proof (once_frame sha maxBytes expected path (at_exchange (attempts k)) d p Hp) as Ho;
    destruct (downloadReleaseAssetOnce _ _ _ _ _ d) as [[rt er] d1]; cbn in Ho; destruct er; try done;
    destruct (at_ctx _ || _); try (by path_frame).
  destruct (at_wait _); [by path_frame |]. by rewrite IH.
Qed.

Lemma http_fetch_local sha policy assets :
  fetch_local (fun limit expected name path => downloadReleaseAssetUsingPolicy sha policy limit expected path (assets name)).
Proof.
  intros limit expected name path d p Hp. unfold downloadReleaseAssetUsingPolicy, downloadReleaseAssetWithPolicy.
  destruct (download_attempts _ _ _ _ _ _ _ d) as [err d1] eqn:E.
  assert (d1 !! p = d !! p) as <- by (change d1 with (snd (err, d1)); rewrite <- E; by apply attempts_frame).
  repeat case_match; try done; rewrite attempts_frame by done; by path_frame.
Qed.

Lemma chunks_frame size limit path replies p : p <> path -> forall offset d, snd (chunks size limit path replies offset d) !! p = d !! p.
Proof.
  intros Hp. induction replies as [| x replies IH]; intros offset d; cbn [chunks]; repeat case_match; try done; rewrite ?IH; by path_frame.
Qed.

Lemma transport_fetch_local assets :
  fetch_local (fun limit expected name path =>
    transportDownload (fst (assets name)) (snd (assets name)) (match expected with Some f => rf_Size f | None => 0 end) limit path).
Proof.
  intros limit expected name path d p Hp. unfold transportDownload. repeat case_match; try done; rewrite chunks_frame by done; by path_frame.
Qed.

(** A step that leaves the files of [P] alone. *)
Definition keeps {X} (P : string -> Prop) (m : M X) : Prop := forall n p, P p -> rl_disk (snd (m n)) !! p = rl_disk n !! p.

Lemma keeps_bind {X Y} P (m : M X) (k : X -> M Y) : keeps P m -> (forall x, keeps P (k x)) -> keeps P (bind m k).
Proof.
  intros Hm Hk n p Hp. unfold bind. specialize (Hm n p Hp). destruct (m n) as [[x |] n1]; [| done]. cbn in Hm. by rewrite Hk, Hm.
Qed.
Lemma keeps_ret {X} P (x : X) : keeps P (ret x). Proof. done. Qed.
Lemma keeps_guard P b e : keeps P (guard b e). Proof. by destruct b. Qed.
Lemma keeps_reads {X} P (f : disk -> result string X) : keeps P (reads f).
Proof. intros n p _. unfold reads. by destruct (f _). Qed.
Lemma keeps_on_disk P f : (forall d p, P p -> snd (f d) !! p = d !! p) -> keeps P (on_disk f).
Proof. intros H n p Hp. unfold on_disk. specialize (H (rl_disk n) p Hp). by destruct (f _) as [[] d]. Qed.

Create HintDb steps.
#[export] Hint Resolve keeps_ret keeps_guard keeps_reads : steps.

(** What a step that succeeded went through. *)
Lemma bind_Ok {X Y} (m : M X) (k : X -> M Y) n y n' : bind m k n = (Ok y, n') -> exists x n1, m n = (Ok x, n1) /\ k x n1 = (Ok y, n').
Proof. unfold bind. destruct (m n) as [[x |] n1]; [eauto | done]. Qed.
Lemma guard_Ok b e n x n' : guard b e n = (Ok x, n') -> b = true /\ n' = n.
Proof. destruct b; cbn; [by intros [= _ <-] | done]. Qed.
Lemma reads_Ok {X} (f : disk -> result string X) n x n' : reads f n = (Ok x, n') -> f (rl_disk n) = Ok x /\ n' = n.
Proof. unfold reads. destruct (f _); [by intros [= <- <-] | done]. Qed.
Lemma on_disk_Ok f n x n' : on_disk f n = (Ok x, n') -> f (rl_disk n) = (None, rl_disk n') /\ rl_integrity n' = rl_integrity n.
Proof. unfold on_disk. destruct (f _) as [[] d]; [done |]. by intros [= _ <-]. Qed.

(** ** What an update does *)

Section Theorems.
Context (sha256hex : bytes -> string) {CM : Codec ReleaseManifest} (ed25519 : string -> bytes -> string -> bool) (ReleasePublicKey : string).
Context (unsigned_allowed : bool) (GOOS GOARCH : string).
Context {A : AEAD} {LA : AEADLaws A} {CP : Codec runtimeProfile} {CF : Codec runtimeReleaseProof}.
Context (dir_of : string -> string) (r : Runner) (UpdateRepo : string).
Context (fetch : Z -> option ReleaseManifestFile -> string -> string -> disk -> option string * disk) (Hfetch : fetch_local fetch).

Abbreviation update := (download_and_install sha256hex ed25519 ReleasePublicKey unsigned_allowed GOOS GOARCH dir_of r UpdateRepo fetch).
Abbreviation in_tmp := (update_in sha256hex ed25519 ReleasePublicKey unsigned_allowed GOOS GOARCH dir_of r UpdateRepo fetch).
Abbreviation repo_ := (configured_repo UpdateRepo).

Lemma path_join_inj tmp a b : path_join tmp a = path_join tmp b -> a = b.
Proof. unfold path_join. intros H%(inj (String.append tmp)). by apply (inj (String.append "/")) in H. Qed.

(** The manifest a file holds. *)
Definition holds_manifest (d : disk) (mp : string) (m : ReleaseManifest) : Prop :=
  exists raw, d !! mp = Some (Regular raw) /\ json_Unmarshal raw = Some m.

Lemma holds_manifest_unique d mp m m' : holds_manifest d mp m -> holds_manifest d mp m' -> m = m'.
Proof. intros (raw & H1 & H2) (raw' & H1' & H2'). rewrite H1 in H1'. injection H1' as <-. congruence. Qed.

Lemma read_signed_holds trim mp sp d m sig : read_signed trim mp sp d = Ok (m, sig) -> holds_manifest d mp m.
Proof.
  unfold read_signed, ReadFile. destruct (d !! mp) as [[raw | |] |] eqn:E; try done. destruct (json_Unmarshal raw) eqn:Ej; [| done].
  intros H. exists raw. split; [done |]. repeat case_match; simplify_eq; done.
Qed.

Lemma verify_release_files_spec m base names d : verify_release_files sha256hex GOOS GOARCH m base names d = None -> forall name, name ∈ names ->
  exists f b, f ∈ rm_Files m /\ rf_Name f = name /\ here GOOS GOARCH f = true /\ by_name GOOS GOARCH m name = Some f /\
    d !! path_join base name = Some (Regular b) /\ sha256hex b = rf_SHA256 f /\ blen b = rf_Size f.
Proof.
  induction names as [| x names IH]; intros H name Hin; [by apply elem_of_nil in Hin |]. cbn [verify_release_files] in H.
  destruct (negb (base_name x)); [done |]. destruct (by_name GOOS GOARCH m x) as [f |] eqn:Ef; [| done].
  unfold ReadFile in H. destruct (d !! path_join base x) as [[b | |] |] eqn:Ed; try done.
  destruct (negb _ || negb _) eqn:Eo; [done |]. apply elem_of_cons in Hin as [-> | Hin]; [| by apply IH].
  apply orb_false_iff in Eo as [H1 H2]. rewrite negb_false_iff in H1, H2. apply str_eqb_eq in H1. apply Z.eqb_eq in H2.
  pose proof Ef as Ef'. unfold by_name in Ef'. apply List.find_some in Ef' as [Hf1 [Hn Hh]%andb_true_iff]. apply str_eqb_eq in Hn.
  exists f, b. split_and!; auto. apply list_elem_of_In. by apply in_rev.
Qed.

Lemma verified_files mp sp base names d m : holds_manifest d mp m ->
  VerifyReleaseFiles sha256hex ed25519 ReleasePublicKey unsigned_allowed GOOS GOARCH mp sp base names d = None ->
  verify_release_files sha256hex GOOS GOARCH m base names d = None.
Proof.
  intros Hm. unfold VerifyReleaseFiles. destruct (read_signed _ mp sp d) as [[m' sig] |] eqn:E; [| done].
  apply read_signed_holds in E. rewrite (holds_manifest_unique _ _ _ _ E Hm). by destruct (negb _).
Qed.

Lemma proof_Ok e mp sp n n' : RecordReleaseProof ed25519 ReleasePublicKey r UpdateRepo e mp sp n = (Ok tt, n') ->
  exists p raw, holds_manifest (rl_disk n) mp (pr_Manifest p) /\ verifyRuntimeReleaseProof ed25519 ReleasePublicKey UpdateRepo p = true /\
    json_Marshal p = Some raw /\ stateWritePath r e true (proofPath r) raw (rl_disk n) = (Ok tt, rl_disk n') /\ rl_integrity n' = None.
Proof.
  unfold RecordReleaseProof. intros (p & n1 & [Hl ->]%reads_Ok & H)%bind_Ok.
  destruct (json_Marshal p) as [raw |] eqn:Er; [| done]. apply bind_Ok in H as (x & n2 & [Hw _]%on_disk_Ok & Hf). injection Hf as <-.
  exists p, raw. split_and!; [| | done | | done].
  - unfold loadRuntimeReleaseProof, securefile_Read in Hl. repeat case_match; simplify_eq. eexists. done.
  - unfold loadRuntimeReleaseProof in Hl. repeat case_match; simplify_eq. done.
  - unfold write_state in Hw. destruct (stateWritePath _ _ _ _ _ _) as [[[] |] d]; [| done]. cbn. by injection Hw as ->.
Qed.

Lemma validated_name m name component f : validateManifestBinary GOOS GOARCH m name component = Ok f ->
  rf_Name f = name /\ rf_Component f = component /\ here GOOS GOARCH f = true /\ f ∈ rm_Files m /\ 0 < rf_Size f <= maxReleaseBinaryBytes.
Proof.
  unfold validateManifestBinary. destruct (List.find _ _) as [g |] eqn:E; [| done]. apply List.find_some in E as [Hin [Hn Hh]%andb_true_iff].
  destruct (negb _ || _ || _) eqn:Eo; [done |]. intros [= <-]. apply str_eqb_eq in Hn.
  apply orb_false_iff in Eo as [[H1 H2]%orb_false_iff H3]. rewrite negb_false_iff in H1. apply str_eqb_eq in H1.
  apply Z.leb_gt in H2. apply Z.ltb_ge in H3. split_and!; auto. by apply list_elem_of_In.
Qed.

Lemma fetched_Ok limit expected name path n x n1 p :
  on_disk (fetch limit expected name path) n = (Ok x, n1) -> p <> path -> rl_disk n1 !! p = rl_disk n !! p.
Proof. intros [H _]%on_disk_Ok Hp. pose proof (Hfetch limit expected name path (rl_disk n) p Hp) as Hf. by rewrite H in Hf. Qed.

(** A successful update has verified, fetched and verified again before it
    installed. *)
Lemma update_in_Ok tmp e repo build t prefix n m n' : in_tmp tmp e repo build t prefix n = (Ok m, n') ->
  exists n1,
    installVerifiedReleaseWithProof ed25519 ReleasePublicKey dir_of r UpdateRepo prefix (manifest_in tmp) (signature_in tmp)
      (release_files GOOS GOARCH tmp e t) (uv_proof e) (uv_restore e) (uv_removal e) n1 = (Ok tt, n') /\
    holds_manifest (rl_disk n1) (manifest_in tmp) m /\
    (TrimSpace repo = "" \/ rm_Repo m = TrimSpace repo) /\ (TrimSpace build = "" \/ rm_Build m = TrimSpace build) /\
    (exists f, validateManifestBinary GOOS GOARCH m (platform GOOS GOARCH "oboard-agent") "agent" = Ok f) /\
    (exists f, validateManifestBinary GOOS GOARCH m (platform GOOS GOARCH "oboard-sb") "sb" = Ok f) /\
    (exists f, validateManifestBinary GOOS GOARCH m (platform GOOS GOARCH "oboard-realm") "realm" = Ok f) /\
    verify_release_files sha256hex GOOS GOARCH m tmp (release_names GOOS GOARCH) (rl_disk n1) = None.
Proof.
  unfold update_in. intros (u1 & n1 & F1 & H)%bind_Ok. apply bind_Ok in H as (u2 & n2 & F2 & H).
  apply bind_Ok in H as (m0 & n2' & [Hv ->]%reads_Ok & H).
  apply bind_Ok in H as (f1 & ? & [V1 ->]%reads_Ok & H). apply bind_Ok in H as (f2 & ? & [V2 ->]%reads_Ok & H).
  apply bind_Ok in H as (f3 & ? & [V3 ->]%reads_Ok & H).
  apply bind_Ok in H as (? & n3 & F3 & H). apply bind_Ok in H as (? & n4 & F4 & H). apply bind_Ok in H as (? & n5 & F5 & H).
  apply bind_Ok in H as (? & ? & [_ ->]%guard_Ok & H). apply bind_Ok in H as (? & ? & [Hf ->]%reads_Ok & H).
  apply bind_Ok in H as (? & ? & [_ ->]%guard_Ok & H). apply bind_Ok in H as (? & ? & [_ ->]%guard_Ok & H).
  apply bind_Ok in H as (? & ? & [_ ->]%reads_Ok & H). apply bind_Ok in H as (? & ? & [_ ->]%guard_Ok & H).
  apply bind_Ok in H as (? & ? & [_ ->]%reads_Ok & H). apply bind_Ok in H as (? & ? & [_ ->]%guard_Ok & H).
  apply bind_Ok in H as (u & n6 & Hi & H). destruct u. injection H as <- <-.
  destruct (validated_name _ _ _ _ V1) as (N1 & _), (validated_name _ _ _ _ V2) as (N2 & _), (validated_name _ _ _ _ V3) as (N3 & _).
  assert (Hne : forall f, rf_Name f ∈ release_names GOOS GOARCH -> manifest_in tmp <> path_join tmp (rf_Name f)).
  { intros f Hin Heq%path_join_inj. rewrite <- Heq in Hin. unfold release_names, platform in Hin. cbn in Hin.
    repeat (apply elem_of_cons in Hin as [Hin | Hin]; [done |]). by apply elem_of_nil in Hin. }
  assert (Hsame : rl_disk n5 !! manifest_in tmp = rl_disk n2 !! manifest_in tmp).
  { rewrite (fetched_Ok _ _ _ _ _ _ _ _ F5), (fetched_Ok _ _ _ _ _ _ _ _ F4), (fetched_Ok _ _ _ _ _ _ _ _ F3); [done | apply Hne ..];
      rewrite ?N1, ?N2, ?N3; unfold release_names; cbn; set_solver. }
  exists n5. unfold verifyDownloadedManifest in Hv.
  destruct (read_signed _ _ _ (rl_disk n2)) as [[m1 sig] |] eqn:Er; [| done]. cbn [result_bind] in Hv.
  apply read_signed_holds in Er. repeat case_match; simplify_eq.
  assert (Hm : holds_manifest (rl_disk n5) (manifest_in tmp) m0) by (destruct Er as (raw & ? & ?); exists raw; by rewrite Hsame).
  split_and!; eauto.
  - match goal with H : negb (TrimSpace repo =s "") && _ = false |- _ => apply andb_false_iff in H as [H | H]; rewrite negb_false_iff in H; apply str_eqb_eq in H end; auto.
  - match goal with H : negb (TrimSpace build =s "") && _ = false |- _ => apply andb_false_iff in H as [H | H]; rewrite negb_false_iff in H; apply str_eqb_eq in H end; auto.
  - eapply verified_files; done.
Qed.
Definition under (dir p : string) : bool := HasPrefix p (dir +:+ "/").

Lemma ascii_app a b : list_ascii_of_string (a +:+ b) = list_ascii_of_string a ++ list_ascii_of_string b.
Proof. induction a as [| c a IH]; [done |]. change ((String c a) +:+ b)%string with (String c (a +:+ b)%string). cbn. by rewrite IH. Qed.

Lemma under_join tmp x : under tmp (path_join tmp x) = true.
Proof. unfold under, HasPrefix, path_join. rewrite !ascii_app, app_assoc, strip_prefix_app. done. Qed.

(** Where the files of an update lie: the targets, the evidence and its
    temporary files outside the private directory and apart from each other. *)
Record layout (tmp : string) (e : UpdateEnv) (t : signedReleaseTargets) (prefix : string) : Prop := mkLayout {
  lay_items : well_laid dir_of prefix (release_files GOOS GOARCH tmp e t);
  lay_out : Forall (fun p => under tmp p = false) [tg_Agent t; tg_Core t; tg_Realm t; proofPath r; se_tmp (uv_proof e); se_tmp (uv_restore e)];
  lay_targets : Forall (fun p => p ∉ [proofPath r; se_tmp (uv_proof e); se_tmp (uv_restore e)]) [tg_Agent t; tg_Core t; tg_Realm t];
  lay_proof : proofPath r ∉ concat (map own (release_files GOOS GOARCH tmp e t)) /\ ~ swept dir_of prefix (release_files GOOS GOARCH tmp e t) (proofPath r);
  lay_tmp : se_tmp (uv_proof e) <> proofPath r /\ se_tmp (uv_restore e) <> proofPath r
}.

Lemma not_under tmp p x : under tmp p = false -> path_join tmp x <> p.
Proof. intros H <-. by rewrite under_join in H. Qed.

Lemma remove_tree_out tmp p d : under tmp p = false -> remove_tree tmp d !! p = d !! p.
Proof.
  intros H. unfold remove_tree. destruct (d !! p) eqn:E.
  - by apply map_lookup_filter_Some.
  - apply map_lookup_filter_None. by left.
Qed.

(** The files of a release with their targets. *)
Definition release_pairs (t : signedReleaseTargets) : list (string * string) :=
  [(platform GOOS GOARCH "oboard-agent", tg_Agent t); (platform GOOS GOARCH "oboard-sb", tg_Core t); (platform GOOS GOARCH "oboard-realm", tg_Realm t)].

Lemma release_pairs_items tmp e t name target : (name, target) ∈ release_pairs t ->
  name ∈ release_names GOOS GOARCH /\ target ∈ [tg_Agent t; tg_Core t; tg_Realm t] /\
  exists x, x ∈ release_files GOOS GOARCH tmp e t /\ sf_source (snd x) = path_join tmp name /\ sf_target (snd x) = target.
Proof.
  unfold release_pairs, release_names, release_files. destruct (uv_items e) as [[e1 e2] e3]. cbn.
  rewrite !elem_of_cons. intros [[= -> ->] | [[= -> ->] | [[= -> ->] | []%elem_of_nil]]]; (split_and!; [set_solver | set_solver |]).
  - eexists (e1, release_item _ _). split; [by left | done].
  - eexists (e2, release_item _ _). split; [right; by left | done].
  - eexists (e3, release_item _ _). split; [right; right; by left | done].
Qed.

(** What a successful update leaves: the evidence of its manifest as it was
    written, no cached inspection, and every target with the content of an entry
    of the manifest. *)
Lemma update_Ok tmp e repo build t prefix n m n' :
  uv_tmp e = Ok tmp -> layout tmp e t prefix -> update e repo build t prefix n = (Ok m, n') ->
  (TrimSpace repo = "" \/ rm_Repo m = TrimSpace repo) /\ (TrimSpace build = "" \/ rm_Build m = TrimSpace build) /\ rl_integrity n' = None /\
  (exists f, validateManifestBinary GOOS GOARCH m (platform GOOS GOARCH "oboard-agent") "agent" = Ok f) /\
  (exists f, validateManifestBinary GOOS GOARCH m (platform GOOS GOARCH "oboard-sb") "sb" = Ok f) /\
  (exists f, validateManifestBinary GOOS GOARCH m (platform GOOS GOARCH "oboard-realm") "realm" = Ok f) /\
  (exists p raw d d1, pr_Manifest p = m /\ verifyRuntimeReleaseProof ed25519 ReleasePublicKey UpdateRepo p = true /\ json_Marshal p = Some raw /\
     stateWritePath r (uv_proof e) true (proofPath r) raw d = (Ok tt, d1) /\ rl_disk n' !! proofPath r = d1 !! proofPath r) /\
  (forall name target, (name, target) ∈ release_pairs t -> exists f, f ∈ rm_Files m /\ rf_Name f = name /\ here GOOS GOARCH f = true /\
     by_name GOOS GOARCH m name = Some f /\ authentic sha256hex f (rl_disk n') target).
Proof.
  intros Htmp [Hitems Hout Htg [Hp1 Hp2] [Ht1 Ht2]]. unfold download_and_install. rewrite Htmp.
  destruct (in_tmp tmp e repo build t prefix n) as [res n6] eqn:E. intros H. injection H as -> <-.
  apply update_in_Ok in E as (n1 & Hi & Hm & Hr & Hb & V1 & V2 & V3 & Hv). rewrite !Forall_cons in Hout. destruct Hout as (O1 & O2 & O3 & O4 & O5 & O6 & _).
  unfold installVerifiedReleaseWithProof in Hi. destruct (stateReadPath r (rl_disk n1) (proofPath r)) as [| []]; try done.
  all: destruct (RecordReleaseProof _ _ _ _ _ _ _ n1) as [[[] |] n2] eqn:Erec; [| done];
    destruct (installVerifiedReleaseFiles _ _ _ (rl_disk n2)) as [[er |] d3] eqn:Ei; [by destruct (restore_proof _ _ _ _ d3) |]; injection Hi as <-.
  all: apply proof_Ok in Erec as (p & raw & Hm' & Hver & Hmar & Hw & Hnone);
    pose proof (holds_manifest_unique _ _ _ _ Hm' Hm) as Hpm;
    destruct (stateWritePath_cases _ _ _ _ _ _ _ _ Ht1 Hw) as [Hother _];
    destruct (install_spec _ _ _ _ _ _ Hitems Ei) as (Hinst & _ & Hframe); specialize (Hinst eq_refl).
  all: split_and!; [done | done | done | done | done | done | |].
  1, 3: exists p, raw, (rl_disk n1), (rl_disk n2); split_and!; [done | done | done | done |]; cbn; rewrite remove_tree_out by done; by apply Hframe.
  all: intros name target Hin; destruct (release_pairs_items tmp e t name target Hin) as (Hname & Htarget & x & Hx & Hsrc & Htgt);
    destruct (verify_release_files_spec _ _ _ _ Hv name Hname) as (f & b & F1 & F2 & F3 & F4 & F5 & F6 & F7);
    exists f; split_and!; [done | done | done | done |]; exists b; split_and!; [| done | done]; cbn;
    rewrite remove_tree_out by (rewrite !elem_of_cons in Htarget; destruct Htarget as [-> | [-> | [-> | []%elem_of_nil]]]; done);
    rewrite <- Htgt, (Hinst x Hx), Hsrc; do 2 f_equal; unfold content; rewrite Hother, F5 by (by apply not_under); done.
Qed.

Lemma update_signed tmp e repo build t prefix n m n' :
  uv_tmp e = Ok tmp -> layout tmp e t prefix -> update e repo build t prefix n = (Ok m, n') ->
  (exists signature, VerifyReleaseManifest ed25519 m signature ReleasePublicKey = true) /\ rm_Repo m = repo_ /\
  (TrimSpace build = "" \/ rm_Build m = TrimSpace build) /\
  forall name target, (name, target) ∈ release_pairs t ->
    exists f, f ∈ rm_Files m /\ rf_Name f = name /\ here GOOS GOARCH f = true /\ authentic sha256hex f (rl_disk n') target.
Proof.
  intros Htmp Hl E. destruct (update_Ok _ _ _ _ _ _ _ _ _ Htmp Hl E) as (Hr & Hb & _ & _ & _ & _ & (p & raw & d & d1 & <- & Hv & _) & Hfiles).
  apply andb_true_iff in Hv as [Hrepo Hsig]. apply str_eqb_eq in Hrepo. split_and!; [by exists (pr_Signature p) | done | done |].
  intros name target Hin. destruct (Hfiles name target Hin) as (f & ? & ? & ? & ? & ?). eauto.
Qed.

(** *** Failures *)

(** A synced write that fails while directories can be synced leaves the file. *)
Lemma synced_write_failed e path b d x d' : se_tmp e <> path -> io_fail (se_io e) SysSyncDir = None ->
  stateWritePath r e true path b d = (Err x, d') -> d' !! path = d !! path.
Proof.
  intros Hne Hs. unfold stateWritePath. destruct (protectRuntimeState _ _ _ _ _) as [b' |]; [| by intros [= _ <-]].
  assert (forall b, securefile_Write (se_io e) (se_tmp e) path b true d = (Err x, d') -> d' !! path = d !! path) as Hw.
  { intros b0. unfold securefile_Write, try_sys. rewrite Hs. intros H.
    repeat match type of H with context [match ?y with _ => _ end] => let E := fresh in destruct y eqn:E end;
      first [discriminate | injection H as _ <-; rewrite ?lookup_delete_ne by congruence; congruence]. }
  destruct (stealthOn r); [destruct (Encrypt _ _ _); [apply Hw | by intros [= _ <-]] | apply Hw].
Qed.

(** A failure either comes before the installation, with nothing outside the
    private directory changed, or is one of the installation. *)
Definition same_outside (tmp : string) (n n' : Release) : Prop := forall p, under tmp p = false -> rl_disk n' !! p = rl_disk n !! p.

Definition fails_at {X} (tmp : string) (I : Release -> task_error -> Release -> Prop) (m : M X) : Prop :=
  forall n e n', m n = (Err e, n') -> same_outside tmp n n' \/ exists n1, same_outside tmp n n1 /\ I n1 e n'.

Lemma fails_at_bind {X Y} tmp I (m : M X) (k : X -> M Y) :
  keeps (fun p => under tmp p = false) m -> (forall x, fails_at tmp I (k x)) -> fails_at tmp I (bind m k).
Proof.
  intros Hm Hk n e n' E. unfold bind in E. specialize (Hm n). destruct (m n) as [[x |] n1]; cbn in Hm.
  - destruct (Hk _ _ _ _ E) as [Hs | (n2 & Hs & HI)].
    + left. intros p Hp. by rewrite Hs, Hm.
    + right. exists n2. split; [| done]. intros p Hp. by rewrite Hs, Hm.
  - injection E as <- <-. left. intros p Hp. by apply Hm.
Qed.

Lemma fetch_keeps tmp limit expected name x : keeps (fun p => under tmp p = false) (on_disk (fetch limit expected name (path_join tmp x))).
Proof. apply keeps_on_disk. intros d p Hp. apply Hfetch. intros ->. by rewrite under_join in Hp. Qed.

Hint Resolve fetch_keeps : steps.

Abbreviation installs tmp e t prefix := (installVerifiedReleaseWithProof ed25519 ReleasePublicKey dir_of r UpdateRepo prefix (manifest_in tmp) (signature_in tmp)
      (release_files GOOS GOARCH tmp e t) (uv_proof e) (uv_restore e) (uv_removal e)).

Lemma update_in_fails tmp e repo build t prefix :
  fails_at tmp (fun n1 err n' => installs tmp e t prefix n1 = (Err err, n')) (in_tmp tmp e repo build t prefix).
Proof.
  unfold update_in, manifest_in, signature_in, fetch_file. repeat (apply fails_at_bind; [solve [auto with steps] | intros ?]).
  intros n err n' E. right. exists n. split; [done |]. unfold bind in E. destruct (installVerifiedReleaseWithProof _ _ _ _ _ _ _ _ _ _ _ _ n) as [[] n1]; [done |].
  by injection E as <- <-.
Qed.

(** The evidence after a write of another state file, a failed one included. *)
Lemma proof_keeps e mp sp p : se_tmp e <> proofPath r -> p <> proofPath r -> p <> se_tmp e ->
  keeps (fun q => q = p) (RecordReleaseProof ed25519 ReleasePublicKey r UpdateRepo e mp sp).
Proof.
  intros Hne H1 H2. apply keeps_bind; [apply keeps_reads |]. intros x. destruct (json_Marshal x); [| done].
  apply keeps_bind; [| done]. apply keeps_on_disk. intros d q ->. unfold write_state.
  destruct (stateWritePath r e true (proofPath r) _ d) as [res d'] eqn:E. destruct (stateWritePath_cases _ _ _ _ _ _ _ _ Hne E) as [Hf _].
  cbn. by apply Hf.
Qed.

(** Where its directory can be synced, evidence that could not be recorded is
    the old one. *)
Lemma proof_fails e mp sp n err n' : se_tmp e <> proofPath r -> io_fail (se_io e) SysSyncDir = None ->
  RecordReleaseProof ed25519 ReleasePublicKey r UpdateRepo e mp sp n = (Err err, n') -> rl_disk n' !! proofPath r = rl_disk n !! proofPath r.
Proof.
  intros Hne Hs E. unfold RecordReleaseProof, bind, reads in E. destruct (loadRuntimeReleaseProof _ _ _ _ _ _); [| by injection E as <- <-].
  destruct (json_Marshal _); [| by injection E as <- <-]. unfold on_disk, write_state in E.
  destruct (stateWritePath r e true (proofPath r) _ (rl_disk n)) as [[[] | x] d'] eqn:Ew; cbn in E; [done |]. injection E as <- <-. cbn.
  by eapply synced_write_failed.
Qed.

(** What is put back is what was read. *)
Lemma restored e m old d0 d err d' : runtimeStatePurpose r (proofPath r) = "" -> env_ok r (proofPath r) e ->
  old = stateReadPath r d0 (proofPath r) -> (forall b, old = Ok b -> blen b + 33 <= Z.shiftl 32 20) -> (forall x, old <> Err (StateFailed x)) ->
  restore_proof r e m old d = (err, d') ->
  (forall p, p <> proofPath r -> p <> se_tmp e -> d' !! p = d !! p) /\ (err = None -> stateReadPath r d' (proofPath r) = old).
Proof.
  intros Hp He Hold Hlen Hnf E. pose proof He as (Hne & _). unfold restore_proof in E. destruct old as [b | [| x]]; [| | by destruct (Hnf x)].
  - unfold write_state in E. destruct (stateWritePath r e true (proofPath r) b d) as [res d1] eqn:Ew. injection E as <- <-.
    destruct (stateWritePath_cases _ _ _ _ _ _ _ _ Hne Ew) as [Hf _]. split; [auto |]. destruct res as [[] |]; [| done]. intros _.
    pose proof (runner_files_laws r _ Hp) as L. refine (@sf_written (runner_files r (proofPath r)) L e b d d1 He _ Ew).
    cbn. split; [| by apply Hlen].
    symmetry in Hold. unfold stateReadPath in Hold. destruct (securefile_Read _ _ _) as [raw | []]; try done. destruct (sniff r raw) as [raw' |]; [| done].
    unfold openRuntimeState in Hold. rewrite Hp in Hold. destruct (IsProtected raw') eqn:Ep; [done |]. cbn in Hold. by injection Hold as <-.
  - assert (Hdel : forall d1 : disk, d1 !! proofPath r = None -> stateReadPath r d1 (proofPath r) = Err StateNotExist)
      by (intros d1 Hd1; unfold stateReadPath, securefile_Read; by rewrite Hd1).
    destruct m; cbn in E; [| | destruct (d !! proofPath r) eqn:Ed]; injection E as <- <-; (split; [intros; path_frame | try done]); intros _; apply Hdel;
      [apply lookup_delete_eq | done].
Qed.

(** What a failed installation leaves. *)
Lemma install_fails tmp e t prefix n err n' :
  layout tmp e t prefix -> Forall undoable (release_files GOOS GOARCH tmp e t) -> runtimeStatePurpose r (proofPath r) = "" ->
  env_ok r (proofPath r) (uv_restore e) -> io_fail (se_io (uv_proof e)) SysSyncDir = None ->
  (forall b, stateReadPath r (rl_disk n) (proofPath r) = Ok b -> blen b + 33 <= Z.shiftl 32 20) ->
  installs tmp e t prefix n = (Err err, n') ->
  (forall p, p ∈ [tg_Agent t; tg_Core t; tg_Realm t] -> rl_disk n' !! p = rl_disk n !! p) /\
  ((forall x, err <> RollbackFailed x) -> stateReadPath r (rl_disk n') (proofPath r) = stateReadPath r (rl_disk n) (proofPath r)).
Proof.
  intros [Hitems _ Htg [Hp1 Hp2] [Ht1 Ht2]] Hundo Hpur Henv Hsync Hlen E. unfold installVerifiedReleaseWithProof in E.
  remember (stateReadPath r (rl_disk n) (proofPath r)) as old eqn:Hold.
  destruct (RecordReleaseProof ed25519 ReleasePublicKey r UpdateRepo (uv_proof e) (manifest_in tmp) (signature_in tmp) n) as [res n1] eqn:Er.
  assert (Hrec : forall p, p ∈ [tg_Agent t; tg_Core t; tg_Realm t] -> rl_disk n1 !! p = rl_disk n !! p).
  { intros p Hp. rewrite Forall_forall in Htg. specialize (Htg p Hp). change n1 with (snd (res, n1)). rewrite <- Er.
    apply (proof_keeps (uv_proof e) _ _ p Ht1); [set_solver | set_solver | done]. }
  assert (Hnf : (exists x, old = Err (StateFailed x)) \/ forall x, old <> Err (StateFailed x)).
  { destruct old as [| []]; [by right | by right | left; eauto]. }
  destruct Hnf as [[x Hx] | Hnf]; [rewrite Hx in E; injection E as <- <-; by rewrite Hold |].
  assert (E' : match res with Err e0 => (Err e0, n1) | Ok _ =>
     let '(err, d) := installVerifiedReleaseFiles dir_of prefix (release_files GOOS GOARCH tmp e t) (rl_disk n1) in
     match err with None => (Ok tt, n1<|rl_disk := d|>) | Some e0 => let '(re, d) := restore_proof r (uv_restore e) (uv_removal e) old d in
       (Err (match re with None => UpdateFailed e0 | Some _ => RollbackFailed e0 end), n1<|rl_disk := d|><|rl_integrity := None|>) end end = (Err err, n')).
  { destruct old as [| [| x]]; [done | done | by destruct (Hnf x)]. } clear E. rename E' into E.
  destruct res as [[] | e0].
  2:{ injection E as <- <-. split; [done |]. intros _. subst old. apply read_ext; [done |]. exact (proof_fails _ _ _ _ _ _ Ht1 Hsync Er). }
  destruct (installVerifiedReleaseFiles _ _ _ (rl_disk n1)) as [[e0 |] d3] eqn:Ei; [| done].
  destruct (install_spec _ _ _ _ _ _ Hitems Ei) as (_ & Hback & _). destruct (restore_proof _ _ _ old d3) as [re d4] eqn:Erest. injection E as <- <-.
  destruct (restored _ _ _ _ _ _ _ Hpur Henv Hold Hlen Hnf Erest) as [Hf Hr]. cbn. split.
  - intros p Hp. pose proof (proj1 (Forall_forall _ _) Htg p Hp) as Hnp. rewrite Hf by set_solver. rewrite <- Hrec by done.
    assert (exists name, (name, p) ∈ release_pairs t) as [name Hpair].
    { rewrite !elem_of_cons in Hp. destruct Hp as [-> | [-> | [-> | []%elem_of_nil]]]; eexists; unfold release_pairs; rewrite !elem_of_cons; eauto. }
    destruct (release_pairs_items tmp e t name p Hpair) as (_ & _ & x & Hx & _ & <-). by apply Hback.
  - intros Hne. destruct re; [by destruct (Hne e0) | auto].
Qed.

Lemma update_fails tmp e repo build t prefix n err n' :
  uv_tmp e = Ok tmp -> layout tmp e t prefix -> Forall undoable (release_files GOOS GOARCH tmp e t) -> runtimeStatePurpose r (proofPath r) = "" ->
  env_ok r (proofPath r) (uv_restore e) -> io_fail (se_io (uv_proof e)) SysSyncDir = None ->
  (forall b, stateReadPath r (rl_disk n) (proofPath r) = Ok b -> blen b + 33 <= Z.shiftl 32 20) ->
  update e repo build t prefix n = (Err err, n') ->
  (forall p, p ∈ [tg_Agent t; tg_Core t; tg_Realm t] -> rl_disk n' !! p = rl_disk n !! p) /\
  ((forall x, err <> RollbackFailed x) -> stateReadPath r (rl_disk n') (proofPath r) = stateReadPath r (rl_disk n) (proofPath r)).
Proof.
  intros Htmp Hl Hundo Hpur Henv Hsync Hlen. unfold download_and_install. rewrite Htmp.
  destruct (in_tmp tmp e repo build t prefix n) as [res n2] eqn:E. intros H. injection H as -> <-. cbn.
  pose proof (lay_out _ _ _ _ Hl) as Hout. rewrite !Forall_cons in Hout. destruct Hout as (O1 & O2 & O3 & O4 & _).
  assert (Hunder : forall p, p ∈ [tg_Agent t; tg_Core t; tg_Realm t] -> under tmp p = false)
    by (intros p Hp; rewrite !elem_of_cons in Hp; destruct Hp as [-> | [-> | [-> | []%elem_of_nil]]]; done).
  assert (Htree : forall n3, stateReadPath r (remove_tree tmp (rl_disk n3)) (proofPath r) = stateReadPath r (rl_disk n3) (proofPath r))
    by (intros n3; apply read_ext; [done | by apply remove_tree_out]).
  rewrite Htree. destruct (update_in_fails _ _ _ _ _ _ _ _ _ E) as [Hs | (n1 & Hs & Hi)].
  - split; [intros p Hp; rewrite remove_tree_out; auto |]. intros _. apply read_ext; auto.
  - assert (Hread : stateReadPath r (rl_disk n1) (proofPath r) = stateReadPath r (rl_disk n) (proofPath r)) by (apply read_ext; auto).
    destruct (install_fails _ _ _ _ _ _ _ Hl Hundo Hpur Henv Hsync ltac:(by rewrite Hread) Hi) as [H1 H2].
    split; [intros p Hp; rewrite remove_tree_out, H1; auto |]. rewrite <- Hread. auto.
Qed.

(** *** What an update needs *)

Lemma update_needs e repo build t prefix n m n' :
  update e repo build t prefix n = (Ok m, n') -> ReleasePublicKey <> "" /\ (TrimSpace repo = "" \/ TrimSpace repo = repo_).
Proof.
  unfold download_and_install. destruct (uv_tmp e) as [tmp |]; [| done]. destruct (in_tmp tmp e repo build t prefix n) as [res n6] eqn:E.
  intros H. injection H as -> <-. apply update_in_Ok in E as (n1 & Hi & Hm & Hr & _).
  assert (exists n2, RecordReleaseProof ed25519 ReleasePublicKey r UpdateRepo (uv_proof e) (manifest_in tmp) (signature_in tmp) n1 = (Ok tt, n2)) as [n2 Hrec].
  { unfold installVerifiedReleaseWithProof in Hi. destruct (RecordReleaseProof _ _ _ _ _ _ _ n1) as [[[] |] n2]; [eauto |].
    by destruct (stateReadPath r (rl_disk n1) (proofPath r)) as [| []]. }
  apply proof_Ok in Hrec as (p & raw & Hm' & Hv & _). unfold verifyRuntimeReleaseProof in Hv. rewrite (holds_manifest_unique _ _ _ _ Hm' Hm) in Hv.
  apply andb_true_iff in Hv as [Hrepo Hsig]. apply str_eqb_eq in Hrepo. split; [| destruct Hr; [by left | right; congruence]].
  unfold VerifyReleaseManifest in Hsig. apply andb_true_iff in Hsig as [Hk _]. by apply negb_true_iff, str_eqb_neq in Hk.
Qed.

Lemma update_refused e repo build t prefix n :
  ReleasePublicKey = "" \/ (TrimSpace repo <> "" /\ TrimSpace repo <> repo_) -> exists err, fst (update e repo build t prefix n) = Err err.
Proof.
  intros H. destruct (update e repo build t prefix n) as [[m | err] n'] eqn:E; [| eauto]. destruct (update_needs _ _ _ _ _ _ _ _ E) as [Hk [? | ?]]; naive_solver.
Qed.

(** *** Inspection after an update *)

(** A manifest that lists each component and each name of the platform once. *)
Definition tidy (m : ReleaseManifest) : Prop :=
  NoDup (map rf_Name (List.filter (here GOOS GOARCH) (rm_Files m))) /\ NoDup (map rf_Component (List.filter (here GOOS GOARCH) (rm_Files m))).

Lemma unique_filter {X} (g : X -> string) l x : NoDup (map g l) -> x ∈ l -> List.filter (fun y => g y =s g x) l = [x].
Proof.
  induction l as [| y l IH]; cbn; intros Hnd Hx; [by apply elem_of_nil in Hx |]. apply NoDup_cons in Hnd as [Hni Hnd].
  assert (Hnone : forall z, g z ∉ map g l -> List.filter (fun y => g y =s g z) l = []).
  { clear. intros z. induction l as [| y l IH]; cbn; intros Hni; [done |]. rewrite elem_of_cons in Hni.
    assert ((g y =s g z) = false) as -> by (apply str_eqb_neq; intros ?; apply Hni; by left). apply IH. tauto. }
  apply elem_of_cons in Hx as [-> | Hx]; [by rewrite str_eqb_refl, Hnone |].
  assert ((g y =s g x) = false) as -> by (apply str_eqb_neq; intros Eq; apply Hni; rewrite Eq; by apply list_elem_of_fmap_2). by apply IH.
Qed.

Lemma filter_and {X} (a b : X -> bool) l : List.filter (fun x => a x && b x) l = List.filter a (List.filter b l).
Proof. induction l as [| x l IH]; [done |]. cbn. destruct (b x); cbn; destruct (a x); cbn; by rewrite IH. Qed.

Lemma tidy_entry m name component f g :
  tidy m -> validateManifestBinary GOOS GOARCH m name component = Ok g -> f ∈ rm_Files m -> rf_Name f = name -> here GOOS GOARCH f = true ->
  component_entries GOOS GOARCH m component = [f] /\ 0 < rf_Size f <= maxReleaseBinaryBytes.
Proof.
  intros [Hn Hc] (Hgn & Hgc & Hgh & Hgin & Hsize)%validated_name Hf Hfn Hh.
  assert (Hin : forall x, x ∈ rm_Files m -> here GOOS GOARCH x = true -> x ∈ List.filter (here GOOS GOARCH) (rm_Files m))
    by (intros x ? ?; apply list_elem_of_In, filter_In; split; [by apply list_elem_of_In | done]).
  assert (f = g) as ->.
  { pose proof (unique_filter rf_Name _ g Hn (Hin g Hgin Hgh)) as H1. pose proof (unique_filter rf_Name _ f Hn (Hin f Hf Hh)) as H2.
    rewrite Hgn in H1. rewrite Hfn, H1 in H2. by injection H2. }
  split; [| done]. unfold component_entries. rewrite filter_and, <- Hgc. by apply unique_filter; [| apply Hin].
Qed.

Lemma inspect_passed m d component path f : path <> "" -> component_entries GOOS GOARCH m component = [f] -> 0 < rf_Size f <= maxReleaseBinaryBytes ->
  authentic sha256hex f d path -> inspect_target sha256hex GOOS GOARCH m d (component, Some path, false) = mkCheck ("binary_" +:+ component) "passed".
Proof.
  intros Hp Hc Hs (b & Hb & Hl & Hsum). destruct path as [| c path]; [done |]. unfold inspect_target, Digest. rewrite Hc, Hb, Hl. destruct (Z.leb_spec (rf_Size f) 0); [lia |]. destruct (Z.ltb_spec maxReleaseBinaryBytes (rf_Size f)); [lia |].
  cbn [orb]. by rewrite Hsum, str_eqb_refl, Z.eqb_refl.
Qed.

Context {LF : CodecLaws CF}.

Lemma update_inspected tmp e repo build t prefix n m n' :
  uv_tmp e = Ok tmp -> layout tmp e t prefix -> update e repo build t prefix n = (Ok m, n') ->
  tidy m -> runtimeStatePurpose r (proofPath r) = "" -> env_ok r (proofPath r) (uv_proof e) ->
  (forall sig raw, json_Marshal (mkProof m sig) = Some raw -> IsProtected raw = false /\ blen raw + 33 <= Z.shiftl 32 20) ->
  Forall (fun p => p <> "") [tg_Agent t; tg_Core t; tg_Realm t] ->
  fst (inspectRuntimeIntegrity sha256hex ed25519 ReleasePublicKey GOOS GOARCH r UpdateRepo
         [("agent", Some (tg_Agent t), false); ("sb", Some (tg_Core t), false); ("realm", Some (tg_Realm t), false)]%string n') =
  [mkCheck "binary_agent" "passed"; mkCheck "binary_sb" "passed"; mkCheck "binary_realm" "passed"].
Proof.
  intros Htmp Hl E Htidy Hpur Henv Hplain Hpaths. pose proof (update_needs _ _ _ _ _ _ _ _ E) as [Hkey _].
  destruct (update_Ok _ _ _ _ _ _ _ _ _ Htmp Hl E) as (_ & _ & Hnone & [f1 V1] & [f2 V2] & [f3 V3] & ([m' sig] & raw & d & d1 & Hm & Hv & Hmar & Hw & Hsame) & Hfiles).
  cbn in Hm. subst m'. destruct (Hplain sig raw Hmar) as [Hprot Hlen].
  assert (Hread : stateReadPath r (rl_disk n') (proofPath r) = Ok raw).
  { rewrite (read_ext _ _ _ Hpur Hsame). pose proof (runner_files_laws r _ Hpur) as L.
    exact (@sf_written (runner_files r (proofPath r)) L (uv_proof e) raw d d1 Henv (conj Hprot Hlen) Hw). }
  unfold inspectRuntimeIntegrity. rewrite Hnone. cbn [fst]. unfold inspection. rewrite Hread, (json_roundtrip _ _ Hmar), Hv.
  assert ((ReleasePublicKey =s "") = false) as -> by (by apply str_eqb_neq). cbn [orb pr_Manifest map].
  rewrite !Forall_cons in Hpaths. destruct Hpaths as (P1 & P2 & P3 & _).
  assert (Hone : forall name component g target, target <> "" -> validateManifestBinary GOOS GOARCH m name component = Ok g -> (name, target) ∈ release_pairs t ->
    inspect_target sha256hex GOOS GOARCH m (rl_disk n') (component, Some target, false) = mkCheck ("binary_" +:+ component) "passed").
  { intros name component g target Ht Hval Hin. destruct (Hfiles name target Hin) as (f & F1 & F2 & F3 & _ & F5).
    destruct (tidy_entry m name component f g Htidy Hval F1 F2 F3) as [Hc Hs]. by apply (inspect_passed _ _ _ _ f). }
  rewrite (Hone _ _ _ _ P1 V1), (Hone _ _ _ _ P2 V2), (Hone _ _ _ _ P3 V3); [done | ..]; unfold release_pairs; rewrite !elem_of_cons; auto.
Qed.

End Theorems.

(** ** The update task *)

Section Task.
Context (sha256hex : bytes -> string) {CM : Codec ReleaseManifest} (ed25519 : string -> bytes -> string -> bool) (ReleasePublicKey : string).
Context (unsigned_allowed : bool) (GOOS GOARCH : string).
Context {A : AEAD} {LA : AEADLaws A} {CP : Codec runtimeProfile} {CF : Codec runtimeReleaseProof}.
Context (dir_of : string -> string) (r : Runner) (UpdateRepo UpdateSource ControllerURL : string) (AllowPanelUpdate isDev : bool).
Context (allowlist : list string) (valid_url url_ok : string -> bool) (lock : bool).
Context (transport : option (bool * (string -> option string * list chunk_reply))) (assets : string -> AssetEnv) (prefix : string) (e : UpdateEnv).

Abbreviation task targets := (updateAgentBinary sha256hex ed25519 ReleasePublicKey unsigned_allowed GOOS GOARCH dir_of r UpdateRepo
  UpdateSource ControllerURL AllowPanelUpdate isDev allowlist valid_url url_ok lock targets transport assets prefix e).

(** The task is an update with one of the two ways to fetch, or stops before
    it does anything. *)
Lemma task_is_update targets p n :
  (exists err, task targets p n = (Err err, n)) \/
  exists t fetch, targets = Ok t /\ fetch_local fetch /\
    task targets p n = download_and_install sha256hex ed25519 ReleasePublicKey unsigned_allowed GOOS GOARCH dir_of r UpdateRepo fetch e
      (task_repo UpdateRepo (pl_GitHubRepo p)) (pl_ExpectedBuild p) t prefix n.
Proof.
  unfold updateAgentBinary, bind, guard, reads, ret, fail.
  destruct (updateRepoAllowed _ _); [| eauto]. destruct (release_base _ _ _ _ _ _) as [base |]; [| eauto]. destruct lock; [| eauto].
  destruct targets as [t |]; [| eauto]. destruct transport as [[dialled replies] |].
  - unfold downloadAndInstallSignedReleaseOverTransport, bind, guard, ret, fail. destruct dialled; [| eauto].
    right. eexists t, _. split_and!; [done | apply (transport_fetch_local replies) | done].
  - unfold downloadAndInstallSignedReleaseWithPolicy, bind, guard, ret, fail. destruct (url_ok base); [| eauto]. destruct (forallb _ _); [| eauto].
    right. eexists t, _. split_and!; [done | apply (http_fetch_local sha256hex (if pl_AutoUpdate p then releaseDownloadAttempts else 1%nat) assets) | done].
Qed.

(** C16: only a signed release is installed: when an update task succeeds, whichever
    way the release came and whatever the servers sent, the manifest carries a
    valid signature of the release key, is of the configured repository and of
    the requested build, and each of the three executables has the size and the
    checksum the manifest gives for it. *)
Theorem installed_release_is_signed tmp t p n m n' :
  uv_tmp e = Ok tmp -> layout GOOS GOARCH dir_of r tmp e t prefix -> task (Ok t) p n = (Ok m, n') ->
  (exists signature, VerifyReleaseManifest ed25519 m signature ReleasePublicKey = true) /\ rm_Repo m = configured_repo UpdateRepo /\
  (TrimSpace (pl_ExpectedBuild p) = "" \/ rm_Build m = TrimSpace (pl_ExpectedBuild p)) /\
  forall name target, (name, target) ∈ release_pairs GOOS GOARCH t ->
    exists f, f ∈ rm_Files m /\ rf_Name f = name /\ here GOOS GOARCH f = true /\ authentic sha256hex f (rl_disk n') target.
Proof.
  intros Htmp Hl E. destruct (task_is_update (Ok t) p n) as [[err Eq] | (t' & fetch & [= <-] & Hf & Eq)]; rewrite E in Eq; [done |].
  symmetry in Eq. exact (update_signed _ _ _ _ _ _ _ _ _ fetch Hf _ _ _ _ _ _ _ _ _ Htmp Hl Eq).
Qed.


(** Nothing is installed without a release key, nor from another repository
    than the configured one, whatever the task and the environment allow. *)
Theorem update_needs_key_and_repo targets p n :
  ReleasePublicKey = "" \/ (TrimSpace (task_repo UpdateRepo (pl_GitHubRepo p)) <> "" /\
    TrimSpace (task_repo UpdateRepo (pl_GitHubRepo p)) <> configured_repo UpdateRepo) ->
  exists err, fst (task targets p n) = Err err.
Proof.
  intros H. destruct (task_is_update targets p n) as [[err Eq] | (t' & fetch & _ & Hf & Eq)]; rewrite Eq; [eauto |].
  exact (update_refused _ _ _ _ _ _ _ _ _ fetch Hf _ _ _ _ _ _ H).
Qed.

Context {LF : CodecLaws CF}.

(** An inspection after a successful update passes for all three executables:
    the recorded evidence is read back, verifies, and matches what is
    installed; no older inspection is answered from the cache. *)
Theorem inspection_passes_after_update tmp t p n m n' :
  uv_tmp e = Ok tmp -> layout GOOS GOARCH dir_of r tmp e t prefix -> task (Ok t) p n = (Ok m, n') ->
  tidy GOOS GOARCH m -> runtimeStatePurpose r (proofPath r) = "" -> env_ok r (proofPath r) (uv_proof e) ->
  (forall sig raw, json_Marshal (mkProof m sig) = Some raw -> IsProtected raw = false /\ blen raw + 33 <= Z.shiftl 32 20) ->
  Forall (fun p => p <> "") [tg_Agent t; tg_Core t; tg_Realm t] ->
  fst (inspectRuntimeIntegrity sha256hex ed25519 ReleasePublicKey GOOS GOARCH r UpdateRepo
         [("agent", Some (tg_Agent t), false); ("sb", Some (tg_Core t), false); ("realm", Some (tg_Realm t), false)]%string n') =
  [mkCheck "binary_agent" "passed"; mkCheck "binary_sb" "passed"; mkCheck "binary_realm" "passed"].
Proof.
  intros Htmp Hl E Ht Hp He Hd Hne. destruct (task_is_update (Ok t) p n) as [[err' Eq] | (t' & fetch & [= <-] & Hf & Eq)]; rewrite E in Eq; [done |].
  symmetry in Eq. exact (update_inspected _ _ _ _ _ _ _ _ _ fetch Hf _ _ _ _ _ _ _ _ _ Htmp Hl Eq Ht Hp He Hd Hne).
Qed.

End Task.

(** ** Witnesses *)

Section UpdateWitness.

#[local] Existing Instance profile_codec.
#[local] Instance file_dec : EqDecision ReleaseManifestFile.
Proof. solve_decision. Defined.
#[local] Instance manifest_dec : EqDecision ReleaseManifest.
Proof. solve_decision. Defined.
#[local] Instance proof_dec : EqDecision runtimeReleaseProof.
Proof. solve_decision. Defined.

(** Release "b2" of three files, whose checksums are their contents. *)
Definition release_w : ReleaseManifest :=
  mkManifest "2.0" "b2" "c0ffee" "2025-01-01" "obrdx/oboard-agent"
    [mkReleaseFile "oboard-agent-linux-amd64" "agent" "linux" "amd64" "agent 2" 7;
     mkReleaseFile "oboard-sb-linux-amd64" "sb" "linux" "amd64" "sb 2" 4;
     mkReleaseFile "oboard-realm-linux-amd64" "realm" "linux" "amd64" "realm 2" 7].

#[local] Instance release_codec : Codec ReleaseManifest := {|
  json_Marshal m := Some (list_ascii_of_string "M");
  json_Unmarshal b := if decide (b = list_ascii_of_string "M") then Some release_w else None
|}.
#[local] Instance proof_codec : Codec runtimeReleaseProof := {|
  json_Marshal p := if decide (p = mkProof release_w "sig") then Some (list_ascii_of_string "{P}") else None;
  json_Unmarshal b := if decide (b = list_ascii_of_string "{P}") then Some (mkProof release_w "sig") else None
|}.
#[local] Instance proof_codec_laws : CodecLaws proof_codec.
Proof.
  intros x b. unfold json_Marshal, json_Unmarshal, proof_codec. destruct (decide (x = _)) as [-> |]; [| done]. intros [= <-]. by rewrite decide_True.
Qed.

Definition check_w (key : string) (payload : bytes) (signature : string) : bool := (key =s "K") && (signature =s "sig").

(** The session sends every asset in one chunk. *)
Definition session_w (name : string) : option string * list chunk_reply :=
  (None, match List.find (fun f => rf_Name f =s name) (rm_Files release_w) with
         | Some f => [Chunk (list_ascii_of_string (rf_SHA256 f))]
         | None => [Chunk (list_ascii_of_string (if name =s "release-manifest.json" then "M" else "sig")); Chunk []]
         end).

Definition targets_w : signedReleaseTargets := mkTargets (bin "oboard-agent") (bin "oboard-sb") (bin "oboard-realm") "/var/lib/oboard/sing-box.json".
Definition tmp_w : string := bin ".oboard-update-77".
Definition dir_w (p : string) : string :=
  if under tmp_w p then tmp_w else if HasPrefix p "/var/lib/oboard/" then "/var/lib/oboard"%string else "/usr/local/bin"%string.

Definition update_env (third : ItemEnv) : UpdateEnv :=
  mkUpdate (Ok tmp_w) false false None false (mkPreflight None 0 0 RunOk) (good_item "1" true, good_item "2" false, third) plain_env plain_env Removed.

Definition before_update : Release :=
  mkRelease {[bin "oboard-agent" := text "agent 1"; bin "oboard-sb" := text "sb 1"; bin "oboard-realm" := text "realm 1"]} (Some []).

Definition failing_item : ItemEnv :=
  mkItem None (Ok (bin ".oboard-update-new.3")) None (Ok (bin ".oboard-update-backup.3")) true None (Some "EIO"%string) None None.

Definition task_w (key GitHubRepo : string) (third : ItemEnv) : result task_error ReleaseManifest * Release :=
  updateAgentBinary string_of_list_ascii check_w key false "linux" "amd64" dir_w plain_runner "" "github" "https://c" false false [] (fun _ => true)
    (fun _ => true) true (Ok targets_w) (Some (true, session_w)) (fun _ => mkAsset (fun _ => mkAttempt (XRefused true) false false) false None)
    ".oboard-update" (update_env third) (mkPayload "" GitHubRepo "" "b2" true) before_update.

Lemma layout_w third : third = good_item "3" true \/ third = failing_item ->
  layout "linux" "amd64" dir_w plain_runner tmp_w (update_env third) targets_w ".oboard-update".
Proof.
  intros H.
  assert (Hu : Forall untouched (release_files "linux" "amd64" tmp_w (update_env third) targets_w))
    by (destruct H as [-> | ->]; repeat constructor; cbn; set_solver).
  split; [apply (laid_in_dir _ _ "/usr/local/bin"); [exact Hu | |] | | | split; [| intros (x & Hx & Hd & _)] | done].
  all: try (destruct H as [-> | ->]; apply (bool_decide_unpack _); vm_compute; exact I).
  assert (Forall (fun x => dir_w (sf_target (snd x)) = "/usr/local/bin"%string) (release_files "linux" "amd64" tmp_w (update_env third) targets_w)) as Hall
    by (destruct H as [-> | ->]; apply (bool_decide_unpack _); vm_compute; exact I).
  rewrite (proj1 (Forall_forall _ _) Hall x Hx) in Hd. by vm_compute in Hd.
Qed.

Lemma installed_release_is_signed_witness :
  let n' := snd (task_w "K" "" (good_item "3" true)) in
  exists f, f ∈ rm_Files release_w /\ rf_Name f = "oboard-sb-linux-amd64" /\ here "linux" "amd64" f = true /\
    authentic string_of_list_ascii f (rl_disk n') (bin "oboard-sb").
Proof.
  destruct (installed_release_is_signed string_of_list_ascii check_w "K" false "linux" "amd64" dir_w plain_runner "" "github" "https://c" false false []
    (fun _ => true) (fun _ => true) true (Some (true, session_w)) (fun _ => mkAsset (fun _ => mkAttempt (XRefused true) false false) false None)
    ".oboard-update" (update_env (good_item "3" true)) tmp_w targets_w (mkPayload "" "" "" "b2" true) before_update release_w
    (snd (task_w "K" "" (good_item "3" true)))) as (_ & _ & _ & H).
  - done.
  - apply layout_w. by left.
  - apply (pair_with (task_w "K" "" (good_item "3" true))). vm_compute. reflexivity.
  - cbv zeta. apply (H "oboard-sb-linux-amd64"%string). right. by left.
Defined.


(** The name the repository had before it was renamed is allowed, and refused
    once everything is downloaded. *)
Lemma update_needs_key_and_repo_witness :
  updateRepoAllowed [] "OboardProject/oboard-agent" = true /\
  exists err, fst (task_w "K" "OboardProject/oboard-agent" (good_item "3" true)) = Err err.
Proof.
  split; [by_compute |]. unfold task_w.
  apply (update_needs_key_and_repo string_of_list_ascii check_w "K" false "linux" "amd64" dir_w plain_runner "" "github" "https://c" false false []
    (fun _ => true) (fun _ => true) true (Some (true, session_w)) (fun _ => mkAsset (fun _ => mkAttempt (XRefused true) false false) false None)
    ".oboard-update" (update_env (good_item "3" true)) (Ok targets_w) (mkPayload "" "OboardProject/oboard-agent" "" "b2" true) before_update).
  right. split; by_compute.
Defined.

Lemma inspection_passes_after_update_witness :
  fst (inspectRuntimeIntegrity string_of_list_ascii check_w "K" "linux" "amd64" plain_runner ""
         [("agent", Some (bin "oboard-agent"), false); ("sb", Some (bin "oboard-sb"), false); ("realm", Some (bin "oboard-realm"), false)]%string
         (snd (task_w "K" "" (good_item "3" true)))) =
  [mkCheck "binary_agent" "passed"; mkCheck "binary_sb" "passed"; mkCheck "binary_realm" "passed"].
Proof.
  apply (inspection_passes_after_update string_of_list_ascii check_w "K" false "linux" "amd64" dir_w plain_runner "" "github" "https://c" false false []
    (fun _ => true) (fun _ => true) true (Some (true, session_w)) (fun _ => mkAsset (fun _ => mkAttempt (XRefused true) false false) false None)
    ".oboard-update" (update_env (good_item "3" true)) tmp_w targets_w (mkPayload "" "" "" "b2" true) before_update release_w).
  - done.
  - apply layout_w. by left.
  - apply (pair_with (task_w "K" "" (good_item "3" true))). vm_compute. reflexivity.
  - split; apply (bool_decide_unpack _); vm_compute; exact I.
  - done.
  - split_and!; done.
  - intros sig raw. unfold json_Marshal, proof_codec. destruct (decide (_ = _)); [| done]. intros [= <-]. split; by_compute.
  - repeat constructor; done.
Defined.

End UpdateWitness.
